(* ===== verification/_CoqProject ===== *)
-Q . S2P
Prelude.v
Text.v
Datagram.v
IpText.v
Padding.v
Batch.v
Control.v
Auth.v
Users.v
IpPool.v
Priority.v
Demux.v
Stats.v
Shaper.v
Transport.v
Tunnel.v
Streams.v
Server.v
F64.v
Client.v
Manager.v
Config.v
Route.v
RoutePorts.v
Device.v
Firewall.v
Xdp.v
Startup.v
KillSwitch.v
Daemon.v
Certs.v
Profile.v
Connectors.v
Http.v
Supervise.v
Setup.v
Background.v
ClientRun.v
ClientHost.v
ServerMain.v
