(* ===== verification/Prelude.v ===== *)
(** * Redpill VPN: a verification development

    Redpill is a VPN: a server with one TUN device and many clients, each with a TUN
    device of its own, joined by one of four transports (QUIC datagrams, QUIC dressed up
    as HTTP/3, length-framed packets over TLS, WebSocket messages). This library models
    the Rust sources under [src/crates/redpill-quic/src] and
    [src/crates/redpill-tun/src], and proves what makes them correct. Definitions carry
    the names of the source; every one is executable unless it describes concurrency or
    the outside world.

    ** The parts of the program and how they meet

    A packet for a client is read from the server's TUN device by one task
    ([Tunnel.tun_reader_batch]), charged to the shaper ([Shaper]), looked up in the
    router ([Demux]) and pushed to the client's queue ([Priority]). A task per client
    drains the queue: into batches and datagrams for QUIC ([Tunnel.run_sender], with
    [Batch] and [Padding]), into a buffered TLS stream ([Streams.queue2tls]). The client
    decodes and writes to its device ([Tunnel.client_datagram], [Transport.recv]). The
    other way, the client's reader feeds its transport ([Streams.tun2dg]), and the
    server admits packets that carry the client's own address ([Tunnel.dg2tun],
    [Tunnel.tls2tun], [Tunnel.ws2tun], with [Datagram.validate_source_ip]). Before any
    of this a connection handler ([Server]) authenticates the client ([Auth], [Users]),
    takes an address from the pool ([IpPool]), registers a route and sends the session
    configuration ([Control]); all handlers share one state, and whatever way they end
    they must give everything back; whoever is not a client is shown a web page ([Http]).
    The client ([ClientRun], [Setup]) opens its device ([Device]), builds its connectors with
    their TLS configuration ([Connectors], [Profile], [Certs]), tries them in order
    ([Manager]), sets routes, DNS and kill-switch ([Route], [KillSwitch]), runs the tasks of
    a tunnel ([Supervise]), and reconnects with a growing delay ([Client]); [Firewall] and
    [Xdp] are the server's packet filter rules, which [ServerMain] sets and removes, [Daemon] and [Background] the client's background
    mode, [Config] both configurations and the reload.

    ** Files, sources and theorems

    - [Prelude]: octets, machine integers, panicking slices, UTF-8, shared lemmas.
      A [panics A] is an option, [None] where the source would panic; a [result E A] is
      Rust's; arithmetic that can leave its width is wrapped or saturated as written.
    - [Text], [IpText]: the parts of [str] and [Ipv4Addr] the sources use.
    - [Datagram] ([datagram.rs]), [Padding] ([padding.rs]), [Batch] ([batch.rs]),
      [Control] ([control.rs]): the formats on the wire. Round trips for every encoder;
      [batch_decode_spec] gives the decoder's result on every input; no decoder panics.
    - [Auth] ([auth.rs]), [Users] ([users.rs]): keys, MACs, the key directory. Which
      frames are accepted, for whom; the table in memory agrees with the directory.
    - [IpPool] ([ip_pool.rs]): refines a finite set ([ip_pool_refines_set]); the class
      [Allocator] is what the server relies on.
    - [Priority] ([priority.rs]): classification, the two lanes, and the wake-up protocol
      with tokio's [Notify] as a step relation ([queue_no_lost_wakeup]).
    - [Demux] ([demux.rs]), [Stats] ([stats.rs], [metrics.rs]): router and counters.
    - [Shaper] ([shaper.rs]): the lock-free token bucket, access by access, for any
      number of threads ([token_bucket_conformance]), and equal to its sequential reading
      when undisturbed ([check_refines_sequential]).
    - [Transport] ([transport/]): the trait as the class [Transport], its four
      implementations, and their common contract as the class [CarrierOk]
      ([transports_carry_packets]): a stream may break off anywhere, QUIC datagrams get
      lost and overtake one another.
    - [Tunnel], [Streams] ([server.rs], [client.rs], [tcp_reality.rs],
      [websocket_cdn.rs]): the data path of both ends. The theorems are end to end:
      downlink and uplink over QUIC ([downlink_delivery], [uplink_delivery]) and over
      TLS ([tls_downlink_delivery], [tcp_uplink_delivery]), with whatever part of the wire
      arrives and whatever the shaper drops; nothing spoofed gets in
      ([uplink_anti_spoofing]).
    - [Server] ([server.rs], [reality.rs]): each handler is a program of atomic actions
      with guards for the values whose [Drop] matters; a weakest-precondition calculus
      over these programs and a step relation that interleaves any number of handlers
      with routing and reloads give [server_releases_everything] and
      [tunnels_exclusive_and_authenticated]. A system also remembers which frames each
      handler has read and which tables were in force, so that a tunnel can be traced to
      the frame that authenticated it.
    - [F64]: the few floating-point operations of the backoff, exactly. [Client]
      ([client.rs]): the connection loop as a state machine, backoff, MTU updates.
      [Manager] ([manager.rs], [health.rs], [camouflage.rs]): the dialogues of the
      connectors, the handshake against the server's side ([handshake_agreement]), the
      health monitor. [Connectors] ([manager.rs] and the connectors it holds): the trait
      [TransportConnector] as a class, and who a client can end up connected to
      ([connects_only_to_trusted]).
    - [Certs] ([cert.rs], [acme.rs]): the certificate of the server across restarts
      ([certificate_survives_restart]) and the renewal task ([acme_cache_coherent]).
      [Profile] ([browser_profile.rs], [fingerprint.rs], [noop_cc.rs], [camouflage.rs],
      [quic_camouflaged.rs], [quic_raw.rs]): what a camouflaged client shows is of one
      browser ([camouflaged_client_hello]).
    - [Device] ([device.rs]): the TUN device on three systems, over system calls; which
      descriptors are open ([device_descriptors]), which name it has ([device_named]), what
      is read and written ([packet_io_spec], [wintun_io_spec]). It gives [Startup] its
      devices (class [TunDevices]).
    - [Http] ([decoy.rs], [metrics.rs]): the decoy ends in time and answers like a web
      server ([decoy_spec]); every metric registers ([metrics_endpoint_spec]).
    - [Supervise] ([client.rs], [server.rs], [tcp_reality.rs]): who watches the tasks of a
      tunnel ([tunnel_tasks]), the uplink on Windows, the direct TCP tunnel, equal to the
      server's without its shaper ([direct_tunnel_is_unshaped]).
    - [Setup] ([main] of [server.rs] up to the endpoint, [run_client] up to the loop): the
      user commands ([user_commands_spec]), the choice of the certificate, the client's
      settings and device.
    - [Config] ([config.rs], parts of [server.rs]): defaults, validation, reload.
    - [Route], [RoutePorts], [Firewall] ([route.rs]), [KillSwitch] ([killswitch.rs], macOS and
      Windows), [Xdp] ([xdp.rs]), [Daemon], [Background] ([daemon.rs], [ipc.rs], [main] of
      [client.rs]): code that runs commands, in a monad over a world the environment owns.
    - [Startup] ([main] of [server.rs]): configuration of the host and initial state, and
      the shutdown; [server_start_stop] puts [Config], [Firewall] and [Server] together.
    - [ClientRun], [ClientHost] ([run_client] and [main] of [client.rs]): the whole client,
      from the command line to the commands its loop runs. What differs between the
      operating systems is the class [Host], with three instances; the loop implements the
      one of [Client] on the inputs that its events stand for ([input_of], [client_loop_refines]). Class [HostOk] is what a host promises to
      the loop; its instances for Linux and macOS give [linux_client_restores] and
      [macos_client_restores]; for macOS the state of pf is modelled with its switch and with
      whether the main rule set evaluates the program's anchor, without which the
      kill-switch has no effect. [run_client_no_panic] is about everything at once.
    - [ServerMain] ([main] of [server.rs]): the whole server, from the configuration file to
      the shutdown, with [Xdp] and [Startup]; [serve_restores_host] and, for the other ways
      to end, [only_ctrl_c_cleans_up].

    Several theorems state that something goes wrong: they are marked as such in their
    comments and prove defects of the source
    ([release_before_unregister_race], [stale_host_route_blocks_restart],
    [sigterm_lost_in_backoff], [ws_tunnel_ignores_destination],
    [win_killswitch_overblocks], [pid_file_guards_up],
    [bad_listener_leaves_host_configured], [pool_spans_server_address],
    [windows_uplink_stalls], [half_written_pair_blocks_server],
    [webpki_mode_only_plain_quic], [linux_reconnect_same_address],
    [only_ctrl_c_cleans_up], [lookalike_subnet_flushed]), or contain such a part
    ([device_descriptors], [downlink_delivery], [macos_client_restores], [user_commands_spec], [decoy_spec],
    [notrack_setup_cleanup], [certificate_survives_restart], [acme_start_spec],
    [tunnel_tasks], [daemonize_spec], [camouflaged_client_hello], [client_dns_restored]).

    ** Fuel

    [batch_decode] runs with one unit more than the length of its input and takes two
    octets per turn; [run_tls2tun] and [read_session_updates] likewise, with three octets
    per turn; [batch_decode_spec], [uplink_anti_spoofing] and [pmtu_updates_delivered]
    show that it is enough. [delete_until_err] needs one turn more than the chain has
    rules ([mss_setup_cleanup]), [tun2dg] one turn per packet ([tcp_uplink_delivery]);
    for [run_alone] of [Shaper], [check_refines_sequential] gives a number of steps. [lossy]
    of [Device] takes at least one octet per turn and runs for the length of its input;
    [run_vpn2tun] has the fuel of [run_tls2tun], to which it is proved equal.

    ** The environment

    Code outside the repository is a class with the operations the sources call, and a
    second class with the documented laws the proofs use; every theorem that relies on
    one has a witness with a concrete instance. [Hmac]/[HmacOk]: HMAC-SHA256.
    [HashIter]/[HashIterOk]: the order in which a [HashMap] is traversed.
    [Ipv6Text], [SocketV6]: parsing of IPv6 addresses. [Toml]: the toml crate. [Writer]/[WriterOk]: tokio's [BufWriter].
    [Shell], [Files], [Processes], [TunDevices] with [RoutesOk], [MacRoutesOk],
    [WinRoutesOk], [FilesOk], [NetfilterOk], [HostFrame], [PfOk], [AdvFirewallOk], [ProcessesOk]: commands, files,
    processes and devices. [Libc]/[LibcOk], [Unix]/[UnixOk], [UnixSockets]/[UnixSocketsOk],
    [Setsockopt]/[SockoptOk]: system calls; [LinuxOk], [AddrOk], [MacOk]: which command of the
    client changes what; [Wintun]/[WintunOk]: the wintun driver. [Pki]/[PkiOk]: rcgen
    and the PEM readers; [Paths]/[PathsOk]: directories and file times; [Tls], [WebPki]:
    the tables and checks of rustls; [HoldsBack]: a write buffer that is not full keeps
    what it is given. [Json]: serde_json.
    quinn, h3, hyper and tungstenite appear as the answers they give (an argument or a
    field of the connection). Clocks and random draws are arguments;
    a function that draws more than once takes a stream of numbers ([Profile.Rng]).

    ** Not modelled

    The TOML syntax is the toml crate's, argument parsing the clap crate's, the text of the
    metrics the prometheus crate's. Logging and the layout of the statistics report are left
    out, as are the constructors and accessors that only store or return a field. Of sockets
    and endpoints only their success or failure is seen. The branches of [route.rs] for a
    server on another system than Linux do nothing or refuse, and are not part of the
    model; copying octets between a proxied connection and its target is tokio's. *)

From Stdlib Require Export ZArith Lia.
From Stdlib.Strings Require Byte.
From stdpp Require Export prelude gmap strings list.

From Stdlib.Init Require Export Byte.

(** ** Notations *)

Declare Scope redpill_scope.
Delimit Scope redpill_scope with redpill.
#[global] Open Scope redpill_scope.
#[global] Open Scope Z_scope.

(** Raw octets: packets, frames, keys, file contents. *)
Abbreviation bytes := (list byte).

(** [zlen l] is the source's [l.len()]. *)
Definition zlen {A} (l : list A) : Z := Z.of_nat (length l).

(** ** Machine integers

    A value of an unsigned type of width [w] is a [Z]; arithmetic that may
    leave the range is wrapped explicitly (the release profile has no overflow
    checks), and a cast [x as uW] is [wrap W x]. *)
Definition wrap (w : Z) (x : Z) : Z := x mod 2 ^ w.
Abbreviation wrap8 := (wrap 8).
Abbreviation wrap16 := (wrap 16).
Abbreviation wrap32 := (wrap 32).
Abbreviation wrap64 := (wrap 64).
Definition u64_max : Z := 2 ^ 64 - 1.

(** [x as i32] *)
Definition as_i32 (x : Z) : Z := let y := wrap32 x in if y <? 2 ^ 31 then y else y - 2 ^ 32.

(** [x.saturating_sub(y)] on an unsigned type. *)
Definition sat_sub (x y : Z) : Z := Z.max 0 (x - y).

(** ** Octets *)

Definition b2z (b : byte) : Z := Z.of_N (Byte.to_N b).

(** [x as u8]. *)
Definition z2b (x : Z) : byte :=
  match Byte.of_N (Z.to_N (wrap8 x)) with Some b => b | None => x00 end.

#[export] Instance byte_eq_dec : EqDecision byte := Byte.byte_eq_dec.
#[export] Instance byte_inhabited : Inhabited byte := populate x00.
#[export] Program Instance byte_countable : Countable byte :=
  inj_countable Byte.to_N Byte.of_N _.
Next Obligation. apply Byte.of_to_N. Qed.

Lemma b2z_range b : 0 <= b2z b < 256.
Proof.
  unfold b2z. pose proof (Byte.to_N_bounded b). lia.
Qed.

Lemma b2z_inj b c : b2z b = b2z c -> b = c.
Proof.
  unfold b2z. intros H%N2Z.inj.
  pose proof (Byte.of_to_N b) as Hb. pose proof (Byte.of_to_N c) as Hc. congruence.
Qed.

Lemma b2z_z2b x : b2z (z2b x) = wrap8 x.
Proof.
  unfold z2b, b2z. destruct (Byte.of_N _) as [b|] eqn:E.
  - apply Byte.to_of_N in E. rewrite E. rewrite Z2N.id; [done|].
    unfold wrap. apply Z.mod_pos_bound. lia.
  - apply Byte.of_N_None_iff in E. unfold wrap in E.
    pose proof (Z.mod_pos_bound x (2 ^ 8) ltac:(lia)). lia.
Qed.

Lemma z2b_b2z b : z2b (b2z b) = b.
Proof.
  apply b2z_inj. rewrite b2z_z2b. unfold wrap. apply Z.mod_small, b2z_range.
Qed.

Lemma wrap_small w x : 0 <= x < 2 ^ w -> wrap w x = x.
Proof. apply Z.mod_small. Qed.

Lemma wrap_range w x : 0 <= w -> 0 <= wrap w x < 2 ^ w.
Proof. intros. apply Z.mod_pos_bound. lia. Qed.

(** ** Big-endian 16-bit codec: [u16::to_be_bytes] and [u16::from_be_bytes] *)

Definition u16_to_be_bytes (x : Z) : bytes := [z2b (Z.shiftr x 8); z2b x].
Definition u16_from_be_bytes (hi lo : byte) : Z :=
  Z.lor (Z.shiftl (b2z hi) 8) (b2z lo).

Lemma u16_from_be_arith hi lo :
  u16_from_be_bytes hi lo = 256 * b2z hi + b2z lo.
Proof.
  unfold u16_from_be_bytes. pose proof (b2z_range hi). pose proof (b2z_range lo).
  assert (Hd : Z.land (Z.shiftl (b2z hi) 8) (b2z lo) = 0).
  { apply Z.bits_inj'. intros n Hn.
    rewrite Z.land_spec, Z.shiftl_spec, Z.bits_0 by lia.
    destruct (Z.lt_ge_cases n 8) as [?|?].
    - rewrite Z.testbit_neg_r by lia. done.
    - rewrite (Z.bits_above_log2 (b2z lo) n); [by rewrite andb_false_r|lia|].
      destruct (Z.eq_dec (b2z lo) 0) as [->|]; [simpl; lia|].
      apply Z.log2_lt_pow2; [lia|].
      apply Z.lt_le_trans with (2 ^ 8); [lia|]. apply Z.pow_le_mono_r; lia. }
  rewrite <-Z.add_nocarry_lor by done. rewrite Z.shiftl_mul_pow2 by lia. lia.
Qed.

Lemma u16_from_be_range hi lo : 0 <= u16_from_be_bytes hi lo < 65536.
Proof.
  rewrite u16_from_be_arith.
  pose proof (b2z_range hi). pose proof (b2z_range lo). lia.
Qed.

Lemma u16_be_roundtrip x :
  u16_from_be_bytes (z2b (Z.shiftr x 8)) (z2b x) = wrap16 x.
Proof.
  rewrite u16_from_be_arith, !b2z_z2b. unfold wrap.
  rewrite Z.shiftr_div_pow2 by lia.
  change (2 ^ 16) with (2 ^ 8 * 2 ^ 8). rewrite Z.rem_mul_r by lia. lia.
Qed.

Lemma u16_be_bytes_of_pair hi lo :
  u16_to_be_bytes (u16_from_be_bytes hi lo) = [hi; lo].
Proof.
  unfold u16_to_be_bytes. rewrite u16_from_be_arith.
  pose proof (b2z_range hi). pose proof (b2z_range lo).
  rewrite Z.shiftr_div_pow2 by lia.
  assert ((256 * b2z hi + b2z lo) / 2 ^ 8 = b2z hi) as ->.
  { symmetry. apply (Z.div_unique _ _ _ (b2z lo)); lia. }
  rewrite z2b_b2z. do 2 f_equal. apply b2z_inj. rewrite b2z_z2b. unfold wrap.
  symmetry. apply (Z.mod_unique _ _ (b2z hi)); lia.
Qed.

(** ** Panics, slices and buffers

    A Rust expression that may panic is an [option]: [None] is the panic.
    stdpp's [x ← m; k] threads it; an index [p[i]] is [p !! i]. *)
Abbreviation panics A := (option A).

(** [l[a..b]] *)
Definition slice {A} (a b : nat) (l : list A) : panics (list A) :=
  if decide (a <= b <= length l)%nat then Some (take (b - a) (drop a l)) else None.

(** [buf[a..b].copy_from_slice(src)] *)
Definition copy_into {A} (a b : nat) (src buf : list A) : panics (list A) :=
  if decide ((a <= b <= length buf)%nat /\ length src = (b - a)%nat)
  then Some (take a buf ++ src ++ drop b buf) else None.

(** [buf[i] = x] *)
Definition store_at {A} (i : nat) (x : A) (buf : list A) : panics (list A) :=
  if decide (i < length buf)%nat then Some (<[i:=x]> buf) else None.

Lemma slice_inv {A} a b (l r : list A) :
  slice a b l = Some r -> r = take (b - a) (drop a l) /\ (a <= b <= length l)%nat.
Proof. unfold slice. case_decide; naive_solver. Qed.

Lemma slice_Some {A} a b (l : list A) :
  (a <= b <= length l)%nat -> slice a b l = Some (take (b - a) (drop a l)).
Proof. intros. unfold slice. by rewrite decide_True. Qed.

Lemma lookup_total_panics {A} (l : list A) (i : nat) :
  (i < length l)%nat -> exists x, l !! i = Some x.
Proof. intros H%lookup_lt_is_Some_2. done. Qed.

(** ** Lengths in [Z] *)

Lemma zlen_nonneg {A} (l : list A) : 0 <= zlen l.
Proof. unfold zlen. lia. Qed.
Lemma zlen_nil {A} : zlen (@nil A) = 0.
Proof. done. Qed.
Lemma zlen_cons {A} (x : A) l : zlen (x :: l) = 1 + zlen l.
Proof. unfold zlen. simpl length. lia. Qed.
Lemma zlen_app {A} (l k : list A) : zlen (l ++ k) = zlen l + zlen k.
Proof. unfold zlen. rewrite length_app. lia. Qed.
Lemma zlen_replicate {A} n (x : A) : zlen (replicate n x) = Z.of_nat n.
Proof. unfold zlen. by rewrite length_replicate. Qed.

Lemma Forall_sublist_of {A} (P : A -> Prop) (l k : list A) :
  l `sublist_of` k -> Forall P k -> Forall P l.
Proof. induction 1; rewrite ?Forall_cons; naive_solver. Qed.

(** Filters that agree on the elements of the list. *)
Lemma filter_agree {A} (P Q : A -> Prop) `{!forall x, Decision (P x), !forall x, Decision (Q x)} l :
  Forall (fun x => P x <-> Q x) l -> filter P l = filter Q l.
Proof.
  induction 1 as [|x l Hx _ IH]; [done|]. destruct (decide (P x)) as [Hp|Hp].
  - rewrite !filter_cons_True by naive_solver. by rewrite IH.
  - rewrite !filter_cons_False by naive_solver. done.
Qed.
Lemma filter_all {A} (P : A -> Prop) `{!forall x, Decision (P x)} l : Forall P l -> filter P l = l.
Proof.
  induction 1 as [|x l Hx _ IH]; [done|]. by rewrite filter_cons_True, IH.
Qed.

(** ** Automation *)

Create HintDb redpill.
Create Rewrite HintDb redpill_len.
#[export] Hint Resolve zlen_nonneg b2z_range wrap_range : redpill.
#[export] Hint Rewrite @zlen_nil @zlen_cons @zlen_app @zlen_replicate
  @length_cons @length_nil @length_app @length_replicate @length_take @length_drop @length_insert : redpill_len.

(** Normalise lengths, then decide the linear arithmetic. *)
Ltac len := unfold zlen in *; autorewrite with redpill_len in *; simpl length in *; try lia.

(** Turn the boolean tests of the source into propositions, everywhere. *)
Ltac boolify :=
  repeat match goal with
  | H : (_ =? _) = true |- _ => apply Z.eqb_eq in H
  | H : (_ =? _) = false |- _ => apply Z.eqb_neq in H
  | H : (_ <? _) = true |- _ => apply Z.ltb_lt in H
  | H : (_ <? _) = false |- _ => apply Z.ltb_ge in H
  | H : (_ <=? _) = true |- _ => apply Z.leb_le in H
  | H : (_ <=? _) = false |- _ => apply Z.leb_gt in H
  | H : bool_decide _ = true |- _ => apply bool_decide_eq_true in H
  | H : bool_decide _ = false |- _ => apply bool_decide_eq_false in H
  | H : (_ && _) = true |- _ => apply andb_true_iff in H as [? ?]
  | H : (_ || _) = false |- _ => apply orb_false_iff in H as [? ?]
  | H : negb _ = true |- _ => apply negb_true_iff in H
  | H : negb _ = false |- _ => apply negb_false_iff in H
  end.

(** Case split on the innermost boolean test of the goal. *)
Ltac split_if :=
  match goal with
  | |- context [if ?b then _ else _] =>
      lazymatch b with
      | context [if _ then _ else _] => fail
      | _ => let E := fresh "E" in destruct b eqn:E; boolify
      end
  end.

Ltac split_if_in H :=
  match type of H with
  | context [if ?b then _ else _] =>
      lazymatch b with
      | context [if _ then _ else _] => fail
      | _ => let E := fresh "E" in destruct b eqn:E; boolify
      end
  end.

(** Name the octet an in-range index reads. *)
Ltac index_in_range :=
  match goal with
  | |- context [?l !! ?i] =>
      let x := fresh "b" in let E := fresh "E" in
      destruct (lookup_total_panics l i) as [x E]; [solve [len]|rewrite E; cbn [mbind option_bind]]
  end.

#[global] Arguments u16_from_be_bytes : simpl never.
#[global] Arguments b2z : simpl never.
#[global] Arguments z2b : simpl never.
#[global] Arguments wrap : simpl never.
#[global] Arguments zlen : simpl never.
#[global] Arguments Z.shiftr : simpl never.
#[global] Arguments Z.shiftl : simpl never.
#[global] Arguments Z.land : simpl never.
#[global] Arguments Z.lor : simpl never.

(** ** Fallible code: Rust's [Result], error type first *)

Inductive result (E A : Type) : Type := Ok (a : A) | Err (e : E).
Arguments Ok {E A} a.
Arguments Err {E A} e.

#[export] Instance result_ret {E} : MRet (result E) := fun A => Ok.
#[export] Instance result_bind {E} : MBind (result E) := fun A B k m =>
  match m with Ok a => k a | Err e => Err e end.
#[export] Instance result_fmap {E} : FMap (result E) := fun A B f m =>
  match m with Ok a => Ok (f a) | Err e => Err e end.
#[export] Instance result_eq_dec {E A} `{EqDecision E, EqDecision A} : EqDecision (result E A).
Proof. solve_decision. Defined.

(** [o.ok_or_else(..)?] *)
Definition ok_or {E A} (e : E) (o : option A) : result E A :=
  match o with Some a => Ok a | None => Err e end.
Definition is_ok {E A} (r : result E A) : bool :=
  match r with Ok _ => true | Err _ => false end.

(** ** [str::trim]: the [White_Space] characters, by their UTF-8 encoding *)

Definition ws1 (b : byte) : bool :=
  let z := b2z b in (9 <=? z) && (z <=? 13) || (z =? 32).
Definition ws2 (a b : byte) : bool :=
  (b2z a =? 194) && ((b2z b =? 133) || (b2z b =? 160)).
Definition ws3 (a b c : byte) : bool :=
  let z := b2z c in
  (b2z a =? 225) && (b2z b =? 154) && (z =? 128)
  || (b2z a =? 226) && (b2z b =? 128) &&
       ((128 <=? z) && (z <=? 138) || (z =? 168) || (z =? 169) || (z =? 175))
  || (b2z a =? 226) && (b2z b =? 129) && (z =? 159)
  || (b2z a =? 227) && (b2z b =? 128) && (z =? 128).

Fixpoint trim_start (s : bytes) : bytes :=
  match s with
  | [] => []
  | a :: r =>
      if ws1 a then trim_start r
      else match r with
           | [] => s
           | b :: r =>
               if ws2 a b then trim_start r
               else match r with
                    | [] => s
                    | c :: r => if ws3 a b c then trim_start r else s
                    end
           end
  end.

(** The same, from the other end, on the reversed string. *)
Fixpoint trim_end_rev (s : bytes) : bytes :=
  match s with
  | [] => []
  | c :: r =>
      if ws1 c then trim_end_rev r
      else match r with
           | [] => s
           | b :: r =>
               if ws2 b c then trim_end_rev r
               else match r with
                    | [] => s
                    | a :: r => if ws3 a b c then trim_end_rev r else s
                    end
           end
  end.

Definition trim (s : bytes) : bytes := rev (trim_end_rev (rev (trim_start s))).

(** ASCII octets other than white space are what [trim] stops at. *)
Definition solid (b : byte) : Prop := b2z b < 128 /\ ws1 b = false.

Lemma ws2_ascii_l a b : b2z a < 128 -> ws2 a b = false.
Proof. intros. unfold ws2. rewrite (proj2 (Z.eqb_neq _ _)) by lia. done. Qed.
Lemma ws2_ascii_r a b : b2z b < 128 -> ws2 a b = false.
Proof.
  intros. unfold ws2. rewrite !(proj2 (Z.eqb_neq (b2z b) _)) by lia. by rewrite andb_false_r.
Qed.
Lemma ws3_ascii_l a b c : b2z a < 128 -> ws3 a b c = false.
Proof. intros. unfold ws3. rewrite !(proj2 (Z.eqb_neq (b2z a) _)) by lia. done. Qed.
Lemma ws3_ascii_r a b c : b2z c < 128 -> ws3 a b c = false.
Proof.
  intros. unfold ws3. cbv zeta. rewrite !(proj2 (Z.eqb_neq (b2z c) _)) by lia.
  rewrite (proj2 (Z.leb_gt 128 (b2z c))) by lia. by rewrite !andb_false_r.
Qed.

Lemma trim_start_solid b s : solid b -> trim_start (b :: s) = b :: s.
Proof.
  intros [Hb Hw]. simpl. rewrite Hw. destruct s as [|b' s]; [done|].
  rewrite ws2_ascii_l by done. destruct s as [|b'' s]; [done|]. by rewrite ws3_ascii_l.
Qed.
Lemma trim_end_rev_solid b s : solid b -> trim_end_rev (b :: s) = b :: s.
Proof.
  intros [Hb Hw]. simpl. rewrite Hw. destruct s as [|b' s]; [done|].
  rewrite ws2_ascii_r by done. destruct s as [|b'' s]; [done|]. by rewrite ws3_ascii_r.
Qed.
Lemma trim_start_ws ws s : Forall (fun b => ws1 b = true) ws -> trim_start (ws ++ s) = trim_start s.
Proof. induction 1 as [|b ws Hb _ IH]; simpl; [done|]. by rewrite Hb. Qed.
Lemma trim_end_rev_ws ws s :
  Forall (fun b => ws1 b = true) ws -> trim_end_rev (ws ++ s) = trim_end_rev s.
Proof. induction 1 as [|b ws Hb _ IH]; simpl; [done|]. by rewrite Hb. Qed.

(** Trimming removes exactly the ASCII white space around solid text. *)
Lemma trim_solid pre s post :
  Forall (fun b => ws1 b = true) pre -> Forall (fun b => ws1 b = true) post ->
  Forall solid s -> s <> [] -> trim (pre ++ s ++ post) = s.
Proof.
  intros Hpre Hpost Hs Hne. unfold trim. rewrite trim_start_ws by done.
  destruct s as [|a s]; [done|]. simpl app. rewrite trim_start_solid by by inv Hs.
  rewrite app_comm_cons, rev_app_distr, trim_end_rev_ws.
  2: { apply Forall_rev. done. }
  destruct (rev (a :: s)) as [|z r] eqn:E.
  { apply (f_equal (@length _)) in E. rewrite length_rev in E. done. }
  rewrite trim_end_rev_solid, <-E, rev_involutive; [done|].
  assert (Forall solid (rev (a :: s))) as Hr by by apply Forall_rev.
  rewrite E in Hr. by inv Hr.
Qed.

(** ** Strings

    Rust strings and file names are their UTF-8 octets. *)

(** The octets of a literal. *)
Definition str (s : string) : bytes := String.list_byte_of_string s.

#[global] Arguments str : simpl never.

Definition cont (b : byte) : bool := (128 <=? b2z b) && (b2z b <=? 191).

(** [str::from_utf8(..).is_ok()] *)
Fixpoint utf8_valid (s : bytes) : bool :=
  match s with
  | [] => true
  | a :: r =>
      let z := b2z a in
      if z <? 128 then utf8_valid r
      else match r with
      | [] => false
      | b :: r =>
          if (194 <=? z) && (z <=? 223) then cont b && utf8_valid r
          else match r with
          | [] => false
          | c :: r =>
              if (224 <=? z) && (z <=? 239) then
                cont b && (negb (z =? 224) || (160 <=? b2z b))
                && (negb (z =? 237) || (b2z b <=? 159)) && cont c && utf8_valid r
              else match r with
              | [] => false
              | d :: r =>
                  (240 <=? z) && (z <=? 244) && cont b
                  && (negb (z =? 240) || (144 <=? b2z b))
                  && (negb (z =? 244) || (b2z b <=? 143)) && cont c && cont d && utf8_valid r
              end
          end
      end
  end.

Lemma utf8_solid s : Forall solid s -> utf8_valid s = true.
Proof. induction 1 as [|b s [Hb _] _ IH]; [done|]. simpl. by rewrite (proj2 (Z.ltb_lt _ _) Hb). Qed.

(** ** Parts of a list

    What reaches the other end of a network: a subsequence when packets get lost, a
    sub-collection ([⊆+]) when they also overtake one another. *)

Lemma Forall2_sublist {A B} (P : A -> B -> Prop) l l' k :
  l' `sublist_of` l -> Forall2 P l k -> exists k', k' `sublist_of` k /\ Forall2 P l' k'.
Proof.
  intros Hs. revert k. induction Hs as [|x l' l _ IH|x l' l _ IH]; intros k Hk.
  - exists []. split; [apply sublist_nil_l|constructor].
  - apply Forall2_cons_inv_l in Hk as (y & k0 & Hy & Hk & ->). destruct (IH k0 Hk) as (k' & Hk' & H2).
    exists (y :: k'). split; [by apply sublist_skip|by constructor].
  - apply Forall2_cons_inv_l in Hk as (y & k0 & _ & Hk & ->). destruct (IH k0 Hk) as (k' & Hk' & H2).
    exists k'. split; [by apply sublist_cons|done].
Qed.

Lemma Forall2_submseteq {A B} (P : A -> B -> Prop) l l' k :
  l' ⊆+ l -> Forall2 P l k -> exists k', k' ⊆+ k /\ Forall2 P l' k'.
Proof.
  intros (l0 & Hp & Hs)%submseteq_sublist_r Hk.
  destruct (Forall2_sublist P _ _ _ Hs Hk) as (k0 & Hsk & Hk0).
  destruct (Permutation_Forall2 (symmetry Hp) Hk0) as (k' & Hpk & Hk'). exists k'. split; [|done].
  rewrite <-Hpk. by apply sublist_submseteq.
Qed.

Lemma concat_sublist {A} (ls ks : list (list A)) : ls `sublist_of` ks -> concat ls `sublist_of` concat ks.
Proof.
  induction 1 as [|x ls ks _ IH|x ls ks _ IH]; simpl; [done|by apply sublist_app|].
  by apply sublist_inserts_l.
Qed.

Lemma concat_submseteq {A} (ls ks : list (list A)) : ls ⊆+ ks -> concat ls ⊆+ concat ks.
Proof.
  intros (k0 & Hp & Hs)%submseteq_sublist_r. rewrite Hp. by apply sublist_submseteq, concat_sublist.
Qed.
