(* ===== verification/Text.v ===== *)
(** Text processing of the standard library that the route and daemon code uses:
    [lines], [split_whitespace], [contains], [join], [to_string] on integers. Strings
    are octets; white space is the ASCII kind, which is what the commands print. *)

From S2P Require Import Prelude.
From Stdlib Require Import DecimalZ.

Definition NL : byte := x0a.
Definition CR : byte := x0d.
Definition SP : byte := x20.

(** [to_string()] of an integer *)
Fixpoint uint_text (d : Decimal.uint) : bytes :=
  match d with
  | Decimal.Nil => []
  | Decimal.D0 d => x30 :: uint_text d
  | Decimal.D1 d => x31 :: uint_text d
  | Decimal.D2 d => x32 :: uint_text d
  | Decimal.D3 d => x33 :: uint_text d
  | Decimal.D4 d => x34 :: uint_text d
  | Decimal.D5 d => x35 :: uint_text d
  | Decimal.D6 d => x36 :: uint_text d
  | Decimal.D7 d => x37 :: uint_text d
  | Decimal.D8 d => x38 :: uint_text d
  | Decimal.D9 d => x39 :: uint_text d
  end.
Definition show_int (n : Z) : bytes :=
  match Z.to_int n with
  | Decimal.Pos d => uint_text d
  | Decimal.Neg d => x2d :: uint_text d
  end.

(** [str::parse::<u32>]: an optional plus sign, at least one digit, no overflow. *)
Fixpoint text_uint (s : bytes) : option Decimal.uint :=
  match s with
  | [] => Some Decimal.Nil
  | c :: s =>
      d ← text_uint s;
      match c with
      | x30 => Some (Decimal.D0 d) | x31 => Some (Decimal.D1 d) | x32 => Some (Decimal.D2 d)
      | x33 => Some (Decimal.D3 d) | x34 => Some (Decimal.D4 d) | x35 => Some (Decimal.D5 d)
      | x36 => Some (Decimal.D6 d) | x37 => Some (Decimal.D7 d) | x38 => Some (Decimal.D8 d)
      | x39 => Some (Decimal.D9 d)
      | _ => None
      end
  end.
Definition parse_u32 (s : bytes) : option Z :=
  let digits := match s with x2b :: r => r | _ => s end in
  match digits with
  | [] => None
  | _ => d ← text_uint digits;
         let n := Z.of_int (Decimal.Pos d) in if n <? 2 ^ 32 then Some n else None
  end.

(** [split] on single separators: always at least one piece. *)
Fixpoint split_on (sep : byte -> bool) (s : bytes) : list bytes :=
  match s with
  | [] => [[]]
  | b :: r =>
      match split_on sep r with
      | w :: ws => if sep b then [] :: w :: ws else (b :: w) :: ws
      | [] => [[b]]
      end
  end.

Definition strip_cr (l : bytes) : bytes :=
  match rev l with b :: r => if bool_decide (b = CR) then rev r else l | [] => l end.

(** [lines()]: pieces between newlines, without a final empty one. *)
Definition lines (s : bytes) : list bytes :=
  let ps := split_on (fun b => bool_decide (b = NL)) s in
  strip_cr <$> match rev ps with [] :: r => rev r | _ => ps end.

(** [split_whitespace()] *)
Definition split_whitespace (s : bytes) : list bytes :=
  filter (fun w => w <> []) (split_on ws1 s).

Fixpoint starts_with (p s : bytes) : bool :=
  match p, s with
  | [], _ => true
  | a :: p, b :: s => bool_decide (a = b) && starts_with p s
  | _ :: _, [] => false
  end.

(** [str::strip_prefix] *)
Definition strip_prefix (p s : bytes) : option bytes :=
  if starts_with p s then Some (drop (length p) s) else None.

(** [s.contains(p)] *)
Fixpoint contains (p s : bytes) : bool :=
  starts_with p s || match s with [] => false | _ :: s => contains p s end.

(** [ws.join(sep)] *)
Fixpoint join_with (sep : bytes) (ws : list bytes) : bytes :=
  match ws with
  | [] => []
  | [w] => w
  | w :: ws => w ++ sep ++ join_with sep ws
  end.

(** [iter().position(|w| w == x)] *)
Fixpoint position (x : bytes) (ws : list bytes) : option nat :=
  match ws with
  | [] => None
  | w :: ws => if decide (w = x) then Some 0%nat else S <$> position x ws
  end.

(** ** Lemmas *)

Lemma starts_with_spec p : forall s, starts_with p s = true <-> exists r, s = p ++ r.
Proof.
  induction p as [|a p IH]; intros s; simpl; [split; [by exists s|done]|].
  destruct s as [|b s]; [split; [done|by intros [r ?]]|].
  rewrite andb_true_iff, bool_decide_eq_true, IH. split.
  - intros [-> [r ->]]. by exists r.
  - intros [r [= -> ->]]. eauto.
Qed.

Lemma contains_spec p : forall s, contains p s = true <-> exists a b, s = a ++ p ++ b.
Proof.
  intros s. induction s as [|c s IH]; cbn [contains]; rewrite orb_true_iff, starts_with_spec.
  - split; [intros [[r Hr]|?]; [|done]|].
    + by exists [], r.
    + intros (a & b & E). left. destruct a; [|done]. by exists b.
  - rewrite IH. split.
    + intros [[r ->]|(a & b & ->)]; [by exists [], r|by exists (c :: a), b].
    + intros ([|d a] & b & E); [left; by exists b|right]. injection E as -> ->. by exists a, b.
Qed.

Lemma contains_app p a s b : contains p s = true -> contains p (a ++ s ++ b) = true.
Proof.
  rewrite !contains_spec. intros (x & y & ->). exists (a ++ x), (y ++ b). by rewrite <-!app_assoc.
Qed.

Lemma split_on_nonempty sep s : split_on sep s <> [].
Proof. destruct s; simpl; [done|]. destruct (split_on sep s); [done|by destruct (sep b)]. Qed.

Lemma split_on_app sep a c b :
  Forall (fun x => sep x = false) a -> sep c = true ->
  split_on sep (a ++ c :: b) = a :: split_on sep b.
Proof.
  intros Ha Hc. pose proof (split_on_nonempty sep b). induction Ha as [|x a Hx _ IH]; simpl.
  - destruct (split_on sep b); [done|]. by rewrite Hc.
  - by rewrite IH, Hx.
Qed.

Lemma split_on_mid sep a c b :
  sep c = true -> split_on sep (a ++ c :: b) = split_on sep a ++ split_on sep b.
Proof.
  intros Hc. pose proof (split_on_nonempty sep b) as Hb. induction a as [|x a IH]; simpl.
  - destruct (split_on sep b); [done|]. by rewrite Hc.
  - rewrite IH. pose proof (split_on_nonempty sep a) as Ha.
    destruct (split_on sep a) as [|w ws]; [done|]. simpl. by destruct (sep x).
Qed.

Lemma split_on_last sep a : Forall (fun x => sep x = false) a -> split_on sep a = [a].
Proof. induction 1 as [|x a Hx _ IH]; simpl; [done|]. by rewrite IH, Hx. Qed.

(** Text without newlines and carriage returns, one piece per line. *)
Definition line_text (l : bytes) : Prop := Forall (fun b => b <> NL /\ b <> CR) l.

Lemma strip_cr_text l : line_text l -> strip_cr l = l.
Proof.
  intros Hl. unfold strip_cr. destruct (rev l) as [|b r] eqn:E; [done|].
  rewrite bool_decide_false; [done|]. intros ->.
  assert (CR ∈ rev l) as Hin by (rewrite E; by left).
  rewrite list_elem_of_In, <-in_rev, <-list_elem_of_In in Hin.
  unfold line_text in Hl. rewrite Forall_forall in Hl. by apply Hl in Hin as [_ ?].
Qed.

(** Lines that were printed come back. *)
Lemma lines_unlines ls :
  Forall line_text ls -> lines (concat ((fun l => l ++ [NL]) <$> ls)) = ls.
Proof.
  intros Hls. unfold lines.
  assert (split_on (fun b => bool_decide (b = NL)) (concat ((fun l => l ++ [NL]) <$> ls)) = ls ++ [[]]) as ->.
  { induction Hls as [|l ls Hl _ IH]; [done|]. csimpl. rewrite <-app_assoc. simpl app.
    rewrite split_on_app, IH; [done| |by apply bool_decide_true].
    eapply Forall_impl; [exact Hl|]. intros b [Hb _]. by apply bool_decide_false. }
  rewrite rev_app_distr. simpl. rewrite rev_involutive.
  induction Hls as [|l ls Hl _ IH]; [done|]. csimpl. by rewrite strip_cr_text, IH.
Qed.

(** Words of a text put together from two. *)
Lemma split_whitespace_mid a b :
  split_whitespace (a ++ SP :: b) = split_whitespace a ++ split_whitespace b.
Proof. unfold split_whitespace. rewrite split_on_mid by done. apply filter_app. Qed.

Lemma split_whitespace_word w : w <> [] -> Forall (fun b => ws1 b = false) w ->
  split_whitespace w = [w].
Proof.
  intros Hne Hw. unfold split_whitespace. rewrite split_on_last by done.
  by rewrite filter_cons_True.
Qed.

Lemma position_app x ws ws' :
  x ∉ ws -> position x (ws ++ x :: ws') = Some (length ws).
Proof.
  induction ws as [|w ws IH]; intros Hn; simpl; [by rewrite decide_True|].
  rewrite decide_False by set_solver. rewrite IH by set_solver. done.
Qed.

(** ** Printed numbers *)

Definition dec_char (b : byte) : Prop := (48 <=? b2z b) && (b2z b <=? 57) = true.

Lemma uint_text_digits d : Forall dec_char (uint_text d).
Proof. induction d; constructor; done. Qed.

Lemma uint_text_inj d : forall d', uint_text d = uint_text d' -> d = d'.
Proof. induction d; intros []; simpl; intros E; simplify_eq; f_equal; auto. Qed.

Lemma show_nat_digits n : Forall dec_char (show_int (Z.of_nat n)).
Proof.
  unfold show_int. destruct (Z.to_int (Z.of_nat n)) as [d|d] eqn:E; [apply uint_text_digits|].
  exfalso. by destruct n.
Qed.

Lemma show_nat_nonempty n : show_int (Z.of_nat n) <> [].
Proof.
  destruct n as [|n]; [done|].
  unfold show_int. destruct (Z.to_int (Z.of_nat (S n))) as [d|d] eqn:E; [|done].
  intros Hd. destruct d; try done.
  apply (f_equal Z.of_int) in E. rewrite of_to in E.
  change (Z.of_nat (S n) = 0) in E. lia.
Qed.

Lemma show_int_inj a b : 0 <= a -> 0 <= b -> show_int a = show_int b -> a = b.
Proof.
  intros Ha Hb. unfold show_int. destruct (Z.to_int a) as [d|d] eqn:Ea, (Z.to_int b) as [d'|d'] eqn:Eb.
  - intros ->%uint_text_inj. apply to_int_inj. congruence.
  - by destruct b.
  - by destruct a.
  - by destruct a.
Qed.

Lemma dec_char_solid b : dec_char b -> ws1 b = false.
Proof.
  unfold dec_char, ws1. intros Hd. boolify. apply orb_false_iff. split.
  - apply andb_false_iff. right. apply Z.leb_gt. lia.
  - apply Z.eqb_neq. lia.
Qed.

Lemma text_uint_text d : text_uint (uint_text d) = Some d.
Proof. induction d as [|d IH|d IH|d IH|d IH|d IH|d IH|d IH|d IH|d IH|d IH]; simpl; [done|by rewrite IH..]. Qed.

(** A number that was printed is read back. *)
Lemma parse_show_u32 n : 0 <= n < 2 ^ 32 -> parse_u32 (show_int n) = Some n.
Proof.
  intros Hn. pose proof (show_nat_nonempty (Z.to_nat n)) as Hne.
  pose proof (show_nat_digits (Z.to_nat n)) as Hd. rewrite Z2Nat.id in Hne, Hd by lia.
  unfold parse_u32. destruct (show_int n) as [|c s] eqn:Es; [done|].
  assert (match c with x2b => s | _ => c :: s end = c :: s) as ->.
  { apply Forall_cons in Hd as [Hc _]. by destruct c. }
  rewrite <-Es. unfold show_int in *. destruct (Z.to_int n) as [d|d] eqn:Ed; [|destruct n; simpl in Ed; (congruence || lia)].
  rewrite text_uint_text. cbn [mbind option_bind]. rewrite <-Ed, of_to.
  rewrite (proj2 (Z.ltb_lt _ _)) by lia. done.
Qed.

Lemma show_u32_solid n : 0 <= n -> Forall solid (show_int n).
Proof.
  intros Hn. pose proof (show_nat_digits (Z.to_nat n)) as Hd. rewrite Z2Nat.id in Hd by done.
  eapply Forall_impl; [exact Hd|]. intros b Hb. split; [|by apply dec_char_solid].
  unfold dec_char in Hb. boolify. lia.
Qed.
