(* ===== verification/Datagram.v ===== *)
(** Packet inspection of [datagram.rs]: the IP version nibble, the anti-spoofing
    check on the source address, the destination used by the demultiplexer, and
    the bytes handed to the TUN device. *)

From S2P Require Import Prelude.

(** [std::net::Ipv4Addr], by its octets. *)
Record Ipv4Addr := mkIp { oct0 : byte; oct1 : byte; oct2 : byte; oct3 : byte }.

#[export] Instance ipv4_eq_dec : EqDecision Ipv4Addr.
Proof. solve_decision. Defined.

Definition ip_tuple (i : Ipv4Addr) : byte * byte * byte * byte :=
  (oct0 i, oct1 i, oct2 i, oct3 i).

#[export] Program Instance ipv4_countable : Countable Ipv4Addr :=
  inj_countable' ip_tuple (fun '(a, b, c, d) => mkIp a b c d) _.
Next Obligation. by intros []. Qed.

Definition octets (i : Ipv4Addr) : bytes := [oct0 i; oct1 i; oct2 i; oct3 i].

(** Addresses are written [ip4 10 0 1 2]. *)
Definition ip4 (a b c d : Z) : Ipv4Addr := mkIp (z2b a) (z2b b) (z2b c) (z2b d).

(** The IP version nibble [packet[0] >> 4]. *)
Definition nibble (b : byte) : Z := Z.shiftr (b2z b) 4.

Definition ip_version (packet : bytes) : panics (option Z) :=
  if decide (packet = []) then Some None
  else b ← packet !! 0%nat;
       Some match nibble b with 4 => Some 4 | 6 => Some 6 | _ => None end.

Definition validate_source_ip (packet : bytes) (expected_ip : Ipv4Addr) : panics bool :=
  v ← ip_version packet;
  match v with
  | Some 4 =>
      if zlen packet <? 20 then Some false
      else
        a ← packet !! 12%nat; b ← packet !! 13%nat;
        c ← packet !! 14%nat; d ← packet !! 15%nat;
        Some (bool_decide (mkIp a b c d = expected_ip))
  | Some 6 => Some true
  | _ => Some false
  end.

Definition extract_dst_ipv4 (packet : bytes) : panics (option Ipv4Addr) :=
  if zlen packet <? 20 then Some None
  else
    v ← packet !! 0%nat;
    if negb (nibble v =? 4) then Some None
    else
      a ← packet !! 16%nat; b ← packet !! 17%nat;
      c ← packet !! 18%nat; d ← packet !! 19%nat;
      Some (Some (mkIp a b c d)).

(** The two Unix targets of [write_to_tun]. *)
Inductive Platform := Linux | MacOS.

Definition AF_INET : Z := 2.
(** macOS's value. *)
Definition AF_INET6 : Z := 30.

Definition u32_to_be_bytes (x : Z) : bytes :=
  [z2b (Z.shiftr x 24); z2b (Z.shiftr x 16); z2b (Z.shiftr x 8); z2b x].

(** What a write leaves to the operating system: [Ok(())] without a system call,
    or one system call on these octets. The call's return value is the
    environment's: [write_to_tun] reports [Err] exactly when it is negative. *)
Definition write_to_tun (os : Platform) (packet : bytes) : panics (option bytes) :=
  if decide (packet = []) then Some None
  else
    match os with
    | Linux => Some (Some packet)
    | MacOS =>
        b ← packet !! 0%nat;
        let af := if nibble b =? 6 then AF_INET6 else AF_INET in
        Some (Some (u32_to_be_bytes af ++ packet))
    end.

(** ** Properties *)

Lemma nibble_range b : 0 <= nibble b < 16.
Proof.
  unfold nibble. pose proof (b2z_range b). rewrite Z.shiftr_div_pow2 by lia.
  split; [apply Z.div_pos; lia|apply Z.div_lt_upper_bound; lia].
Qed.

Lemma nibble_div b : nibble b = b2z b / 16.
Proof. unfold nibble. by rewrite Z.shiftr_div_pow2 by lia. Qed.

Lemma ip_version_cons b p :
  ip_version (b :: p) = Some (match nibble b with 4 => Some 4 | 6 => Some 6 | _ => None end).
Proof. done. Qed.

Lemma match_nibble {A} n (x y z : A) :
  match n with 4 => x | 6 => y | _ => z end =
  if n =? 4 then x else if n =? 6 then y else z.
Proof. by repeat case_match. Qed.

(** The source address field of an IPv4 header. *)
Definition src_field (packet : bytes) : bytes := take 4 (drop 12 packet).
Definition dst_field (packet : bytes) : bytes := take 4 (drop 16 packet).

Lemma four_octets (l : bytes) (i : nat) a b c d :
  l !! i = Some a -> l !! S i = Some b -> l !! S (S i) = Some c ->
  l !! S (S (S i)) = Some d -> take 4 (drop i l) = [a; b; c; d].
Proof.
  intros Ha Hb Hc Hd.
  rewrite (drop_S _ _ _ Ha), (drop_S _ _ _ Hb), (drop_S _ _ _ Hc), (drop_S _ _ _ Hd).
  by rewrite !firstn_cons, firstn_O.
Qed.

Lemma mkIp_octets a b c d i : mkIp a b c d = i <-> [a; b; c; d] = octets i.
Proof. destruct i; unfold octets; simpl; split; intros; simplify_eq; done. Qed.

Lemma validate_source_ip_ok packet ip :
  exists r, validate_source_ip packet ip = Some r /\
    (r = true <-> exists b rest, packet = b :: rest /\
       (nibble b = 6 \/ nibble b = 4 /\ 20 <= zlen packet /\ src_field packet = octets ip)).
Proof.
  destruct packet as [|b p]; [exists false; split; [done|naive_solver]|].
  unfold validate_source_ip. rewrite ip_version_cons, match_nibble. simpl mbind.
  destruct (nibble b =? 4) eqn:E4; boolify; simpl.
  - destruct (zlen (b :: p) <? 20) eqn:E20; boolify.
    + exists false. split; [done|]. split; [done|]. intros (?&?&?&[?|(?&?&?)]); simplify_eq; lia.
    + repeat index_in_range. eexists; split; [done|].
      unfold src_field. erewrite four_octets by eassumption.
      rewrite bool_decide_eq_true, mkIp_octets. split.
      * intros ->. exists b, p. split; [done|right]. done.
      * intros (?&?&?&[?|(?&?&?)]); simplify_eq; [lia|done].
  - destruct (nibble b =? 6) eqn:E6; boolify; (eexists; split; [done|]).
    + split; [|done]. intros _. exists b, p. auto.
    + split; [done|]. intros (?&?&?&[?|(?&?&?)]); simplify_eq; lia.
Qed.

(** ** Theorems *)

(** The anti-spoofing check never panics, and it accepts exactly the packets
    whose version nibble is 6 and the IPv4 packets with a full header whose source
    field is the client's assigned address. *)
Theorem validate_source_ip_spec packet expected_ip :
  exists r, validate_source_ip packet expected_ip = Some r /\
    (r = true <-> exists b rest, packet = b :: rest /\
       (nibble b = 6 \/
        nibble b = 4 /\ 20 <= zlen packet /\ src_field packet = octets expected_ip)).
Proof. apply validate_source_ip_ok. Qed.
