(* ===== verification/IpText.v ===== *)
(** IPv4 addresses as text: [Ipv4Addr::from_str] and [to_string] of the standard
    library, with their round trip. *)

From S2P Require Import Prelude Datagram.

Definition digit (b : byte) : option Z :=
  let z := b2z b in if (48 <=? z) && (z <=? 57) then Some (z - 48) else None.

(** [read_number(10, Some(3), false)] for an octet: the digits in front, at most three,
    no superfluous zero, at most 255. *)
Fixpoint digits (s : bytes) : list Z * bytes :=
  match s with
  | [] => ([], [])
  | b :: r =>
      match digit b with
      | Some d => let '(ds, rest) := digits r in (d :: ds, rest)
      | None => ([], s)
      end
  end.
Definition number (ds : list Z) : Z := foldl (fun acc d => acc * 10 + d) 0 ds.
Definition read_octet (s : bytes) : option (Z * bytes) :=
  let '(ds, rest) := digits s in
  match ds with
  | [] => None
  | d :: more =>
      if (3 <? zlen ds) || ((d =? 0) && negb (bool_decide (more = []))) || (255 <? number ds)
      then None else Some (number ds, rest)
  end.

Definition DOT_CHAR : byte := x2e.
Definition expect (c : byte) (s : bytes) : option bytes :=
  match s with b :: r => if bool_decide (b = c) then Some r else None | [] => None end.

Definition read_ipv4 (s : bytes) : option (Ipv4Addr * bytes) :=
  '(a, s) ← read_octet s; s ← expect DOT_CHAR s;
  '(b, s) ← read_octet s; s ← expect DOT_CHAR s;
  '(c, s) ← read_octet s; s ← expect DOT_CHAR s;
  '(d, s) ← read_octet s;
  Some (ip4 a b c d, s).

(** [s.parse::<Ipv4Addr>()] *)
Definition parse_ipv4 (s : bytes) : option Ipv4Addr :=
  '(ip, rest) ← read_ipv4 s;
  match rest with [] => Some ip | _ => None end.

(** [ip.to_string()] *)
Definition dec_digit (d : Z) : byte := z2b (48 + d).
Definition show_octet (n : Z) : bytes :=
  if n <? 10 then [dec_digit n]
  else if n <? 100 then [dec_digit (n / 10); dec_digit (n mod 10)]
  else [dec_digit (n / 100); dec_digit (n / 10 mod 10); dec_digit (n mod 10)].
Definition show_ipv4 (ip : Ipv4Addr) : bytes :=
  show_octet (b2z (oct0 ip)) ++ [DOT_CHAR] ++ show_octet (b2z (oct1 ip)) ++ [DOT_CHAR] ++
  show_octet (b2z (oct2 ip)) ++ [DOT_CHAR] ++ show_octet (b2z (oct3 ip)).

(** ** Round trip *)

Lemma digit_dec d : 0 <= d < 10 -> digit (dec_digit d) = Some d.
Proof.
  intros Hd. assert (d ∈ seqZ 0 10) as Hin by (apply elem_of_seqZ; lia). clear Hd.
  revert d Hin. apply Forall_forall. repeat constructor; vm_compute; reflexivity.
Qed.

(** Nothing that continues the number follows. *)
Definition stops (s : bytes) : Prop := match s with [] => True | b :: _ => digit b = None end.

Lemma digits_stop s : stops s -> digits s = ([], s).
Proof. destruct s as [|b s]; simpl; [done|]. by intros ->. Qed.

Lemma digits_cons d s ds rest :
  0 <= d < 10 -> digits s = (ds, rest) -> digits (dec_digit d :: s) = (d :: ds, rest).
Proof. intros Hd E. cbn [digits]. by rewrite digit_dec, E. Qed.

Lemma read_show_octet n rest :
  0 <= n < 256 -> stops rest -> read_octet (show_octet n ++ rest) = Some (n, rest).
Proof.
  intros Hn Hs. unfold show_octet, read_octet.
  pose proof (Z.div_mod n 10 ltac:(lia)). pose proof (Z.mod_pos_bound n 10 ltac:(lia)).
  destruct (n <? 10) eqn:E1; boolify; [|destruct (n <? 100) eqn:E2; boolify].
  - cbn [app]. rewrite (digits_cons n rest [] rest) by (lia || by apply digits_stop).
    unfold number. cbn [foldl]. replace (0 * 10 + n) with n by lia.
    rewrite bool_decide_true by done. rewrite (proj2 (Z.ltb_ge 255 n)) by lia.
    by rewrite andb_false_r.
  - assert (0 < n / 10 < 10) by (split; [apply Z.div_str_pos|apply Z.div_lt_upper_bound]; lia).
    cbn [app]. rewrite (digits_cons (n / 10) _ [n mod 10] rest).
    2: lia. 2: apply (digits_cons (n mod 10) rest [] rest); [lia|by apply digits_stop].
    unfold number. cbn [foldl zlen length]. rewrite (proj2 (Z.eqb_neq (n / 10) 0)) by lia.
    rewrite (proj2 (Z.ltb_ge 255 _)) by lia. simpl. do 2 f_equal. lia.
  - pose proof (Z.div_mod (n / 10) 10 ltac:(lia)). pose proof (Z.mod_pos_bound (n / 10) 10 ltac:(lia)).
    rewrite Z.div_div in * by lia. change (10 * 10) with 100 in *.
    assert (0 < n / 100 < 10) by (split; [apply Z.div_str_pos|apply Z.div_lt_upper_bound]; lia).
    cbn [app]. rewrite (digits_cons (n / 100) _ [n / 10 mod 10; n mod 10] rest).
    2: lia. 2: { apply (digits_cons _ _ [n mod 10] rest); [lia|].
      apply (digits_cons (n mod 10) rest [] rest); [lia|by apply digits_stop]. }
    unfold number. cbn [foldl zlen length]. rewrite (proj2 (Z.eqb_neq (n / 100) 0)) by lia.
    rewrite (proj2 (Z.ltb_ge 255 _)) by lia. simpl. do 2 f_equal. lia.
Qed.

Lemma parse_show_ipv4 ip : parse_ipv4 (show_ipv4 ip) = Some ip.
Proof.
  unfold parse_ipv4, read_ipv4, show_ipv4.
  pose proof (b2z_range (oct0 ip)). pose proof (b2z_range (oct1 ip)).
  pose proof (b2z_range (oct2 ip)). pose proof (b2z_range (oct3 ip)).
  do 3 (rewrite read_show_octet by (lia || (vm_compute; reflexivity)); cbn [mbind option_bind app expect];
        rewrite bool_decide_true by done; cbn [mbind option_bind]).
  rewrite <-(app_nil_r (show_octet (b2z (oct3 ip)))).
  rewrite read_show_octet by (lia || done). cbn [mbind option_bind].
  unfold ip4. rewrite !z2b_b2z. by destruct ip.
Qed.
