(* ===== verification/Padding.v ===== *)
(** Packet size normalisation and idle padding ([padding.rs]). *)

From S2P Require Import Prelude Datagram.

Definition STANDARD_SIZES : list Z := [128; 256; 512; 1024; 1200; 1400].

(** [Vec::resize]: truncate, or extend with [x]. *)
Definition vec_resize {A} (n : Z) (x : A) (l : list A) : list A :=
  resize (Z.to_nat n) x l.

Definition pad_to_standard (data : bytes) : bytes :=
  let target := default (zlen data) (List.find (fun s => zlen data <=? s) STANDARD_SIZES) in
  vec_resize target x00 data.

Definition strip_padding (data : bytes) : panics bytes :=
  if decide (data = []) then Some data
  else
    b0 ← data !! 0%nat;
    let version := nibble b0 in
    real_len ← (if (version =? 4) && (4 <=? zlen data) then
                  hi ← data !! 2%nat; lo ← data !! 3%nat;
                  Some (Some (u16_from_be_bytes hi lo))
                else if (version =? 6) && (6 <=? zlen data) then
                  hi ← data !! 4%nat; lo ← data !! 5%nat;
                  Some (Some (u16_from_be_bytes hi lo + 40))
                else Some None);
    match real_len with
    | None => Some data
    | Some n =>
        if (0 <? n) && (n <=? zlen data) then slice 0 (Z.to_nat n) data else Some data
    end.

(** [IdlePadder]. The random generator is an input of [generate]: the size it
    draws from the closed range, and the octets it fills the buffer with. *)
Record IdlePadder := mkIdlePadder { interval_ms : Z; min_size : Z; max_size : Z }.

Definition IdlePadder_new (interval_ms min_size max_size : Z) : IdlePadder :=
  mkIdlePadder interval_ms min_size max_size.

(** [gen_range] panics on an empty range; [buf[0]] on an empty buffer. *)
Definition generate (p : IdlePadder) (size : Z) (fill : Z -> byte) : panics bytes :=
  if max_size p <? min_size p then None
  else
    let buf := fill <$> seqZ 0 size in
    b ← buf !! 0%nat;
    store_at 0 (z2b (Z.land (b2z b) 15)) buf.

(** ** Properties *)

(** The IP header of a packet announces exactly the packet's length. *)
Definition well_sized (d : bytes) : Prop :=
  exists b0, d !! 0%nat = Some b0 /\
    ((exists hi lo, nibble b0 = 4 /\ d !! 2%nat = Some hi /\ d !! 3%nat = Some lo /\
        u16_from_be_bytes hi lo = zlen d)
     \/ (exists hi lo, nibble b0 = 6 /\ d !! 4%nat = Some hi /\ d !! 5%nat = Some lo /\
        u16_from_be_bytes hi lo + 40 = zlen d)).

(** The target size chosen for a packet. *)
Definition pad_target (n : Z) : Z :=
  default n (List.find (fun s => n <=? s) STANDARD_SIZES).

Lemma pad_target_spec n :
  n <= pad_target n /\
  (n <= 1400 -> In (pad_target n) STANDARD_SIZES /\
     forall s, In s STANDARD_SIZES -> n <= s -> pad_target n <= s) /\
  (1400 < n -> pad_target n = n).
Proof.
  unfold pad_target. destruct (List.find _ _) as [s|] eqn:E; simpl.
  - pose proof E as [Hin Hle]%List.find_some. boolify.
    split; [done|]. split; intros Hn.
    + split; [done|]. intros s' Hs' Hns'. unfold STANDARD_SIZES in *.
      cbn [List.find] in E. cbn [In] in *. repeat split_if_in E; simplify_eq; lia.
    + simpl in Hin. lia.
  - pose proof (List.find_none _ _ E) as Hnone.
    split; [lia|]. split; [|done]. intros Hn.
    specialize (Hnone 1400 ltac:(simpl; tauto)). cbv beta in Hnone. boolify. lia.
Qed.

Lemma pad_to_standard_app d :
  pad_to_standard d = d ++ replicate (Z.to_nat (pad_target (zlen d) - zlen d)) x00.
Proof.
  unfold pad_to_standard, vec_resize. fold (pad_target (zlen d)).
  destruct (pad_target_spec (zlen d)) as [H _].
  rewrite resize_spec. rewrite take_ge by len. do 2 f_equal. len.
Qed.

Lemma zlen_pad_to_standard d : zlen (pad_to_standard d) = pad_target (zlen d).
Proof.
  rewrite pad_to_standard_app. destruct (pad_target_spec (zlen d)) as [H _].
  pose proof (zlen_nonneg d). rewrite zlen_app, zlen_replicate. lia.
Qed.

(** What [strip_padding] returns is a prefix of its input; it never panics. *)
Lemma strip_padding_prefix d : exists s, strip_padding d = Some s /\ s `prefix_of` d.
Proof.
  unfold strip_padding. case_decide as Hd; [by eexists|].
  destruct d as [|b0 d]; [done|]. simpl.
  assert (Hfin : forall n : Z, exists s,
    (if (0 <? n) && (n <=? zlen (b0 :: d)) then slice 0 (Z.to_nat n) (b0 :: d)
     else Some (b0 :: d)) = Some s /\ s `prefix_of` b0 :: d).
  { intros n. split_if; [|by eexists].
    rewrite slice_Some by len. eexists. split; [done|]. rewrite drop_0.
    apply prefix_take. }
  split_if; [|split_if; [|by eexists]].
  all: repeat index_in_range; apply Hfin.
Qed.

(** Stripping depends only on a well-sized packet's own octets: whatever follows
    them is removed. *)
Lemma strip_padding_app d extra : well_sized d -> strip_padding (d ++ extra) = Some d.
Proof.
  intros (b0 & H0 & Hv). unfold strip_padding.
  assert (Hnil : d ++ extra <> []) by (destruct d; naive_solver).
  rewrite decide_False by done. rewrite (lookup_app_l_Some _ _ _ _ H0). simpl.
  pose proof (zlen_nonneg extra). pose proof (lookup_lt_Some _ _ _ H0).
  assert (Hslice : (0 <? zlen d) && (zlen d <=? zlen (d ++ extra)) = true).
  { rewrite zlen_app. apply andb_true_iff. rewrite Z.ltb_lt, Z.leb_le. len. }
  assert (Hfin : slice 0 (Z.to_nat (zlen d)) (d ++ extra) = Some d).
  { rewrite slice_Some by len. rewrite drop_0, Nat.sub_0_r. unfold zlen.
    by rewrite Nat2Z.id, take_app_length. }
  destruct Hv as [(hi & lo & -> & Hh & Hl & Hn)|(hi & lo & -> & Hh & Hl & Hn)]; simpl;
    pose proof (lookup_lt_Some _ _ _ Hl); rewrite zlen_app.
  - rewrite (proj2 (Z.leb_le _ _)) by len.
    rewrite (lookup_app_l_Some _ _ _ _ Hh), (lookup_app_l_Some _ _ _ _ Hl). simpl.
    rewrite Hn, <-zlen_app, Hslice. done.
  - rewrite (proj2 (Z.leb_le _ _)) by len.
    rewrite (lookup_app_l_Some _ _ _ _ Hh), (lookup_app_l_Some _ _ _ _ Hl). simpl.
    rewrite Hn, <-zlen_app, Hslice. done.
Qed.

Lemma strip_pad_id d : well_sized d -> strip_padding (pad_to_standard d) = Some d.
Proof. intros. rewrite pad_to_standard_app. by apply strip_padding_app. Qed.

(** A buffer that does not start with an IP version nibble is left alone. *)
Lemma strip_padding_non_ip b d :
  nibble b <> 4 -> nibble b <> 6 -> strip_padding (b :: d) = Some (b :: d).
Proof.
  intros H4 H6. unfold strip_padding. rewrite decide_False by done. simpl.
  rewrite (proj2 (Z.eqb_neq _ _) H4), (proj2 (Z.eqb_neq _ _) H6). done.
Qed.

(** ** Theorems *)

(** Padding followed by stripping returns the packet, for every IP packet whose
    header announces its own length; the padded size is the smallest standard size
    that holds the packet, and a packet above 1400 octets keeps its size. *)
Theorem strip_padding_pad_to_standard d :
  well_sized d ->
  strip_padding (pad_to_standard d) = Some d /\
  (zlen d <= 1400 -> In (zlen (pad_to_standard d)) STANDARD_SIZES /\
     forall s, In s STANDARD_SIZES -> zlen d <= s -> zlen (pad_to_standard d) <= s) /\
  (1400 < zlen d -> pad_to_standard d = d).
Proof.
  intros Hd. split; [by apply strip_pad_id|]. rewrite zlen_pad_to_standard.
  destruct (pad_target_spec (zlen d)) as (_ & H1 & H2). split; [done|].
  intros Hn. rewrite pad_to_standard_app, H2 by done. rewrite Z.sub_diag. simpl.
  apply app_nil_r.
Qed.

(** A 24-octet IPv4 packet. *)
Definition ex_packet : bytes :=
  [x45; x00; x00; z2b 24; x00; x00; x00; x00; x40; x11; x00; x00;
   z2b 10; x00; x01; x02; z2b 10; x00; x01; x03; x01; x02; x03; x04].

Lemma ex_packet_well_sized : well_sized ex_packet.
Proof. exists x45. split; [done|]. left. by exists x00, (z2b 24). Defined.

Lemma strip_padding_pad_to_standard_witness :
  strip_padding (pad_to_standard ex_packet) = Some ex_packet /\ well_sized ex_packet.
Proof.
  split; [|apply ex_packet_well_sized].
  apply (strip_padding_pad_to_standard ex_packet). apply ex_packet_well_sized.
Defined.
