(* ===== verification/Batch.v ===== *)
(** Datagram batching ([batch.rs]) and the client's test for a batched datagram
    ([is_batched_datagram] of [client.rs]).

    Wire format: [2B len BE][data][2B len BE][data]... *)

From S2P Require Import Prelude Datagram.

Definition BATCH_SIZE_THRESHOLD : Z := 300.
Definition MAX_BATCH_SIZE : Z := 1100.
(** [flags::BATCHING] *)
Definition BATCHING : Z := 1.

(** [put_u16] then [put_slice], packet after packet. *)
Definition batch_encode (packets : list bytes) : bytes :=
  foldl (fun buf pkt => (buf ++ u16_to_be_bytes (wrap16 (zlen pkt))) ++ pkt) [] packets.

(** The [while] loop of [batch_decode]; every turn moves [pos] forward by at
    least two, so [length data] turns and one more test are enough. [None] is a
    panic or a lack of fuel: [batch_decode_total] excludes both. *)
Fixpoint batch_decode_loop (fuel : nat) (data : bytes) (pos : nat)
    (packets : list bytes) : panics (list bytes) :=
  match fuel with
  | O => None
  | S fuel =>
      if decide (pos + 2 <= length data)%nat then
        hi ← data !! pos; lo ← data !! (pos + 1)%nat;
        let len := Z.to_nat (u16_from_be_bytes hi lo) in
        let pos := (pos + 2)%nat in
        if decide (length data < pos + len)%nat then Some packets
        else
          pkt ← slice pos (pos + len) data;
          batch_decode_loop fuel data (pos + len) (packets ++ [pkt])
      else Some packets
  end.

Definition batch_decode (data : bytes) : panics (list bytes) :=
  batch_decode_loop (S (length data)) data 0 [].

(** [DatagramBatcher] *)
Record Batcher := mkBatcher { pending : list bytes; pending_size : Z }.

Definition batcher_new : Batcher := mkBatcher [] 0.

Definition flush (s : Batcher) : bytes * Batcher :=
  if decide (pending s = []) then ([], s)
  else (batch_encode (pending s), mkBatcher [] 0).

Definition add (packet : bytes) (s : Batcher) : option bytes * Batcher :=
  let entry_size := 2 + zlen packet in
  if (MAX_BATCH_SIZE <? pending_size s + entry_size) && negb (bool_decide (pending s = []))
  then
    let '(batch, s) := flush s in
    (Some batch, mkBatcher (pending s ++ [packet]) entry_size)
  else (None, mkBatcher (pending s ++ [packet]) (pending_size s + entry_size)).

Definition has_pending (s : Batcher) : bool := negb (bool_decide (pending s = [])).

(** [client.rs] *)
Definition is_batched_datagram (data : bytes) : panics bool :=
  if decide (data = []) then Some false
  else
    b ← data !! 0%nat;
    let version_nibble := nibble b in
    Some (negb (version_nibble =? 4) && negb (version_nibble =? 6)).

(** ** Codec *)

(** One length-prefixed entry, and the encoder without its accumulator. *)
Definition entry (p : bytes) : bytes := u16_to_be_bytes (wrap16 (zlen p)) ++ p.
Definition entries (ps : list bytes) : bytes := concat (entry <$> ps).

Lemma batch_encode_entries ps : batch_encode ps = entries ps.
Proof.
  unfold batch_encode, entries.
  enough (forall acc, foldl (fun buf pkt => (buf ++ u16_to_be_bytes (wrap16 (zlen pkt))) ++ pkt)
            acc ps = acc ++ concat (entry <$> ps)) as H by apply (H []).
  induction ps as [|p ps IH]; intros acc; simpl; [by rewrite app_nil_r|].
  rewrite IH. unfold entry. by rewrite <-!app_assoc.
Qed.

Lemma entries_app ps qs : entries (ps ++ qs) = entries ps ++ entries qs.
Proof. unfold entries. by rewrite fmap_app, concat_app. Qed.
Lemma entries_cons p ps : entries (p :: ps) = entry p ++ entries ps.
Proof. done. Qed.

Lemma length_entry p : length (entry p) = (2 + length p)%nat.
Proof. unfold entry. rewrite length_app. done. Qed.

(** A length that fits the prefix. *)
Definition fits_u16 (p : bytes) : Prop := zlen p < 65536.

Lemma entry_announces p hi lo :
  fits_u16 p -> u16_to_be_bytes (wrap16 (zlen p)) = [hi; lo] ->
  u16_from_be_bytes hi lo = zlen p.
Proof.
  unfold fits_u16, u16_to_be_bytes. intros Hp [= <- <-]. pose proof (zlen_nonneg p).
  rewrite u16_be_roundtrip. rewrite !wrap_small; [done|lia|rewrite wrap_small; lia].
Qed.

(** The rest of a datagram holds no complete entry. *)
Definition incomplete (tail : bytes) : Prop :=
  match tail with
  | hi :: lo :: rest => zlen rest < u16_from_be_bytes hi lo
  | _ => True
  end.

#[export] Instance incomplete_dec tail : Decision (incomplete tail).
Proof. destruct tail as [|? [|? ?]]; simpl; apply _. Defined.

Lemma lookup_pair {A} (pre : list A) x y rest :
  (pre ++ x :: y :: rest) !! length pre = Some x /\
  (pre ++ x :: y :: rest) !! (length pre + 1)%nat = Some y.
Proof.
  split; [by apply list_lookup_middle|].
  rewrite cons_middle, app_assoc. apply list_lookup_middle. len.
Qed.

Lemma decode_loop_stop fuel pre tail acc :
  incomplete tail ->
  batch_decode_loop (S fuel) (pre ++ tail) (length pre) acc = Some acc.
Proof.
  intros Hinc. cbn [batch_decode_loop]. rewrite length_app.
  case_decide as Hlen; [|done].
  destruct tail as [|hi [|lo rest]]; [simpl in Hlen; lia..|].
  rewrite (proj1 (lookup_pair _ _ _ _)), (proj2 (lookup_pair _ _ _ _)). simpl.
  rewrite decide_True; [done|]. simpl in Hinc. len.
Qed.

Lemma decode_loop_step fuel pre hi lo p rest acc :
  u16_from_be_bytes hi lo = zlen p ->
  batch_decode_loop (S fuel) (pre ++ (hi :: lo :: p) ++ rest) (length pre) acc =
  batch_decode_loop fuel ((pre ++ hi :: lo :: p) ++ rest)
    (length (pre ++ hi :: lo :: p)) (acc ++ [p]).
Proof.
  intros Hp. cbn [batch_decode_loop]. rewrite decide_True by len.
  rewrite <-app_comm_cons, <-app_comm_cons, (proj1 (lookup_pair _ _ _ _)).
  rewrite (proj2 (lookup_pair _ _ _ _)). cbn [mbind option_bind]. rewrite Hp. unfold zlen.
  rewrite Nat2Z.id. rewrite decide_False by len.
  rewrite slice_Some by len. cbn [mbind option_bind].
  replace (length pre + 2 + length p - (length pre + 2))%nat with (length p) by lia.
  rewrite drop_app_ge by lia.
  replace (length pre + 2 - length pre)%nat with 2%nat by lia. cbn [drop].
  rewrite drop_0, take_app_length, <-app_assoc. cbn [app]. f_equal. len.
Qed.

Lemma decode_loop_entries ps : forall fuel pre tail acc,
  Forall fits_u16 ps -> incomplete tail ->
  (length ps < fuel)%nat ->
  batch_decode_loop fuel (pre ++ entries ps ++ tail) (length pre) acc = Some (acc ++ ps).
Proof.
  induction ps as [|p ps IH]; intros fuel pre tail acc Hps Htail Hfuel;
    (destruct fuel as [|fuel]; [simpl in Hfuel; lia|]).
  - rewrite app_nil_r. by apply decode_loop_stop.
  - apply Forall_cons in Hps as [Hp Hps]. rewrite entries_cons. unfold entry.
    destruct (u16_to_be_bytes (wrap16 (zlen p))) as [|hi [|lo [|]]] eqn:Ebe;
      try discriminate.
    rewrite <-(app_assoc _ (entries ps)). cbn [app].
    change (hi :: lo :: p ++ entries ps ++ tail) with ((hi :: lo :: p) ++ entries ps ++ tail).
    rewrite decode_loop_step by (eapply entry_announces; eauto).
    rewrite IH by (done || (simpl in Hfuel; lia)). by rewrite <-app_assoc.
Qed.

Lemma entries_length_le ps : (length ps <= length (entries ps))%nat.
Proof.
  induction ps as [|p ps IH]; [done|]. rewrite entries_cons, length_app, length_entry.
  simpl. lia.
Qed.

Lemma batch_decode_entries ps tail :
  Forall fits_u16 ps -> incomplete tail ->
  batch_decode (entries ps ++ tail) = Some ps.
Proof.
  intros Hps Htail. unfold batch_decode.
  rewrite (decode_loop_entries ps _ [] tail []); [done..|].
  rewrite length_app. pose proof (entries_length_le ps). lia.
Qed.

(** Every datagram splits into complete entries and an incomplete rest. *)
Lemma split_entries data :
  exists ps tail, data = entries ps ++ tail /\ Forall fits_u16 ps /\ incomplete tail.
Proof.
  induction (well_founded_ltof _ (@length byte) data) as [data _ IH]. unfold ltof in IH.
  destruct (decide (incomplete data)) as [Hi|Hi].
  { by exists [], data. }
  destruct data as [|hi [|lo rest]]; [by destruct Hi..|]. simpl in Hi.
  set (n := Z.to_nat (u16_from_be_bytes hi lo)).
  pose proof (u16_from_be_range hi lo) as Hr.
  assert (Hn : (n <= length rest)%nat) by (subst n; len).
  destruct (IH (drop n rest)) as (ps & tail & Hd & Hps & Htail).
  { rewrite length_drop. simpl. lia. }
  assert (Hlen : zlen (take n rest) = u16_from_be_bytes hi lo).
  { unfold zlen. rewrite length_take. subst n. lia. }
  exists (take n rest :: ps), tail. split; [|split; [|done]].
  - rewrite entries_cons. unfold entry. rewrite Hlen, wrap_small by lia.
    rewrite u16_be_bytes_of_pair. cbn [app]. rewrite <-app_assoc, <-Hd.
    by rewrite take_drop.
  - constructor; [|done]. unfold fits_u16. lia.
Qed.

(** ** The batcher *)

(** [pending_size] is the size the pending packets encode to, and it passes
    [MAX_BATCH_SIZE] only for a single oversized packet. *)
Definition batcher_inv (s : Batcher) : Prop :=
  pending_size s = zlen (entries (pending s)) /\
  (pending_size s <= MAX_BATCH_SIZE \/ exists p, pending s = [p]).

Lemma zlen_entries_snoc ps p : zlen (entries (ps ++ [p])) = zlen (entries ps) + (2 + zlen p).
Proof.
  rewrite entries_app, zlen_app, entries_cons, app_nil_r. unfold zlen at 2.
  rewrite length_entry. len.
Qed.

Lemma batcher_new_inv : batcher_inv batcher_new.
Proof. split; [done|]. left. cbn. unfold MAX_BATCH_SIZE. lia. Qed.

Lemma flush_spec s b s' :
  flush s = (b, s') -> batcher_inv s ->
  b = entries (pending s) /\ pending s' = [] /\ batcher_inv s'.
Proof.
  unfold flush. case_decide as Hp; intros [= <- <-] Hinv.
  - rewrite Hp. done.
  - rewrite batch_encode_entries. split; [done|]. split; [done|]. apply batcher_new_inv.
Qed.

(** What [add] emits is the encoding of all the packets that were pending, and
    nothing is lost: emitted and pending packets are those that came in. *)
Lemma add_spec p s o s' :
  add p s = (o, s') -> batcher_inv s ->
  batcher_inv s' /\
  match o with
  | None => pending s' = pending s ++ [p]
  | Some b => b = entries (pending s) /\ pending s <> [] /\ pending s' = [p]
  end.
Proof.
  unfold add. intros Hadd [Hsz Hbound].
  destruct (_ && _) eqn:E; boolify.
  - destruct (flush s) as [b s1] eqn:Ef. injection Hadd as <- <-.
    apply flush_spec in Ef as (-> & Hs1 & _); [|by split].
    simpl. rewrite Hs1. simpl. split; [|done]. split; [|by right; eexists].
    simpl. rewrite <-(app_nil_l [p]), zlen_entries_snoc. simpl. unfold zlen. simpl. lia.
  - injection Hadd as <- <-. simpl. split; [|done]. split; simpl.
    + rewrite zlen_entries_snoc, Hsz. lia.
    + destruct (decide (pending s = [])) as [->|Hne]; [by right; exists p|].
      left. rewrite andb_false_iff in E. destruct E as [E|E]; boolify; [lia|done].
Qed.

(** A run of [add]s: the batches emitted, in order, and the last state. *)
Fixpoint add_all (ps : list bytes) (s : Batcher) : list bytes * Batcher :=
  match ps with
  | [] => ([], s)
  | p :: ps =>
      let '(o, s) := add p s in
      let '(outs, s) := add_all ps s in
      (option_list o ++ outs, s)
  end.

(** The packets a sequence of emitted batches carries. *)
Definition decode_all (outs : list bytes) : panics (list bytes) :=
  @concat bytes <$> mapM batch_decode outs.

Lemma batch_decode_entries_nil ps : Forall fits_u16 ps -> batch_decode (entries ps) = Some ps.
Proof. intros. rewrite <-(app_nil_r (entries ps)). by apply batch_decode_entries. Qed.

Lemma decode_all_cons b outs ps qs :
  batch_decode b = Some ps -> decode_all outs = Some qs -> decode_all (b :: outs) = Some (ps ++ qs).
Proof.
  unfold decode_all. simpl. intros ->. destruct (mapM _ outs) eqn:E; simpl; intros [= <-].
  done.
Qed.

Lemma add_all_stream ps : forall s outs s',
  add_all ps s = (outs, s') -> batcher_inv s -> Forall fits_u16 (pending s ++ ps) ->
  batcher_inv s' /\
  exists qs, decode_all outs = Some qs /\ qs ++ pending s' = pending s ++ ps.
Proof.
  induction ps as [|p ps IH]; intros s outs s'; cbn [add_all].
  { intros [= <- <-] Hinv _. split; [done|]. exists []. by rewrite app_nil_r. }
  destruct (add p s) as [o s1] eqn:Ea, (add_all ps s1) as [outs1 s2] eqn:Er.
  intros [= <- <-] Hinv Hfit. apply add_spec in Ea as [Hinv1 Ho]; [|done].
  destruct o as [b|].
  - destruct Ho as (-> & _ & Hp1). apply Forall_app in Hfit as [Hf1 Hf2].
    destruct (IH _ _ _ Er Hinv1) as (Hinv2 & qs & Hq & Happ); [by rewrite Hp1|].
    split; [done|]. exists (pending s ++ qs). split.
    + apply decode_all_cons; [by apply batch_decode_entries_nil|done].
    + rewrite <-app_assoc, Happ, Hp1. done.
  - destruct (IH _ _ _ Er Hinv1) as (Hinv2 & qs & Hq & Happ).
    { rewrite Ho, <-app_assoc. done. }
    split; [done|]. exists qs. split; [done|]. by rewrite Happ, Ho, <-app_assoc.
Qed.

(** Packets small enough for one batch never overfill it. *)
Definition batchable (p : bytes) : Prop := 2 + zlen p <= MAX_BATCH_SIZE.

Lemma inv_batchable_bound s :
  batcher_inv s -> Forall batchable (pending s) -> zlen (entries (pending s)) <= MAX_BATCH_SIZE.
Proof.
  intros [Hsz [Hle|[p Hp]]] Hb; [lia|]. rewrite Hp in *.
  apply Forall_cons in Hb as [Hb _]. rewrite <-(app_nil_l [p]), zlen_entries_snoc.
  unfold batchable in Hb. change (zlen (entries [])) with 0. lia.
Qed.

Lemma batchable_fits p : batchable p -> fits_u16 p.
Proof. unfold batchable, fits_u16, MAX_BATCH_SIZE. lia. Qed.

Lemma add_all_bound ps : forall s outs s',
  add_all ps s = (outs, s') -> batcher_inv s -> Forall batchable (pending s ++ ps) ->
  Forall (fun b => zlen b <= MAX_BATCH_SIZE) outs.
Proof.
  induction ps as [|p ps IH]; intros s outs s'; cbn [add_all]; [by intros [= <- <-]|].
  destruct (add p s) as [o s1] eqn:Ea, (add_all ps s1) as [outs1 s2] eqn:Er.
  intros [= <- <-] Hinv Hb. apply add_spec in Ea as [Hinv1 Ho]; [|done].
  apply Forall_app in Hb as [Hb1 Hb2]. destruct o as [b|]; simpl.
  - destruct Ho as (-> & _ & Hp1). constructor; [by apply inv_batchable_bound|].
    eapply IH; [done|done|]. by rewrite Hp1.
  - eapply IH; [done|done|]. rewrite Ho, <-app_assoc. by apply Forall_app.
Qed.

Lemma decode_all_snoc b outs ps qs :
  decode_all outs = Some qs -> batch_decode b = Some ps -> decode_all (outs ++ [b]) = Some (qs ++ ps).
Proof.
  intros H Hb. revert qs H. induction outs as [|o outs IH]; intros qs H.
  - injection H as <-. unfold decode_all. simpl. rewrite Hb. simpl. by rewrite app_nil_r.
  - unfold decode_all in H. simpl in H. destruct (batch_decode o) as [x|] eqn:Eo; [|done].
    simpl in H. destruct (mapM batch_decode outs) as [y|] eqn:Ey; [|done].
    simpl in H. injection H as <-. cbn [app]. rewrite <-app_assoc.
    apply decode_all_cons; [done|]. apply IH. unfold decode_all. by rewrite Ey.
Qed.

(** ** Telling a batch from a raw packet *)

Lemma is_batched_batch p ps :
  zlen p < 4096 -> is_batched_datagram (entries (p :: ps)) = Some true.
Proof.
  intros Hp. unfold is_batched_datagram. rewrite entries_cons. unfold entry.
  rewrite decide_False by done. simpl. rewrite nibble_div, b2z_z2b.
  pose proof (zlen_nonneg p). rewrite (wrap_small 16) by lia.
  rewrite Z.shiftr_div_pow2 by lia. rewrite (wrap_small 8).
  2: { split; [apply Z.div_pos; lia|apply Z.div_lt_upper_bound; lia]. }
  rewrite Z.div_div by lia. rewrite Z.div_small by lia. done.
Qed.

Lemma is_batched_ip b p : nibble b = 4 \/ nibble b = 6 -> is_batched_datagram (b :: p) = Some false.
Proof. unfold is_batched_datagram. simpl. intros [-> | ->]; done. Qed.

(** ** Theorems *)

(** [C36] The decoder is total: on every datagram it stops without a panic, and what
    it returns is the longest sequence of complete entries the datagram starts with;
    the rest, which it drops, holds no complete entry. *)
Theorem batch_decode_spec data :
  exists ps tail, batch_decode data = Some ps /\
    data = entries ps ++ tail /\ incomplete tail /\ Forall fits_u16 ps.
Proof.
  destruct (split_entries data) as (ps & tail & -> & Hps & Htail).
  exists ps, tail. split; [by apply batch_decode_entries|done].
Qed.

(** [C23] The batcher is a lossless FIFO. Feed any packets to [add] from the empty
    batcher and [flush] at the end: decoding what was emitted, in order, gives back
    exactly those packets in their order, nothing is left pending, and no emitted
    datagram is larger than [MAX_BATCH_SIZE]. *)
Theorem batcher_stream ps outs s last s' :
  Forall batchable ps ->
  add_all ps batcher_new = (outs, s) -> flush s = (last, s') ->
  decode_all (outs ++ [last]) = Some ps /\ pending s' = [] /\
  Forall (fun b => zlen b <= MAX_BATCH_SIZE) (outs ++ [last]).
Proof.
  intros Hb Ha Hf.
  assert (Hfit : Forall fits_u16 ps) by by eapply Forall_impl; [|apply batchable_fits].
  destruct (add_all_stream _ _ _ _ Ha batcher_new_inv) as (Hinv & qs & Hq & Happ); [done|].
  simpl in Happ. apply flush_spec in Hf as (-> & Hp & _); [|done].
  pose proof Hfit as Hfit'. pose proof Hb as Hb'.
  rewrite <-Happ in Hfit', Hb'. apply Forall_app in Hfit' as [_ Hfp], Hb' as [_ Hbp].
  split; [|split; [done|]].
  - rewrite <-Happ. apply decode_all_snoc; [done|]. by apply batch_decode_entries_nil.
  - apply Forall_app. split; [|constructor; [by apply inv_batchable_bound|done]].
    eapply add_all_bound; [exact Ha|apply batcher_new_inv|done].
Qed.

Lemma batcher_stream_witness :
  exists outs s, add_all [replicate 300 x41; replicate 600 x42; replicate 400 x43] batcher_new
    = (outs, s) /\ length outs = 1%nat /\
    decode_all (outs ++ [fst (flush s)]) =
      Some [replicate 300 x41; replicate 600 x42; replicate 400 x43].
Proof.
  eexists _, _. split; [vm_compute; reflexivity|]. split; [reflexivity|].
  eapply (batcher_stream [replicate 300 x41; replicate 600 x42; replicate 400 x43]).
  - repeat constructor; vm_compute; congruence.
  - vm_compute. reflexivity.
  - vm_compute. reflexivity.
Defined.

(** The client's test separates the two kinds of datagram the server sends: a
    batch whose first packet is shorter than 4096 octets, which every batchable
    packet is, is recognised as a batch, and a raw IP packet is not. *)
Theorem is_batched_datagram_spec :
  (forall p ps, zlen p < 4096 -> is_batched_datagram (batch_encode (p :: ps)) = Some true) /\
  (forall b p, nibble b = 4 \/ nibble b = 6 -> is_batched_datagram (b :: p) = Some false).
Proof.
  split; [|apply is_batched_ip]. intros p ps Hp. rewrite batch_encode_entries.
  by apply is_batched_batch.
Qed.

Lemma is_batched_datagram_spec_witness :
  is_batched_datagram (batch_encode [[x45; x00]; [x60]]) = Some true /\
  is_batched_datagram [x45; x00] = Some false.
Proof.
  destruct is_batched_datagram_spec as [H1 H2].
  split; [apply H1; vm_compute; reflexivity|apply H2; left; vm_compute; reflexivity].
Defined.
