(* ===== verification/Control.v ===== *)
(** The control stream protocol ([control.rs]): [ClientAuth], [SessionConfig]
    and [SessionUpdate] with their wire codecs. *)

From S2P Require Import Prelude Datagram.

Definition MSG_CLIENT_AUTH : byte := x01.
Definition MSG_SESSION_CONFIG : byte := x02.
Definition MSG_SESSION_UPDATE : byte := x03.

Definition CLIENT_AUTH_LEN : nat := 66.
Definition SESSION_CONFIG_LEN : nat := 17.
Definition SESSION_CONFIG_LEN_V1 : nat := 16.
Definition SESSION_UPDATE_LEN : nat := 3.

(** [[u8; 32]] fields are octet lists; [client_auth_wf] is what their type says. *)
Record ClientAuth := mkClientAuth { nonce : bytes; mac : bytes; version : byte }.

Definition client_auth_wf (a : ClientAuth) : Prop :=
  length (nonce a) = 32%nat /\ length (mac a) = 32%nat.

Definition ClientAuth_encode (a : ClientAuth) : panics bytes :=
  let buf := replicate CLIENT_AUTH_LEN x00 in
  buf ← store_at 0 MSG_CLIENT_AUTH buf;
  buf ← copy_into 1 33 (nonce a) buf;
  buf ← copy_into 33 65 (mac a) buf;
  store_at 65 (version a) buf.

Definition ClientAuth_decode (data : bytes) : panics (option ClientAuth) :=
  if decide (length data < CLIENT_AUTH_LEN)%nat then Some None
  else
    t ← data !! 0%nat;
    if negb (bool_decide (t = MSG_CLIENT_AUTH)) then Some None
    else
      n ← slice 1 33 data;
      nonce ← copy_into 0 32 n (replicate 32 x00);
      m ← slice 33 65 data;
      mac ← copy_into 0 32 m (replicate 32 x00);
      v ← data !! 65%nat;
      Some (Some (mkClientAuth nonce mac v)).

(** [mtu] is a [u16]. *)
Record SessionConfig := mkSessionConfig {
  client_ip : Ipv4Addr;
  server_ip : Ipv4Addr;
  dns_ip : Ipv4Addr;
  mtu : Z;
  keepalive_secs : byte;
  flags : byte
}.

Definition SessionConfig_encode (c : SessionConfig) : panics bytes :=
  let buf := replicate SESSION_CONFIG_LEN x00 in
  buf ← store_at 0 MSG_SESSION_CONFIG buf;
  buf ← copy_into 1 5 (octets (client_ip c)) buf;
  buf ← copy_into 5 9 (octets (server_ip c)) buf;
  buf ← copy_into 9 13 (octets (dns_ip c)) buf;
  buf ← copy_into 13 15 (u16_to_be_bytes (mtu c)) buf;
  buf ← store_at 15 (keepalive_secs c) buf;
  store_at 16 (flags c) buf.

(** [Ipv4Addr::new(data[i], data[i+1], data[i+2], data[i+3])] *)
Definition read_ip (i : nat) (data : bytes) : panics Ipv4Addr :=
  a ← data !! i; b ← data !! S i; c ← data !! S (S i); d ← data !! S (S (S i));
  Some (mkIp a b c d).

Definition SessionConfig_decode (data : bytes) : panics (option SessionConfig) :=
  if decide (length data < SESSION_CONFIG_LEN_V1)%nat then Some None
  else
    t ← data !! 0%nat;
    if negb (bool_decide (t = MSG_SESSION_CONFIG)) then Some None
    else
      client_ip ← read_ip 1 data;
      server_ip ← read_ip 5 data;
      dns_ip ← read_ip 9 data;
      hi ← data !! 13%nat; lo ← data !! 14%nat;
      let mtu := u16_from_be_bytes hi lo in
      keepalive_secs ← data !! 15%nat;
      flags ← (if decide (SESSION_CONFIG_LEN <= length data)%nat then data !! 16%nat
               else Some x00);
      Some (Some (mkSessionConfig client_ip server_ip dns_ip mtu keepalive_secs flags)).

Record SessionUpdate := mkSessionUpdate { new_mtu : Z }.

Definition SessionUpdate_encode (u : SessionUpdate) : panics bytes :=
  let buf := replicate SESSION_UPDATE_LEN x00 in
  buf ← store_at 0 MSG_SESSION_UPDATE buf;
  copy_into 1 3 (u16_to_be_bytes (new_mtu u)) buf.

Definition SessionUpdate_decode (data : bytes) : panics (option SessionUpdate) :=
  if decide (length data < SESSION_UPDATE_LEN)%nat then Some None
  else
    t ← data !! 0%nat;
    if negb (bool_decide (t = MSG_SESSION_UPDATE)) then Some None
    else
      hi ← data !! 1%nat; lo ← data !! 2%nat;
      Some (Some (mkSessionUpdate (u16_from_be_bytes hi lo))).

(** ** Layouts *)

Lemma ClientAuth_layout a :
  client_auth_wf a ->
  ClientAuth_encode a = Some (MSG_CLIENT_AUTH :: nonce a ++ mac a ++ [version a]).
Proof.
  intros [Hn Hm]. unfold ClientAuth_encode.
  destruct a as [n m v]; simpl in *.
  do 32 (destruct n as [|? n]; [done|]). destruct n; [|done].
  do 32 (destruct m as [|? m]; [done|]). destruct m; [|done]. reflexivity.
Qed.

Lemma SessionConfig_layout c :
  SessionConfig_encode c =
  Some (MSG_SESSION_CONFIG :: octets (client_ip c) ++ octets (server_ip c) ++
        octets (dns_ip c) ++ u16_to_be_bytes (mtu c) ++ [keepalive_secs c; flags c]).
Proof. reflexivity. Qed.

Lemma SessionUpdate_layout u :
  SessionUpdate_encode u = Some (MSG_SESSION_UPDATE :: u16_to_be_bytes (new_mtu u)).
Proof. reflexivity. Qed.

Lemma ClientAuth_decode_layout t n m v rest :
  length n = 32%nat -> length m = 32%nat ->
  ClientAuth_decode (t :: n ++ m ++ v :: rest) =
  Some (if bool_decide (t = MSG_CLIENT_AUTH) then Some (mkClientAuth n m v) else None).
Proof.
  intros Hn Hm. unfold ClientAuth_decode. rewrite decide_False by (unfold CLIENT_AUTH_LEN; len).
  cbn [lookup list_lookup mbind option_bind]. case_bool_decide as Ht; [|done]. simpl negb.
  do 32 (destruct n as [|? n]; [done|]). destruct n; [|done].
  do 32 (destruct m as [|? m]; [done|]). destruct m; [|done]. reflexivity.
Qed.

Lemma client_auth_split (data : bytes) :
  (CLIENT_AUTH_LEN <= length data)%nat ->
  exists t n m v rest, data = t :: n ++ m ++ v :: rest /\
    length n = 32%nat /\ length m = 32%nat.
Proof.
  unfold CLIENT_AUTH_LEN. intros H. destruct data as [|t d]; [simpl in H; lia|].
  destruct (lookup_total_panics d 64 ltac:(simpl in H; lia)) as [v Hv].
  exists t, (take 32 d), (take 32 (drop 32 d)), v, (drop 65 d).
  split; [|len].
  f_equal. rewrite <-(take_drop 32 d) at 1. f_equal.
  rewrite <-(take_drop 32 (drop 32 d)) at 1. f_equal. rewrite drop_drop.
  change (32 + 32)%nat with 64%nat. by rewrite (drop_S _ _ _ Hv).
Qed.

Lemma ClientAuth_decode_inv data a :
  ClientAuth_decode data = Some (Some a) ->
  client_auth_wf a /\ ClientAuth_encode a = Some (take CLIENT_AUTH_LEN data).
Proof.
  destruct (decide (length data < CLIENT_AUTH_LEN)%nat) as [Hs|Hl].
  { unfold ClientAuth_decode. by rewrite decide_True. }
  destruct (client_auth_split data) as (t & n & m & v & rest & -> & Hn & Hm); [lia|].
  rewrite ClientAuth_decode_layout by done. case_bool_decide as Ht; intros [= <-].
  split; [done|]. rewrite ClientAuth_layout by done. subst t. simpl nonce. simpl mac.
  unfold CLIENT_AUTH_LEN. rewrite firstn_cons. do 2 f_equal.
  rewrite take_app, take_ge by lia. f_equal. rewrite take_app, take_ge by lia. f_equal.
  by rewrite Hn, Hm.
Qed.

Lemma ClientAuth_decode_frame data a :
  ClientAuth_decode data = Some (Some a) ->
  exists rest, data = MSG_CLIENT_AUTH :: nonce a ++ mac a ++ version a :: rest /\ length (nonce a) = 32%nat.
Proof.
  destruct (decide (length data < CLIENT_AUTH_LEN)%nat) as [Hs|Hl].
  { unfold ClientAuth_decode. by rewrite decide_True. }
  destruct (client_auth_split data) as (t & n & m & v & rest & -> & Hn & Hm); [lia|].
  rewrite ClientAuth_decode_layout by done. case_bool_decide as Ht; intros [= <-].
  exists rest. by subst t.
Qed.

Lemma ClientAuth_decode_no_panic data : exists r, ClientAuth_decode data = Some r.
Proof.
  destruct (decide (length data < CLIENT_AUTH_LEN)%nat) as [Hs|Hl].
  { unfold ClientAuth_decode. rewrite decide_True by done. by eexists. }
  destruct (client_auth_split data) as (t & n & m & v & rest & -> & Hn & Hm); [lia|].
  rewrite ClientAuth_decode_layout by done. by eexists.
Qed.

Lemma ClientAuth_roundtrip a rest :
  client_auth_wf a ->
  exists w, ClientAuth_encode a = Some w /\ length w = CLIENT_AUTH_LEN /\
    ClientAuth_decode (w ++ rest) = Some (Some a).
Proof.
  intros Hwf. pose proof Hwf as [Hn Hm]. rewrite ClientAuth_layout by done.
  eexists. split; [done|]. split; [unfold CLIENT_AUTH_LEN; len|].
  replace ((MSG_CLIENT_AUTH :: nonce a ++ mac a ++ [version a]) ++ rest)
    with (MSG_CLIENT_AUTH :: nonce a ++ mac a ++ version a :: rest)
    by (simpl; by rewrite <-!app_assoc).
  rewrite ClientAuth_decode_layout by done. destruct a. by rewrite bool_decide_true.
Qed.

Lemma SessionConfig_decode_no_panic data : exists r, SessionConfig_decode data = Some r.
Proof.
  unfold SessionConfig_decode, SESSION_CONFIG_LEN_V1, SESSION_CONFIG_LEN, read_ip.
  case_decide as Hl; [by eexists|]. repeat index_in_range.
  case_bool_decide; [|by eexists]. simpl negb. cbv iota.
  case_decide; [index_in_range|]; by eexists.
Qed.

Lemma SessionConfig_roundtrip c rest :
  0 <= mtu c < 65536 ->
  exists w, SessionConfig_encode c = Some w /\ length w = SESSION_CONFIG_LEN /\
    SessionConfig_decode (w ++ rest) = Some (Some c) /\
    SessionConfig_decode (take SESSION_CONFIG_LEN_V1 w) =
      Some (Some (mkSessionConfig (client_ip c) (server_ip c) (dns_ip c) (mtu c)
                    (keepalive_secs c) x00)).
Proof.
  intros Hm. rewrite SessionConfig_layout. eexists. split; [done|]. split; [done|].
  destruct c as [[] [] [] m k f]. simpl in Hm.
  unfold SessionConfig_decode. split.
  - rewrite decide_False by (unfold SESSION_CONFIG_LEN_V1; len).
    rewrite decide_True by (unfold SESSION_CONFIG_LEN; len).
    cbn. rewrite u16_be_roundtrip, wrap_small by lia. done.
  - cbn. rewrite u16_be_roundtrip, wrap_small by lia. done.
Qed.

Lemma SessionUpdate_roundtrip u rest :
  0 <= new_mtu u < 65536 ->
  exists w, SessionUpdate_encode u = Some w /\ length w = SESSION_UPDATE_LEN /\
    SessionUpdate_decode (w ++ rest) = Some (Some u).
Proof.
  intros Hm. rewrite SessionUpdate_layout. eexists. split; [done|]. split; [done|].
  destruct u as [m]. simpl in Hm.
  unfold SessionUpdate_decode. rewrite decide_False by (unfold SESSION_UPDATE_LEN; len).
  cbn. rewrite u16_be_roundtrip, wrap_small by lia. done.
Qed.

Lemma SessionUpdate_decode_no_panic data : exists r, SessionUpdate_decode data = Some r.
Proof.
  unfold SessionUpdate_decode, SESSION_UPDATE_LEN. case_decide; [by eexists|].
  repeat index_in_range. case_bool_decide; by eexists.
Qed.

(** ** Theorems *)

(** [C37] Every control message round-trips: what one side encodes has the length
    its readers expect ([read_exact] of 66, 17 and 3 octets), and decodes to the
    same message, whatever follows it on the stream. *)
Theorem control_messages_roundtrip a c u rest :
  client_auth_wf a -> 0 <= mtu c < 65536 -> 0 <= new_mtu u < 65536 ->
  (exists w, ClientAuth_encode a = Some w /\ length w = CLIENT_AUTH_LEN /\
     ClientAuth_decode (w ++ rest) = Some (Some a)) /\
  (exists w, SessionConfig_encode c = Some w /\ length w = SESSION_CONFIG_LEN /\
     SessionConfig_decode (w ++ rest) = Some (Some c) /\
     SessionConfig_decode (take SESSION_CONFIG_LEN_V1 w) =
       Some (Some (mkSessionConfig (client_ip c) (server_ip c) (dns_ip c) (mtu c)
                     (keepalive_secs c) x00))) /\
  (exists w, SessionUpdate_encode u = Some w /\ length w = SESSION_UPDATE_LEN /\
     SessionUpdate_decode (w ++ rest) = Some (Some u)).
Proof.
  intros. split; [by apply ClientAuth_roundtrip|].
  split; [by apply SessionConfig_roundtrip|by apply SessionUpdate_roundtrip].
Qed.

Definition ex_auth : ClientAuth := mkClientAuth (replicate 32 x0a) (replicate 32 x0b) x01.
Definition ex_config : SessionConfig :=
  mkSessionConfig (ip4 10 0 1 2) (ip4 10 0 1 1) (ip4 10 0 1 1) 1200 (z2b 25) (z2b 1).

Lemma control_messages_roundtrip_witness :
  exists w, SessionConfig_encode ex_config = Some w /\
    SessionConfig_decode (w ++ [x03]) = Some (Some ex_config).
Proof.
  destruct (control_messages_roundtrip ex_auth ex_config (mkSessionUpdate 1400) [x03])
    as (_ & (w & Hw & _ & Hd & _) & _); [done|vm_compute; split; congruence..|].
  by exists w.
Defined.

(** No input makes a control decoder panic, and a [ClientAuth] that decodes is
    the first 66 octets of the input, read field by field: re-encoding it gives
    them back, so no two authentication frames decode to the same message. *)
Theorem control_decoders_robust data :
  (exists r, ClientAuth_decode data = Some r) /\
  (exists r, SessionConfig_decode data = Some r) /\
  (exists r, SessionUpdate_decode data = Some r) /\
  (forall a, ClientAuth_decode data = Some (Some a) ->
     client_auth_wf a /\ ClientAuth_encode a = Some (take CLIENT_AUTH_LEN data)).
Proof.
  split; [apply ClientAuth_decode_no_panic|]. split; [apply SessionConfig_decode_no_panic|].
  split; [apply SessionUpdate_decode_no_panic|]. intros a. apply ClientAuth_decode_inv.
Qed.

(* witness for the inner premise *)
Lemma control_decoders_robust_witness :
  ClientAuth_encode ex_auth = Some (take CLIENT_AUTH_LEN
    (MSG_CLIENT_AUTH :: replicate 32 x0a ++ replicate 32 x0b ++ [x01; xff])).
Proof.
  apply (control_decoders_robust
    (MSG_CLIENT_AUTH :: replicate 32 x0a ++ replicate 32 x0b ++ [x01; xff])). reflexivity.
Defined.
