(* ===== verification/Auth.v ===== *)
(** Pre-shared-key authentication ([auth.rs]): the [Authenticator] trait, the
    single-key authenticator and the hexadecimal key format.

    HMAC-SHA256 (crates [hmac] and [sha2]) is a parameter: class [Hmac], with its
    documented output length in [HmacOk]. *)

From S2P Require Import Prelude.

Class Hmac := hmac_sha256 : bytes -> bytes -> bytes.
Class HmacOk `{Hmac} := hmac_length : forall key msg, length (hmac_sha256 key msg) = 32%nat.

(** [Mac::verify_slice]: the whole tag, compared in constant time. *)
Definition verify_slice `{Hmac} (key msg tag : bytes) : bool :=
  bool_decide (hmac_sha256 key msg = tag).

(** The trait: [verify_auth(nonce, mac)], a username on success. *)
Class Authenticator (A : Type) := verify_auth : A -> bytes -> bytes -> option bytes.

Record PskAuthenticator := mkPsk { psk : bytes }.

Definition PskAuthenticator_new (k : bytes) : PskAuthenticator := mkPsk k.

Definition verify `{Hmac} (a : PskAuthenticator) (nonce mac : bytes) : bool :=
  verify_slice (psk a) nonce mac.

(** [out.copy_from_slice(&bytes)] panics unless the tag has 32 octets. *)
Definition compute_mac `{Hmac} (a : PskAuthenticator) (nonce : bytes) : panics bytes :=
  copy_into 0 32 (hmac_sha256 (psk a) nonce) (replicate 32 x00).

#[export] Instance psk_authenticator `{Hmac} : Authenticator PskAuthenticator :=
  fun a nonce mac => if verify a nonce mac then Some (str "default") else None.

(** ** Hexadecimal keys *)

Inductive HexError := BadLength (n : Z) | BadUtf8 | BadDigit.

#[export] Instance hex_error_eq_dec : EqDecision HexError.
Proof. solve_decision. Defined.

(** [char::to_digit(16)] *)
Definition hex_digit (b : byte) : option Z :=
  let z := b2z b in
  if (48 <=? z) && (z <=? 57) then Some (z - 48)
  else if (97 <=? z) && (z <=? 102) then Some (z - 87)
  else if (65 <=? z) && (z <=? 70) then Some (z - 55)
  else None.

Definition is_plus (b : byte) : bool := b2z b =? 43.
Definition is_minus (b : byte) : bool := b2z b =? 45.

(** The digits of [u8::from_str_radix(s, 16)], with its overflow check. *)
Fixpoint from_digits (s : bytes) (acc : Z) : option Z :=
  match s with
  | [] => Some acc
  | b :: s =>
      d ← hex_digit b;
      let acc := acc * 16 + d in
      if 255 <? acc then None else from_digits s acc
  end.

(** [u8::from_str_radix(s, 16)]: a leading plus sign is allowed, a lone sign and
    the empty string are not. *)
Definition u8_from_str_radix16 (s : bytes) : option Z :=
  match s with
  | [] => None
  | [b] => if is_plus b || is_minus b then None else from_digits s 0
  | b :: r => if is_plus b then from_digits r 0 else from_digits s 0
  end.

(** [slice.chunks(2)] *)
Fixpoint chunks2 (s : bytes) : list bytes :=
  match s with
  | [] => []
  | [a] => [[a]]
  | a :: b :: s => [a; b] :: chunks2 s
  end.

(** [str::from_utf8] on a chunk of at most two octets: ASCII, or one two-octet
    character. *)
Definition utf8_chunk (c : bytes) : bool :=
  match c with
  | [a] => b2z a <? 128
  | [a; b] =>
      (b2z a <? 128) && (b2z b <? 128)
      || (194 <=? b2z a) && (b2z a <=? 223) && (128 <=? b2z b) && (b2z b <=? 191)
  | _ => bool_decide (c = [])
  end.

(** The loop over [chunks(2).enumerate()]. *)
Fixpoint parse_chunks (i : nat) (cs : list bytes) (psk : bytes) : panics (result HexError bytes) :=
  match cs with
  | [] => Some (Ok psk)
  | c :: cs =>
      if utf8_chunk c then
        match u8_from_str_radix16 c with
        | None => Some (Err BadDigit)
        | Some v => psk ← store_at i (z2b v) psk; parse_chunks (S i) cs psk
        end
      else Some (Err BadUtf8)
  end.

Definition parse_hex (hex : bytes) : panics (result HexError bytes) :=
  let hex := trim hex in
  if negb (zlen hex =? 64) then Some (Err (BadLength (zlen hex)))
  else parse_chunks 0 (chunks2 hex) (replicate 32 x00).

(** [load_psk]: [read_to_string] is the file system's answer, [None] for an error. *)
Inductive LoadError := Io | Hex (e : HexError).

Definition load_psk (content : option bytes) : panics (result LoadError bytes) :=
  match content with
  | None => Some (Err Io)
  | Some c =>
      r ← parse_hex c;
      Some match r with Ok k => Ok k | Err e => Err (Hex e) end
  end.

Definition parse_psk_hex (hex : bytes) : panics (result HexError bytes) := parse_hex hex.

(** ** Printing, as [users.rs] does: [format!("{b:02x}")] *)

Definition hex_char (d : Z) : byte := z2b (if d <? 10 then 48 + d else 87 + d).
Definition hex_byte (b : byte) : bytes :=
  [hex_char (Z.shiftr (b2z b) 4); hex_char (Z.land (b2z b) 15)].
Definition to_hex (k : bytes) : bytes := concat (hex_byte <$> k).

(** ** Lemmas *)

(** A key digit pair, as [from_str_radix] reads it. *)
Definition pair_value (a b : byte) : option Z :=
  if is_plus a then hex_digit b
  else x ← hex_digit a; y ← hex_digit b; Some (x * 16 + y).

Lemma hex_digit_range b d : hex_digit b = Some d -> 0 <= d < 16.
Proof. unfold hex_digit. repeat split_if; intros; simplify_eq; lia. Qed.

Lemma hex_digit_ascii b d : hex_digit b = Some d -> b2z b < 128.
Proof. unfold hex_digit. repeat split_if; intros; simplify_eq; lia. Qed.

Lemma radix16_pair a b : u8_from_str_radix16 [a; b] = pair_value a b.
Proof.
  unfold u8_from_str_radix16, pair_value, from_digits.
  destruct (is_plus a).
  - destruct (hex_digit b) as [d|] eqn:Hd; [|done]. apply hex_digit_range in Hd. simpl.
    rewrite (proj2 (Z.ltb_ge _ _)) by lia. done.
  - destruct (hex_digit a) as [x|] eqn:Hx; [|done]. apply hex_digit_range in Hx. simpl.
    rewrite (proj2 (Z.ltb_ge _ _)) by lia.
    destruct (hex_digit b) as [y|] eqn:Hy; [|done]. apply hex_digit_range in Hy. simpl.
    rewrite (proj2 (Z.ltb_ge _ _)) by lia. done.
Qed.

Lemma pair_value_ascii a b v : pair_value a b = Some v -> utf8_chunk [a; b] = true.
Proof.
  unfold pair_value, utf8_chunk. intros H. apply orb_true_iff. left.
  rewrite andb_true_iff, !Z.ltb_lt. destruct (is_plus a) eqn:Ep.
  - unfold is_plus in Ep. boolify. apply hex_digit_ascii in H. lia.
  - destruct (hex_digit a) eqn:Ha; [|done]. destruct (hex_digit b) eqn:Hb; [|done].
    apply hex_digit_ascii in Ha, Hb. lia.
Qed.

Lemma hex_char_digit d : 0 <= d < 16 -> hex_digit (hex_char d) = Some d.
Proof.
  intros Hd. assert (d ∈ seqZ 0 16) as Hin by (apply elem_of_seqZ; lia). clear Hd.
  revert d Hin. apply Forall_forall. repeat constructor; vm_compute; reflexivity.
Qed.

Lemma hex_char_solid d : 0 <= d < 16 -> solid (hex_char d) /\ is_plus (hex_char d) = false.
Proof.
  intros Hd. assert (d ∈ seqZ 0 16) as Hin by (apply elem_of_seqZ; lia). clear Hd.
  revert d Hin. apply Forall_forall. repeat constructor; vm_compute; reflexivity.
Qed.

Lemma nibbles b :
  0 <= Z.shiftr (b2z b) 4 < 16 /\ 0 <= Z.land (b2z b) 15 < 16 /\
  Z.shiftr (b2z b) 4 * 16 + Z.land (b2z b) 15 = b2z b.
Proof.
  pose proof (b2z_range b). rewrite Z.shiftr_div_pow2 by lia.
  change 15 with (Z.ones 4). rewrite Z.land_ones by lia. change (2 ^ 4) with 16.
  pose proof (Z.div_mod (b2z b) 16). pose proof (Z.mod_pos_bound (b2z b) 16).
  split; [|lia]. split; [apply Z.div_pos; lia|apply Z.div_lt_upper_bound; lia].
Qed.

Lemma pair_value_hex_byte b :
  pair_value (hex_char (Z.shiftr (b2z b) 4)) (hex_char (Z.land (b2z b) 15)) = Some (b2z b).
Proof.
  destruct (nibbles b) as (Hh & Hl & He). unfold pair_value.
  rewrite (proj2 (hex_char_solid _ Hh)), !hex_char_digit by done. simpl. by rewrite He.
Qed.

Lemma to_hex_cons b k : to_hex (b :: k) = hex_byte b ++ to_hex k.
Proof. done. Qed.

Lemma chunks2_hex k : chunks2 (to_hex k) = hex_byte <$> k.
Proof. induction k as [|b k IH]; [done|]. rewrite to_hex_cons, fmap_cons. cbn. by rewrite IH. Qed.

Lemma to_hex_solid k : Forall solid (to_hex k).
Proof.
  induction k as [|b k IH]; [constructor|]. rewrite to_hex_cons.
  destruct (nibbles b) as (Hh & Hl & _).
  constructor; [apply hex_char_solid; done|]. constructor; [apply hex_char_solid; done|done].
Qed.

Lemma zlen_to_hex k : zlen (to_hex k) = 2 * zlen k.
Proof.
  induction k as [|b k IH]; [done|]. rewrite to_hex_cons, zlen_app, zlen_cons, IH.
  unfold zlen. simpl. lia.
Qed.

Lemma trim_to_hex k : trim (to_hex k) = to_hex k.
Proof.
  destruct k as [|b k]; [done|]. rewrite <-(app_nil_l (to_hex _)) at 1.
  rewrite <-(app_nil_r (to_hex _)) at 1. apply trim_solid; [done|done|apply to_hex_solid|done].
Qed.

Lemma to_hex_utf8 k : utf8_valid (to_hex k) = true.
Proof. apply utf8_solid, to_hex_solid. Qed.

(** The store loop writes the pairs' values from index [i] on. *)
Lemma parse_chunks_values cs : forall i vs buf,
  Forall2 (fun c v => exists a b, c = [a; b] /\ pair_value a b = Some v) cs vs ->
  (i + length vs = length buf)%nat ->
  parse_chunks i cs buf = Some (Ok (take i buf ++ (z2b <$> vs))).
Proof.
  induction cs as [|c cs IH]; intros i vs buf H2 Hlen; inv H2; simpl in *.
  - rewrite app_nil_r, take_ge by lia. done.
  - destruct H1 as (a & b & -> & Hv). rewrite (pair_value_ascii _ _ _ Hv), radix16_pair, Hv.
    unfold store_at. rewrite decide_True by lia. simpl.
    erewrite IH; [|done|rewrite length_insert; lia].
    rewrite (take_S_r _ _ (z2b y)) by (rewrite list_lookup_insert_eq by lia; done).
    rewrite take_insert_ge by lia. by rewrite <-app_assoc.
Qed.

Lemma parse_to_hex pre k post :
  Forall (fun b => ws1 b = true) pre -> Forall (fun b => ws1 b = true) post ->
  length k = 32%nat -> parse_hex (pre ++ to_hex k ++ post) = Some (Ok k).
Proof.
  intros Hpre Hpost Hk. unfold parse_hex.
  rewrite trim_solid; [|done|done|apply to_hex_solid|destruct k; [done|]; unfold to_hex; simpl; done].
  rewrite zlen_to_hex. unfold zlen. rewrite Hk. simpl negb. cbv iota.
  rewrite chunks2_hex. rewrite (parse_chunks_values _ 0 (b2z <$> k)).
  - simpl. f_equal. f_equal. rewrite <-list_fmap_compose.
    rewrite <-(list_fmap_id k) at 2. apply list_fmap_ext. intros ? b _. simpl. apply z2b_b2z.
  - apply Forall2_fmap_2, Forall_Forall2_diag, Forall_true. intros b.
    eexists _, _. split; [done|apply pair_value_hex_byte].
  - rewrite length_fmap, length_replicate. lia.
Qed.

(** The other way round: the loop never panics while there is room, and accepts
    only pairs with a value. *)
Lemma parse_chunks_inv cs : forall i buf,
  (i + length cs <= length buf)%nat -> Forall (fun c => length c = 2%nat) cs ->
  exists r, parse_chunks i cs buf = Some r /\
    forall k, r = Ok k -> exists vs,
      Forall2 (fun c v => exists a b, c = [a; b] /\ pair_value a b = Some v) cs vs.
Proof.
  induction cs as [|c cs IH]; intros i buf Hlen Hc; simpl in *.
  { eexists. split; [done|]. intros. by exists []. }
  apply Forall_cons in Hc as [Hc Hcs].
  destruct c as [|a [|b [|? ?]]]; try done.
  destruct (utf8_chunk [a; b]); [|by eexists].
  rewrite radix16_pair. destruct (pair_value a b) as [v|] eqn:Ev; [|by eexists].
  unfold store_at. rewrite decide_True by lia. cbn [mbind option_bind].
  destruct (IH (S i) (<[i:=z2b v]> buf)) as (r & -> & Hr); [rewrite length_insert; lia|done|].
  exists r. split; [done|]. intros k Hk. destruct (Hr k Hk) as [vs Hvs].
  exists (v :: vs). constructor; [|done]. by exists a, b.
Qed.

Lemma chunks2_pairs n : forall s : bytes, length s = (2 * n)%nat ->
  length (chunks2 s) = n /\ Forall (fun c => length c = 2%nat) (chunks2 s).
Proof.
  induction n as [|n IH]; intros [|a [|b s]] Hs; simpl in Hs; try lia; [done|].
  destruct (IH s) as [Hn Hf]; [lia|]. simpl. rewrite Hn. auto.
Qed.

(** The digit pairs of a key text, and the key they spell. *)
Definition spells (text k : bytes) : Prop :=
  exists vs, k = z2b <$> vs /\
    Forall2 (fun c v => exists a b, c = [a; b] /\ pair_value a b = Some v) (chunks2 text) vs.

Lemma parse_hex_total hex :
  exists r, parse_hex hex = Some r /\
    forall k, r = Ok k <-> zlen (trim hex) = 64 /\ spells (trim hex) k.
Proof.
  unfold parse_hex. destruct (zlen (trim hex) =? 64) eqn:E; boolify; simpl negb; cbv iota.
  2: { eexists. split; [done|]. intros k. split; [done|]. intros [? _]. lia. }
  destruct (chunks2_pairs 32 (trim hex)) as [Hn Hc]; [len|].
  destruct (parse_chunks_inv (chunks2 (trim hex)) 0 (replicate 32 x00)) as (r & Hr & Hinv);
    [rewrite length_replicate; lia|done|].
  exists r. split; [done|]. intros k. split.
  - intros ->. split; [done|]. destruct (Hinv k eq_refl) as [vs Hvs]. exists vs. split; [|done].
    erewrite parse_chunks_values in Hr; [by simplify_eq|done|].
    apply Forall2_length in Hvs. rewrite length_replicate. lia.
  - intros [_ (vs & -> & Hvs)].
    erewrite parse_chunks_values in Hr; [by injection Hr as <-|done|].
    apply Forall2_length in Hvs. rewrite length_replicate. lia.
Qed.

(** ** Theorems *)

(** Key files round-trip: the 64 hexadecimal digits [add_user] prints, with any
    ASCII white space around them, load back as the same 32-octet key. *)
Theorem load_psk_to_hex pre k post :
  Forall (fun b => ws1 b = true) pre -> Forall (fun b => ws1 b = true) post ->
  length k = 32%nat -> load_psk (Some (pre ++ to_hex k ++ post)) = Some (Ok k).
Proof. intros. unfold load_psk. by rewrite parse_to_hex. Qed.

Lemma load_psk_to_hex_witness :
  load_psk (Some ([x20] ++ to_hex (replicate 32 xab) ++ [x0a])) = Some (Ok (replicate 32 xab)).
Proof. apply (load_psk_to_hex [x20] (replicate 32 xab) [x0a]); repeat constructor. Defined.

(** [parse_hex] never panics, and it accepts exactly the texts that are, after
    trimming, 64 octets long and made of digit pairs with a value; because of
    [from_str_radix], a pair may also be a plus sign and one digit. *)
Theorem parse_hex_spec hex :
  exists r, parse_hex hex = Some r /\
    forall k, r = Ok k <-> zlen (trim hex) = 64 /\ spells (trim hex) k.
Proof. apply parse_hex_total. Qed.

(** A single-key server accepts a client that computed its MAC with the same
    key, whatever the nonce, and gives it the name "default"; and it accepts nothing
    but the HMAC of the nonce under its own key. *)
Theorem psk_auth_spec `{HmacOk} k nonce :
  (exists m, compute_mac (PskAuthenticator_new k) nonce = Some m /\ length m = 32%nat /\
     verify_auth (PskAuthenticator_new k) nonce m = Some (str "default")) /\
  (forall m u, verify_auth (PskAuthenticator_new k) nonce m = Some u ->
     compute_mac (PskAuthenticator_new k) nonce = Some m).
Proof.
  assert (Hc : compute_mac (PskAuthenticator_new k) nonce = Some (hmac_sha256 k nonce)).
  { unfold compute_mac, copy_into. rewrite decide_True by (rewrite hmac_length, length_replicate; lia).
    simpl. by rewrite app_nil_r. }
  rewrite Hc. split.
  - exists (hmac_sha256 k nonce). split; [done|]. split; [apply hmac_length|].
    unfold verify_auth, psk_authenticator, verify, verify_slice. simpl.
    by rewrite bool_decide_true.
  - intros m u. unfold verify_auth, psk_authenticator, verify, verify_slice. simpl.
    case_bool_decide; [by subst|done].
Qed.

(** A toy tag function of the right length. *)
#[local] Instance toy_hmac : Hmac := fun key msg => take 32 (key ++ msg ++ replicate 32 x00).
Lemma toy_hmac_ok : @HmacOk toy_hmac.
Proof.
  intros key msg. unfold hmac_sha256, toy_hmac. rewrite length_take, !length_app, length_replicate.
  lia.
Defined.

Lemma psk_auth_spec_witness :
  exists m, compute_mac (PskAuthenticator_new [x01]) [x02] = Some m /\
    verify_auth (PskAuthenticator_new [x01]) [x02] m = Some (str "default").
Proof.
  destruct (@psk_auth_spec toy_hmac toy_hmac_ok [x01] [x02]) as [(m & Hc & _ & Hv) _].
  by exists m.
Defined.
