(* ===== verification/Users.v ===== *)
(** Per-client keys ([users.rs]): the [UserStore], its directory of [*.key] files,
    and the multi-user [Authenticator].

    The file system is a map from paths to contents; a path is its octets, and two
    different paths are two different files. Hash maps have no iteration order of
    their own: class [HashIter] is the order the runtime happens to use. *)

From S2P Require Import Prelude Auth.

(** [HashMap::iter]: some order of the entries. *)
Class HashIter := hash_iter : gmap bytes bytes -> list (bytes * bytes).
Class HashIterOk `{HashIter} := hash_iter_perm : forall m, hash_iter m ≡ₚ map_to_list m.

Abbreviation FS := (gmap bytes bytes).

(** ** [std::path] *)

Definition SLASH : byte := x2f.
Definition DOT : byte := x2e.

(** [Path::join]: an absolute second part replaces the first. *)
Definition join (dir name : bytes) : bytes :=
  match name with
  | b :: _ => if bool_decide (b = SLASH) then name else dir ++ SLASH :: name
  | [] => dir ++ [SLASH]
  end.

(** Split at the last dot: what is before and what is after. *)
Fixpoint rsplit_dot (s : bytes) : option (bytes * bytes) :=
  match s with
  | [] => None
  | b :: r =>
      match rsplit_dot r with
      | Some (before, after) => Some (b :: before, after)
      | None => if bool_decide (b = DOT) then Some ([], r) else None
      end
  end.

(** [rsplit_file_at_dot], behind [file_stem] and [extension]. *)
Definition split_name (name : bytes) : option bytes * option bytes :=
  if decide (name = [DOT; DOT]) then (Some name, None)
  else match rsplit_dot name with
       | None => (None, Some name)
       | Some (before, after) =>
           if decide (before = []) then (Some name, None) else (Some before, Some after)
       end.
Definition file_stem (name : bytes) : option bytes :=
  let '(before, after) := split_name name in
  match before with Some s => Some s | None => after end.
Definition extension (name : bytes) : option bytes :=
  let '(before, after) := split_name name in
  match before with Some _ => after | None => None end.

(** [to_str] on a file name part. *)
Definition to_str (s : bytes) : option bytes := if utf8_valid s then Some s else None.

(** ** The store *)

(** PSK -> username, and the directory. *)
Record UserStore := mkStore { users : gmap bytes bytes; udir : bytes }.

Inductive UserError :=
  | NoDirectory | IoError | InvalidFilename (name : bytes) | BadKey (e : HexError)
  | UserExists (name : bytes) | UserNotFound (name : bytes).

(** What [read_dir] yields: an error, or an entry's file name with what
    [read_to_string] on it gives ([None]: it cannot be read as text). *)
Inductive DirEntry := EntryError | Entry (name : bytes) (content : option bytes).

Fixpoint load_loop (entries : list DirEntry) (users : gmap bytes bytes)
    : panics (result UserError (gmap bytes bytes)) :=
  match entries with
  | [] => Some (Ok users)
  | EntryError :: _ => Some (Err IoError)
  | Entry name content :: entries =>
      if decide ((extension name ≫= to_str) <> Some (str "key")) then load_loop entries users
      else
        match file_stem name ≫= to_str with
        | None => Some (Err (InvalidFilename name))
        | Some username =>
            match content with
            | None => Some (Err IoError)
            | Some content =>
                r ← parse_hex (trim content);
                match r with
                | Err e => Some (Err (BadKey e))
                | Ok psk =>
                    if decide (is_Some (users !! psk)) then load_loop entries users
                    else load_loop entries (<[psk:=username]> users)
                end
            end
        end
  end.

(** [read_dir] is [None] when it fails. *)
Definition load (dir : bytes) (exists_ : bool) (read_dir : option (list DirEntry))
    : panics (result UserError UserStore) :=
  if negb exists_ then Some (Err NoDirectory)
  else match read_dir with
       | None => Some (Err IoError)
       | Some entries =>
           r ← load_loop entries ∅;
           Some match r with Ok users => Ok (mkStore users dir) | Err e => Err e end
       end.

Definition reload (s : UserStore) (exists_ : bool) (read_dir : option (list DirEntry))
    : panics (result UserError unit * UserStore) :=
  r ← load (udir s) exists_ read_dir;
  Some match r with
       | Ok new => (Ok tt, mkStore (users new) (udir s))
       | Err e => (Err e, s)
       end.

(** Trial verification, in the order of the hash map. *)
Fixpoint trial `{Hmac} (it : list (bytes * bytes)) (nonce mac : bytes) : option bytes :=
  match it with
  | [] => None
  | (psk, username) :: it =>
      if verify_slice psk nonce mac then Some username else trial it nonce mac
  end.

Definition UserStore_verify `{Hmac, HashIter} (s : UserStore) (nonce mac : bytes)
    : option bytes :=
  trial (hash_iter (users s)) nonce mac.

#[export] Instance users_authenticator `{Hmac, HashIter} : Authenticator UserStore :=
  UserStore_verify.

Definition key_path (s : UserStore) (name : bytes) : bytes :=
  join (udir s) (name ++ str ".key").

(** [add_user]: [psk] is the 32 octets the generator fills in, [wrote] whether the
    write succeeds (a write that fails leaves the file as it was). *)
Definition add_user `{HashIter} (name psk : bytes) (wrote : bool) (s : UserStore) (fs : FS)
    : result UserError bytes * UserStore * FS :=
  if existsb (fun e => bool_decide (e.2 = name)) (hash_iter (users s))
  then (Err (UserExists name), s, fs)
  else
    let hex := to_hex psk in
    let path := key_path s name in
    if negb wrote then (Err IoError, s, fs)
    else (Ok hex, mkStore (<[psk:=name]> (users s)) (udir s), <[path:=hex]> fs).

(** [remove_user]: [removed] is whether [remove_file] succeeds. *)
Definition remove_user `{HashIter} (name : bytes) (removed : bool) (s : UserStore) (fs : FS)
    : result UserError unit * UserStore * FS :=
  match List.find (fun e => bool_decide (e.2 = name)) (hash_iter (users s)) with
  | None => (Err (UserNotFound name), s, fs)
  | Some (psk, _) =>
      let s := mkStore (delete psk (users s)) (udir s) in
      let path := key_path s name in
      if decide (is_Some (fs !! path)) then
        if removed then (Ok tt, s, delete path fs) else (Err IoError, s, fs)
      else (Ok tt, s, fs)
  end.

(** ** File names *)

Lemma rsplit_dot_none s : DOT ∉ s -> rsplit_dot s = None.
Proof.
  induction s as [|b s IH]; [done|]. intros [Hb Hs]%not_elem_of_cons. simpl.
  rewrite IH by done. by rewrite bool_decide_false.
Qed.

Lemma rsplit_dot_app a b : DOT ∉ b -> rsplit_dot (a ++ DOT :: b) = Some (a, b).
Proof.
  intros Hb. induction a as [|x a IH]; simpl; [|by rewrite IH].
  by rewrite rsplit_dot_none.
Qed.

Lemma rsplit_dot_inv s : forall a b, rsplit_dot s = Some (a, b) -> s = a ++ DOT :: b.
Proof.
  induction s as [|x s IH]; intros a b H; [done|]. simpl in H.
  destruct (rsplit_dot s) as [[a' b']|].
  - simplify_eq. by rewrite (IH _ _ eq_refl).
  - case_bool_decide; simplify_eq. done.
Qed.

Lemma key_suffix : str ".key" = DOT :: str "key".
Proof. done. Qed.

Lemma split_name_key name : name <> [] ->
  split_name (name ++ str ".key") = (Some name, Some (str "key")).
Proof.
  intros Hne. unfold split_name. rewrite key_suffix. rewrite decide_False.
  2: { intros H%(f_equal (@length _)). rewrite length_app in H. simpl in H. lia. }
  rewrite rsplit_dot_app by (vm_compute; set_solver). by rewrite decide_False.
Qed.

Lemma split_name_key_inv n :
  extension n = Some (str "key") -> exists name, name <> [] /\ n = name ++ str ".key".
Proof.
  unfold extension, split_name. case_decide; [done|].
  destruct (rsplit_dot n) as [[a b]|] eqn:E; [|done]. case_decide; [done|].
  intros [= ->]. apply rsplit_dot_inv in E. exists a. by rewrite key_suffix.
Qed.

(** A name [add_user] can be given that stays one file of the directory. *)
Definition plain_name (name : bytes) : Prop :=
  name <> [] /\ (SLASH ∉ name) /\ utf8_valid name = true.

Lemma key_path_plain s name :
  plain_name name -> key_path s name = udir s ++ SLASH :: (name ++ str ".key").
Proof.
  intros (Hne & Hs & _). unfold key_path, join. destruct name as [|b name]; [done|].
  simpl. rewrite bool_decide_false; [done|]. set_solver.
Qed.

(** ** The directory and the table agree *)

(** [read_dir] on [dir], with every entry readable: all the files of the directory,
    in some order. *)
Definition lists (fs : FS) (dir : bytes) (entries : list DirEntry) : Prop :=
  exists l : list (bytes * bytes),
    entries = (fun e => Entry e.1 (if utf8_valid e.2 then Some e.2 else None)) <$> l /\
    forall n c, (n, c) ∈ l <-> fs !! (dir ++ SLASH :: n) = Some c /\ (SLASH ∉ n) /\ n <> [].

(** The key file [name.key] holds [psk]. *)
Definition key_file (fs : FS) (dir name psk : bytes) : Prop :=
  exists c, fs !! (dir ++ SLASH :: (name ++ str ".key")) = Some c /\ utf8_valid c = true /\
    parse_hex (trim c) = Some (Ok psk).

Record in_sync (s : UserStore) (fs : FS) : Prop := mkInSync {
  sync_user : forall psk name, users s !! psk = Some name ->
    plain_name name /\ key_file fs (udir s) name psk;
  sync_file : forall name, plain_name name ->
    is_Some (fs !! (udir s ++ SLASH :: (name ++ str ".key"))) ->
    exists psk, users s !! psk = Some name;
  sync_utf8 : forall name, (SLASH ∉ name) -> name <> [] ->
    is_Some (fs !! (udir s ++ SLASH :: (name ++ str ".key"))) -> utf8_valid name = true
}.

Lemma key_file_inj fs dir name psk psk' :
  key_file fs dir name psk -> key_file fs dir name psk' -> psk = psk'.
Proof. intros (c & Hc & _ & Hp) (c' & Hc' & _ & Hp'). congruence. Qed.

(** One user, one key: the table is injective both ways. *)
Lemma in_sync_inj s fs psk psk' name :
  in_sync s fs -> users s !! psk = Some name -> users s !! psk' = Some name -> psk = psk'.
Proof.
  intros Hs H1 H2. apply (sync_user _ _ Hs) in H1 as [_ H1], H2 as [_ H2].
  by eapply key_file_inj.
Qed.

Lemma load_loop_key name psk c es m :
  plain_name name -> parse_hex (trim c) = Some (Ok psk) ->
  load_loop (Entry (name ++ str ".key") (Some c) :: es) m =
  load_loop es (if decide (is_Some (m !! psk)) then m else <[psk:=name]> m).
Proof.
  intros (Hne & _ & Hu) Hp. cbn [load_loop]. unfold extension, file_stem.
  rewrite split_name_key by done. cbn [mbind option_bind]. unfold to_str. rewrite Hu.
  change (utf8_valid (str "key")) with true. cbv iota.
  rewrite decide_False by (intros H; by destruct H). rewrite Hp. cbn [mbind option_bind].
  by case_decide.
Qed.

Lemma load_loop_other n c es m :
  extension n <> Some (str "key") -> load_loop (Entry n c :: es) m = load_loop es m.
Proof.
  intros He. cbn [load_loop]. rewrite decide_True; [done|]. intros H. apply He.
  destruct (extension n) as [e|]; [|done]. simpl in H. unfold to_str in H.
  destruct (utf8_valid e); congruence.
Qed.

(** The loop over files the table agrees with: it never fails, keeps below the
    table, and ends up with every user whose file it has seen. *)
Lemma load_loop_sync s fs l : in_sync s fs ->
  (forall n c, (n, c) ∈ l -> fs !! (udir s ++ SLASH :: n) = Some c /\ SLASH ∉ n) ->
  forall m, m ⊆ users s ->
  exists r, load_loop ((fun e => Entry e.1 (if utf8_valid e.2 then Some e.2 else None)) <$> l) m
      = Some (Ok r) /\ m ⊆ r /\ r ⊆ users s /\
    forall name psk, (name ++ str ".key") ∈ l.*1 -> users s !! psk = Some name ->
      r !! psk = Some name.
Proof.
  intros Hs. induction l as [|[n c] l IH]; intros Hl m Hm.
  { exists m. split; [done|]. split; [done|]. split; [done|]. intros ? ? H. by apply elem_of_nil in H. }
  destruct (Hl n c) as [Hc Hn]; [by left|].
  assert (Hl' : forall n c, (n, c) ∈ l -> fs !! (udir s ++ SLASH :: n) = Some c /\ SLASH ∉ n)
    by (intros; apply Hl; by right).
  rewrite fmap_cons. cbn [fst snd].
  destruct (decide (extension n = Some (str "key"))) as [He|He].
  - destruct (split_name_key_inv _ He) as (name & Hne & ->).
    assert (Hu : utf8_valid name = true).
    { eapply sync_utf8; [done| |done|by eexists]. set_solver. }
    assert (Hpl : plain_name name) by (split; [done|]; split; [set_solver|done]).
    destruct (sync_file _ _ Hs name) as [psk Hpsk]; [done|by eexists|].
    destruct (sync_user _ _ Hs _ _ Hpsk) as (_ & c' & Hc' & Hu' & Hp).
    rewrite Hc' in Hc. injection Hc as ->. rewrite Hu'.
    rewrite (load_loop_key name psk) by done.
    set (m' := if decide _ then _ else _).
    assert (Hm' : m ⊆ m' /\ m' ⊆ users s /\ m' !! psk = Some name).
    { subst m'. case_decide as Hd.
      - split; [done|]. split; [done|]. destruct Hd as [x Hx].
        pose proof (lookup_weaken _ _ _ _ Hx Hm). congruence.
      - split; [|split; [by apply insert_subseteq_l|by rewrite lookup_insert_eq]].
        apply insert_subseteq. by apply eq_None_not_Some. }
    destruct Hm' as (Hmm & Hm' & Hin).
    destruct (IH Hl' m' Hm') as (r & Hr & Hmr & Hru & Hall).
    exists r. split; [done|]. split; [by etrans|]. split; [done|].
    intros name' psk' H0 Hp'. rewrite fmap_cons in H0. apply elem_of_cons in H0 as [H0|H0].
    + simpl in H0. apply app_inv_tail in H0 as ->.
      rewrite (in_sync_inj _ _ _ _ _ Hs Hp' Hpsk). by eapply lookup_weaken.
    + by apply Hall.
  - rewrite load_loop_other by done. destruct (IH Hl' m Hm) as (r & Hr & Hmr & Hru & Hall).
    exists r. split; [done|]. split; [done|]. split; [done|].
    intros name' psk' H0 Hp'. rewrite fmap_cons in H0. apply elem_of_cons in H0 as [H0|H0].
    + simpl in H0. subst n. destruct He.
      destruct (sync_user _ _ Hs _ _ Hp') as ((Hne & _) & _).
      unfold extension. by rewrite split_name_key.
    + by apply Hall.
Qed.

Lemma load_in_sync s fs entries :
  in_sync s fs -> lists fs (udir s) entries -> load (udir s) true (Some entries) = Some (Ok s).
Proof.
  intros Hs (l & -> & Hl). unfold load. simpl.
  destruct (load_loop_sync s fs l Hs) with (m := (∅ : gmap bytes bytes)) as (r & -> & _ & Hru & Hall).
  - intros n c H%Hl. naive_solver.
  - apply map_empty_subseteq.
  - simpl. do 2 f_equal. destruct s as [us d]; simpl in *. f_equal.
    apply map_eq. intros psk. destruct (us !! psk) as [name|] eqn:E.
    + apply Hall; [|done]. destruct (sync_user _ _ Hs _ _ E) as ((Hne & Hsl & _) & c & Hc & _).
      apply list_elem_of_fmap. exists (name ++ str ".key", c). split; [done|]. apply Hl.
      split; [done|]. split; [|by destruct name]. rewrite elem_of_app. intros [?|Hk]; [done|].
      vm_compute in Hk. set_solver.
    + destruct (r !! psk) eqn:Er; [|done]. pose proof (lookup_weaken _ _ _ _ Er Hru). congruence.
Qed.

(** A file [.key] belongs to no user: the directory still agrees with the table. *)
Lemma nameless_key_sync s fs c :
  in_sync s fs -> in_sync s (<[udir s ++ SLASH :: str ".key":=c]> fs).
Proof.
  intros [Hu Hf H8].
  assert (Hne : forall name, name <> [] -> udir s ++ SLASH :: str ".key" <> udir s ++ SLASH :: (name ++ str ".key")).
  { intros name Hn [= Hk]%app_inv_head. apply Hn. by apply (app_inv_tail (str ".key") [] name) in Hk. }
  split.
  - intros psk name Hp. destruct (Hu psk name Hp) as [Hpl (c' & Hc & ?)]. split; [done|]. exists c'.
    split; [|done]. rewrite lookup_insert_ne; [done|]. apply Hne, Hpl.
  - intros name Hpl. rewrite lookup_insert_ne by (apply Hne, Hpl). by apply Hf.
  - intros name Hs Hn. rewrite lookup_insert_ne by (by apply Hne). by apply H8.
Qed.

(** ** Changing the table *)

Section changes.
Context `{HashIterOk}.

Lemma iter_in (m : gmap bytes bytes) psk name :
  (psk, name) ∈ hash_iter m <-> m !! psk = Some name.
Proof. rewrite hash_iter_perm. apply elem_of_map_to_list. Qed.

Lemma user_absent m name :
  existsb (fun e => bool_decide (e.2 = name)) (hash_iter m) = false <->
  forall psk, m !! psk <> Some name.
Proof.
  split.
  - intros Hf psk Hp%iter_in. apply not_true_iff_false in Hf. apply Hf, existsb_exists.
    exists (psk, name). rewrite <-list_elem_of_In. split; [done|]. by apply bool_decide_true.
  - intros Hall. apply not_true_iff_false. intros ([psk n] & Hin & Hn)%existsb_exists.
    simpl in Hn. boolify. subst n. apply list_elem_of_In, iter_in in Hin. by eapply Hall.
Qed.

Lemma user_found m name :
  match List.find (fun e => bool_decide (e.2 = name)) (hash_iter m) with
  | None => forall psk, m !! psk <> Some name
  | Some (psk, n) => n = name /\ m !! psk = Some name
  end.
Proof.
  destruct (List.find _ _) as [[psk n]|] eqn:E.
  - apply List.find_some in E as [Hin Hn]. simpl in Hn. boolify. subst n. split; [done|].
    apply iter_in. by apply list_elem_of_In.
  - intros psk Hp%iter_in. apply list_elem_of_In in Hp.
    pose proof (List.find_none _ _ E _ Hp) as Hf. simpl in Hf. by boolify.
Qed.

Lemma add_user_sync name psk s fs hex s' fs' :
  in_sync s fs -> plain_name name -> length psk = 32%nat -> users s !! psk = None ->
  add_user name psk true s fs = (Ok hex, s', fs') ->
  in_sync s' fs' /\ users s' = <[psk:=name]> (users s) /\ hex = to_hex psk.
Proof.
  intros Hs Hpl Hlen Hnew. unfold add_user. destruct (existsb _ _) eqn:E; [done|].
  simpl negb. cbv iota. intros [= <- <- <-]. split; [|done].
  rewrite user_absent in E. rewrite key_path_plain by done. split; simpl.
  - intros psk' name'. rewrite lookup_insert_Some. intros [[<- <-]|[Hne Hu]].
    + split; [done|]. exists (to_hex psk). rewrite lookup_insert_eq. split; [done|].
      split; [apply to_hex_utf8|]. rewrite trim_to_hex.
      rewrite <-(app_nil_l (to_hex psk)), <-(app_nil_r (to_hex psk)).
      apply parse_to_hex; done.
    + destruct (sync_user _ _ Hs _ _ Hu) as (Hpl' & c & Hc & Hrest). split; [done|].
      exists c. rewrite lookup_insert_ne; [done|]. intros Heq. simplify_list_eq.
      by eapply E.
  - intros name' Hpl' [c Hc]. apply lookup_insert_Some in Hc as [[Heq _]|[Hne Hc]].
    + simplify_list_eq. exists psk. by rewrite lookup_insert_eq.
    + destruct (sync_file _ _ Hs name' Hpl') as [psk' Hp']; [by eexists|].
      exists psk'. rewrite lookup_insert_ne; [done|]. congruence.
  - intros name' Hsl Hne [c Hc]. apply lookup_insert_Some in Hc as [[Heq _]|[_ Hc]].
    + simplify_list_eq. by destruct Hpl as (_ & _ & ?).
    + eapply sync_utf8; [done|done|done|by eexists].
Qed.

Lemma remove_user_sync name s fs s' fs' :
  in_sync s fs -> remove_user name true s fs = (Ok tt, s', fs') ->
  in_sync s' fs' /\ forall psk, users s' !! psk <> Some name.
Proof.
  intros Hs. unfold remove_user. pose proof (user_found (users s) name) as Hf.
  destruct (List.find _ _) as [[psk n]|]; [|done]. destruct Hf as [-> Hpsk].
  destruct (sync_user _ _ Hs _ _ Hpsk) as (Hpl & c & Hc & Hu & Hp).
  rewrite key_path_plain by done. simpl. rewrite decide_True by (by eexists).
  intros [= <- <-]. simpl. split.
  - split; simpl.
    + intros psk' name' [Hne Hu']%lookup_delete_Some.
      destruct (sync_user _ _ Hs _ _ Hu') as (Hpl' & c' & Hc' & Hrest). split; [done|].
      exists c'. rewrite lookup_delete_ne; [done|]. intros Heq. simplify_list_eq.
      by pose proof (in_sync_inj _ _ _ _ _ Hs Hpsk Hu').
    + intros name' Hpl' [c' [Hne Hc']%lookup_delete_Some].
      destruct (sync_file _ _ Hs name' Hpl') as [psk' Hp']; [by eexists|].
      exists psk'. rewrite lookup_delete_ne; [done|]. intros ->. congruence.
    + intros name' Hsl Hne [c' [_ Hc']%lookup_delete_Some].
      eapply sync_utf8; [done|done|done|by eexists].
  - intros psk' [Hne Hu']%lookup_delete_Some. apply Hne. by eapply in_sync_inj.
Qed.
End changes.

Lemma trial_sound `{Hmac} it nonce mac u :
  trial it nonce mac = Some u ->
  exists psk, (psk, u) ∈ it /\ hmac_sha256 psk nonce = mac.
Proof.
  induction it as [|[k n] it IH]; [done|]. simpl. unfold verify_slice.
  case_bool_decide as E; [intros [= <-]; exists k; split; [by left|done]|].
  intros (psk & Hin & Hm)%IH. exists psk. split; [by right|done].
Qed.

Lemma trial_complete `{Hmac} it nonce psk u :
  (psk, u) ∈ it -> exists u', trial it nonce (hmac_sha256 psk nonce) = Some u'.
Proof.
  induction it as [|[k n] it IH]; [intros H0; by apply elem_of_nil in H0|]. simpl.
  unfold verify_slice.
  case_bool_decide as E; [by eexists|]. intros [[= -> ->]|Hin]%elem_of_cons; [done|by apply IH].
Qed.

(** ** Theorems *)

(** The key directory and the table stay in step. From a state where they agree,
    [add_user] (with a name that is one file of the directory and a key not in use)
    and [remove_user] lead to a state where they agree again; loading the directory
    then gives the table held in memory, whatever order the files are listed in, so
    [reload] changes nothing; and a removed name has no key left in the table. *)
Theorem user_table_in_sync `{HashIterOk} s fs :
  in_sync s fs ->
  (forall entries, lists fs (udir s) entries ->
     reload s true (Some entries) = Some (Ok tt, s)) /\
  (forall name psk hex s' fs', plain_name name -> length psk = 32%nat ->
     users s !! psk = None -> add_user name psk true s fs = (Ok hex, s', fs') ->
     in_sync s' fs' /\ users s' = <[psk:=name]> (users s) /\ hex = to_hex psk) /\
  (forall name s' fs', remove_user name true s fs = (Ok tt, s', fs') ->
     in_sync s' fs' /\ forall psk, users s' !! psk <> Some name).
Proof.
  intros Hs. split; [|split].
  - intros entries He. unfold reload. rewrite (load_in_sync s fs) by done. simpl.
    by destruct s.
  - intros. by eapply add_user_sync.
  - intros. by eapply remove_user_sync.
Qed.

#[local] Instance list_iter : HashIter := map_to_list.
Lemma list_iter_ok : @HashIterOk list_iter.
Proof. intros m. reflexivity. Defined.

Lemma empty_in_sync : in_sync (mkStore ∅ (str "/u")) ∅.
Proof. split; simpl; [done|intros ? _ [? ?]; done|intros ? _ _ [? ?]; done]. Defined.

Lemma user_table_in_sync_witness :
  exists s' fs',
    @add_user list_iter (str "alice") (replicate 32 x07) true (mkStore ∅ (str "/u")) ∅
      = (Ok (to_hex (replicate 32 x07)), s', fs') /\ in_sync s' fs'.
Proof.
  destruct (@user_table_in_sync list_iter list_iter_ok (mkStore ∅ (str "/u")) ∅ empty_in_sync)
    as (_ & Hadd & _).
  assert (E : @add_user list_iter (str "alice") (replicate 32 x07) true (mkStore ∅ (str "/u")) ∅ =
    (Ok (to_hex (replicate 32 x07)), mkStore (<[replicate 32 x07:=str "alice"]> ∅) (str "/u"),
     <[key_path (mkStore ∅ (str "/u")) (str "alice") := to_hex (replicate 32 x07)]> ∅)).
  { unfold add_user, hash_iter, list_iter. cbn [users]. by rewrite map_to_list_empty. }
  eexists _, _. split; [exact E|].
  refine (proj1 (Hadd (str "alice") (replicate 32 x07) _ _ _ _ eq_refl (lookup_empty _) E)).
  split; [by intros [=]|]. split; [|vm_compute; reflexivity].
  apply (bool_decide_eq_true_1 (SLASH ∉ str "alice")). vm_compute. reflexivity.
Defined.

(** Multi-user authentication: a MAC is accepted only when it is the HMAC of the
    nonce under a key of the table, and the name returned is that key's; every user
    of the table is accepted with the MAC of its own key, under its own name when no
    other key of the table gives the same tag. *)
Theorem user_store_auth_spec `{HmacOk, HashIterOk} (s : UserStore) nonce :
  (forall m u, verify_auth s nonce m = Some u ->
     exists psk, users s !! psk = Some u /\ hmac_sha256 psk nonce = m) /\
  (forall psk u, users s !! psk = Some u ->
     is_Some (verify_auth s nonce (hmac_sha256 psk nonce)) /\
     ((forall psk' u', users s !! psk' = Some u' ->
         hmac_sha256 psk' nonce = hmac_sha256 psk nonce -> psk' = psk) ->
      verify_auth s nonce (hmac_sha256 psk nonce) = Some u)).
Proof.
  unfold verify_auth, users_authenticator, UserStore_verify.
  assert (Hsound : forall m u, trial (hash_iter (users s)) nonce m = Some u ->
     exists psk, users s !! psk = Some u /\ hmac_sha256 psk nonce = m).
  { intros m u (psk & Hin & Hm)%trial_sound. exists psk. split; [by apply iter_in|done]. }
  split; [done|]. intros psk u Hu.
  destruct (trial_complete (hash_iter (users s)) nonce psk u) as [u' Hu'];
    [by apply iter_in|]. split; [by eexists|]. intros Huniq.
  destruct (Hsound _ _ Hu') as (psk' & Hp' & He).
  rewrite (Huniq _ _ Hp' He) in Hp'. congruence.
Qed.

#[local] Instance toy_hmac2 : Hmac := fun key msg => take 32 (key ++ msg ++ replicate 32 x00).
Lemma toy_hmac2_ok : @HmacOk toy_hmac2.
Proof.
  intros key msg. unfold hmac_sha256, toy_hmac2.
  rewrite length_take, !length_app, length_replicate. lia.
Defined.

Lemma user_store_auth_spec_witness :
  is_Some (@verify_auth UserStore (@users_authenticator toy_hmac2 list_iter)
    (mkStore {[ replicate 32 x07 := str "alice" ]} (str "/u")) [x01]
    (@hmac_sha256 toy_hmac2 (replicate 32 x07) [x01])).
Proof.
  destruct (@user_store_auth_spec toy_hmac2 toy_hmac2_ok list_iter list_iter_ok
    (mkStore {[ replicate 32 x07 := str "alice" ]} (str "/u")) [x01]) as [_ Hc].
  apply (Hc (replicate 32 x07) (str "alice")). simpl. apply lookup_singleton_eq.
Defined.
