(* ===== verification/IpPool.v ===== *)
(** The address allocator of the VPN subnet ([ip_pool.rs]), and the interface it
    offers to the server: class [Allocator], an allocator of addresses as the set of
    the addresses it has given out. *)

From S2P Require Import Prelude Datagram.

(** [base] is the first three octets, [allocated] the hosts given out. *)
Record IpPool := mkPool { base : byte * byte * byte; allocated : gset byte }.

Definition pool_new (b : Ipv4Addr) : IpPool := mkPool (oct0 b, oct1 b, oct2 b) ∅.

(** [2..=254u8] *)
Definition hosts : list byte := z2b <$> seqZ 2 253.

Definition host_ip (base : byte * byte * byte) (host : byte) : Ipv4Addr :=
  let '(a, b, c) := base in mkIp a b c host.

(** The [for] loop of [allocate]. *)
Fixpoint allocate_loop (hs : list byte) (s : IpPool) : option Ipv4Addr * IpPool :=
  match hs with
  | [] => (None, s)
  | host :: hs =>
      if negb (bool_decide (host ∈ allocated s))
      then (Some (host_ip (base s) host), mkPool (base s) ({[host]} ∪ allocated s))
      else allocate_loop hs s
  end.

Definition allocate (s : IpPool) : option Ipv4Addr * IpPool := allocate_loop hosts s.

Definition same_base (s : IpPool) (ip : Ipv4Addr) : bool :=
  let '(a, b, c) := base s in
  bool_decide (oct0 ip = a) && bool_decide (oct1 ip = b) && bool_decide (oct2 ip = c).

Definition release (ip : Ipv4Addr) (s : IpPool) : IpPool :=
  if same_base s ip then mkPool (base s) (allocated s ∖ {[oct3 ip]}) else s.

Definition is_allocated (s : IpPool) (ip : Ipv4Addr) : bool :=
  if same_base s ip then bool_decide (oct3 ip ∈ allocated s) else false.

Definition pool_len (s : IpPool) : Z := Z.of_nat (size (allocated s)).
Definition pool_is_empty (s : IpPool) : bool := bool_decide (allocated s = ∅).

(** ** The interface *)

(** What a pool of addresses promises: [held] is what it has given out, [span] all
    it can ever give out. *)
Class Allocator (P : Type) := {
  alloc : P -> option Ipv4Addr * P;
  free : Ipv4Addr -> P -> P;
  held : P -> gset Ipv4Addr;
  span : P -> gset Ipv4Addr
}.
Class AllocatorOk (P : Type) `{Allocator P} := {
  alloc_some : forall p ip p', alloc p = (Some ip, p') ->
    (ip ∉ held p) /\ ip ∈ span p /\ held p' = {[ip]} ∪ held p /\ span p' = span p;
  alloc_none : forall p p', alloc p = (None, p') -> p' = p /\ span p ⊆ held p;
  free_held : forall p ip, held (free ip p) = held p ∖ {[ip]} /\ span (free ip p) = span p
}.

(** ** The pool implements it *)

Definition pool_held (s : IpPool) : gset Ipv4Addr := set_map (host_ip (base s)) (allocated s).
Definition pool_span (s : IpPool) : gset Ipv4Addr :=
  list_to_set (host_ip (base s) <$> hosts).

#[export] Instance pool_allocator : Allocator IpPool :=
  { alloc := allocate; free := release; held := pool_held; span := pool_span }.

Lemma alloc_pool (s : IpPool) : alloc s = allocate s.
Proof. reflexivity. Qed.

Lemma free_pool ip (s : IpPool) : free ip s = release ip s.
Proof. reflexivity. Qed.

Lemma host_ip_inj b h h' : host_ip b h = host_ip b h' -> h = h'.
Proof. destruct b as [[? ?] ?]. by intros [=]. Qed.

Lemma same_base_true s ip : same_base s ip = true <-> ip = host_ip (base s) (oct3 ip).
Proof.
  unfold same_base, host_ip. destruct (base s) as [[a b] c], ip as [x y z h]; simpl.
  rewrite !andb_true_iff, !bool_decide_eq_true. naive_solver.
Qed.

Lemma elem_of_pool_held s ip :
  ip ∈ pool_held s <-> same_base s ip = true /\ oct3 ip ∈ allocated s.
Proof.
  unfold pool_held. rewrite elem_of_map, same_base_true. split.
  - intros (h & -> & Hh). destruct (base s) as [[? ?] ?]. done.
  - intros [E Hh]. eauto.
Qed.

(** [allocate] takes the lowest free host. *)
Lemma allocate_loop_spec hs s :
  (exists pre h post, hs = pre ++ h :: post /\ Forall (fun x => x ∈ allocated s) pre /\
     (h ∉ allocated s) /\
     allocate_loop hs s =
       (Some (host_ip (base s) h), mkPool (base s) ({[h]} ∪ allocated s)))
  \/ (Forall (fun x => x ∈ allocated s) hs /\ allocate_loop hs s = (None, s)).
Proof.
  induction hs as [|h hs IH]; [by right|]. simpl.
  case_bool_decide as Hh; simpl.
  - destruct IH as [(pre & h' & post & -> & Hpre & Hh' & ->)|[Hall ->]].
    + left. exists (h :: pre), h', post. auto.
    + right. auto.
  - left. by exists [], h, hs.
Qed.

#[export] Instance pool_allocator_ok : AllocatorOk IpPool.
Proof.
  split; unfold alloc, free, held, span, pool_allocator.
  - intros s ip s' E. unfold allocate in E.
    destruct (allocate_loop_spec hosts s) as [(pre & h & post & Hs & _ & Hh & Ha)|[_ Ha]];
      rewrite Ha in E; [|done]. injection E as <- <-.
    split; [|split; [|split]].
    + unfold pool_held. rewrite elem_of_map. intros (h' & E & Hh').
      apply host_ip_inj in E. congruence.
    + unfold pool_span. rewrite Hs. set_solver.
    + unfold pool_held. simpl. by rewrite set_map_union_L, set_map_singleton_L.
    + done.
  - intros s s' E. unfold allocate in E.
    destruct (allocate_loop_spec hosts s) as [(? & ? & ? & _ & _ & _ & Ha)|[Hall Ha]];
      rewrite Ha in E; [done|]. injection E as <-. split; [done|].
    intros ip. unfold pool_span, pool_held. rewrite elem_of_list_to_set, list_elem_of_fmap, elem_of_map.
    intros (h & -> & Hh). exists h. split; [done|]. by eapply Forall_forall in Hall.
  - intros s ip. split; [|by unfold release; case_match]. apply set_eq. intros x.
    rewrite elem_of_difference, elem_of_singleton, !elem_of_pool_held.
    unfold release. destruct (same_base s ip) eqn:E.
    + change (same_base (mkPool (base s) (allocated s ∖ {[oct3 ip]})) x) with (same_base s x).
      cbn [allocated]. rewrite elem_of_difference, elem_of_singleton. split.
      * intros (Hx & Hin & Hne). split; [done|]. by intros ->.
      * intros [[Hx Hin] Hne]. split; [done|]. split; [done|]. intros He. apply Hne.
        apply same_base_true in E, Hx. rewrite E, Hx. by rewrite He.
    + split; [|by intros [? ?]]. intros Hx. split; [done|]. intros ->. by destruct Hx as [Hx _]; rewrite E in Hx.
Qed.

(** ** Capacity *)

(** Only hosts of the range are ever given out. *)
Definition pool_wf (s : IpPool) : Prop := allocated s ⊆ list_to_set hosts.

Lemma hosts_NoDup : NoDup hosts.
Proof. apply (bool_decide_eq_true_1 (NoDup hosts)). vm_compute. reflexivity. Qed.
Lemma hosts_length : length hosts = 253%nat.
Proof. vm_compute. reflexivity. Qed.

Lemma pool_wf_full s :
  pool_wf s -> Forall (fun x => x ∈ allocated s) hosts <-> pool_len s = 253.
Proof.
  unfold pool_wf, pool_len. intros Hwf.
  assert (Hsz : size (list_to_set hosts : gset byte) = 253%nat)
    by (rewrite size_list_to_set by apply hosts_NoDup; apply hosts_length).
  split.
  - intros Hall. enough (allocated s = list_to_set hosts) as -> by lia.
    apply set_eq. intros x. split; [apply Hwf|]. rewrite elem_of_list_to_set. intros Hx.
    by eapply Forall_forall in Hall.
  - intros Hlen. apply Forall_forall. intros x Hx.
    destruct (decide (x ∈ allocated s)) as [|Hn]; [done|].
    assert (allocated s ⊂ list_to_set hosts) as Hss.
    { split; [done|]. intros Hsub. apply Hn, Hsub. by apply elem_of_list_to_set. }
    apply subset_size in Hss. lia.
Qed.

Lemma allocate_wf s o s' : pool_wf s -> allocate s = (o, s') -> pool_wf s'.
Proof.
  unfold pool_wf, allocate. intros Hwf E.
  destruct (allocate_loop_spec hosts s) as [(pre & h & post & Hs & _ & _ & Ha)|[_ Ha]];
    rewrite Ha in E; injection E as <- <-; [|done]. cbn [allocated].
  apply union_subseteq. split; [|done]. apply singleton_subseteq_l, elem_of_list_to_set.
  rewrite Hs. apply elem_of_app. right. by left.
Qed.

Lemma release_wf s ip : pool_wf s -> pool_wf (release ip s).
Proof. unfold pool_wf, release. case_match; [|done]. cbn [allocated].
  etrans; [apply subseteq_difference_l|]; done. Qed.


(** ** Theorems *)

(** [C21] The pool refines a set of addresses. [allocate] gives an address of the /24
    between .2 and .254 that nobody holds and marks exactly it; it fails, changing
    nothing, exactly when all 253 are held; [release] frees exactly its argument, so
    that the address can be given out again; and these stay true in every state the
    operations lead to. *)
Theorem ip_pool_refines_set s :
  pool_wf s ->
  (forall ip s', allocate s = (Some ip, s') ->
     is_allocated s ip = false /\ held s' = {[ip]} ∪ held s /\
     2 <= b2z (oct3 ip) <= 254 /\ same_base s ip = true /\ pool_wf s') /\
  (forall s', allocate s = (None, s') <-> s' = s /\ pool_len s = 253) /\
  (forall ip, held (release ip s) = held s ∖ {[ip]} /\ pool_wf (release ip s)) /\
  (forall ip, is_allocated s ip = true <-> ip ∈ held s).
Proof.
  intros Hwf.
  assert (Hheld : forall ip, is_allocated s ip = true <-> ip ∈ held s).
  { intros ip. unfold held, pool_allocator, is_allocated. rewrite elem_of_pool_held.
    destruct (same_base s ip); [rewrite bool_decide_eq_true|]; naive_solver. }
  split; [|split; [|split; [|done]]].
  - intros ip s' E. pose proof E as E'. rewrite <-alloc_pool in E'. destruct (alloc_some _ _ _ E') as (Hn & Hr & Hh & _).
    split; [by apply not_true_iff_false; rewrite Hheld|]. split; [done|].
    apply elem_of_list_to_set, list_elem_of_fmap in Hr as (h & -> & Hin).
    split; [|split; [by apply same_base_true; destruct (base s) as [[? ?] ?]|by eapply allocate_wf]].
    unfold hosts in Hin. apply list_elem_of_fmap in Hin as (z & -> & Hz%elem_of_seqZ).
    destruct (base s) as [[? ?] ?]. simpl. rewrite b2z_z2b, wrap_small; lia.
  - intros s'. unfold allocate.
    destruct (allocate_loop_spec hosts s) as [(pre & h & post & Hs & _ & Hh & ->)|[Hall ->]].
    + split; [done|]. intros [_ Hlen%pool_wf_full]; [|done]. rewrite Forall_forall in Hlen.
      destruct Hh. apply Hlen. rewrite Hs. apply elem_of_app. right. by left.
    + apply pool_wf_full in Hall; [|done]. naive_solver.
  - intros ip. split; [|by apply release_wf]. rewrite <-free_pool. apply free_held.
Qed.

Definition ex_pool : IpPool := pool_new (ip4 10 0 1 0).

Lemma ip_pool_refines_set_witness :
  allocate ex_pool = (Some (ip4 10 0 1 2), mkPool (base ex_pool) {[ z2b 2 ]}) /\
  is_allocated ex_pool (ip4 10 0 1 2) = false.
Proof.
  assert (E : allocate ex_pool = (Some (ip4 10 0 1 2), mkPool (base ex_pool) {[ z2b 2 ]}))
    by (vm_compute; reflexivity).
  split; [exact E|].
  destruct (ip_pool_refines_set ex_pool) as [H _]; [|exact (proj1 (H _ _ E))].
  apply empty_subseteq.
Defined.
