(* ===== verification/Priority.v ===== *)
(** Packet classification and the two-lane queue of a client ([priority.rs]).

    The queue is shared by the TUN reader, which pushes, and the client's sender
    task, which pops; both lanes have a lock of their own and [Notify] wakes the
    sender. Module [Wakeup] interleaves the critical sections. *)

From S2P Require Import Prelude Datagram.

Inductive Priority := Realtime | Bulk.

#[export] Instance priority_eq_dec : EqDecision Priority.
Proof. solve_decision. Defined.

Definition classify (packet : bytes) : panics Priority :=
  if zlen packet <? 20 then Some Bulk
  else
    b0 ← packet !! 0%nat;
    if negb (nibble b0 =? 4) then Some Bulk
    else
      b1 ← packet !! 1%nat;
      let dscp := Z.shiftr (b2z b1) 2 in
      if dscp =? 46 then Some Realtime
      else
        protocol ← packet !! 9%nat;
        if negb (b2z protocol =? 17) then Some Bulk
        else
          let ihl := Z.land (b2z b0) 15 * 4 in
          if zlen packet <? ihl + 4 then Some Bulk
          else
            hi ← packet !! Z.to_nat (ihl + 2);
            lo ← packet !! Z.to_nat (ihl + 3);
            let dst_port := u16_from_be_bytes hi lo in
            if dst_port =? 53 then Some Realtime
            else if zlen packet <? 300 then Some Realtime
            else Some Bulk.

(** [Duration::from_millis(10)], in nanoseconds; an [Instant] is nanoseconds of the
    monotonic clock. *)
Definition REALTIME_MAX_AGE : Z := 10 * 1000000.

Record PriorityQueue := mkQueue {
  realtime : list (Z * bytes);
  bulk : list bytes;
  capacity : Z
}.

Definition queue_new (capacity : Z) : PriorityQueue := mkQueue [] [] capacity.

(** The critical section of [push] at time [now]; [notify_one] follows when it
    returns [true]. *)
Definition push (now : Z) (packet : bytes) (priority : Priority) (q : PriorityQueue)
    : bool * PriorityQueue :=
  match priority with
  | Realtime =>
      if capacity q / 4 <=? zlen (realtime q) then (false, q)
      else (true, mkQueue (realtime q ++ [(now, packet)]) (bulk q) (capacity q))
  | Bulk =>
      if capacity q <=? zlen (bulk q) then (false, q)
      else (true, mkQueue (realtime q) (bulk q ++ [packet]) (capacity q))
  end.

(** [now.duration_since(ts) <= REALTIME_MAX_AGE]; [duration_since] saturates. *)
Definition fresh (now ts : Z) : bool := sat_sub now ts <=? REALTIME_MAX_AGE.

(** The [while let] loop over the realtime lane. *)
Fixpoint pop_realtime (now : Z) (l : list (Z * bytes)) : option bytes * list (Z * bytes) :=
  match l with
  | [] => (None, [])
  | (ts, pkt) :: l => if fresh now ts then (Some pkt, l) else pop_realtime now l
  end.

Definition pop_bulk (l : list bytes) : option bytes * list bytes :=
  match l with [] => (None, []) | p :: l => (Some p, l) end.

Definition try_pop (now : Z) (q : PriorityQueue) : option bytes * PriorityQueue :=
  let '(o, rt) := pop_realtime now (realtime q) in
  match o with
  | Some pkt => (Some pkt, mkQueue rt (bulk q) (capacity q))
  | None =>
      let '(o, bk) := pop_bulk (bulk q) in
      (o, mkQueue rt bk (capacity q))
  end.

(** ** Classification *)

Lemma land15_range x : 0 <= Z.land x 15 < 16.
Proof. change 15 with (Z.ones 4). rewrite Z.land_ones by lia. apply Z.mod_pos_bound. lia. Qed.

(** What the IPv4 header and the UDP header say of a packet. *)
Definition ipv4_header (p : bytes) : Prop :=
  20 <= zlen p /\ exists b, p !! 0%nat = Some b /\ nibble b = 4.
Definition dscp_ef (p : bytes) : Prop :=
  exists b, p !! 1%nat = Some b /\ Z.shiftr (b2z b) 2 = 46.
Definition udp_to (p : bytes) (port : Z) : Prop :=
  exists b0 hi lo, p !! 0%nat = Some b0 /\ p !! 9%nat = Some (z2b 17) /\
    p !! Z.to_nat (Z.land (b2z b0) 15 * 4 + 2) = Some hi /\
    p !! Z.to_nat (Z.land (b2z b0) 15 * 4 + 3) = Some lo /\ u16_from_be_bytes hi lo = port.

Lemma udp_to_fun p x y : udp_to p x -> udp_to p y -> x = y.
Proof. unfold udp_to. naive_solver. Qed.

Lemma classify_spec p :
  exists r, classify p = Some r /\
    (r = Realtime <-> ipv4_header p /\
       (dscp_ef p \/ exists port, udp_to p port /\ (port = 53 \/ zlen p < 300))).
Proof.
  unfold classify. destruct (zlen p <? 20) eqn:E20; boolify.
  { exists Bulk. split; [done|]. split; [done|]. intros [[? _] _]. lia. }
  destruct (lookup_total_panics p 0) as [b0 H0]; [len|]. rewrite H0. simpl.
  destruct (nibble b0 =? 4) eqn:E4; boolify; simpl.
  2: { exists Bulk. split; [done|]. split; [done|]. intros [(_ & b & Hb & ?) _]. congruence. }
  assert (Hip : ipv4_header p) by (split; [lia|]; by exists b0).
  destruct (lookup_total_panics p 1) as [b1 H1]; [len|]. rewrite H1. simpl.
  destruct (_ =? 46) eqn:Ed; boolify.
  { exists Realtime. split; [done|]. split; [|done]. intros _. split; [done|]. left. by exists b1. }
  assert (Hef : ~ dscp_ef p) by (intros (b & Hb & ?); congruence).
  destruct (lookup_total_panics p 9) as [pr H9]; [len|]. rewrite H9. simpl.
  destruct (b2z pr =? 17) eqn:E17; boolify; simpl.
  2: { exists Bulk. split; [done|]. split; [done|].
       intros [_ [?|(port & (? & ? & ? & _ & Hu & _) & _)]]; [done|].
       rewrite H9 in Hu. injection Hu as ->. by rewrite b2z_z2b in E17. }
  pose proof (land15_range (b2z b0)) as Hr. set (ihl := Z.land (b2z b0) 15 * 4) in *.
  destruct (zlen p <? ihl + 4) eqn:El; boolify.
  { exists Bulk. split; [done|]. split; [done|].
    intros [_ [?|(port & (b & hi & lo & Hb & _ & _ & Hlo & _) & _)]]; [done|].
    rewrite H0 in Hb. injection Hb as <-. fold ihl in Hlo. apply lookup_lt_Some in Hlo. len. }
  destruct (lookup_total_panics p (Z.to_nat (ihl + 2))) as [hi Hhi]; [len|].
  destruct (lookup_total_panics p (Z.to_nat (ihl + 3))) as [lo Hlo]; [len|].
  rewrite Hhi, Hlo. simpl.
  assert (Hu : udp_to p (u16_from_be_bytes hi lo)).
  { exists b0, hi, lo. split; [done|]. split; [|done]. rewrite H9. f_equal.
    apply b2z_inj. by rewrite E17, b2z_z2b. }
  repeat split_if; eexists; (split; [done|]).
  - split; [|done]. intros _. eauto 6.
  - split; [|done]. intros _. eauto 6.
  - split; [done|]. intros [_ [?|(port & Hu' & Hp)]]; [done|]. rewrite (udp_to_fun _ _ _ Hu' Hu) in Hp. lia.
Qed.

(** ** The queue, sequentially *)

(** Lanes never grow over their bounds. *)
Definition queue_inv (q : PriorityQueue) : Prop :=
  0 <= capacity q /\ zlen (realtime q) <= capacity q / 4 /\ zlen (bulk q) <= capacity q.

Lemma push_inv now p pr q b q' : push now p pr q = (b, q') -> queue_inv q -> queue_inv q'.
Proof.
  unfold push, queue_inv. intros E (H0 & Hr & Hb).
  destruct pr; split_if_in E; injection E as <- <-; simpl; repeat split; try done; len.
Qed.

Lemma pop_realtime_spec now l o l' :
  pop_realtime now l = (o, l') ->
  exists stale, Forall (fun e => fresh now e.1 = false) stale /\
    match o with
    | Some p => exists ts, fresh now ts = true /\ l = stale ++ (ts, p) :: l'
    | None => l = stale /\ l' = []
    end.
Proof.
  induction l as [|[ts p] l IH]; simpl; [intros [= <- <-]; by exists []|].
  destruct (fresh now ts) eqn:E.
  - intros [= <- <-]. exists []. split; [done|]. by exists ts.
  - intros (stale & Hs & Ho)%IH. exists ((ts, p) :: stale). split; [by constructor|].
    destruct o; [destruct Ho as (? & ? & ->); eauto|by destruct Ho as [-> ->]].
Qed.

Lemma pop_realtime_length now l o l' :
  pop_realtime now l = (o, l') -> (length l' <= length l)%nat.
Proof.
  intros (stale & _ & Ho)%pop_realtime_spec. destruct o.
  - destruct Ho as (ts & _ & ->). rewrite length_app. simpl. lia.
  - destruct Ho as [_ ->]. simpl. lia.
Qed.

Lemma try_pop_inv now q o q' : try_pop now q = (o, q') -> queue_inv q -> queue_inv q'.
Proof.
  unfold try_pop, queue_inv. intros E (H0 & Hr & Hb).
  destruct (pop_realtime now (realtime q)) as [o1 rt] eqn:E1.
  apply pop_realtime_length in E1.
  assert (zlen rt <= zlen (realtime q)) by (unfold zlen; lia).
  destruct o1; [injection E as <- <-; simpl; lia|].
  destruct (bulk q) as [|x l] eqn:Eb; simpl in E; injection E as <- <-; simpl;
    (split; [done|]; split; [lia|]); len.
Qed.

(** ** Push, pop and wake-ups, interleaved *)

Module Wakeup.

(** Where the sender task is: outside [pop]; about to lock the realtime lane; about
    to lock the bulk lane; about to poll [notified()]; asleep; woken, not yet
    polled. *)
Inductive Consumer := Idle | AtRealtime | AtBulk | AtAwait | Waiting | Woken.

#[export] Instance consumer_eq_dec : EqDecision Consumer.
Proof. solve_decision. Defined.

(** [pending]: the [notify_one] calls that pushes still have to make; [permit]: the
    one [Notify] stores when nobody waits. *)
Record State := mkState {
  queue : PriorityQueue;
  now : Z;
  pending : nat;
  permit : bool;
  consumer : Consumer
}.

Definition init (cap : Z) : State := mkState (queue_new cap) 0 0 false Idle.

Inductive Event :=
  | Pushed (pr : Priority) (p : bytes) | Rejected (pr : Priority) (p : bytes)
  | Popped (pr : Priority) (p : bytes) | Silent.

Inductive step : State -> Event -> State -> Prop :=
  | step_tick s d : 0 <= d ->
      step s Silent (mkState (queue s) (now s + d) (pending s) (permit s) (consumer s))
  | step_push s p pr q' : push (now s) p pr (queue s) = (true, q') ->
      step s (Pushed pr p) (mkState q' (now s) (S (pending s)) (permit s) (consumer s))
  | step_reject s p pr q' : push (now s) p pr (queue s) = (false, q') ->
      step s (Rejected pr p) (mkState q' (now s) (pending s) (permit s) (consumer s))
  | step_notify s n : pending s = S n ->
      step s Silent
        (if decide (consumer s = Waiting)
         then mkState (queue s) (now s) n (permit s) Woken
         else mkState (queue s) (now s) n true (consumer s))
  | step_enter s : consumer s = Idle ->
      step s Silent (mkState (queue s) (now s) (pending s) (permit s) AtRealtime)
  | step_pop_rt s p rt : consumer s = AtRealtime ->
      pop_realtime (now s) (realtime (queue s)) = (Some p, rt) ->
      step s (Popped Realtime p)
        (mkState (mkQueue rt (bulk (queue s)) (capacity (queue s)))
           (now s) (pending s) (permit s) Idle)
  | step_no_rt s rt : consumer s = AtRealtime ->
      pop_realtime (now s) (realtime (queue s)) = (None, rt) ->
      step s Silent
        (mkState (mkQueue rt (bulk (queue s)) (capacity (queue s)))
           (now s) (pending s) (permit s) AtBulk)
  | step_pop_bulk s p bk : consumer s = AtBulk ->
      pop_bulk (bulk (queue s)) = (Some p, bk) ->
      step s (Popped Bulk p)
        (mkState (mkQueue (realtime (queue s)) bk (capacity (queue s)))
           (now s) (pending s) (permit s) Idle)
  | step_no_bulk s bk : consumer s = AtBulk ->
      pop_bulk (bulk (queue s)) = (None, bk) ->
      step s Silent
        (mkState (mkQueue (realtime (queue s)) bk (capacity (queue s)))
           (now s) (pending s) (permit s) AtAwait)
  | step_await s : consumer s = AtAwait ->
      step s Silent
        (if permit s
         then mkState (queue s) (now s) (pending s) false AtRealtime
         else mkState (queue s) (now s) (pending s) false Waiting)
  | step_resume s : consumer s = Woken ->
      step s Silent (mkState (queue s) (now s) (pending s) (permit s) AtRealtime)
  (** The [select!] of the sender drops the [pop] future when the flush timer
      fires: a notification it already received goes back to the [Notify]. *)
  | step_cancel_waiting s : consumer s = Waiting ->
      step s Silent (mkState (queue s) (now s) (pending s) (permit s) Idle)
  | step_cancel_woken s : consumer s = Woken ->
      step s Silent (mkState (queue s) (now s) (pending s) true Idle).

Inductive steps : State -> list Event -> State -> Prop :=
  | steps_nil s : steps s [] s
  | steps_snoc s tr s' e s'' : steps s tr s' -> step s' e s'' -> steps s (tr ++ [e]) s''.

(** Somebody will wake the sender. *)
Definition will_wake (s : State) : Prop := (0 < pending s)%nat \/ permit s = true.

Definition wake_inv (s : State) : Prop :=
  match consumer s with
  | Idle | AtRealtime | Woken => True
  | AtBulk => realtime (queue s) = [] \/ will_wake s
  | AtAwait => (realtime (queue s) = [] /\ bulk (queue s) = []) \/ will_wake s
  | Waiting => permit s = false /\
      ((realtime (queue s) = [] /\ bulk (queue s) = []) \/ (0 < pending s)%nat)
  end.

Lemma push_wake now p pr q b q' : push now p pr q = (b, q') -> b = false -> q' = q.
Proof. unfold push. intros E ->. destruct pr; split_if_in E; simplify_eq; done. Qed.

Lemma step_wake_inv s e s' : step s e s' -> wake_inv s -> wake_inv s'.
Proof.
  unfold wake_inv, will_wake. intros Hs. destruct Hs; simpl; intros Hinv.
  - done.
  - destruct (consumer s); try done; try (right; left; lia).
    split; [naive_solver|right; lia].
  - by apply push_wake in H as ->.
  - case_decide as Hc; simpl; [done|]. destruct (consumer s); try done; auto.
  - done.
  - done.
  - apply pop_realtime_spec in H0 as (? & _ & _ & ->). by left.
  - done.
  - rewrite H in Hinv. destruct (bulk (queue s)); simplify_eq/=. naive_solver.
  - rewrite H in Hinv. destruct (permit s); simpl; [done|]. split; [done|]. naive_solver.
  - done.
  - done.
  - done.
Qed.

Lemma step_queue_inv s e s' : step s e s' -> queue_inv (queue s) -> queue_inv (queue s').
Proof.
  intros Hs. destruct Hs; simpl; intros Hq; try done.
  - by eapply push_inv.
  - by eapply push_inv.
  - by case_decide.
  - apply pop_realtime_length in H0. destruct Hq as (? & ? & ?). split; [done|]. simpl.
    split; [|done]. etrans; [|done]. unfold zlen. lia.
  - apply pop_realtime_length in H0. destruct Hq as (? & ? & ?). split; [done|]. simpl.
    split; [|done]. etrans; [|done]. unfold zlen. lia.
  - destruct Hq as (? & ? & ?). split; [done|]. simpl. split; [done|].
    destruct (bulk (queue s)); simplify_eq/=. len.
  - destruct Hq as (? & ? & ?). split; [done|]. simpl. split; [done|].
    destruct (bulk (queue s)); simplify_eq/=. done.
  - by destruct (permit s).
Qed.

(** The packets a trace put into a lane, and those it took out of it. *)
Definition ins (pr : Priority) (tr : list Event) : list bytes :=
  omap (fun e => match e with
                 | Pushed pr' p => if decide (pr' = pr) then Some p else None
                 | _ => None end) tr.
Definition outs (pr : Priority) (tr : list Event) : list bytes :=
  omap (fun e => match e with
                 | Popped pr' p => if decide (pr' = pr) then Some p else None
                 | _ => None end) tr.

(** Bulk packets leave in the order they came in and none is lost; what comes out
    of the realtime lane, and what is still in it, is in the order it came in, with
    stale packets left out. *)
Definition lanes (tr : list Event) (s : State) : Prop :=
  ins Bulk tr = outs Bulk tr ++ bulk (queue s) /\
  outs Realtime tr ++ (realtime (queue s)).*2 `sublist_of` ins Realtime tr.

Lemma ins_snoc pr tr e : ins pr (tr ++ [e]) = ins pr tr ++ ins pr [e].
Proof. apply omap_app. Qed.
Lemma outs_snoc pr tr e : outs pr (tr ++ [e]) = outs pr tr ++ outs pr [e].
Proof. apply omap_app. Qed.

Lemma push_lane now p pr q q' : push now p pr q = (true, q') ->
  match pr with
  | Realtime => realtime q' = realtime q ++ [(now, p)] /\ bulk q' = bulk q
  | Bulk => realtime q' = realtime q /\ bulk q' = bulk q ++ [p]
  end.
Proof. unfold push. intros E. destruct pr; split_if_in E; simplify_eq; done. Qed.

Lemma step_lanes tr s e s' : step s e s' -> lanes tr s -> lanes (tr ++ [e]) s'.
Proof.
  intros Hs [Hb Hr]. unfold lanes. rewrite !ins_snoc, !outs_snoc.
  destruct Hs; simpl; rewrite ?app_nil_r; try done.
  - apply push_lane in H. destruct pr; simpl; rewrite ?app_nil_r; destruct H as [-> ->].
    + rewrite fmap_app, app_assoc. split; [done|]. by apply sublist_app.
    + rewrite Hb, <-app_assoc. done.
  - by apply push_wake in H as ->.
  - by case_decide.
  - apply pop_realtime_spec in H0 as (stale & _ & ts & _ & E). split; [done|].
    rewrite E, fmap_app in Hr. etrans; [|done]. rewrite <-app_assoc.
    apply sublist_app; [done|]. simpl. by apply sublist_inserts_l.
  - apply pop_realtime_spec in H0 as (stale & _ & _ & ->). split; [done|].
    etrans; [|done]. simpl. rewrite app_nil_r. by apply sublist_inserts_r.
  - destruct (bulk (queue s)); simplify_eq/=. rewrite <-app_assoc. done.
  - destruct (bulk (queue s)); simplify_eq/=. done.
  - by destruct (permit s).
Qed.

Lemma steps_invariant cap tr s :
  0 <= cap -> steps (init cap) tr s ->
  wake_inv s /\ queue_inv (queue s) /\ lanes tr s.
Proof.
  intros Hcap Hs. remember (init cap) as s0 eqn:E0. induction Hs as [s|s tr s' e s'' Hs IH He].
  - subst s. split; [done|]. split; [|done]. unfold queue_inv. simpl.
    unfold zlen. simpl. pose proof (Z.div_pos cap 4). lia.
  - destruct (IH E0) as (Hw & Hq & Hl). split; [by eapply step_wake_inv|].
    split; [by eapply step_queue_inv|by eapply step_lanes].
Qed.

End Wakeup.

(** ** Theorems *)

(** [classify] never panics, whatever the header length field claims, and gives
    [Realtime] exactly to IPv4 packets with a full header that carry DSCP EF or are
    UDP with readable ports and go to port 53 or have less than 300 octets. *)
Theorem classify_total p :
  exists r, classify p = Some r /\
    (r = Realtime <-> ipv4_header p /\
       (dscp_ef p \/ exists port, udp_to p port /\ (port = 53 \/ zlen p < 300))).
Proof. apply classify_spec. Qed.

(** [try_pop] gives the oldest realtime packet not older than 10 ms, dropping the
    stale ones before it; without one it empties the realtime lane and gives the
    oldest bulk packet; it fails only when no fresh realtime and no bulk packet is
    queued. *)
Theorem try_pop_spec now q o q' :
  try_pop now q = (o, q') ->
  exists stale, Forall (fun e => fresh now e.1 = false) stale /\
    ((exists ts p, o = Some p /\ fresh now ts = true /\
        realtime q = stale ++ (ts, p) :: realtime q' /\ bulk q' = bulk q)
     \/ (realtime q = stale /\ realtime q' = [] /\
         bulk q = option_list o ++ bulk q' /\ (o = None -> bulk q = []))).
Proof.
  unfold try_pop. destruct (pop_realtime now (realtime q)) as [o1 rt] eqn:E1.
  apply pop_realtime_spec in E1 as (stale & Hst & Ho). intros E. exists stale.
  split; [done|]. destruct o1 as [p|].
  - injection E as <- <-. destruct Ho as (ts & Hf & Hr). left. by exists ts, p.
  - destruct Ho as [Hr ->]. right. destruct (bulk q); injection E as <- <-; done.
Qed.

Definition ex_queue : PriorityQueue := mkQueue [(0, [x41]); (15000000, [x42])] [[x43]] 8.

Lemma try_pop_spec_witness :
  exists stale, Forall (fun e => fresh 20000000 e.1 = false) stale /\
    realtime ex_queue = stale ++ [(15000000, [x42])].
Proof.
  destruct (try_pop_spec 20000000 ex_queue (Some [x42]) (mkQueue [] [[x43]] 8))
    as (stale & Hs & [(ts & p & Ep & Hf & Hr & _)|(_ & _ & Hb & _)]);
    [vm_compute; reflexivity| |simpl in Hb; congruence].
  exists [(0, [x41])]. split; [by repeat constructor|reflexivity].
Defined.

(** [C8] No wake-up is lost and no lane overflows. In every interleaving of pushes,
    notifications, pops, timer cancellations and time: the sender sleeps only while
    both lanes are empty or a push is still about to notify it; the realtime lane
    holds at most a quarter of the capacity and the bulk lane at most the capacity;
    bulk packets come out complete and in order; and realtime packets in order, each
    at most once. *)
Theorem queue_no_lost_wakeup cap tr s :
  0 <= cap -> Wakeup.steps (Wakeup.init cap) tr s ->
  (Wakeup.consumer s = Wakeup.Waiting -> Wakeup.pending s = 0%nat ->
     realtime (Wakeup.queue s) = [] /\ bulk (Wakeup.queue s) = []) /\
  queue_inv (Wakeup.queue s) /\ Wakeup.lanes tr s.
Proof.
  intros Hcap Hs. destruct (Wakeup.steps_invariant _ _ _ Hcap Hs) as (Hw & Hq & Hl).
  split; [|done]. intros Hc Hp. unfold Wakeup.wake_inv in Hw. rewrite Hc in Hw.
  destruct Hw as [_ [?|?]]; [done|lia].
Qed.

(** A packet is pushed and taken while its notification is still to come. *)
Definition ex_state (bk : list bytes) (c : Wakeup.Consumer) (n : nat) : Wakeup.State :=
  Wakeup.mkState (mkQueue [] bk 4) 0 n false c.

Lemma ex_steps :
  Wakeup.steps (Wakeup.init 4)
    [Wakeup.Pushed Bulk [x41]; Wakeup.Silent; Wakeup.Silent; Wakeup.Popped Bulk [x41]]
    (ex_state [] Wakeup.Idle 1).
Proof.
  refine (Wakeup.steps_snoc _ [_; _; _] (ex_state [[x41]] Wakeup.AtBulk 1) _ _ _ _).
  2: exact (Wakeup.step_pop_bulk (ex_state [[x41]] Wakeup.AtBulk 1) [x41] [] eq_refl eq_refl).
  refine (Wakeup.steps_snoc _ [_; _] (ex_state [[x41]] Wakeup.AtRealtime 1) _ _ _ _).
  2: exact (Wakeup.step_no_rt (ex_state [[x41]] Wakeup.AtRealtime 1) [] eq_refl eq_refl).
  refine (Wakeup.steps_snoc _ [_] (ex_state [[x41]] Wakeup.Idle 1) _ _ _ _).
  2: exact (Wakeup.step_enter (ex_state [[x41]] Wakeup.Idle 1) eq_refl).
  refine (Wakeup.steps_snoc _ [] (Wakeup.init 4) _ _ (Wakeup.steps_nil _) _).
  exact (Wakeup.step_push (Wakeup.init 4) [x41] Bulk (mkQueue [] [[x41]] 4) eq_refl).
Defined.

Lemma queue_no_lost_wakeup_witness :
  queue_inv (mkQueue [] [] 4) /\
  Wakeup.lanes [Wakeup.Pushed Bulk [x41]; Wakeup.Silent; Wakeup.Silent; Wakeup.Popped Bulk [x41]]
    (ex_state [] Wakeup.Idle 1).
Proof. exact (proj2 (queue_no_lost_wakeup 4 _ _ ltac:(lia) ex_steps)). Defined.
