(* ===== verification/Demux.v ===== *)
(** The demultiplexer ([demux.rs]): which client queue gets a packet read from the
    TUN device. A queue is shared by the router and by the client's sender task
    ([Arc<PriorityQueue>]): queues live in a store and are named by their index. *)

From S2P Require Import Prelude Datagram Priority.

Record ClientRouter := mkRouter {
  routes : gmap Ipv4Addr nat;
  queues : list PriorityQueue
}.

Definition router_new : ClientRouter := mkRouter ∅ [].

(** [register]: a fresh queue, and the address the handle will unregister. *)
Definition register (client_ip : Ipv4Addr) (buffer : Z) (r : ClientRouter)
    : Ipv4Addr * nat * ClientRouter :=
  let q := length (queues r) in
  (client_ip, q, mkRouter (<[client_ip:=q]> (routes r)) (queues r ++ [queue_new buffer])).

(** [route] at time [now]; the [Arc] the map holds is always valid, so the queue
    lookup cannot fail ([router_wf]). *)
Definition route (now : Z) (dst_ip : Ipv4Addr) (packet : bytes) (r : ClientRouter)
    : panics (bool * ClientRouter) :=
  match routes r !! dst_ip with
  | Some i =>
      priority ← classify packet;
      q ← queues r !! i;
      let '(b, q) := push now packet priority q in
      Some (b, mkRouter (routes r) (<[i:=q]> (queues r)))
  | None => Some (false, r)
  end.

Definition router_len (r : ClientRouter) : Z := Z.of_nat (size (routes r)).
Definition router_is_empty (r : ClientRouter) : bool := bool_decide (routes r = ∅).

Definition unregister (ip : Ipv4Addr) (r : ClientRouter) : ClientRouter :=
  mkRouter (delete ip (routes r)) (queues r).

(** [Drop for ClientHandle]; a handle is its [client_ip]. *)
Definition handle_drop (client_ip : Ipv4Addr) (r : ClientRouter) : ClientRouter :=
  unregister client_ip r.

(** ** Invariant *)

(** Every route leads to a queue of the store, and every queue respects its bounds. *)
Definition router_wf (r : ClientRouter) : Prop :=
  (forall ip i, routes r !! ip = Some i -> (i < length (queues r))%nat) /\
  Forall queue_inv (queues r).

Lemma router_new_wf : router_wf router_new.
Proof. split; [|constructor]. intros ip i H. cbn in H. by rewrite lookup_empty in H. Qed.

Lemma queue_new_inv cap : 0 <= cap -> queue_inv (queue_new cap).
Proof. intros. unfold queue_inv. simpl. unfold zlen. simpl. pose proof (Z.div_pos cap 4). lia. Qed.

Lemma register_wf ip buf r h i r' :
  0 <= buf -> register ip buf r = (h, i, r') -> router_wf r -> router_wf r'.
Proof.
  intros Hb [= <- <- <-] [Hr Hq]. split; simpl.
  - intros ip' i. rewrite length_app. simpl. intros [[_ <-]|[_ H]]%lookup_insert_Some; [lia|].
    apply Hr in H. lia.
  - apply Forall_app. split; [done|]. constructor; [by apply queue_new_inv|done].
Qed.

Lemma unregister_wf ip r : router_wf r -> router_wf (unregister ip r).
Proof. intros [Hr Hq]. split; [|done]. simpl. intros ip' i [_ H]%lookup_delete_Some. by eapply Hr. Qed.

Lemma route_ok now ip p r : router_wf r ->
  exists b r', route now ip p r = Some (b, r') /\ router_wf r' /\ routes r' = routes r /\
    match routes r !! ip with
    | None => b = false /\ r' = r
    | Some i => exists q pr q', queues r !! i = Some q /\ classify p = Some pr /\
        push now p pr q = (b, q') /\ queues r' = <[i:=q']> (queues r)
    end.
Proof.
  intros Hwf. pose proof Hwf as [Hr Hq]. unfold route. destruct (routes r !! ip) as [i|] eqn:Ei.
  2: { exists false, r. auto. }
  destruct (classify_spec p) as (pr & Hc & _). rewrite Hc.
  destruct (lookup_total_panics (queues r) i (Hr _ _ Ei)) as [q Eq].
  rewrite Eq. cbn [mbind option_bind]. destruct (push now p pr q) as [b q'] eqn:Ep.
  eexists _, _. split; [done|]. split; [split|]; simpl.
  - intros ip' i' H. rewrite length_insert. by eapply Hr.
  - apply Forall_insert; [done|]. eapply push_inv; [done|]. by eapply Forall_lookup_1.
  - split; [done|]. eauto 8.
Qed.

(** ** Theorems *)

(** Packets reach the queue of the client that owns the destination address and
    no other: routing never panics, changes no other queue and no route, appends the
    packet to one lane of that queue, and reports [false] exactly when the address
    has no route or the lane is full. *)
Theorem route_delivers now ip p r :
  router_wf r ->
  exists b r', route now ip p r = Some (b, r') /\ router_wf r' /\ routes r' = routes r /\
    (forall j, routes r !! ip <> Some j -> queues r' !! j = queues r !! j) /\
    (b = true -> exists i q q', routes r !! ip = Some i /\ queues r !! i = Some q /\
       queues r' !! i = Some q' /\
       (realtime q' = realtime q ++ [(now, p)] /\ bulk q' = bulk q \/
        realtime q' = realtime q /\ bulk q' = bulk q ++ [p])) /\
    (b = false -> r' = r /\ forall i q, routes r !! ip = Some i -> queues r !! i = Some q ->
       capacity q / 4 <= zlen (realtime q) \/ capacity q <= zlen (bulk q)).
Proof.
  intros Hwf. destruct (route_ok now ip p r Hwf) as (b & r' & E & Hwf' & Hro & Hm).
  exists b, r'. split; [done|]. split; [done|]. split; [done|].
  destruct (routes r !! ip) as [i|] eqn:Ei; [|destruct Hm as [-> ->]; naive_solver].
  destruct Hm as (q & pr & q' & Eq & Hc & Hp & Hqs). split; [|split].
  - intros j Hj. rewrite Hqs, list_lookup_insert_ne by congruence. done.
  - intros ->. exists i, q, q'. split; [done|]. split; [done|]. split.
    + rewrite Hqs. apply list_lookup_insert_eq. by eapply lookup_lt_Some.
    + apply Wakeup.push_lane in Hp. destruct pr; auto.
  - intros ->. pose proof (Wakeup.push_wake _ _ _ _ _ _ Hp eq_refl) as ->. split.
    + rewrite list_insert_id in Hqs by done. destruct r, r'; simpl in *. congruence.
    + intros j q2 [= <-] Hq2. assert (q2 = q) as -> by congruence.
      unfold push in Hp. destruct pr; split_if_in Hp; simplify_eq; auto.
Qed.

Definition ex_ip : Ipv4Addr := ip4 10 0 1 2.
Definition ex_router : ClientRouter := (register ex_ip 512 router_new).2.

Lemma ex_router_wf : router_wf ex_router.
Proof. eapply (register_wf ex_ip 512 router_new); [lia|reflexivity|apply router_new_wf]. Defined.

Lemma route_delivers_witness :
  exists b r', route 0 ex_ip [x45] ex_router = Some (b, r') /\ routes r' = routes ex_router.
Proof.
  destruct (route_delivers 0 ex_ip [x45] ex_router ex_router_wf)
    as (b & r' & E & _ & Hr & _).
  by exists b, r'.
Defined.

(** A stale handle takes the route of its successor with it. When an address is
    registered again before the first handle is dropped, which the server's order
    "release the address, then drop the handle" allows, the drop leaves the second
    client without a route: every packet for it is refused. *)
Theorem stale_handle_unroutes ip buf1 buf2 now p r r1 r2 h1 q1 h2 q2 :
  register ip buf1 r = (h1, q1, r1) -> register ip buf2 r1 = (h2, q2, r2) ->
  routes r2 !! ip = Some q2 /\ q2 <> q1 /\
  route now ip p (handle_drop h1 r2) = Some (false, handle_drop h1 r2).
Proof.
  intros [= <- <- <-] [= <- <- <-]. simpl. split; [by rewrite lookup_insert_eq|].
  split; [rewrite length_app; simpl; lia|].
  unfold route. simpl. by rewrite lookup_delete_eq.
Qed.

Lemma stale_handle_unroutes_witness :
  exists r2, route 0 ex_ip [x45] (handle_drop ex_ip r2) = Some (false, handle_drop ex_ip r2).
Proof.
  eexists. eapply (stale_handle_unroutes ex_ip 512 512 0 [x45] router_new); reflexivity.
Defined.
