(* ===== verification/Stats.v ===== *)
(** Per-tunnel counters ([stats.rs]) and the counters of [metrics.rs] the tunnels
    move. Atomic counters wrap at 64 bits; the compare-and-swap loops for the
    smallest and largest datagram are the read-modify-write they implement. *)

From S2P Require Import Prelude.

Record Stats := mkStats {
  datagrams_sent : Z; datagrams_recv : Z; datagrams_blocked : Z; datagrams_too_large : Z;
  bytes_sent : Z; bytes_recv : Z; tun_reads : Z; tun_writes : Z; st_spoofed : Z;
  datagrams_wait_timeouts : Z; dg_size_min : Z; dg_size_max : Z; dg_size_sum : Z
}.

Definition stats_new : Stats := mkStats 0 0 0 0 0 0 0 0 0 0 u64_max 0 0.

(** [fetch_add] on an [AtomicU64]. *)
Definition fetch_add (x n : Z) : Z := wrap64 (x + n).

Definition update_dg_size (size : Z) (s : Stats) : Stats :=
  let '(mkStats a b c d e f g h i j mn mx sm) := s in
  let sm := fetch_add sm size in
  let mn := if size <? mn then size else mn in
  let mx := if mx <? size then size else mx in
  mkStats a b c d e f g h i j mn mx sm.

Definition record_send (size : Z) (s : Stats) : Stats :=
  let '(mkStats a b c d e f g h i j mn mx sm) := s in
  update_dg_size size (mkStats (fetch_add a 1) b c d (fetch_add e size) f g h i j mn mx sm).
Definition record_recv (size : Z) (s : Stats) : Stats :=
  let '(mkStats a b c d e f g h i j mn mx sm) := s in
  mkStats a (fetch_add b 1) c d e (fetch_add f size) g h i j mn mx sm.
Definition record_blocked (s : Stats) : Stats :=
  let '(mkStats a b c d e f g h i j mn mx sm) := s in
  mkStats a b (fetch_add c 1) d e f g h i j mn mx sm.
Definition record_too_large (s : Stats) : Stats :=
  let '(mkStats a b c d e f g h i j mn mx sm) := s in
  mkStats a b c (fetch_add d 1) e f g h i j mn mx sm.
Definition record_spoofed (s : Stats) : Stats :=
  let '(mkStats a b c d e f g h i j mn mx sm) := s in
  mkStats a b c d e f g h (fetch_add i 1) j mn mx sm.
Definition record_wait_timeout (s : Stats) : Stats :=
  let '(mkStats a b c d e f g h i j mn mx sm) := s in
  mkStats a b c d e f g h i (fetch_add j 1) mn mx sm.
(** [stats.tun_reads.fetch_add(1)] and [stats.tun_writes.fetch_add(1)] *)
Definition count_tun_read (s : Stats) : Stats :=
  let '(mkStats a b c d e f g h i j mn mx sm) := s in
  mkStats a b c d e f (fetch_add g 1) h i j mn mx sm.
Definition count_tun_write (s : Stats) : Stats :=
  let '(mkStats a b c d e f g h i j mn mx sm) := s in
  mkStats a b c d e f g (fetch_add h 1) i j mn mx sm.

(** The whole numbers of [report]. *)
Definition total_attempted (s : Stats) : Z := wrap64 (datagrams_sent s + datagrams_blocked s).
Definition dg_avg (s : Stats) : Z := if 0 <? datagrams_sent s then dg_size_sum s / datagrams_sent s else 0.
Definition dg_min_display (s : Stats) : Z := if dg_size_min s =? u64_max then 0 else dg_size_min s.

(** The traffic counters of [Metrics]. *)
Record Metrics := mkMetrics {
  bytes_in : Z; bytes_out : Z; datagrams_in : Z; datagrams_out : Z;
  drops_rate_limit : Z; drops_backpressure : Z; drops_stale : Z; m_spoofed : Z;
  bp_wait_count : Z; bp_wait_timeouts : Z; bp_rt_drops_congested : Z
}.

Definition metrics_new : Metrics := mkMetrics 0 0 0 0 0 0 0 0 0 0 0.

Inductive Counter :=
  | BytesIn | BytesOut | DatagramsIn | DatagramsOut | DropsRateLimit | DropsBackpressure
  | DropsStale | Spoofed | BpWaitCount | BpWaitTimeouts | BpRtDropsCongested.

(** [IntCounter::inc_by] *)
Definition inc_by (c : Counter) (n : Z) (m : Metrics) : Metrics :=
  let '(mkMetrics a b d e f g h i j k l) := m in
  match c with
  | BytesIn => mkMetrics (fetch_add a n) b d e f g h i j k l
  | BytesOut => mkMetrics a (fetch_add b n) d e f g h i j k l
  | DatagramsIn => mkMetrics a b (fetch_add d n) e f g h i j k l
  | DatagramsOut => mkMetrics a b d (fetch_add e n) f g h i j k l
  | DropsRateLimit => mkMetrics a b d e (fetch_add f n) g h i j k l
  | DropsBackpressure => mkMetrics a b d e f (fetch_add g n) h i j k l
  | DropsStale => mkMetrics a b d e f g (fetch_add h n) i j k l
  | Spoofed => mkMetrics a b d e f g h (fetch_add i n) j k l
  | BpWaitCount => mkMetrics a b d e f g h i (fetch_add j n) k l
  | BpWaitTimeouts => mkMetrics a b d e f g h i j (fetch_add k n) l
  | BpRtDropsCongested => mkMetrics a b d e f g h i j k (fetch_add l n)
  end.
Definition inc (c : Counter) : Metrics -> Metrics := inc_by c 1.

(** ** Theorems *)

Definition sends (sizes : list Z) (s : Stats) : Stats := foldl (fun s n => record_send n s) s sizes.

Lemma sends_snoc sizes n s : sends (sizes ++ [n]) s = record_send n (sends sizes s).
Proof. unfold sends. by rewrite foldl_app. Qed.

Definition sum_list (l : list Z) : Z := foldr Z.add 0 l.
Lemma sum_list_snoc l n : sum_list (l ++ [n]) = sum_list l + n.
Proof. induction l as [|x l IH]; simpl; lia. Qed.

Lemma sum_list_nonneg l : Forall (fun n => 0 <= n) l -> 0 <= sum_list l.
Proof. induction 1; simpl; lia. Qed.

(** The send statistics are right: after any sequence of sends whose total fits
    64 bits, the counters hold the number of datagrams and of octets sent, and the
    size fields are a lower and an upper bound of all sizes that are attained, the
    minimum still being [u64::MAX] when nothing was sent. *)
Theorem send_statistics sizes :
  Forall (fun n => 0 <= n) sizes -> sum_list sizes < 2 ^ 64 -> zlen sizes < 2 ^ 64 ->
  let s := sends sizes stats_new in
  datagrams_sent s = zlen sizes /\ bytes_sent s = sum_list sizes /\
  dg_size_sum s = sum_list sizes /\
  Forall (fun n => dg_size_min s <= n <= dg_size_max s) sizes /\
  (sizes = [] /\ dg_size_min s = u64_max /\ dg_size_max s = 0 \/
   dg_size_min s ∈ sizes /\ (dg_size_max s ∈ sizes \/ dg_size_max s = 0)).
Proof.
  induction sizes as [|n sizes IH] using rev_ind; [intros _ _ _; cbn; auto 8|].
  rewrite Forall_app, Forall_singleton, sum_list_snoc, zlen_app.
  intros [Hnn Hn] Hsum Hlen s. subst s. rewrite sends_snoc.
  pose proof (sum_list_nonneg _ Hnn). pose proof (zlen_nonneg sizes).
  change (zlen [n]) with 1 in *.
  specialize (IH Hnn ltac:(lia) ltac:(lia)). cbv zeta in IH.
  destruct (sends sizes stats_new) as [a b c d e f g h i j mn mx sm].
  cbn [datagrams_sent bytes_sent dg_size_sum dg_size_min dg_size_max record_send update_dg_size] in *.
  destruct IH as (-> & -> & -> & Hall & Hatt). unfold fetch_add. rewrite !wrap_small by lia.
  do 3 (split; [done|]). rewrite Forall_app, Forall_singleton, !elem_of_app.
  split; [|right]; destruct (n <? mn) eqn:E1, (mx <? n) eqn:E2; boolify;
    rewrite ?list_elem_of_singleton; try (split; [eapply Forall_impl; [exact Hall|]; simpl; lia|lia]).
  all: destruct Hatt as [(-> & -> & ->)|[Hmin Hmax]]; unfold u64_max in *; try lia; auto.
  all: destruct Hmax; auto.
Qed.

Lemma send_statistics_witness :
  dg_size_min (sends [300; 40; 1200] stats_new) ∈ [300; 40; 1200].
Proof.
  destruct (send_statistics [300; 40; 1200]) as (_ & _ & _ & _ & [(H & _)|[H _]]);
    [repeat constructor; vm_compute; congruence|vm_compute; reflexivity|vm_compute; reflexivity| |].
  - exfalso. congruence.
  - exact H.
Defined.

Lemma sum_list_bounds a b l : Forall (fun n => a <= n <= b) l -> a * zlen l <= sum_list l <= b * zlen l.
Proof. induction 1 as [|n l Hn _ IH]; simpl sum_list; len; lia. Qed.

(** What a report shows is consistent: the average lies between the extremes, and before the
    first datagram all three are 0. *)
Theorem report_consistent sizes :
  Forall (fun n => 0 <= n) sizes -> sum_list sizes < 2 ^ 64 -> zlen sizes < 2 ^ 64 ->
  let s := sends sizes stats_new in
  dg_min_display s <= dg_avg s <= dg_size_max s.
Proof.
  intros Hn Hs Hl s. destruct (send_statistics sizes Hn Hs Hl) as (Hc & _ & Hsum & Hb & Hex).
  fold s in Hc, Hsum, Hb, Hex. unfold dg_min_display, dg_avg. rewrite Hc, Hsum.
  destruct Hex as [(-> & -> & ->)|[Hmin _]].
  - rewrite Z.eqb_refl. simpl. lia.
  - assert (0 < zlen sizes) by (destruct sizes; [by apply not_elem_of_nil in Hmin|len]).
    rewrite (proj2 (Z.ltb_lt 0 _)) by done. pose proof (sum_list_bounds _ _ _ Hb) as [Hlo Hhi].
    assert (0 <= dg_size_min s) by (by eapply (Forall_forall (fun n => 0 <= n)) in Hn).
    assert (sum_list sizes / zlen sizes <= dg_size_max s) by (apply Z.div_le_upper_bound; lia).
    assert (dg_size_min s <= sum_list sizes / zlen sizes) by (apply Z.div_le_lower_bound; lia).
    destruct (_ =? u64_max); lia.
Qed.
