(* ===== verification/Shaper.v ===== *)
(** Traffic shaping ([shaper.rs]): the token bucket, the rate limiter around it and
    the adaptive shaper that moves its rate. Tokens are thousandths of an octet, times
    are microseconds since the bucket was made.

    The functions below run an operation without interference; module [Threads] is
    the lock-free code itself, one atomic access per step, for any number of threads. *)

From S2P Require Import Prelude Stats.

Record TokenBucket := mkBucket { tokens : Z; rate : Z; burst : Z; last_refill : Z }.

Definition bucket_new (rate burst : Z) : TokenBucket :=
  mkBucket (wrap64 (burst * 1000)) rate burst 0.

Definition refill (now_micros : Z) (b : TokenBucket) : TokenBucket :=
  let elapsed_micros := sat_sub now_micros (last_refill b) in
  if elapsed_micros <? 100 then b
  else
    let add := wrap64 (rate b * elapsed_micros) / 1000 in
    let max := wrap64 (burst b * 1000) in
    let new := Z.min (wrap64 (tokens b + add)) max in
    mkBucket new (rate b) (burst b) now_micros.

Definition bucket_check (now_micros bytes : Z) (b : TokenBucket) : bool * TokenBucket :=
  if rate b =? 0 then (true, b)
  else
    let b := refill now_micros b in
    let cost := wrap64 (bytes * 1000) in
    if tokens b <? cost then (false, b)
    else (true, mkBucket (tokens b - cost) (rate b) (burst b) (last_refill b)).

(** [rate / 10], or 0 for no limit. *)
Definition burst_of (rate : Z) : Z := if 0 <? rate then rate / 10 else 0.

Definition bucket_set_rate (rate_bytes_per_sec : Z) (b : TokenBucket) : TokenBucket :=
  let burst := burst_of rate_bytes_per_sec in
  let max := wrap64 (burst * 1000) in
  mkBucket (if max <? tokens b then max else tokens b) rate_bytes_per_sec burst (last_refill b).

Record RateLimiter := mkLimiter { bucket : TokenBucket; dropped_bytes : Z; dropped_packets : Z }.

Definition rate_of_mbps (mbps : Z) : Z := wrap64 (mbps * 1000000) / 8.

Definition limiter_new (rate_mbps : Z) : RateLimiter :=
  let rate_bytes := rate_of_mbps rate_mbps in
  mkLimiter (bucket_new rate_bytes (burst_of rate_bytes)) 0 0.

Definition limiter_check (now_micros bytes : Z) (l : RateLimiter) : bool * RateLimiter :=
  let '(ok, b) := bucket_check now_micros bytes (bucket l) in
  if ok then (true, mkLimiter b (dropped_bytes l) (dropped_packets l))
  else (false, mkLimiter b (fetch_add (dropped_bytes l) bytes) (fetch_add (dropped_packets l) 1)).

Definition limiter_set_rate (r : Z) (l : RateLimiter) : RateLimiter :=
  mkLimiter (bucket_set_rate r (bucket l)) (dropped_bytes l) (dropped_packets l).

Record AdaptiveShaper := mkShaper {
  rate_limiter : RateLimiter;
  base_rtt : Z;
  current_rate : Z;
  min_rate : Z;
  max_rate : Z;
  qdelay_low : Z;
  qdelay_high : Z
}.

Definition shaper_new (max_bandwidth_mbps : Z) : AdaptiveShaper :=
  let max_rate := if 0 <? max_bandwidth_mbps then rate_of_mbps max_bandwidth_mbps else 0 in
  let min_rate := 1000000 / 8 in
  let initial_rate := if 0 <? max_rate then max_rate else 0 in
  mkShaper (limiter_new max_bandwidth_mbps) u64_max initial_rate min_rate max_rate 5000 25000.

Definition shaper_check (now_micros bytes : Z) (s : AdaptiveShaper) : bool * AdaptiveShaper :=
  let '(ok, l) := limiter_check now_micros bytes (rate_limiter s) in
  (ok, mkShaper l (base_rtt s) (current_rate s) (min_rate s) (max_rate s)
         (qdelay_low s) (qdelay_high s)).

(** The rate [update_rtt] chooses for a queueing delay. *)
Definition next_rate (s : AdaptiveShaper) (qdelay : Z) : Z :=
  let current := current_rate s in
  if qdelay <? qdelay_low s then Z.min (wrap64 (current + current / 20)) (max_rate s)
  else if qdelay_high s <? qdelay then Z.max (current - current / 10) (min_rate s)
  else current.

Definition update_rtt (rtt_us : Z) (s : AdaptiveShaper) : AdaptiveShaper :=
  if max_rate s =? 0 then s
  else
    let base := if rtt_us <? base_rtt s then rtt_us else base_rtt s in
    let s := mkShaper (rate_limiter s) base (current_rate s) (min_rate s) (max_rate s)
               (qdelay_low s) (qdelay_high s) in
    if base =? u64_max then s
    else
      let qdelay := sat_sub rtt_us base in
      let new_rate := next_rate s qdelay in
      if negb (new_rate =? current_rate s) then
        mkShaper (limiter_set_rate new_rate (rate_limiter s)) base new_rate (min_rate s)
          (max_rate s) (qdelay_low s) (qdelay_high s)
      else s.

Definition shaper_base_rtt (s : AdaptiveShaper) : option Z :=
  if base_rtt s =? u64_max then None else Some (base_rtt s).

(** ** The lock-free code *)

Module Threads.

(** Where a thread is inside [check] ([bytes]), its [refill], or [set_rate]. *)
Inductive Thread :=
  | Start (bytes : Z)                                (* load [rate] *)
  | RefillClock (bytes : Z)                          (* read the clock *)
  | RefillLast (bytes now : Z)                       (* load [last_refill] *)
  | RefillCas (bytes now last : Z)                   (* compare_exchange [last_refill] *)
  | RefillRate (bytes elapsed : Z)                   (* load [rate] *)
  | RefillBurst (bytes elapsed rate : Z)             (* load [burst] *)
  | RefillLoad (bytes add max : Z)                   (* load [tokens] *)
  | RefillLoop (bytes add max current : Z)           (* compare_exchange_weak *)
  | TakeLoad (bytes : Z)                             (* load [tokens] *)
  | TakeLoop (bytes current : Z)                     (* test, compare_exchange_weak *)
  | SetRate (rate : Z) | SetBurst (rate : Z)         (* stores *)
  | ClampLoad (max : Z) | ClampLoop (max current : Z)
  | Done (ret : bool) | DoneSet.

(** One atomic access. [now] is what the clock shows, [weak] whether a weak
    compare-and-swap fails spuriously. *)
Definition thread_step (now : Z) (weak : bool) (t : Thread) (b : TokenBucket)
    : Thread * TokenBucket :=
  let set_tokens x := mkBucket x (rate b) (burst b) (last_refill b) in
  match t with
  | Start n => if rate b =? 0 then (Done true, b) else (RefillClock n, b)
  | RefillClock n => (RefillLast n now, b)
  | RefillLast n nw =>
      if sat_sub nw (last_refill b) <? 100 then (TakeLoad n, b)
      else (RefillCas n nw (last_refill b), b)
  | RefillCas n nw last =>
      if last_refill b =? last
      then (RefillRate n (sat_sub nw last), mkBucket (tokens b) (rate b) (burst b) nw)
      else (TakeLoad n, b)
  | RefillRate n el => (RefillBurst n el (rate b), b)
  | RefillBurst n el r =>
      (RefillLoad n (wrap64 (r * el) / 1000) (wrap64 (burst b * 1000)), b)
  | RefillLoad n add max => (RefillLoop n add max (tokens b), b)
  | RefillLoop n add max cur =>
      let new := Z.min (wrap64 (cur + add)) max in
      if new =? cur then (TakeLoad n, b)
      else if (tokens b =? cur) && negb weak then (TakeLoad n, set_tokens new)
      else (RefillLoop n add max (tokens b), b)
  | TakeLoad n => (TakeLoop n (tokens b), b)
  | TakeLoop n cur =>
      let cost := wrap64 (n * 1000) in
      if cur <? cost then (Done false, b)
      else if (tokens b =? cur) && negb weak then (Done true, set_tokens (cur - cost))
      else (TakeLoop n (tokens b), b)
  | SetRate r => (SetBurst r, mkBucket (tokens b) r (burst b) (last_refill b))
  | SetBurst r =>
      (ClampLoad (wrap64 (burst_of r * 1000)), mkBucket (tokens b) (rate b) (burst_of r) (last_refill b))
  | ClampLoad max => (ClampLoop max (tokens b), b)
  | ClampLoop max cur =>
      if max <? cur then
        if (tokens b =? cur) && negb weak then (DoneSet, set_tokens max)
        else (ClampLoop max (tokens b), b)
      else (DoneSet, b)
  | Done r => (Done r, b)
  | DoneSet => (DoneSet, b)
  end.

(** The tokens a step takes out for a packet it lets through. *)
Definition taken (t t' : Thread) : Z :=
  match t, t' with TakeLoop n _, Done true => n * 1000 | _, _ => 0 end.

(** [sh]: the bucket; [th]: the threads; [acc]: tokens taken so far. *)
Record State := mkState { sh : TokenBucket; th : list Thread; acc : Z }.

(** Any thread moves, or a new operation starts. Threads read the clock at any time
    up to [T], in any order; [R] bounds the rates set. *)
Inductive step (R T : Z) : State -> State -> Prop :=
  | step_move s i now weak t t' b' :
      th s !! i = Some t -> 0 <= now <= T -> thread_step now weak t (sh s) = (t', b') ->
      step R T s (mkState b' (<[i:=t']> (th s)) (acc s + taken t t'))
  | step_check s n : 0 <= n -> n * 1000 < 2 ^ 64 ->
      step R T s (mkState (sh s) (th s ++ [Start n]) (acc s))
  | step_set s r : 0 < r <= R ->
      step R T s (mkState (sh s) (th s ++ [SetRate r]) (acc s)).

(** What the locals of a thread satisfy. *)
Definition thread_wf (R T : Z) (t : Thread) : Prop :=
  match t with
  | Start n | RefillClock n | TakeLoad n => 0 <= n * 1000 < 2 ^ 64
  | RefillLast n nw => 0 <= n * 1000 < 2 ^ 64 /\ 0 <= nw <= T
  | RefillCas n nw last => 0 <= n * 1000 < 2 ^ 64 /\ 0 <= last <= nw /\ nw <= T
  | RefillRate n el => 0 <= n * 1000 < 2 ^ 64 /\ 0 <= el
  | RefillBurst n el r => 0 <= n * 1000 < 2 ^ 64 /\ 0 <= el /\ 0 < r <= R
  | RefillLoad n add max => 0 <= n * 1000 < 2 ^ 64 /\ 0 <= add /\ 0 <= max
  | RefillLoop n add max cur => 0 <= n * 1000 < 2 ^ 64 /\ 0 <= add /\ 0 <= max /\ 0 <= cur
  | TakeLoop n cur => 0 <= n * 1000 < 2 ^ 64 /\ 0 <= cur
  | SetRate r | SetBurst r => 0 < r <= R
  | ClampLoad max => 0 <= max
  | ClampLoop max cur => 0 <= max
  | Done _ | DoneSet => True
  end.

(** The refill a thread has claimed by moving [last_refill] and not yet added. *)
Definition claim (R : Z) (t : Thread) : Z :=
  match t with
  | RefillRate _ el | RefillBurst _ el _ => R * el
  | RefillLoad _ add _ | RefillLoop _ add _ _ => 1000 * add
  | _ => 0
  end.

Definition bucket_wf (R T : Z) (b : TokenBucket) : Prop :=
  0 <= tokens b /\ 0 < rate b <= R /\ 0 <= last_refill b <= T.

Lemma wrap_le w x : 0 <= x -> 0 <= w -> 0 <= wrap w x <= x.
Proof. intros. split; [by apply wrap_range|]. apply Z.mod_le; lia. Qed.

Lemma burst_of_nonneg r : 0 < r -> 0 <= burst_of r.
Proof. intros. unfold burst_of. split_if; [|lia]. apply Z.div_pos; lia. Qed.

Lemma add_bound R r el : 0 < r <= R -> 0 <= el -> 0 <= 1000 * (wrap64 (r * el) / 1000) <= R * el.
Proof.
  intros. pose proof (wrap_le 64 (r * el)) as Hw. specialize (Hw ltac:(nia) ltac:(lia)).
  pose proof (Z.mul_div_le (wrap64 (r * el)) 1000 ltac:(lia)).
  pose proof (Z.div_pos (wrap64 (r * el)) 1000). nia.
Qed.

(** The accounting of one step: what comes in is covered by the claim, what goes out
    is counted, and a claim is backed by the advance of [last_refill]. *)
Lemma thread_step_account R T now weak t b t' b' :
  0 <= now <= T -> thread_step now weak t b = (t', b') -> thread_wf R T t -> bucket_wf R T b ->
  thread_wf R T t' /\ bucket_wf R T b' /\
  1000 * (tokens b' + taken t t') + claim R t' - R * last_refill b' <=
  1000 * tokens b + claim R t - R * last_refill b.
Proof.
  intros Hn E Hw (Ht & Hr & Hl). unfold bucket_wf. unfold sat_sub in E.
  destruct t as [n|n|n nw|n nw last|n el|n el r|n add max|n add max cur|n|n cur|r|r|max|max cur|ret|];
    cbn [thread_step] in E; cbn [thread_wf] in Hw; unfold sat_sub in E;
    repeat split_if_in E; injection E as <- <-;
    cbn [thread_wf claim taken tokens rate burst last_refill] in *; try lia.
  - rewrite Z.max_r by lia. subst last. lia.
  - destruct Hw as (Hb & He & Hr'). pose proof (add_bound R r el Hr' He).
    pose proof (wrap_range 64 (burst b * 1000) ltac:(lia)). lia.
  - destruct Hw as (Hb & Ha & Hm & Hc). pose proof (wrap_le 64 (cur + add) ltac:(lia) ltac:(lia)).
    lia.
  - destruct Hw as (Hb & Hc). rewrite wrap_small in * by lia. lia.
  - pose proof (wrap_range 64 (burst_of r * 1000) ltac:(lia)). lia.
Qed.

Definition total (f : Thread -> Z) (l : list Thread) : Z := sum_list (f <$> l).

Lemma total_app f l k : total f (l ++ k) = total f l + total f k.
Proof.
  unfold total. rewrite fmap_app. generalize (f <$> l). clear l.
  intros l. induction l as [|x l IH]; simpl; lia.
Qed.
Lemma total_insert f l i t t' :
  l !! i = Some t -> total f (<[i:=t']> l) = total f l - f t + f t'.
Proof.
  intros Hi. rewrite (insert_take_drop l i t') by by eapply lookup_lt_Some.
  pose proof (f_equal (total f) (take_drop_middle l i t Hi)) as E. rewrite total_app in E.
  rewrite total_app. change (total f (t :: drop (S i) l)) with (f t + total f (drop (S i) l)) in E.
  change (total f (t' :: drop (S i) l)) with (f t' + total f (drop (S i) l)). lia.
Qed.
Lemma claim_nonneg R T t : 0 <= R -> thread_wf R T t -> 0 <= claim R t.
Proof. intros. destruct t; cbn [thread_wf claim] in *; nia || lia. Qed.
Lemma total_nonneg R T l : 0 <= R -> Forall (thread_wf R T) l -> 0 <= total (claim R) l.
Proof.
  intros HR. induction 1 as [|x l Hx _ IH]; [done|].
  change (total (claim R) (x :: l)) with (claim R x + total (claim R) l).
  pose proof (claim_nonneg R T x HR Hx). lia.
Qed.

Definition inv (R T tok0 : Z) (s : State) : Prop :=
  Forall (thread_wf R T) (th s) /\ bucket_wf R T (sh s) /\
  1000 * (tokens (sh s) + acc s) + total (claim R) (th s) <=
  1000 * tok0 + R * last_refill (sh s).

Lemma thread_inv R T tok0 s s' : step R T s s' -> inv R T tok0 s -> inv R T tok0 s'.
Proof.
  intros Hs (Hth & Hsh & Hacc). destruct Hs; unfold inv; cbn [sh th acc].
  - pose proof (Forall_lookup_1 _ _ _ _ Hth H) as Hwf.
    destruct (thread_step_account R T now weak t (sh s) t' b') as (Hwf' & Hb' & Hac); try done.
    split; [by apply Forall_insert|]. split; [done|].
    erewrite total_insert by done. lia.
  - split; [apply Forall_app; split; [done|repeat constructor; simpl; lia]|].
    split; [done|]. rewrite total_app. unfold total at 2. simpl. lia.
  - split; [apply Forall_app; split; [done|repeat constructor; simpl; lia]|].
    split; [done|]. rewrite total_app. unfold total at 2. simpl. lia.
Qed.

(** Running alone, with no spurious failure, a thread computes the functions above. *)
Fixpoint run_alone (fuel : nat) (now : Z) (t : Thread) (b : TokenBucket)
    : option (Thread * TokenBucket) :=
  match t with
  | Done _ | DoneSet => Some (t, b)
  | _ => match fuel with
         | O => None
         | S fuel => let '(t, b) := thread_step now false t b in run_alone fuel now t b
         end
  end.

End Threads.

(** ** The functions are what a lone thread computes *)

Definition finishes (now : Z) (t : Threads.Thread) (b : TokenBucket)
    (res : Threads.Thread * TokenBucket) : Prop :=
  exists fuel, Threads.run_alone fuel now t b = Some res.

Definition running (t : Threads.Thread) : bool :=
  match t with Threads.Done _ | Threads.DoneSet => false | _ => true end.

Lemma alone_step now t b t' b' res :
  running t = true -> Threads.thread_step now false t b = (t', b') ->
  finishes now t' b' res -> finishes now t b res.
Proof.
  intros Hr E [f Hf]. exists (S f). destruct t; try done; cbn [Threads.run_alone]; by rewrite E.
Qed.

Lemma alone_done now r b : finishes now (Threads.Done r) b (Threads.Done r, b).
Proof. by exists O. Qed.

Lemma alone_take now n b :
  finishes now (Threads.TakeLoad n) b
    (if tokens b <? wrap64 (n * 1000) then (Threads.Done false, b)
     else (Threads.Done true,
           mkBucket (tokens b - wrap64 (n * 1000)) (rate b) (burst b) (last_refill b))).
Proof.
  eapply alone_step; [done|reflexivity|].
  destruct (tokens b <? wrap64 (n * 1000)) eqn:E; eapply alone_step; try done;
    try apply alone_done; cbn [Threads.thread_step]; rewrite E; [done|].
  by rewrite Z.eqb_refl.
Qed.

Lemma alone_check now n b :
  finishes now (Threads.Start n) b
    (let '(r, b') := bucket_check now n b in (Threads.Done r, b')).
Proof.
  unfold bucket_check. destruct (rate b =? 0) eqn:Er.
  { eapply alone_step; [done| |apply alone_done]. cbn [Threads.thread_step]. by rewrite Er. }
  eapply alone_step; [done|cbn [Threads.thread_step]; by rewrite Er|].
  eapply alone_step; [done|reflexivity|].
  assert (Hfin : forall b', finishes now (Threads.TakeLoad n) b'
    (let '(r, b') := if tokens b' <? wrap64 (n * 1000) then (false, b')
       else (true, mkBucket (tokens b' - wrap64 (n * 1000)) (rate b') (burst b') (last_refill b'))
     in (Threads.Done r, b'))).
  { intros b'. pose proof (alone_take now n b') as H. by destruct (tokens b' <? _). }
  unfold refill. destruct (sat_sub now (last_refill b) <? 100) eqn:Ee.
  { eapply alone_step; [done|cbn [Threads.thread_step]; by rewrite Ee|apply Hfin]. }
  eapply alone_step; [done|cbn [Threads.thread_step]; by rewrite Ee|].
  eapply alone_step; [done|cbn [Threads.thread_step]; by rewrite Z.eqb_refl|].
  do 3 (eapply alone_step; [done|reflexivity|]). cbn [rate burst tokens].
  set (new := Z.min _ _).
  destruct (new =? tokens b) eqn:Eq.
  - eapply alone_step; [done|cbn [Threads.thread_step]; fold new; by rewrite Eq|].
    boolify. rewrite Eq. apply (Hfin (mkBucket (tokens b) (rate b) (burst b) now)).
  - eapply alone_step; [done| |apply (Hfin (mkBucket new (rate b) (burst b) now))].
    cbn [Threads.thread_step]. fold new.
    rewrite Eq. cbn [tokens]. by rewrite Z.eqb_refl.
Qed.

(** ** Theorems *)

(** [C7] The shaper conforms to its limit, whatever the interleaving. Any number of
    threads run [check] and [set_rate] on one bucket, one atomic access at a time,
    with spurious compare-and-swap failures and each thread reading the clock when it
    likes up to time [T]: the octets let through by then, in thousandths, are at most
    the tokens at the start plus what the largest rate set gives in [T] microseconds.
    Arithmetic is 64-bit and wraps. *)
Theorem token_bucket_conformance R T b0 s :
  0 < R -> 0 <= T -> 0 <= tokens b0 -> 0 < rate b0 <= R -> last_refill b0 = 0 ->
  rtc (Threads.step R T) (Threads.mkState b0 [] 0) s ->
  1000 * Threads.acc s <= 1000 * tokens b0 + R * T.
Proof.
  intros HR HT Ht Hr Hl Hs.
  assert (Hinv : Threads.inv R T (tokens b0) s).
  { revert Hs. apply (rtc_ind_r (fun s => Threads.inv R T (tokens b0) s)).
    - split; [constructor|]. unfold Threads.bucket_wf, Threads.total. simpl. lia.
    - intros y z _ Hyz Hy. by eapply Threads.thread_inv. }
  destruct Hinv as (Hth & (Htok & Hrate & Hlast) & Hacc).
  pose proof (Threads.total_nonneg R T _ ltac:(lia) Hth). nia.
Qed.

(** A packet of 1500 octets goes through a bucket of 2000. *)
Definition ex_bucket : TokenBucket := bucket_new 20000 2000.
Definition ex_spent : TokenBucket := mkBucket 500000 20000 2000 0.

Lemma ex_passes :
  rtc (Threads.step 20000 5000) (Threads.mkState ex_bucket [] 0)
    (Threads.mkState ex_spent [Threads.Done true] 1500000).
Proof.
  eapply rtc_l; [apply (Threads.step_check 20000 5000 _ 1500); lia|]. cbn [Threads.th app Threads.sh Threads.acc].
  do 5 (eapply rtc_l; [apply (Threads.step_move 20000 5000 _ 0 50 false); [reflexivity|lia|vm_compute; reflexivity]|]).
  apply rtc_refl.
Qed.

Lemma token_bucket_conformance_witness :
  1000 * 1500000 <= 1000 * tokens ex_bucket + 20000 * 5000.
Proof.
  refine (token_bucket_conformance 20000 5000 ex_bucket _ _ _ _ _ _ ex_passes);
    vm_compute; try split; congruence.
Defined.

(** [C35] The lock-free code refines the sequential description: a thread that runs
    [check] without interference terminates, and returns and leaves behind exactly
    what [bucket_check] says. *)
Theorem check_refines_sequential now n b :
  exists fuel r b', Threads.run_alone fuel now (Threads.Start n) b = Some (Threads.Done r, b') /\
    bucket_check now n b = (r, b').
Proof.
  destruct (alone_check now n b) as [fuel Hf]. exists fuel.
  destruct (bucket_check now n b) as [r b']. by exists r, b'.
Qed.

(** The shaper's own state: the rate it believes in is the bucket's, inside the
    configured range, and the bucket never holds more than its burst. *)
Definition shaper_wf (s : AdaptiveShaper) : Prop :=
  0 < min_rate s <= max_rate s /\ max_rate s < 2 ^ 62 /\
  min_rate s <= current_rate s <= max_rate s /\
  rate (bucket (rate_limiter s)) = current_rate s.

Lemma next_rate_range s q :
  shaper_wf s -> min_rate s <= next_rate s q <= max_rate s.
Proof.
  intros (Hm & Hx & Hc & _). unfold next_rate.
  pose proof (Z.div_le_upper_bound (current_rate s) 10 (current_rate s) ltac:(lia) ltac:(lia)).
  pose proof (Z.div_pos (current_rate s) 20 ltac:(lia) ltac:(lia)).
  pose proof (Z.div_pos (current_rate s) 10 ltac:(lia) ltac:(lia)).
  pose proof (Z.div_le_upper_bound (current_rate s) 20 (current_rate s) ltac:(lia) ltac:(lia)).
  split_if; [rewrite wrap_small by lia; lia|]. split_if; lia.
Qed.

(** The adaptive rate stays between 1 Mbit/s and the configured maximum: a shaper
    made for any non-zero bandwidth starts inside the range with the bucket at the
    same rate, and [update_rtt] and [check] keep it so for every measurement;
    [base_rtt] only ever falls to a measured value. *)
Theorem adaptive_rate_bounded mbps :
  0 < mbps < 2 ^ 40 ->
  shaper_wf (shaper_new mbps) /\
  (forall s rtt, shaper_wf s -> 0 <= rtt ->
     shaper_wf (update_rtt rtt s) /\ base_rtt (update_rtt rtt s) = Z.min rtt (base_rtt s) /\
     min_rate (update_rtt rtt s) = min_rate s /\ max_rate (update_rtt rtt s) = max_rate s) /\
  (forall s now n ok s', shaper_wf s -> shaper_check now n s = (ok, s') -> shaper_wf s').
Proof.
  intros Hm. split; [|split].
  - unfold shaper_new, shaper_wf, limiter_new, bucket_new. cbn -[Z.pow Z.div Z.mul Z.ltb].
    rewrite (proj2 (Z.ltb_lt 0 mbps)) by lia. unfold rate_of_mbps.
    rewrite wrap_small by lia.
    assert (125000 <= mbps * 1000000 / 8 < 2 ^ 62).
    { split; [apply Z.div_le_lower_bound|apply Z.div_lt_upper_bound]; lia. }
    rewrite (proj2 (Z.ltb_lt 0 (mbps * 1000000 / 8))) by lia.
    change (1000000 / 8) with 125000. lia.
  - intros s rtt Hs Hr. pose proof Hs as (Hmm & Hx & Hc & He). unfold update_rtt.
    rewrite (proj2 (Z.eqb_neq (max_rate s) 0)) by lia.
    assert (Hb : (if rtt <? base_rtt s then rtt else base_rtt s) = Z.min rtt (base_rtt s))
      by (split_if; lia).
    rewrite Hb. set (base := Z.min rtt (base_rtt s)). cbv zeta.
    set (s1 := mkShaper _ _ _ _ _ _ _).
    assert (Hs1 : shaper_wf s1) by done.
    pose proof (next_rate_range s1 (sat_sub rtt base) Hs1) as Hnr.
    destruct (base =? u64_max); [done|].
    destruct (next_rate s1 (sat_sub rtt base) =? current_rate s1); [done|].
    split; [|done]. split; [done|]. split; [done|]. split; [exact Hnr|done].
  - intros s now n ok s' Hs E. unfold shaper_check, limiter_check, bucket_check, refill in E.
    destruct Hs as (Hmm & Hx & Hc & He).
    repeat (split_if_in E; try done); simpl in E; injection E as <- <-; done.
Qed.

Lemma adaptive_rate_bounded_witness : shaper_wf (update_rtt 40000 (shaper_new 100)).
Proof.
  destruct (adaptive_rate_bounded 100) as (H1 & H2 & _); [lia|].
  apply (H2 (shaper_new 100) 40000); [exact H1|lia].
Defined.
