(* ===== verification/Transport.v ===== *)
(** The transports ([transport/mod.rs], [quic_raw.rs], [quic_camouflaged.rs],
    [tcp_reality.rs], [websocket_cdn.rs]): the [Transport] trait and its four
    implementations, over the part of quinn, TLS and tungstenite they use.

    A connection is what it has put on the wire and what has arrived from the peer;
    how the library below answers a send is part of its state. *)

From S2P Require Import Prelude Datagram Padding Batch.

Inductive TransportMode := QuicRaw | QuicCamouflaged | TcpReality | WebSocketCdn.
#[export] Instance transport_mode_eq_dec : EqDecision TransportMode.
Proof. solve_decision. Defined.

Inductive SendResult := Sent | TooLarge | Blocked.
Inductive TransportError := ConnectionLost | InvalidFrameLength (len : Z).

(** The trait: [send]; [recv], which is [None] while nothing has arrived; [flush]
    ([flush_writes] here, [flush] is the batcher's). The first two may panic. *)
Class Transport (T : Type) := {
  mode : T -> TransportMode;
  send : bytes -> T -> panics (result TransportError SendResult * T);
  recv : T -> panics (option (result TransportError bytes * T));
  flush_writes : T -> result TransportError unit * T
}.

(** The default of the trait. *)
Definition no_flush {T} (t : T) : result TransportError unit * T := (Ok tt, t).

(** ** QUIC datagrams *)

(** What quinn's [send_datagram] answers. *)
Inductive DgOutcome := DgOk | DgTooLarge | DgLost | DgOther.

(** [answer]: quinn's answer to the next datagram; [dg_out]: datagrams accepted;
    [dg_in]: datagrams to be read; [lost]: [read_datagram] fails. *)
Record QuicConn := mkQuic {
  answer : bytes -> DgOutcome;
  dg_out : list bytes;
  dg_in : list bytes;
  lost : bool
}.

Definition raw_send (data : bytes) (c : QuicConn) : result TransportError SendResult * QuicConn :=
  match answer c data with
  | DgOk => (Ok Sent, mkQuic (answer c) (dg_out c ++ [data]) (dg_in c) (lost c))
  | DgTooLarge => (Ok TooLarge, c)
  | DgLost => (Err ConnectionLost, c)
  | DgOther => (Ok Blocked, c)
  end.

Definition raw_recv (c : QuicConn) : option (result TransportError bytes * QuicConn) :=
  match dg_in c with
  | d :: ds => Some (Ok d, mkQuic (answer c) (dg_out c) ds (lost c))
  | [] => if lost c then Some (Err ConnectionLost, c) else None
  end.

#[export] Instance quic_raw : Transport QuicConn := {
  mode := fun _ => QuicRaw;
  send := fun data c => Some (raw_send data c);
  recv := fun c => Some (raw_recv c);
  flush_writes := no_flush
}.

Record CamoConn := mkCamo { inner : QuicConn; padding_enabled : bool }.

Definition camo_send (data : bytes) (c : CamoConn) : result TransportError SendResult * CamoConn :=
  let data := if padding_enabled c then pad_to_standard data else data in
  let '(r, i) := raw_send data (inner c) in (r, mkCamo i (padding_enabled c)).

Definition camo_recv (c : CamoConn) : panics (option (result TransportError bytes * CamoConn)) :=
  match raw_recv (inner c) with
  | None => Some None
  | Some (Err e, i) => Some (Some (Err e, mkCamo i (padding_enabled c)))
  | Some (Ok data, i) =>
      if padding_enabled c then
        stripped ← strip_padding data;
        Some (Some (Ok stripped, mkCamo i (padding_enabled c)))
      else Some (Some (Ok data, mkCamo i (padding_enabled c)))
  end.

#[export] Instance quic_camouflaged : Transport CamoConn := {
  mode := fun _ => QuicCamouflaged;
  send := fun data c => Some (camo_send data c);
  recv := camo_recv;
  flush_writes := no_flush
}.

(** ** Length-framed packets over a TLS stream *)

Definition MAX_FRAME_SIZE : Z := 65535.

(** [tokio::io::BufWriter], which is not part of this repository: [written] is what
    the stream below has accepted, [buffered] what it holds back. [write_all] and
    [flush] report whether they succeeded. *)
Class Writer (B : Type) := {
  write_all : bytes -> B -> bool * B;
  flush_buf : B -> bool * B;
  written : B -> bytes;
  buffered : B -> bytes
}.

(** What its documentation promises: octets leave in the order they were written,
    [write_all] takes all of its argument, [flush] leaves nothing behind. A failed
    call may have written a part. *)
Class WriterOk (B : Type) `{Writer B} := {
  write_all_ok : forall d w w', write_all d w = (true, w') ->
    written w' ++ buffered w' = written w ++ buffered w ++ d;
  write_all_err : forall d w w', write_all d w = (false, w') ->
    written w' `prefix_of` written w ++ buffered w ++ d;
  flush_buf_ok : forall w w', flush_buf w = (true, w') ->
    written w' = written w ++ buffered w /\ buffered w' = [];
  flush_buf_err : forall w w', flush_buf w = (false, w') ->
    written w' `prefix_of` written w ++ buffered w
}.

(** [writer], [tcp_in] the octets to be read, [eof] whether more can come, [pkt_buf]
    the reused buffer. *)
Record TcpConn (B : Type) := mkTcp {
  writer : B; tcp_in : bytes; eof : bool; pkt_buf : bytes
}.
Arguments mkTcp {B} _ _ _ _.
Arguments writer {B} _.
Arguments tcp_in {B} _.
Arguments eof {B} _.
Arguments pkt_buf {B} _.

(** [2B len BE][data] *)
Definition frame (data : bytes) : bytes := u16_to_be_bytes (wrap16 (zlen data)) ++ data.

Definition with_writer {B} (w : B) (c : TcpConn B) : TcpConn B :=
  mkTcp w (tcp_in c) (eof c) (pkt_buf c).

Definition tcp_send `{Writer B} (data : bytes) (c : TcpConn B)
    : result TransportError SendResult * TcpConn B :=
  if MAX_FRAME_SIZE <? zlen data then (Ok TooLarge, c)
  else
    let '(ok, w) := write_all (frame data) (writer c) in
    (if ok then Ok Sent else Err ConnectionLost, with_writer w c).

Definition tcp_flush `{Writer B} (c : TcpConn B) : result TransportError unit * TcpConn B :=
  let '(ok, w) := flush_buf (writer c) in
  (if ok then Ok tt else Err ConnectionLost, with_writer w c).

(** One frame off a stream: [None] while it is incomplete and more may come. The
    client's [recv] and the servers' TLS loops share this code. *)
Definition read_frame (inp : bytes) (eof : bool) (pkt_buf : bytes)
    : panics (option (result TransportError (bytes * bytes * bytes))) :=
  let stuck := if eof then Some (Err ConnectionLost) else None in
  match inp with
  | hi :: lo :: rest =>
      let len := u16_from_be_bytes hi lo in
      if (len =? 0) || (MAX_FRAME_SIZE <? len) then Some (Some (Err (InvalidFrameLength len)))
      else
        let pkt_buf := if zlen pkt_buf <? len then vec_resize len x00 pkt_buf else pkt_buf in
        let n := Z.to_nat len in
        if decide (n <= length rest)%nat then
          pkt_buf ← copy_into 0 n (take n rest) pkt_buf;
          pkt ← slice 0 n pkt_buf;
          Some (Some (Ok (pkt, drop n rest, pkt_buf)))
        else Some stuck
  | _ => Some stuck
  end.

Definition tcp_recv {B} (c : TcpConn B)
    : panics (option (result TransportError bytes * TcpConn B)) :=
  r ← read_frame (tcp_in c) (eof c) (pkt_buf c);
  Some match r with
       | None => None
       | Some (Err e) => Some (Err e, c)
       | Some (Ok (pkt, rest, buf)) => Some (Ok pkt, mkTcp (writer c) rest (eof c) buf)
       end.

#[export] Instance tcp_reality `{Writer B} : Transport (TcpConn B) := {
  mode := fun _ => TcpReality;
  send := fun data c => Some (tcp_send data c);
  recv := tcp_recv;
  flush_writes := tcp_flush
}.

(** ** WebSocket messages *)

Inductive Message := Binary (data : bytes) | Text (data : bytes) | Ping | Pong | Close | Frame.

(** [ws_in]: what [stream.next()] yields, [Err] for a protocol error. *)
Record WsConn := mkWs {
  ws_out : list Message; ws_in : list (result unit Message); ws_eof : bool; ws_writable : bool
}.

Definition ws_send (data : bytes) (c : WsConn) : result TransportError SendResult * WsConn :=
  if ws_writable c
  then (Ok Sent, mkWs (ws_out c ++ [Binary data]) (ws_in c) (ws_eof c) (ws_writable c))
  else (Err ConnectionLost, c).

(** The loop of [recv] over the messages that have arrived. *)
Fixpoint ws_next (inp : list (result unit Message)) (eof : bool)
    : option (result TransportError bytes * list (result unit Message)) :=
  match inp with
  | [] => if eof then Some (Err ConnectionLost, []) else None
  | Ok (Binary data) :: inp => Some (Ok data, inp)
  | Ok (Ping) :: inp | Ok (Pong) :: inp => ws_next inp eof
  | Ok Close :: inp => Some (Err ConnectionLost, inp)
  | Ok _ :: inp => ws_next inp eof
  | Err _ :: inp => Some (Err ConnectionLost, inp)
  end.

Definition ws_recv (c : WsConn) : option (result TransportError bytes * WsConn) :=
  match ws_next (ws_in c) (ws_eof c) with
  | None => None
  | Some (r, inp) => Some (r, mkWs (ws_out c) inp (ws_eof c) (ws_writable c))
  end.

#[export] Instance websocket_cdn : Transport WsConn := {
  mode := fun _ => WebSocketCdn;
  send := fun data c => Some (ws_send data c);
  recv := fun c => Some (ws_recv c);
  flush_writes := no_flush
}.

(** ** Runs *)

(** Send a list of packets up to the first fatal error, as every caller does: the
    packets that were reported as sent, and the error. *)
Fixpoint send_all {T} `{Transport T} (ps : list bytes) (t : T)
    : panics (list bytes * option TransportError * T) :=
  match ps with
  | [] => Some ([], None, t)
  | p :: ps =>
      '(r, t) ← send p t;
      match r with
      | Err e => Some ([], Some e, t)
      | Ok o =>
          '(sent, e, t) ← send_all ps t;
          Some (match o with Sent => [p] | _ => [] end ++ sent, e, t)
      end
  end.

(** Receive up to [n] packets; stops when nothing is there or on an error. *)
Fixpoint recv_all {T} `{Transport T} (n : nat) (t : T) : panics (list bytes * T) :=
  match n with
  | O => Some ([], t)
  | S n =>
      r ← recv t;
      match r with
      | Some (Ok p, t) => '(ps, t) ← recv_all n t; Some (p :: ps, t)
      | _ => Some ([], t)
      end
  end.

(** ** The interface to the tunnels: what of the packets sent comes out at the peer *)

(** A stream delivers in order and without gaps; datagrams get lost, and overtake one
    another. *)
Inductive Network := Stream | Datagrams.

(** What may have arrived, at some moment, of what was sent. *)
Definition may_arrive (n : Network) {X} (arrived sent : list X) : Prop :=
  match n with Stream => arrived `prefix_of` sent | Datagrams => arrived ⊆+ sent end.

(** [line a]: what [a] has put on the wire, octets, messages or datagrams;
    [arrive xs b]: [b] with [xs] to be read; [peers a b]: both ends are set up alike, and
    nothing is on the wire yet; [carries]: the packets the transport returns unchanged. *)
Class Carrier (T : Type) `{Transport T} := {
  parcel : Type;
  network : Network;
  line : T -> list parcel;
  arrive : list parcel -> T -> T;
  peers : T -> T -> Prop;
  carries : T -> bytes -> Prop
}.

(** [b] with everything [a] has put on the wire to be read. *)
Definition carry {T} `{Carrier T} (a b : T) : T := arrive (line a) b.

(** What holds for one connection: whatever has arrived of what was put on the wire, the
    peer reads the packets it stands for, in its order; after a successful flush and when
    everything has arrived in order, all of them. *)
Definition delivers {T} `{Carrier T} (ps : list bytes) (a b : T) : Prop :=
  exists sent e a', send_all ps a = Some (sent, e, a') /\ sent `sublist_of` ps /\
    (forall arrived, may_arrive network arrived (line a') ->
       exists got b', recv_all (length sent) (arrive arrived b) = Some (got, b') /\
         may_arrive network got sent /\ (arrived `sublist_of` line a' -> got `sublist_of` sent)) /\
    (forall a'', e = None -> flush_writes a' = (Ok tt, a'') ->
       exists b', recv_all (length sent) (carry a'' b) = Some (sent, b')).

Class CarrierOk (T : Type) `{Carrier T} :=
  carrier_law : forall ps a b, Forall (carries a) ps -> peers a b -> delivers ps a b.

(** *** Datagrams *)

(** A transport that makes one datagram of each packet it sends, and reads a packet back
    from its datagram. *)
Section datagrams.
Context {T : Type} `{Transport T}.
Variables (wire : T -> list bytes) (with_in : list bytes -> T -> T) (enc : bytes -> bytes).
Variables (ok : bytes -> Prop) (P Q : T -> Prop).
Hypothesis send_ok : forall p t, P t -> ok p ->
  exists r t', send p t = Some (r, t') /\ P t' /\
    match r with Ok Sent => wire t' = wire t ++ [enc p] | _ => wire t' = wire t end.
Hypothesis recv_ok : forall p rest b, Q b -> ok p ->
  exists b', recv (with_in (enc p :: rest) b) = Some (Some (Ok p, with_in rest b')) /\ Q b'.
Hypothesis recv_none : forall b, exists r, recv (with_in [] b) = Some r /\ forall q b', r <> Some (Ok q, b').
Hypothesis flush_none : forall t, flush_writes t = (Ok tt, t).

Lemma datagram_send ps : forall t, P t -> Forall ok ps ->
  exists sent e t', send_all ps t = Some (sent, e, t') /\ sent `sublist_of` ps /\
    Forall ok sent /\ wire t' = wire t ++ (enc <$> sent).
Proof.
  induction ps as [|p ps IH]; intros t Ht Hps; cbn [send_all].
  { exists [], None, t. rewrite app_nil_r. by repeat constructor. }
  apply Forall_cons in Hps as [Hp Hps].
  destruct (send_ok p t Ht Hp) as (r & t1 & -> & Ht1 & Hr). cbn [mbind option_bind].
  destruct r as [o|e].
  2: { exists [], (Some e), t1. rewrite app_nil_r. split; [done|]. split; [apply sublist_nil_l|]. by split. }
  destruct (IH t1 Ht1 Hps) as (sent & e & t2 & -> & Hsub & Hok & Hw). cbn [mbind option_bind].
  destruct o; [exists (p :: sent), e, t2|exists sent, e, t2..]; (split; [done|]); (split; [by constructor|]);
    rewrite Hw, Hr; [|done..].
  split; [by constructor|]. by rewrite <-app_assoc.
Qed.

Lemma datagram_recv ps : forall n b, (length ps <= n)%nat -> Q b -> Forall ok ps ->
  exists b', recv_all n (with_in (enc <$> ps) b) = Some (ps, b').
Proof.
  induction ps as [|p ps IH]; intros n b Hn Hb Hok.
  { destruct n; cbn [recv_all]; [by eexists|]. cbn [fmap list_fmap].
    destruct (recv_none b) as (r & -> & Hr). cbn [mbind option_bind].
    destruct r as [[[q|] b']|]; [by destruct (Hr q b')|by eexists..]. }
  destruct n as [|n]; simpl in Hn; [lia|]. apply Forall_cons in Hok as [Hp Hok].
  cbn [recv_all fmap list_fmap]. destruct (recv_ok p (enc <$> ps) b Hb Hp) as (b1 & E & Hb1).
  change (list_fmap bytes bytes enc ps) with (enc <$> ps). rewrite E. cbn [mbind option_bind].
  destruct (IH n b1 ltac:(lia) Hb1 Hok) as (b2 & ->). by eexists.
Qed.

(** The datagrams that arrived are those of some packets that were sent. *)
Lemma arrived_from (sent arrived : list bytes) : Forall2 (fun d p => d = enc p) arrived sent -> arrived = enc <$> sent.
Proof. induction 1 as [|d p ds ps -> _ IH]; [done|]. by rewrite IH. Qed.

Lemma enc_each (sent : list bytes) : Forall2 (fun d p => d = enc p) (enc <$> sent) sent.
Proof. induction sent; by constructor. Qed.

Lemma datagram_law ps a b : P a -> Q b -> wire a = [] -> Forall ok ps ->
  exists sent e a', send_all ps a = Some (sent, e, a') /\ sent `sublist_of` ps /\
    (forall arrived, arrived ⊆+ wire a' ->
       exists got b', recv_all (length sent) (with_in arrived b) = Some (got, b') /\
         got ⊆+ sent /\ (arrived `sublist_of` wire a' -> got `sublist_of` sent)) /\
    (forall a'', e = None -> flush_writes a' = (Ok tt, a'') ->
       exists b', recv_all (length sent) (with_in (wire a'') b) = Some (sent, b')).
Proof.
  intros Ha Hb Hw Hps. destruct (datagram_send ps a Ha Hps) as (sent & e & a' & E & Hsub & Hok & Hw').
  rewrite Hw in Hw'. cbn [app] in Hw'. exists sent, e, a'. split; [done|]. split; [done|]. split.
  - intros arrived. rewrite Hw'. intros Harr.
    destruct (Forall2_submseteq _ _ _ _ Harr (enc_each sent)) as (got & Hg & ->%arrived_from).
    assert (Hr : forall got', got' ⊆+ sent -> exists b', recv_all (length sent) (with_in (enc <$> got') b) = Some (got', b')).
    { intros got' Hg'. apply datagram_recv; [by apply submseteq_length|done|]. apply Forall_forall. intros x Hx.
      by eapply Forall_forall, elem_of_submseteq. }
    destruct (Hr got Hg) as [b' Eb]. exists got, b'. split; [done|]. split; [done|]. intros Hs.
    destruct (Forall2_sublist _ _ _ _ Hs (enc_each sent)) as (got' & Hg' & He%arrived_from).
    destruct (Hr got' (sublist_submseteq _ _ Hg')) as [b'' Eb']. rewrite <-He, Eb in Eb'. by injection Eb' as -> _.
  - intros a'' _. rewrite flush_none. intros [= <-]. rewrite Hw'. by apply datagram_recv.
Qed.
End datagrams.

(** *** Streams *)

(** A transport that puts an encoding of each packet it sends behind what it has sent,
    and reads back what the encoding of a packet starts with, carries packets. [wire]
    is what the peer can read, [held] what a flush still has to write. *)
Section framed.
Context {X T : Type} `{Transport T}.
Variables (wire held : T -> list X) (with_in : list X -> T -> T) (enc : bytes -> list X).
Variables (ok sendable : bytes -> Prop) (P Q : T -> Prop).
Hypothesis send_ok : forall p t, P t -> ok p ->
  exists r t', send p t = Some (r, t') /\ P t' /\
    match r with
    | Ok Sent => sendable p /\ wire t' ++ held t' = wire t ++ held t ++ enc p
    | Ok _ => wire t' ++ held t' = wire t ++ held t
    | Err _ => sendable p /\ wire t' `prefix_of` wire t ++ held t ++ enc p
    end.
Hypothesis flush_ok : forall t t', flush_writes t = (Ok tt, t') -> wire t' = wire t ++ held t.
Hypothesis recv_ok : forall p rest b, Q b -> ok p -> sendable p ->
  exists b', recv (with_in (enc p ++ rest) b) = Some (Some (Ok p, with_in rest b')) /\ Q b'.
Hypothesis recv_short : forall p inp b, Q b -> ok p -> sendable p ->
  (exists x rest, enc p = inp ++ x :: rest) ->
  exists r, recv (with_in inp b) = Some r /\ forall q b', r <> Some (Ok q, b').

Lemma framed_send ps : forall t, P t -> Forall ok ps ->
  exists sent e t' more, send_all ps t = Some (sent, e, t') /\ sent `sublist_of` ps /\
    Forall ok (sent ++ more) /\ Forall sendable (sent ++ more) /\
    wire t' `prefix_of` wire t ++ held t ++ concat (enc <$> (sent ++ more)) /\
    (e = None -> wire t' ++ held t' = wire t ++ held t ++ concat (enc <$> sent)).
Proof.
  induction ps as [|p ps IH]; intros t Ht Hps; cbn [send_all].
  { exists [], None, t, []. simpl. rewrite !app_nil_r.
    do 4 (split; [by constructor|]). split; [by apply prefix_app_r|done]. }
  apply Forall_cons in Hps as [Hp Hps].
  destruct (send_ok p t Ht Hp) as (r & t1 & -> & Ht1 & Hr). cbn [mbind option_bind].
  destruct r as [o|e]; cycle 1.
  { destruct Hr as [Hs Hw]. exists [], (Some e), t1, [p]. simpl. rewrite app_nil_r.
    split; [done|]. split; [apply sublist_nil_l|]. do 2 (split; [by constructor|]). by split. }
  destruct (IH t1 Ht1 Hps) as (sent & e & t2 & more & -> & Hsub & Hok & Hse & Hpre & Hall).
  cbn [mbind option_bind]. destruct o.
  1: { destruct Hr as [Hs Hw]. rewrite app_assoc, Hw in Hpre.
       exists (p :: sent), e, t2, more. cbn [app].
       rewrite !fmap_cons. cbn [concat]. rewrite <-!app_assoc in *.
       split; [done|]. split; [by constructor|]. do 2 (split; [by constructor|]).
       split; [done|]. intros He.
       rewrite (Hall He), app_assoc, Hw. by rewrite <-!app_assoc. }
  all: rewrite app_assoc, Hr, <-app_assoc in Hpre.
  all: exists sent, e, t2, more; split; [done|]; split; [by constructor|].
  all: do 3 (split; [done|]); intros He; rewrite (Hall He), app_assoc, Hr, <-app_assoc; done.
Qed.

Lemma framed_recv ps : forall b rest, Q b -> Forall ok ps -> Forall sendable ps ->
  exists b', recv_all (length ps) (with_in (concat (enc <$> ps) ++ rest) b) = Some (ps, b').
Proof.
  induction ps as [|p ps IH]; intros b rest Hb Hok Hs; simpl; [by eexists|].
  apply Forall_cons in Hok as [Hp Hok], Hs as [Hsp Hs]. rewrite <-app_assoc.
  destruct (recv_ok p (concat (enc <$> ps) ++ rest) b Hb Hp Hsp) as (b1 & E & Hb1).
  change (list_fmap bytes (list X) enc ps) with (enc <$> ps). rewrite E. simpl.
  destruct (IH b1 rest Hb1 Hok Hs) as (b2 & ->). simpl. by eexists.
Qed.

(** Whatever part of the stream has arrived, a reader sees a prefix of the packets. *)
Lemma framed_recv_part ps : forall n b inp, Q b -> Forall ok ps -> Forall sendable ps ->
  inp `prefix_of` concat (enc <$> ps) -> (n <= length ps)%nat ->
  exists got b', recv_all n (with_in inp b) = Some (got, b') /\ got `prefix_of` take n ps.
Proof.
  induction ps as [|p ps IH]; intros [|n] b inp Hb Hok Hs Hpre Hn; simpl in *;
    try lia; try (exists [], (with_in inp b); by split; [|apply prefix_nil]).
  apply Forall_cons in Hok as [Hp Hok], Hs as [Hsp Hs]. destruct Hpre as [rest Hpre].
  change (list_fmap bytes (list X) enc ps) with (enc <$> ps) in Hpre.
  set (body := fun r => match r with
      | Some (Ok p, t) => '(ps, t) ← recv_all n t; Some (p :: ps, t)
      | _ => Some ([], with_in inp b)
      end).
  assert (Hfull : forall k, inp = enc p ++ k -> k `prefix_of` concat (enc <$> ps) ->
    exists got b', (r ← recv (with_in inp b); body r) = Some (got, b') /\
      got `prefix_of` p :: take n ps).
  { subst body. intros k -> Hk. destruct (recv_ok p k b Hb Hp Hsp) as (b1 & -> & Hb1).
    cbn [mbind option_bind].
    destruct (IH n b1 k) as (got & b2 & -> & Hg); try done; [lia|].
    exists (p :: got), b2. split; [done|]. by apply prefix_cons. }
  apply app_eq_inv in Hpre as [(k & Hk & _)|(k & -> & Hk)]; [|apply (Hfull k); [done|by exists rest]].
  destruct k as [|x k].
  { rewrite app_nil_r in Hk. apply (Hfull []); [by rewrite app_nil_r|apply prefix_nil]. }
  destruct (recv_short p inp b Hb Hp Hsp) as (r & -> & Hr); [by exists x, k|]. cbn [mbind option_bind].
  exists [], (with_in inp b). split; [|apply prefix_nil].
  destruct r as [[[q|e] b']|]; [by destruct (Hr q b')|done..].
Qed.

Lemma framed_law ps a b : P a -> Q b -> wire a = [] -> held a = [] -> Forall ok ps ->
  exists sent e a', send_all ps a = Some (sent, e, a') /\ sent `sublist_of` ps /\
    (forall arrived, arrived `prefix_of` wire a' ->
       exists got b', recv_all (length sent) (with_in arrived b) = Some (got, b') /\
         got `prefix_of` sent /\ (arrived `sublist_of` wire a' -> got `sublist_of` sent)) /\
    (forall a'', e = None -> flush_writes a' = (Ok tt, a'') ->
       exists b', recv_all (length sent) (with_in (wire a'') b) = Some (sent, b')).
Proof.
  intros Ha Hb Hw Hh Hps.
  destruct (framed_send ps a Ha Hps) as (sent & e & a' & more & E & Hsub & Hok & Hs & Hpre & Hall).
  rewrite Hw, Hh in *. cbn [app] in *. exists sent, e, a'. split; [done|]. split; [done|]. split.
  - intros arrived Harr.
    destruct (framed_recv_part (sent ++ more) (length sent) b arrived) as (got & b' & Er & Hg);
      try done; [by etrans|rewrite length_app; lia|].
    rewrite take_app_length in Hg. exists got, b'. split; [done|]. split; [done|]. intros _.
    destruct Hg as [k ->]. by apply sublist_inserts_r.
  - intros a'' He Hf. rewrite (flush_ok _ _ Hf), (Hall He).
    apply Forall_app in Hok as [Hok _], Hs as [Hs _].
    destruct (framed_recv sent b [] Hb Hok Hs) as (b' & Hr). exists b'. by rewrite app_nil_r in Hr.
Qed.
End framed.

Definition quic_in (ds : list bytes) (c : QuicConn) : QuicConn :=
  mkQuic (answer c) (dg_out c) ds (lost c).

#[export] Instance quic_carrier : Carrier QuicConn := {
  network := Datagrams;
  line := dg_out;
  arrive := quic_in;
  peers := fun a b => dg_out a = [];
  carries := fun _ _ => True
}.

Lemma raw_send_out p c : exists r c', raw_send p c = (r, c') /\
  match r with Ok Sent => dg_out c' = dg_out c ++ [p] | _ => dg_out c' = dg_out c end.
Proof. unfold raw_send. destruct (answer c p); by eexists _, _. Qed.

#[export] Instance quic_carrier_ok : CarrierOk QuicConn.
Proof.
  intros ps a b _ Hf.
  apply (datagram_law dg_out quic_in id (fun _ => True) (fun _ => True) (fun _ => True)); try done.
  - intros p t _ _. destruct (raw_send_out p t) as (r & t' & E & Hr).
    exists r, t'. split; [by rewrite <-E|]. by split.
  - intros p rest b0 _ _. by exists b0.
  - intros b0. cbn. destruct (lost b0); eexists; split; by eauto.
  - by apply Forall_true.
Qed.

#[export] Instance camo_carrier : Carrier CamoConn := {
  network := Datagrams;
  line := fun a => dg_out (inner a);
  arrive := fun ds b => mkCamo (quic_in ds (inner b)) (padding_enabled b);
  peers := fun a b => dg_out (inner a) = [] /\ padding_enabled a = padding_enabled b;
  carries := fun a p => if padding_enabled a then well_sized p else True
}.

#[export] Instance camo_carrier_ok : CarrierOk CamoConn.
Proof.
  intros ps a b Hps [Hf Hpad].
  set (pad := padding_enabled a) in *.
  apply (datagram_law (fun c => dg_out (inner c))
    (fun ds c => mkCamo (quic_in ds (inner c)) (padding_enabled c))
    (fun p => if pad then pad_to_standard p else p)
    (fun p => if pad then well_sized p else True)
    (fun c => padding_enabled c = pad) (fun c => padding_enabled c = pad)); try done.
  - intros p t Ht _. cbn [send quic_camouflaged]. unfold camo_send. rewrite Ht.
    destruct (raw_send_out (if pad then pad_to_standard p else p) (inner t)) as (r & i & -> & Hr).
    exists r, (mkCamo i pad). by do 2 (split; [done|]).
  - intros p rest b0 Hb Hp. exists b0. split; [|done]. cbn [recv quic_camouflaged].
    unfold camo_recv. simpl. rewrite Hb. destruct pad; [|done].
    rewrite strip_pad_id by done. done.
  - intros b0. cbn. unfold camo_recv. cbn. destruct (lost (inner b0)); eexists; split; by eauto.
Qed.

Definition tcp_with {B} (inp : bytes) (c : TcpConn B) : TcpConn B :=
  mkTcp (writer c) inp (eof c) (pkt_buf c).

#[export] Instance tcp_carrier `{Writer B} : Carrier (TcpConn B) := {
  network := Stream;
  line := fun a => written (writer a);
  arrive := tcp_with;
  peers := fun a b => written (writer a) = [] /\ buffered (writer a) = [];
  carries := fun _ p => p <> []
}.

Lemma frame_entry p : frame p = entry p.
Proof. done. Qed.

(** Reading a frame gives the packet, whatever the buffer held before. *)
Lemma read_frame_frame p rest e buf :
  p <> [] -> zlen p <= MAX_FRAME_SIZE ->
  exists buf', read_frame (frame p ++ rest) e buf = Some (Some (Ok (p, rest, buf'))).
Proof.
  intros Hne Hmax. unfold read_frame, frame, MAX_FRAME_SIZE in *.
  destruct (u16_to_be_bytes (wrap16 (zlen p))) as [|hi [|lo [|]]] eqn:Ebe; try discriminate.
  cbn [app]. pose proof (entry_announces p hi lo ltac:(unfold fits_u16; lia) Ebe) as ->.
  assert (0 < zlen p) by (destruct p; [done|]; len).
  rewrite (proj2 (Z.eqb_neq _ _)), (proj2 (Z.ltb_ge _ _)) by lia. cbn [orb].
  assert (Hn : Z.to_nat (zlen p) = length p) by (unfold zlen; lia). rewrite Hn.
  rewrite decide_True by len.
  set (b1 := if zlen buf <? zlen p then vec_resize (zlen p) x00 buf else buf).
  assert (Hb1 : (length p <= length b1)%nat).
  { subst b1. split_if; [unfold vec_resize; rewrite length_resize; lia|unfold zlen in *; lia]. }
  rewrite take_app_length, drop_app_length. unfold copy_into.
  rewrite decide_True by lia. cbn [mbind option_bind].
  rewrite slice_Some by (simpl; rewrite length_app; lia). cbn [mbind option_bind].
  eexists. rewrite take_0, drop_0, Nat.sub_0_r. cbn [app]. by rewrite take_app_length.
Qed.

(** A frame that has not arrived in full is not read. *)
Lemma read_frame_short p inp e buf :
  p <> [] -> zlen p <= MAX_FRAME_SIZE -> (exists x rest, frame p = inp ++ x :: rest) ->
  read_frame inp e buf = Some (if e then Some (Err ConnectionLost) else None).
Proof.
  intros Hne Hmax (x & rest & E). unfold frame, MAX_FRAME_SIZE in *.
  destruct (u16_to_be_bytes (wrap16 (zlen p))) as [|hi [|lo [|]]] eqn:Ebe; try discriminate.
  destruct inp as [|hi' [|lo' inp]]; [done|done|]. cbn [app] in E.
  injection E as <- <- E'. cbn [read_frame].
  pose proof (entry_announces p hi lo ltac:(unfold fits_u16; lia) Ebe) as ->.
  assert (0 < zlen p) by (destruct p; [done|]; len). unfold MAX_FRAME_SIZE.
  rewrite (proj2 (Z.eqb_neq _ _)), (proj2 (Z.ltb_ge _ _)) by lia. cbn [orb].
  rewrite decide_False; [done|]. apply (f_equal length) in E'. rewrite length_app in E'.
  simpl in E'. unfold zlen. lia.
Qed.

Lemma tcp_recv_frame `{Writer B} p rest (b : TcpConn B) :
  p <> [] -> zlen p <= MAX_FRAME_SIZE ->
  exists b', recv (tcp_with (frame p ++ rest) b) = Some (Some (Ok p, tcp_with rest b')).
Proof.
  intros Hp Hs. cbn [recv tcp_reality]. unfold tcp_recv. cbn [tcp_with tcp_in eof pkt_buf].
  destruct (read_frame_frame p rest (eof b) (pkt_buf b) Hp Hs) as (buf & ->).
  by exists (mkTcp (writer b) [] (eof b) buf).
Qed.

Lemma tcp_recv_short `{Writer B} p inp (b : TcpConn B) :
  p <> [] -> zlen p <= MAX_FRAME_SIZE -> (exists x rest, frame p = inp ++ x :: rest) ->
  exists r, recv (tcp_with inp b) = Some r /\ forall q b', r <> Some (Ok q, b').
Proof.
  intros Hp Hs Hshort. cbn [recv tcp_reality]. unfold tcp_recv.
  cbn [tcp_with tcp_in eof pkt_buf]. rewrite (read_frame_short p) by done.
  cbn [mbind option_bind]. destruct (eof b); eexists; split; by eauto.
Qed.

(** A TLS reader gets back the packets whose frames have arrived in full. *)
Lemma tcp_recv_all `{Writer B} ps (b : TcpConn B) :
  Forall (fun p => p <> []) ps -> Forall (fun p => zlen p <= MAX_FRAME_SIZE) ps ->
  exists b', recv_all (length ps) (tcp_with (concat (frame <$> ps)) b) = Some (ps, b').
Proof.
  intros Hp Hs.
  destruct (framed_recv tcp_with frame (fun p => p <> []) (fun p => zlen p <= MAX_FRAME_SIZE)
    (fun _ : TcpConn B => True)) with (ps := ps) (b := b) (rest := @nil byte) as (b' & E); try done.
  - intros p rest b0 _ Hp0 Hs0. destruct (tcp_recv_frame p rest b0 Hp0 Hs0) as (b1 & ->). by exists b1.
  - exists b'. by rewrite app_nil_r in E.
Qed.

Lemma tcp_recv_all_part `{Writer B} ps inp (b : TcpConn B) :
  Forall (fun p => p <> []) ps -> Forall (fun p => zlen p <= MAX_FRAME_SIZE) ps ->
  inp `prefix_of` concat (frame <$> ps) ->
  exists got b', recv_all (length ps) (tcp_with inp b) = Some (got, b') /\ got `prefix_of` ps.
Proof.
  intros Hp Hs Hpre.
  destruct (framed_recv_part tcp_with frame (fun p => p <> []) (fun p => zlen p <= MAX_FRAME_SIZE)
    (fun _ : TcpConn B => True)) with (ps := ps) (n := length ps) (b := b) (inp := inp)
    as (got & b' & E & Hg); try done.
  - intros p rest b0 _ Hp0 Hs0. destruct (tcp_recv_frame p rest b0 Hp0 Hs0) as (b1 & ->). by exists b1.
  - intros p i b0 _. apply tcp_recv_short.
  - exists got, b'. split; [done|]. by rewrite firstn_all in Hg.
Qed.

#[export] Instance tcp_carrier_ok `{WriterOk B} : CarrierOk (TcpConn B).
Proof.
  intros ps a b Hps [Hw Hh].
  apply (framed_law (fun c : TcpConn B => written (writer c)) (fun c => buffered (writer c))
    tcp_with frame (fun p => p <> []) (fun p => zlen p <= MAX_FRAME_SIZE)
    (fun _ => True) (fun _ => True)); try done.
  - intros p t _ _. cbn [send tcp_reality]. unfold tcp_send.
    split_if; [by eexists _, _|]. destruct (write_all (frame p) (writer t)) as [[] w] eqn:Ew.
    + eexists _, _. do 2 (split; [done|]). split; [lia|]. by apply write_all_ok.
    + eexists _, _. do 2 (split; [done|]). split; [lia|]. by apply write_all_err.
  - intros t t'. cbn [flush_writes tcp_reality]. unfold tcp_flush.
    destruct (flush_buf (writer t)) as [[] w] eqn:Ew; [|done]. intros [= <-].
    by apply flush_buf_ok.
  - intros p rest b0 _ Hp Hs. destruct (tcp_recv_frame p rest b0 Hp Hs) as (b1 & ->). by exists b1.
  - intros p inp b0 _. apply tcp_recv_short.
Qed.

#[export] Instance ws_carrier : Carrier WsConn := {
  network := Stream;
  line := ws_out;
  arrive := fun ms b => mkWs (ws_out b) (Ok <$> ms) (ws_eof b) (ws_writable b);
  peers := fun a b => ws_out a = [];
  carries := fun _ _ => True
}.

(** A strict prefix of one element is empty. *)
Lemma short_one {X} (y : X) inp : (exists x rest, [y] = inp ++ x :: rest) -> inp = [].
Proof. intros (x & rest & E). destruct inp as [|z [|]]; by inversion E. Qed.

#[export] Instance ws_carrier_ok : CarrierOk WsConn.
Proof.
  intros ps a b _ Hf.
  apply (framed_law ws_out (fun _ => [])
    (fun ms c => mkWs (ws_out c) (Ok <$> ms) (ws_eof c) (ws_writable c))
    (fun p => [Binary p]) (fun _ => True) (fun _ => True) (fun _ => True) (fun _ => True)); try done.
  - intros p t _ _. cbn [send websocket_cdn]. unfold ws_send.
    destruct (ws_writable t); eexists _, _; (split; [done|]); (split; [done|]); simpl.
    + by rewrite !app_nil_r.
    + split; [done|]. by apply prefix_app_r.
  - intros t t' [= <-]. by rewrite app_nil_r.
  - intros p rest b0 _ _ _. by exists b0.
  - intros p inp b0 _ _ _ ->%short_one. cbn. unfold ws_recv. cbn.
    destruct (ws_eof b0); eexists; split; by eauto.
  - by apply Forall_true.
Qed.

(** ** A buffered writer *)

(** The writer of capacity [cap] over a stream that accepts [room] more octets: what does
    not fit is written out, large pieces are not copied. *)
Record CappedWriter := mkCapped { cw_cap : nat; cw_room : nat; cw_out : bytes; cw_buf : bytes }.

Definition cw_put (d : bytes) (w : CappedWriter) : bool * CappedWriter :=
  (bool_decide (length d <= cw_room w)%nat,
   mkCapped (cw_cap w) (cw_room w - length d) (cw_out w ++ take (cw_room w) d) (cw_buf w)).

Definition cw_flush (w : CappedWriter) : bool * CappedWriter :=
  let '(ok, w) := cw_put (cw_buf w) w in
  (ok, if ok then mkCapped (cw_cap w) (cw_room w) (cw_out w) [] else w).

#[export] Instance capped_writer : Writer CappedWriter := {
  write_all := fun d w =>
    let '(ok, w) := if decide (cw_cap w < length (cw_buf w ++ d))%nat then cw_flush w else (true, w) in
    if negb ok then (false, w)
    else if decide (cw_cap w <= length d)%nat then cw_put d w
    else (true, mkCapped (cw_cap w) (cw_room w) (cw_out w) (cw_buf w ++ d));
  flush_buf := cw_flush;
  written := cw_out;
  buffered := cw_buf
}.

Lemma cw_put_spec d w ok w' : cw_put d w = (ok, w') ->
  cw_cap w' = cw_cap w /\ cw_buf w' = cw_buf w /\
  if ok then cw_out w' = cw_out w ++ d else cw_out w' `prefix_of` cw_out w ++ d.
Proof.
  unfold cw_put. intros [= <- <-]. simpl. do 2 (split; [done|]). case_bool_decide.
  - by rewrite take_ge by lia.
  - apply prefix_app. by exists (drop (cw_room w) d); rewrite take_drop.
Qed.

Lemma cw_flush_spec w ok w' : cw_flush w = (ok, w') ->
  cw_cap w' = cw_cap w /\
  if ok then cw_out w' = cw_out w ++ cw_buf w /\ cw_buf w' = []
  else cw_out w' `prefix_of` cw_out w ++ cw_buf w.
Proof.
  unfold cw_flush. destruct (cw_put (cw_buf w) w) as [o w1] eqn:E.
  apply cw_put_spec in E as (Hc & Hb & Ho). intros [= <- <-]. by destruct o.
Qed.

#[export] Instance capped_writer_ok : WriterOk CappedWriter.
Proof.
  assert (Hw : forall d w ok w', write_all d w = (ok, w') ->
    if ok then cw_out w' ++ cw_buf w' = cw_out w ++ cw_buf w ++ d
    else cw_out w' `prefix_of` cw_out w ++ cw_buf w ++ d).
  { intros d w ok w'. cbn [write_all capped_writer].
    destruct (if decide _ then cw_flush w else (true, w)) as [o w1] eqn:E1.
    assert (H1 : cw_cap w1 = cw_cap w /\
      if o then cw_out w1 ++ cw_buf w1 = cw_out w ++ cw_buf w /\
                (cw_cap w <= length d -> cw_buf w1 = [])%nat
      else cw_out w1 `prefix_of` cw_out w ++ cw_buf w).
    { destruct (decide _) as [Hd|Hd].
      - apply cw_flush_spec in E1 as [Hc Hf]. split; [done|]. destruct o; [|done].
        destruct Hf as [-> ->]. by rewrite app_nil_r.
      - injection E1 as <- <-. split; [done|]. split; [done|]. rewrite length_app in Hd. intros Hl.
        destruct (cw_buf w) eqn:Eb; [done|]. simpl in Hd. lia. }
    destruct H1 as [Hc H1]. destruct o; cbn [negb].
    - destruct H1 as [Ho Hb]. rewrite app_assoc, <-Ho. destruct (decide (cw_cap w1 <= length d)%nat) as [Hl|Hl].
      + intros (_ & Hb' & Hp)%cw_put_spec. rewrite Hc in Hl. rewrite (Hb Hl) in *.
        rewrite app_nil_r. destruct ok; [|done]. by rewrite Hb', app_nil_r.
      + intros [= <- <-]. simpl. by rewrite app_assoc.
    - intros [= <- <-]. rewrite app_assoc. by apply prefix_app_r. }
  split.
  - intros d w w' E. apply (Hw _ _ _ _ E).
  - intros d w w' E. apply (Hw _ _ _ _ E).
  - intros w w' E. apply (cw_flush_spec _ _ _ E).
  - intros w w' E. apply (cw_flush_spec _ _ _ E).
Qed.

(** ** Theorems *)

(** [C9] Every transport keeps its side of the [Transport] contract. Packets are sent
    until a fatal error. Whatever then has arrived at the peer of what was put on the
    wire, its [recv] gives packets reported as sent, unchanged. Over the streams (TCP
    Reality and WebSocket) any prefix of the wire may have arrived, wherever a failed
    write stopped and whatever the write buffer still holds, and gives a prefix of the
    packets. Over QUIC datagrams, which get lost and overtake one another, any
    sub-collection in any order may have arrived, and gives a sub-collection of the
    packets, a subsequence when what arrived is in order. If there was no error, [flush]
    succeeds and everything arrives in order, the peer gets all the packets. For the TLS
    stream this is the framing of non-empty packets through a buffered writer, read back
    through a reused buffer; for the camouflaged transport, padding and stripping of
    packets whose header announces their length; for raw QUIC and WebSocket, any packets. *)
Theorem transports_carry_packets `{WriterOk B} ps :
  (forall a b : QuicConn, peers a b -> delivers ps a b) /\
  (forall a b : CamoConn, peers a b -> Forall well_sized ps -> delivers ps a b) /\
  (forall a b : TcpConn B, peers a b -> Forall (fun p => p <> []) ps -> delivers ps a b) /\
  (forall a b : WsConn, peers a b -> delivers ps a b).
Proof.
  split; [|split; [|split]]; intros a b Hp; [|intros Hps..|].
  - apply (carrier_law (T:=QuicConn)); [by apply Forall_true|done].
  - apply (carrier_law (T:=CamoConn)); [|done]. unfold carries, camo_carrier.
    destruct (padding_enabled a); [done|by apply Forall_true].
  - apply (carrier_law (T:=TcpConn B)); done.
  - apply (carrier_law (T:=WsConn)); [by apply Forall_true|done].
Qed.

(** A buffer of 30 octets. *)
Definition ex_tcp : TcpConn CappedWriter := mkTcp (mkCapped 30 1000 [] []) [] false (replicate 4 x00).

Definition ex_sent : panics (list bytes * option TransportError * TcpConn CappedWriter) :=
  send_all [ex_packet; [x45]] ex_tcp.

(** The second frame waits in the buffer until the flush. *)
Lemma transports_carry_packets_witness :
  peers ex_tcp ex_tcp /\ delivers [ex_packet; [x45]] ex_tcp ex_tcp /\
  match ex_sent with
  | Some (sent, e, a) =>
      sent = [ex_packet; [x45]] /\ e = None /\ buffered (writer a) <> [] /\
      (flush_writes a).1 = Ok tt
  | None => False
  end.
Proof.
  destruct (transports_carry_packets (B:=CappedWriter) [ex_packet; [x45]]) as (_ & _ & Htcp & _).
  split; [split; reflexivity|]. split; [|vm_compute; repeat split; discriminate].
  apply (Htcp ex_tcp ex_tcp); [split; reflexivity|repeat constructor; discriminate].
Defined.
