(* ===== verification/Tunnel.v ===== *)
(** The data path of a tunnel. Server side: the TUN reader that feeds the clients'
    queues ([run_global_tun_reader]), the sender of a QUIC client with its batching
    ([queue2dg_task] of [run_vpn_tunnel]) and the three receivers that write client
    packets to the TUN device. Client side: what [run_tunnel] of [client.rs] writes to
    its TUN device.

    quinn's answers, the clock and the result of the write system call are inputs. *)

From S2P Require Import Prelude Datagram Padding Batch Priority Demux Stats Shaper Transport.

(** ** Sender: priority queue to datagrams *)

(** quinn's answers while one packet is handled: [datagram_send_buffer_space],
    [max_datagram_size], [send_datagram], and [send_datagram_wait] under the
    25 ms timeout ([None]: it expired). *)
Record Net := mkNet {
  space : Z;
  max_dg : option Z;
  send_datagram : bytes -> DgOutcome;
  send_datagram_wait : bytes -> option DgOutcome
}.

Record Sender := mkSender {
  batcher : Batcher;
  wire : list bytes;
  s_stats : Stats;
  s_metrics : Metrics
}.

Definition sender_new : Sender := mkSender batcher_new [] stats_new metrics_new.

Definition with_batcher (b : Batcher) (s : Sender) : Sender :=
  mkSender b (wire s) (s_stats s) (s_metrics s).
Definition counted (f : Stats -> Stats) (g : Metrics -> Metrics) (s : Sender) : Sender :=
  mkSender (batcher s) (wire s) (f (s_stats s)) (g (s_metrics s)).

(** The datagram went out: [record_send], [datagrams_out], [bytes_out]. *)
Definition sent_out (data : bytes) (s : Sender) : Sender :=
  mkSender (batcher s) (wire s ++ [data]) (record_send (zlen data) (s_stats s))
    (inc_by BytesOut (zlen data) (inc DatagramsOut (s_metrics s))).

(** [false] is [Err]: the connection is lost. *)
Definition send_rt (n : Net) (data : bytes) (s : Sender) : bool * Sender :=
  match send_datagram n data with
  | DgOk => (true, sent_out data s)
  | DgTooLarge => (true, counted record_too_large id s)
  | DgLost => (false, s)
  | DgOther => (true, counted record_blocked (inc DropsBackpressure) s)
  end.

Definition send_bulk (n : Net) (data : bytes) (s : Sender) : bool * Sender :=
  let size := zlen data in
  if size <=? space n then send_rt n data s
  else if match max_dg n with Some m => m <? size | None => false end
  then (true, counted record_too_large id s)
  else
    let s := counted id (inc BpWaitCount) s in
    match send_datagram_wait n data with
    | Some DgOk => (true, sent_out data s)
    | Some DgTooLarge => (true, counted record_too_large id s)
    | Some DgLost => (false, s)
    | Some DgOther => (true, counted record_blocked (inc DropsBackpressure) s)
    | None => (true, counted record_blocked (inc BpWaitTimeouts) s)
    end.

(** [batcher.flush()], sent unless it is empty. *)
Definition flush_batch (n : Net) (s : Sender) : bool * Sender :=
  let '(batch, b) := flush (batcher s) in
  let s := with_batcher b s in
  if decide (batch = []) then (true, s) else send_rt n batch s.

(** The flush timer, armed only while packets are pending. *)
Definition on_timer (n : Net) (s : Sender) : bool * Sender :=
  if has_pending (batcher s) then flush_batch n s else (true, s).

(** One packet from the queue; [n1] are quinn's answers to the flush before it. *)
Definition on_packet (padded : bool) (n1 n2 : Net) (packet : bytes) (s : Sender)
    : panics (bool * Sender) :=
  let packet := if padded then pad_to_standard packet else packet in
  if BATCH_SIZE_THRESHOLD <=? zlen packet then
    let '(ok, s) := flush_batch n1 s in
    if negb ok then Some (false, s)
    else
      priority ← classify packet;
      match priority with
      | Realtime =>
          if zlen packet <=? space n2 then Some (send_rt n2 packet s)
          else Some (true, counted record_blocked (inc BpRtDropsCongested) s)
      | Bulk => Some (send_bulk n2 packet s)
      end
  else
    let '(o, b) := add packet (batcher s) in
    let s := with_batcher b s in
    match o with
    | Some batch => Some (send_rt n1 batch s)
    | None => Some (true, s)
    end.

Inductive SenderInput := Timer (n : Net) | Packet (n1 n2 : Net) (p : bytes).

Definition sender_step (padded : bool) (i : SenderInput) (s : Sender) : panics (bool * Sender) :=
  match i with
  | Timer n => Some (on_timer n s)
  | Packet n1 n2 p => on_packet padded n1 n2 p s
  end.

(** The loop of [queue2dg_task]; it ends when the connection is lost. *)
Fixpoint run_sender (padded : bool) (inputs : list SenderInput) (s : Sender)
    : panics (bool * Sender) :=
  match inputs with
  | [] => Some (true, s)
  | i :: inputs =>
      r ← sender_step padded i s;
      let '(ok, s) := (r : bool * Sender) in
      if ok then run_sender padded inputs s else Some (false, s)
  end.

(** ** Client: datagrams to the TUN device *)

(** The packets [run_tunnel] writes for what [transport.recv] gave it. *)
Definition client_recv (batching : bool) (data : bytes) : panics (list bytes) :=
  if decide (data = []) then Some []
  else
    batched ← (if batching then is_batched_datagram data else Some false);
    if (batched : bool) then batch_decode data else Some [data].

(** A datagram through [recv] of the client's QUIC transport, then to the TUN. *)
Definition client_datagram (padded : bool) (d : bytes) : panics (list bytes) :=
  data ← (if padded then strip_padding d else Some d);
  client_recv true data.

Fixpoint client_datagrams (padded : bool) (ds : list bytes) : panics (list bytes) :=
  match ds with
  | [] => Some []
  | d :: ds => a ← client_datagram padded d; b ← client_datagrams padded ds; Some (a ++ b)
  end.

(** ** Receivers: from a client to the TUN device *)

(** What a receiver changes: the TUN device's input, its counters and the shaper. *)
Record Receiver := mkReceiver {
  tun : list bytes;
  r_stats : Stats;
  r_metrics : Metrics;
  r_shaper : AdaptiveShaper
}.

(** The end of every receiver of a QUIC client: check the source address, charge the
    shaper at [now], write. [tun_ok] is whether the write system call succeeds. *)
Definition admit_packet (client_ip : Ipv4Addr) (now : Z) (tun_ok : bytes -> bool) (os : Platform)
    (pkt : bytes) (r : Receiver) : panics Receiver :=
  valid ← validate_source_ip pkt client_ip;
  if negb valid then
    Some (mkReceiver (tun r) (record_spoofed (r_stats r)) (inc Spoofed (r_metrics r)) (r_shaper r))
  else
    let '(pass, sh) := shaper_check now (zlen pkt) (r_shaper r) in
    if negb pass then Some (mkReceiver (tun r) (r_stats r) (inc DropsRateLimit (r_metrics r)) sh)
    else
      w ← write_to_tun os pkt;
      Some match w with
           | Some call =>
               if tun_ok call
               then mkReceiver (tun r ++ [pkt]) (count_tun_write (r_stats r)) (r_metrics r) sh
               else mkReceiver (tun r) (r_stats r) (r_metrics r) sh
           | None => mkReceiver (tun r) (count_tun_write (r_stats r)) (r_metrics r) sh
           end.

(** One datagram in the [dg2tun] loop of [run_vpn_tunnel]. *)
Definition dg2tun (padded : bool) (client_ip : Ipv4Addr) (now : Z) (tun_ok : bytes -> bool)
    (os : Platform) (data : bytes) (r : Receiver) : panics Receiver :=
  if decide (data = []) then Some r
  else
    let r := mkReceiver (tun r) (record_recv (zlen data) (r_stats r))
               (inc_by BytesIn (zlen data) (inc DatagramsIn (r_metrics r))) (r_shaper r) in
    if padded then
      b ← data !! 0%nat;
      let version_nibble := nibble b in
      if negb (version_nibble =? 4) && negb (version_nibble =? 6) then Some r
      else
        stripped ← strip_padding data;
        admit_packet client_ip now tun_ok os stripped r
    else admit_packet client_ip now tun_ok os data r.

(** One frame in the [tls2tun] loop of [run_tcp_reality_tunnel]: no counters. *)
Definition tls2tun (client_ip : Ipv4Addr) (now : Z) (tun_ok : bytes -> bool) (os : Platform)
    (pkt : bytes) (r : Receiver) : panics Receiver :=
  valid ← validate_source_ip pkt client_ip;
  if negb valid then Some r
  else
    let '(pass, sh) := shaper_check now (zlen pkt) (r_shaper r) in
    if negb pass then Some (mkReceiver (tun r) (r_stats r) (r_metrics r) sh)
    else
      w ← write_to_tun os pkt;
      Some match w with
           | Some call =>
               mkReceiver (if tun_ok call then tun r ++ [pkt] else tun r) (r_stats r) (r_metrics r) sh
           | None => mkReceiver (tun r) (r_stats r) (r_metrics r) sh
           end.

(** The [tls2tun] loop over the octets that have arrived: it stops when a frame is
    incomplete, on an error, and ends the tunnel on an invalid length. Each turn takes
    at least three octets off the stream, so [length inp] turns are enough. *)
Fixpoint tls2tun_loop (fuel : nat) (client_ip : Ipv4Addr) (now : Z) (tun_ok : bytes -> bool)
    (os : Platform) (inp : bytes) (eof : bool) (pkt_buf : bytes) (r : Receiver)
    : panics (option TransportError * Receiver) :=
  match fuel with
  | O => None
  | S fuel =>
      f ← read_frame inp eof pkt_buf;
      match f with
      | None => Some (None, r)
      | Some (Err e) => Some (Some e, r)
      | Some (Ok (pkt, rest, pkt_buf)) =>
          r ← tls2tun client_ip now tun_ok os pkt r;
          tls2tun_loop fuel client_ip now tun_ok os rest eof pkt_buf r
      end
  end.

Definition run_tls2tun (client_ip : Ipv4Addr) (now : Z) (tun_ok : bytes -> bool) (os : Platform)
    (inp : bytes) (eof : bool) (r : Receiver) : panics (option TransportError * Receiver) :=
  tls2tun_loop (S (length inp)) client_ip now tun_ok os inp eof (replicate 1500 x00) r.

(** The [ws2tun] loop of [run_ws_vpn_tunnel]: no shaper, no counters. *)
Fixpoint ws2tun (client_ip : Ipv4Addr) (tun_ok : bytes -> bool) (os : Platform)
    (inp : list (result unit Message)) (eof : bool) (out : list bytes)
    : panics (bool * list bytes) :=
  match inp with
  | [] => Some (eof, out)
  | Ok (Binary data) :: inp =>
      valid ← validate_source_ip data client_ip;
      if negb valid then ws2tun client_ip tun_ok os inp eof out
      else
        w ← write_to_tun os data;
        ws2tun client_ip tun_ok os inp eof
          match w with Some call => if tun_ok call then out ++ [data] else out | None => out end
  | Ok Close :: _ => Some (true, out)
  | Ok _ :: inp => ws2tun client_ip tun_ok os inp eof out
  | Err _ :: _ => Some (true, out)
  end.

(** ** The global TUN reader *)

Definition TUN_MTU : Z := 1200.
Definition MAX_TUN_BATCH : nat := 64.

(** [TUN_HDR] *)
Definition tun_hdr (os : Platform) : nat := match os with Linux => 0 | MacOS => 4 end.

(** The result of [read] into a buffer of [TUN_MTU + 4] octets: the kernel hands over
    one packet and cuts it to the buffer. *)
Inductive TunRead := ReadPacket (p : bytes) | WouldBlock | ReadError.

Definition tun_read_buf (p : bytes) : bytes := take (Z.to_nat (TUN_MTU + 4)) p.

Record Reader := mkReader {
  router : ClientRouter; rd_shaper : AdaptiveShaper; rd_metrics : Metrics
}.

(** One packet read: charge the shaper, find the destination, route. *)
Definition read_packet (now : Z) (ip_pkt : bytes) (s : Reader) : panics Reader :=
  let '(pass, sh) := shaper_check now (zlen ip_pkt) (rd_shaper s) in
  if negb pass then Some (mkReader (router s) sh (inc DropsRateLimit (rd_metrics s)))
  else
    dst ← extract_dst_ipv4 ip_pkt;
    match dst with
    | None => Some (mkReader (router s) sh (rd_metrics s))
    | Some ip =>
        r ← route now ip ip_pkt (router s);
        let '(ok, rt) := (r : bool * ClientRouter) in
        Some (mkReader rt sh (if ok then rd_metrics s else inc DropsBackpressure (rd_metrics s)))
    end.

(** The inner loop, at most [MAX_TUN_BATCH] packets ([budget]) per readiness event;
    [Err] ends the reader. *)
Fixpoint tun_reader_batch (budget : nat) (os : Platform) (now : Z) (reads : list TunRead) (s : Reader)
    : panics (result unit (list TunRead) * Reader) :=
  match budget, reads with
  | O, _ => Some (Ok reads, s)
  | _, [] => Some (Ok [], s)
  | _, WouldBlock :: reads => Some (Ok reads, s)
  | _, ReadError :: _ => Some (Err tt, s)
  | S budget, ReadPacket p :: reads =>
      let buf := tun_read_buf p in
      if decide (tun_hdr os < length buf)%nat then
        ip_pkt ← slice (tun_hdr os) (length buf) buf;
        s ← read_packet now ip_pkt s;
        tun_reader_batch budget os now reads s
      else Some (Ok reads, s)
  end.

(** ** Downlink: what the client writes is what the server queued *)

Definition ip_packet (p : bytes) : Prop :=
  exists b rest, p = b :: rest /\ (nibble b = 4 \/ nibble b = 6).

Definition on_wire (padded : bool) (p : bytes) : bytes := if padded then pad_to_standard p else p.

(** What the client writes for the packet [p]: [p] itself, or, on the padded transport and
    below the batching threshold, [p] with padding zeros behind it. *)
Definition received (padded : bool) (got p : bytes) : Prop :=
  exists k, got = p ++ replicate k x00 /\
    (k = 0%nat \/ padded = true /\ zlen got < BATCH_SIZE_THRESHOLD).

Definition deliverable (padded : bool) (p : bytes) : Prop :=
  ip_packet p /\ zlen p < 65536 /\ (padded = true -> well_sized p).

Definition small_ip (q : bytes) : Prop := ip_packet q /\ zlen q < BATCH_SIZE_THRESHOLD.

Lemma ip_packet_app p r : ip_packet p -> ip_packet (p ++ r).
Proof. intros (b & rest & -> & H). by exists b, (rest ++ r). Qed.

Lemma on_wire_ip padded p : ip_packet p -> ip_packet (on_wire padded p).
Proof. destruct padded; [|done]. simpl. rewrite pad_to_standard_app. apply ip_packet_app. Qed.

Lemma on_wire_bound padded p : zlen p < 65536 -> zlen (on_wire padded p) < 65536.
Proof.
  destruct padded; [|done]. simpl. rewrite zlen_pad_to_standard. intros.
  destruct (pad_target_spec (zlen p)) as (_ & H1 & H2).
  destruct (decide (zlen p <= 1400)) as [Hl|Hl]; [|rewrite H2 by lia; lia].
  destruct (H1 Hl) as [Hin _]. unfold STANDARD_SIZES in Hin. simpl in Hin. lia.
Qed.

Lemma client_recv_ip p : ip_packet p -> client_recv true p = Some [p].
Proof.
  intros (b & rest & -> & Hb). unfold client_recv. rewrite decide_False by done.
  by rewrite is_batched_ip.
Qed.

Lemma client_recv_batch q qs :
  Forall small_ip (q :: qs) -> client_recv true (entries (q :: qs)) = Some (q :: qs).
Proof.
  intros Hs. unfold client_recv. rewrite decide_False by done.
  assert (Hq : zlen q < 4096).
  { apply Forall_cons in Hs as [[_ Hq] _]. unfold BATCH_SIZE_THRESHOLD in Hq. lia. }
  rewrite is_batched_batch by done. cbn [mbind option_bind].
  apply batch_decode_entries_nil. eapply Forall_impl; [exact Hs|].
  intros x [_ Hx]. unfold fits_u16, BATCH_SIZE_THRESHOLD in *. lia.
Qed.

Lemma strip_batch q qs : Forall small_ip (q :: qs) ->
  strip_padding (entries (q :: qs)) = Some (entries (q :: qs)).
Proof.
  intros Hs. assert (Hq : zlen q < 4096).
  { apply Forall_cons in Hs as [[_ Hq] _]. unfold BATCH_SIZE_THRESHOLD in Hq. lia. }
  pose proof (is_batched_batch q qs Hq) as Hb. rewrite entries_cons in *. unfold entry in *.
  unfold u16_to_be_bytes in *. cbn [app] in *. unfold is_batched_datagram in Hb.
  rewrite decide_False in Hb by done. cbn [lookup list_lookup mbind option_bind] in Hb.
  injection Hb as Hb. boolify. apply strip_padding_non_ip; done.
Qed.

Lemma client_datagram_batch padded q qs :
  Forall small_ip (q :: qs) -> client_datagram padded (entries (q :: qs)) = Some (q :: qs).
Proof.
  intros Hs. unfold client_datagram. destruct padded.
  - rewrite strip_batch by done. by apply client_recv_batch.
  - by apply client_recv_batch.
Qed.

Lemma client_datagram_direct padded p :
  deliverable padded p -> BATCH_SIZE_THRESHOLD <= zlen (on_wire padded p) ->
  client_datagram padded (on_wire padded p) = Some [p].
Proof.
  intros (Hip & _ & Hw) Hlen. unfold client_datagram, on_wire in *.
  destruct padded; [|by apply client_recv_ip].
  rewrite strip_pad_id by auto. by apply client_recv_ip.
Qed.

Lemma received_self padded p : received padded p p.
Proof. exists 0%nat. split; [by rewrite app_nil_r|by left]. Qed.

Lemma received_small padded p :
  zlen (on_wire padded p) < BATCH_SIZE_THRESHOLD -> received padded (on_wire padded p) p.
Proof.
  destruct padded; [|intros _; apply received_self]. simpl. intros Hl.
  eexists. split; [apply pad_to_standard_app|]. by right.
Qed.

(** The datagram [d] brings the packets [g] to the client. *)
Definition brings (padded : bool) (d : bytes) (g : list bytes) : Prop :=
  exists got, client_datagram padded d = Some got /\ Forall2 (received padded) got g.

Lemma brings_all padded ds gs :
  Forall2 (brings padded) ds gs ->
  exists got, client_datagrams padded ds = Some got /\ Forall2 (received padded) got (concat gs).
Proof.
  induction 1 as [|d g ds gs (got & E & Hg) _ (got' & E' & Hg')]; simpl; [by exists []|].
  rewrite E, E'. cbn [mbind option_bind]. exists (got ++ got'). split; [done|]. by apply Forall2_app.
Qed.

(** *** One send *)

(** [good] says that quinn takes every datagram. *)
Definition accepts (good : bool) (n : Net) : Prop :=
  good = true -> (forall d, send_datagram n d = DgOk) /\ 65536 <= space n.

(** [d] went out, or it was dropped on a network that is not good. *)
Definition sent (good : bool) (d : bytes) (s s' : Sender) : Prop :=
  batcher s' = batcher s /\
  (wire s' = wire s ++ [d] \/ (good = false /\ wire s' = wire s)).

Lemma send_rt_sent good n d s ok s' :
  accepts good n -> send_rt n d s = (ok, s') -> sent good d s s' /\ (good = true -> ok = true).
Proof.
  intros Ha. unfold send_rt, sent. destruct good.
  - destruct (Ha eq_refl) as [-> _]. intros [= <- <-]. simpl. auto.
  - destruct (send_datagram n d); intros [= <- <-]; simpl; auto 6.
Qed.

Lemma send_bulk_sent good n d s ok s' :
  accepts good n -> zlen d < 65536 -> send_bulk n d s = (ok, s') ->
  sent good d s s' /\ (good = true -> ok = true).
Proof.
  intros Ha Hd. unfold send_bulk. destruct good.
  - destruct (Ha eq_refl) as [_ Hs]. rewrite (proj2 (Z.leb_le _ _)) by lia.
    by apply send_rt_sent.
  - split_if; [by apply send_rt_sent|]. unfold sent.
    case_match; [intros [= <- <-]; simpl; auto 6|].
    destruct (send_datagram_wait n d) as [[]|]; intros [= <- <-]; simpl; auto 6.
Qed.

(** *** The invariant of the loop *)

(** The packets the datagrams sent so far bring to the client, followed by those still in
    the batcher, are a subsequence of what was queued: all of it on a good network. *)
Definition sender_inv (good padded : bool) (ps : list bytes) (s : Sender) : Prop :=
  batcher_inv (batcher s) /\ Forall small_ip (pending (batcher s)) /\
  exists gs rest, Forall2 (brings padded) (wire s) gs /\
    Forall2 (received padded) (pending (batcher s)) rest /\
    concat gs ++ rest `sublist_of` ps /\ (good = true -> concat gs ++ rest = ps).

Lemma sublist_drop_r {A} (a b c : list A) : a ++ b `sublist_of` c -> a `sublist_of` c.
Proof. intros H. etrans; [|exact H]. by apply sublist_inserts_r. Qed.

(** A datagram more on the wire. *)
Lemma brings_snoc padded ds gs d g :
  Forall2 (brings padded) ds gs -> brings padded d g ->
  Forall2 (brings padded) (ds ++ [d]) (gs ++ [g]) /\ concat (gs ++ [g]) = concat gs ++ g.
Proof.
  intros Hg Hd. split; [apply Forall2_app; [done|by constructor]|].
  rewrite concat_app. simpl. by rewrite app_nil_r.
Qed.

Lemma brings_batch padded q qs rest :
  Forall small_ip (q :: qs) -> Forall2 (received padded) (q :: qs) rest ->
  brings padded (entries (q :: qs)) rest.
Proof. intros Hs Hr. exists (q :: qs). split; [by apply client_datagram_batch|done]. Qed.

(** Sending the datagram that holds all pending packets empties the batcher. *)
Lemma inv_send_pending good padded ps s s1 s' q qs :
  sender_inv good padded ps s -> pending (batcher s) = q :: qs ->
  wire s1 = wire s -> pending (batcher s1) = [] -> batcher_inv (batcher s1) ->
  sent good (entries (q :: qs)) s1 s' -> sender_inv good padded ps s'.
Proof.
  intros (Hb & Hsm & gs & rest & Hgs & Hr & Hsub & Heq) Hp Hw Hp1 Hb1 [Hbs Hwire].
  rewrite Hp in *. unfold sender_inv. rewrite Hbs, Hp1. split; [done|]. split; [done|].
  destruct Hwire as [E|[Hg E]]; rewrite E, Hw.
  - destruct (brings_snoc padded _ _ _ _ Hgs (brings_batch _ _ _ _ Hsm Hr)) as [Hgs' Hc].
    exists (gs ++ [rest]), []. split; [done|]. split; [constructor|]. by rewrite Hc, app_nil_r.
  - exists gs, []. split; [done|]. split; [constructor|]. rewrite app_nil_r.
    split; [by eapply sublist_drop_r|congruence].
Qed.

Lemma flush_batch_inv good padded ps n s ok s' :
  accepts good n -> sender_inv good padded ps s -> flush_batch n s = (ok, s') ->
  sender_inv good padded ps s' /\ pending (batcher s') = [] /\ (good = true -> ok = true).
Proof.
  intros Ha Hinv. unfold flush_batch. pose proof Hinv as (Hb & Hsm & _).
  destruct (flush (batcher s)) as [batch b] eqn:Ef.
  apply flush_spec in Ef as (-> & Hp & Hb'); [|done].
  destruct (pending (batcher s)) as [|q qs] eqn:Ep.
  - rewrite decide_True by done. intros [= <- <-]. simpl.
    destruct Hinv as (_ & _ & gs & rest & Hgs & Hr & Hsub & Heq). rewrite Ep in *.
    split; [|done]. split; [done|]. simpl. rewrite Hp. split; [done|]. by exists gs, rest.
  - rewrite decide_False by done. intros E. apply (send_rt_sent good) in E as [Hs Hok]; [|done].
    pose proof Hs as [Hbs _]. split; [|by rewrite Hbs].
    eapply inv_send_pending; [done|done| | | |exact Hs]; done.
Qed.

Lemma inv_grow padded ps more s : sender_inv false padded ps s -> sender_inv false padded (ps ++ more) s.
Proof.
  intros (Hb & Hsm & gs & rest & Hgs & Hr & Hsub & _). split; [done|]. split; [done|].
  exists gs, rest. do 2 (split; [done|]). split; [|done]. by apply sublist_inserts_r.
Qed.

(** With nothing pending, sending a packet on its own extends what is received by it. *)
Lemma inv_send_direct good padded ps p s s' :
  deliverable padded p -> BATCH_SIZE_THRESHOLD <= zlen (on_wire padded p) ->
  sender_inv good padded ps s -> pending (batcher s) = [] ->
  sent good (on_wire padded p) s s' -> sender_inv good padded (ps ++ [p]) s'.
Proof.
  intros Hp Hlen (Hb & Hsm & gs & rest & Hgs & Hr & Hsub & Heq) Hpe [Hbs Hwire].
  unfold sender_inv. rewrite Hbs, Hpe in *. apply Forall2_nil_inv_l in Hr as ->.
  rewrite app_nil_r in *. split; [done|]. split; [done|].
  destruct Hwire as [E|[-> E]]; rewrite E.
  - assert (Hbr : brings padded (on_wire padded p) [p]).
    { exists [p]. split; [by apply client_datagram_direct|]. constructor; [apply received_self|constructor]. }
    destruct (brings_snoc padded _ _ _ _ Hgs Hbr) as [Hgs' Hc]. exists (gs ++ [[p]]), [].
    rewrite Hc, app_nil_r. split; [done|]. split; [constructor|].
    split; [by apply sublist_app|]. intros Hg. by rewrite (Heq Hg).
  - exists gs, []. rewrite app_nil_r. split; [done|]. split; [constructor|].
    split; [by apply sublist_inserts_r|done].
Qed.

Lemma inv_add_small good padded ps p n s o b ok s' :
  accepts good n -> deliverable padded p -> zlen (on_wire padded p) < BATCH_SIZE_THRESHOLD ->
  sender_inv good padded ps s -> add (on_wire padded p) (batcher s) = (o, b) ->
  match o with
  | Some batch => send_rt n batch (with_batcher b s)
  | None => (true, with_batcher b s)
  end = (ok, s') ->
  sender_inv good padded (ps ++ [p]) s' /\ (good = true -> ok = true).
Proof.
  intros Ha (Hip & _ & _) Hlen Hinv Hadd E.
  pose proof Hinv as (Hb & Hsm & gs & rest & Hgs & Hr & Hsub & Heq).
  assert (Hsp : small_ip (on_wire padded p)) by (split; [by apply on_wire_ip|done]).
  pose proof (received_small padded p Hlen) as Hrp.
  apply add_spec in Hadd as [Hb' Ho]; [|done].
  assert (Hlast : forall l, l `sublist_of` ps -> (good = true -> l = ps) ->
     l ++ [p] `sublist_of` ps ++ [p] /\ (good = true -> l ++ [p] = ps ++ [p])).
  { intros l Hl1 Hl2. split; [by apply sublist_app|]. intros Hg. by rewrite Hl2. }
  destruct o as [batch|].
  - destruct Ho as (-> & Hne & Hp'). apply (send_rt_sent good) in E as [[Hbs Hw] Hok]; [|done].
    split; [|done]. unfold sender_inv. rewrite Hbs. simpl. rewrite Hp'.
    split; [done|]. split; [by constructor|].
    destruct (pending (batcher s)) as [|q qs]; [done|].
    destruct Hw as [Hw|[Hg Hw]]; simpl in Hw; rewrite Hw.
    + destruct (brings_snoc padded _ _ _ _ Hgs (brings_batch _ _ _ _ Hsm Hr)) as [Hgs' Hc].
      exists (gs ++ [rest]), [p]. rewrite Hc. split; [done|]. split; [by repeat constructor|]. by apply Hlast.
    + exists gs, [p]. split; [done|]. split; [by repeat constructor|].
      apply Hlast; [by eapply sublist_drop_r|congruence].
  - injection E as <- <-. split; [|done]. unfold sender_inv. simpl. rewrite Ho.
    split; [done|]. split; [apply Forall_app; split; [done|by constructor]|].
    exists gs, (rest ++ [p]). split; [done|]. split; [apply Forall2_app; [done|by repeat constructor]|].
    rewrite app_assoc. by apply Hlast.
Qed.

(** *** The loop *)

Definition input_ok (good padded : bool) (i : SenderInput) : Prop :=
  match i with
  | Timer n => accepts good n
  | Packet n1 n2 p => accepts good n1 /\ accepts good n2 /\ deliverable padded p
  end.

Definition queued (inputs : list SenderInput) : list bytes :=
  omap (fun i => match i with Packet _ _ p => Some p | Timer _ => None end) inputs.

Lemma on_packet_inv good padded ps n1 n2 p s :
  input_ok good padded (Packet n1 n2 p) -> sender_inv good padded ps s ->
  exists ok s', on_packet padded n1 n2 p s = Some (ok, s') /\
    sender_inv good padded (ps ++ [p]) s' /\ (good = true -> ok = true).
Proof.
  intros (Ha1 & Ha2 & Hp) Hinv. unfold on_packet. fold (on_wire padded p). cbv zeta.
  pose proof (on_wire_bound padded p ltac:(apply Hp)) as Hbound.
  destruct (BATCH_SIZE_THRESHOLD <=? zlen (on_wire padded p)) eqn:Elen; boolify.
  - destruct (flush_batch n1 s) as [ok1 s1] eqn:Ef.
    apply (flush_batch_inv good padded ps) in Ef as (Hinv1 & Hp1 & Hok1); [|done|done].
    destruct ok1; simpl negb; cbv iota.
    2: { exists false, s1. destruct good; [by specialize (Hok1 eq_refl)|].
         split; [done|]. split; [by apply inv_grow|done]. }
    destruct (classify_spec (on_wire padded p)) as (pr & -> & _). cbn [mbind option_bind].
    assert (Hsend : forall ok s2, sent good (on_wire padded p) s1 s2 -> (good = true -> ok = true) ->
      sender_inv good padded (ps ++ [p]) s2 /\ (good = true -> ok = true)).
    { intros ok s2 Hs Hok. split; [|done]. by eapply inv_send_direct. }
    destruct pr; [split_if|].
    + destruct (send_rt n2 (on_wire padded p) s1) as [ok s2] eqn:Es. exists ok, s2. split; [done|].
      apply (send_rt_sent good) in Es as [? ?]; [|done]. by apply Hsend.
    + eexists _, _. split; [done|]. destruct good; [destruct (Ha2 eq_refl); lia|].
      apply Hsend; [|done]. split; [done|]. by right.
    + destruct (send_bulk n2 (on_wire padded p) s1) as [ok s2] eqn:Es. exists ok, s2. split; [done|].
      apply (send_bulk_sent good) in Es as [? ?]; [|done|done]. by apply Hsend.
  - destruct (add (on_wire padded p) (batcher s)) as [o b] eqn:Eadd.
    destruct (match o with Some batch => send_rt n1 batch (with_batcher b s)
              | None => (true, with_batcher b s) end) as [ok s'] eqn:E.
    exists ok, s'. split; [by destruct o; rewrite E|].
    eapply (inv_add_small good padded ps p n1 s o b); [done|done|lia|done|done|exact E].
Qed.

Lemma run_sender_inv good padded inputs : forall ps s,
  Forall (input_ok good padded) inputs -> sender_inv good padded ps s ->
  exists ok s', run_sender padded inputs s = Some (ok, s') /\
    sender_inv good padded (ps ++ queued inputs) s' /\ (good = true -> ok = true).
Proof.
  induction inputs as [|i inputs IH]; intros ps s Hin Hinv; cbn [run_sender].
  { exists true, s. unfold queued. simpl. by rewrite app_nil_r. }
  apply Forall_cons in Hin as [Hi Hin].
  assert (Hstep : exists ok s', sender_step padded i s = Some (ok, s') /\
    sender_inv good padded (ps ++ queued [i]) s' /\ (good = true -> ok = true)).
  { destruct i as [n|n1 n2 p]; simpl; [|by apply on_packet_inv]. rewrite app_nil_r.
    unfold on_timer. destruct (has_pending (batcher s)); [|by eauto].
    destruct (flush_batch n s) as [ok s'] eqn:E. exists ok, s'. split; [done|].
    apply (flush_batch_inv good padded ps) in E as (? & _ & ?); done. }
  destruct Hstep as (ok & s' & -> & Hinv' & Hok). cbn [mbind option_bind].
  assert (Hq : queued (i :: inputs) = queued [i] ++ queued inputs)
    by (unfold queued; by rewrite <-omap_app).
  rewrite Hq, app_assoc.
  destruct ok; [by apply IH|].
  exists false, s'. split; [done|]. destruct good; [by specialize (Hok eq_refl)|].
  split; [by apply inv_grow|done].
Qed.

Lemma sender_new_inv good padded : sender_inv good padded [] sender_new.
Proof. split; [apply batcher_new_inv|]. split; [constructor|]. exists [], []. by repeat constructor. Qed.

(** ** Uplink: what reaches the TUN device *)

(** The packet may come from this client. *)
Definition from_client (ip : Ipv4Addr) (p : bytes) : Prop :=
  exists b rest, p = b :: rest /\
    (nibble b = 6 \/ nibble b = 4 /\ 20 <= zlen p /\ src_field p = octets ip).

Lemma valid_from_client p ip :
  exists v, validate_source_ip p ip = Some v /\ (v = true <-> from_client ip p).
Proof. apply validate_source_ip_ok. Qed.

Lemma write_to_tun_total os p : exists w, write_to_tun os p = Some w /\ (p <> [] -> w <> None).
Proof.
  unfold write_to_tun. case_decide as Hp; [by exists None|].
  destruct p as [|b p]; [done|]. destruct os; by eexists.
Qed.

(** What a receiver adds to the device's input comes from its client. *)
Definition adds (ip : Ipv4Addr) (old new : list bytes) : Prop :=
  exists more, new = old ++ more /\ Forall (from_client ip) more.

Lemma adds_refl ip l : adds ip l l.
Proof. exists []. by rewrite app_nil_r. Qed.
Lemma adds_one ip l p : from_client ip p -> adds ip l (l ++ [p]).
Proof. intros. exists [p]. auto. Qed.
Lemma adds_trans ip a b c : adds ip a b -> adds ip b c -> adds ip a c.
Proof.
  intros (m & -> & Hm) (m' & -> & Hm'). exists (m ++ m'). rewrite app_assoc. split; [done|].
  by apply Forall_app.
Qed.
#[export] Hint Resolve adds_refl adds_one adds_trans : redpill.

Section receivers.
Variables (ip : Ipv4Addr) (tun_ok : bytes -> bool) (os : Platform).

Lemma admit_packet_adds now p r :
  exists r', admit_packet ip now tun_ok os p r = Some r' /\ adds ip (tun r) (tun r').
Proof.
  unfold admit_packet. destruct (valid_from_client p ip) as (v & -> & Hv). cbn [mbind option_bind].
  destruct v; simpl negb; cbv iota; [|by eauto with redpill].
  destruct (shaper_check now (zlen p) (r_shaper r)) as [[|] sh]; simpl negb; cbv iota;
    [|by eauto with redpill].
  destruct (write_to_tun_total os p) as (w & -> & _). cbn [mbind option_bind].
  assert (Hp : from_client ip p) by by apply Hv.
  eexists. split; [done|]. destruct w as [c|]; [destruct (tun_ok c)|]; simpl; auto with redpill.
Qed.

Lemma dg2tun_adds padded now d r :
  exists r', dg2tun padded ip now tun_ok os d r = Some r' /\ adds ip (tun r) (tun r').
Proof.
  unfold dg2tun. case_decide as Hd; [by eauto with redpill|].
  destruct d as [|b d]; [done|]. cbv zeta. set (r1 := mkReceiver _ _ _ _).
  change (tun r) with (tun r1). clearbody r1. destruct padded; [|apply admit_packet_adds].
  cbn [lookup list_lookup mbind option_bind]. split_if; [by eauto with redpill|].
  destruct (strip_padding_prefix (b :: d)) as (st & -> & _). apply admit_packet_adds.
Qed.

Fixpoint dg2tun_all (padded : bool) (ds : list (Z * bytes)) (r : Receiver) : panics Receiver :=
  match ds with
  | [] => Some r
  | (now, d) :: ds => r ← dg2tun padded ip now tun_ok os d r; dg2tun_all padded ds r
  end.

Lemma dg2tun_all_adds padded ds : forall r,
  exists r', dg2tun_all padded ds r = Some r' /\ adds ip (tun r) (tun r').
Proof.
  induction ds as [|[now d] ds IH]; intros r; simpl; [by eauto with redpill|].
  destruct (dg2tun_adds padded now d r) as (r1 & -> & H1). cbn [mbind option_bind].
  destruct (IH r1) as (r2 & -> & H2). by eauto with redpill.
Qed.

Lemma tls2tun_adds now p r :
  exists r', tls2tun ip now tun_ok os p r = Some r' /\ adds ip (tun r) (tun r').
Proof.
  unfold tls2tun. destruct (valid_from_client p ip) as (v & -> & Hv). cbn [mbind option_bind].
  destruct v; simpl negb; cbv iota; [|by eauto with redpill].
  destruct (shaper_check now (zlen p) (r_shaper r)) as [[|] sh]; simpl negb; cbv iota;
    [|by eauto with redpill].
  destruct (write_to_tun_total os p) as (w & -> & _). cbn [mbind option_bind].
  assert (Hp : from_client ip p) by by apply Hv.
  eexists. split; [done|]. destruct w as [c|]; [destruct (tun_ok c)|]; simpl; auto with redpill.
Qed.

(** Reading a frame never panics, and takes octets off the stream. *)
Lemma read_frame_total inp e buf :
  exists f, read_frame inp e buf = Some f /\
    match f with
    | Some (Ok (p, rest, _)) => (length rest < length inp)%nat /\ p <> []
    | _ => True
    end.
Proof.
  unfold read_frame. destruct inp as [|hi [|lo rest]]; [destruct e; eexists; (split; [reflexivity|exact I])..|].
  cbv zeta. destruct (_ || _) eqn:E; [eexists; (split; [reflexivity|exact I])|]. boolify.
  pose proof (u16_from_be_range hi lo) as Hr.
  set (n := Z.to_nat (u16_from_be_bytes hi lo)).
  case_decide as Hn; [|destruct e; eexists; (split; [reflexivity|exact I])].
  set (b1 := if zlen buf <? u16_from_be_bytes hi lo
             then vec_resize (u16_from_be_bytes hi lo) x00 buf else buf).
  assert (Hb1 : (n <= length b1)%nat).
  { subst b1 n. split_if; [unfold vec_resize; rewrite length_resize; lia|unfold zlen in *; lia]. }
  unfold copy_into. rewrite decide_True by (rewrite length_take; lia). cbn [mbind option_bind].
  rewrite slice_Some by (rewrite take_0; cbn [app]; rewrite length_app, length_take; lia).
  cbn [mbind option_bind]. eexists. split; [done|]. split.
  - rewrite length_drop. simpl. lia.
  - intros Hnil%(f_equal (@length _)). rewrite take_0, drop_0, Nat.sub_0_r in Hnil.
    cbn [app] in Hnil. rewrite length_take, length_app, length_take in Hnil.
    cbn [length] in Hnil. assert (0 < n)%nat by (subst n; lia). lia.
Qed.

Lemma tls2tun_loop_adds now e : forall fuel inp buf r, (length inp < fuel)%nat ->
  exists err r', tls2tun_loop fuel ip now tun_ok os inp e buf r = Some (err, r') /\
    adds ip (tun r) (tun r').
Proof.
  induction fuel as [|fuel IH]; intros inp buf r Hf; [lia|]. cbn [tls2tun_loop].
  destruct (read_frame_total inp e buf) as (f & -> & Hfr). cbn [mbind option_bind].
  destruct f as [[[[p rest] buf']|err]|]; [|by eauto 6 with redpill..].
  destruct (tls2tun_adds now p r) as (r1 & -> & H1). cbn [mbind option_bind].
  destruct (IH rest buf' r1) as (er & r2 & -> & H2); [lia|]. by eauto 8 with redpill.
Qed.

Lemma ws2tun_adds e : forall inp out,
  exists fin out', ws2tun ip tun_ok os inp e out = Some (fin, out') /\ adds ip out out'.
Proof.
  induction inp as [|[m|] inp IH]; intros out; simpl; [by eauto with redpill| |by eauto with redpill].
  destruct m as [d|d| | | |]; try apply IH; [|by eauto with redpill].
  destruct (valid_from_client d ip) as (v & -> & Hv). cbn [mbind option_bind].
  destruct v; simpl negb; cbv iota; [|apply IH].
  destruct (write_to_tun_total os d) as (w & -> & _). cbn [mbind option_bind].
  assert (Hp : from_client ip d) by by apply Hv.
  destruct w as [c|]; [destruct (tun_ok c)|]; [|apply IH..].
  destruct (IH (out ++ [d])) as (fin & out' & -> & H2). by eauto 8 with redpill.
Qed.
End receivers.

(** ** The TUN reader *)

Lemma extract_dst_total p : exists d, extract_dst_ipv4 p = Some d.
Proof.
  unfold extract_dst_ipv4. split_if; [by eexists|].
  repeat index_in_range. split_if; by eexists.
Qed.

Lemma read_packet_ok now p s :
  router_wf (router s) ->
  exists s', read_packet now p s = Some s' /\ router_wf (router s') /\
    routes (router s') = routes (router s).
Proof.
  intros Hwf. unfold read_packet.
  destruct (shaper_check now (zlen p) (rd_shaper s)) as [[|] sh]; simpl negb; cbv iota; [|by eauto].
  destruct (extract_dst_total p) as [[dst|] ->]; cbn [mbind option_bind]; [|by eauto].
  destruct (route_ok now dst p (router s) Hwf) as (b & r' & -> & Hwf' & Hr & _).
  cbn [mbind option_bind]. by eauto.
Qed.

Lemma tun_reader_batch_ok os now : forall budget reads s, router_wf (router s) ->
  exists res s', tun_reader_batch budget os now reads s = Some (res, s') /\
    router_wf (router s') /\ routes (router s') = routes (router s).
Proof.
  induction budget as [|budget IH]; intros reads s Hwf; [by eauto|].
  destruct reads as [|[p| |] reads]; [by eauto| |by eauto..]. cbn [tun_reader_batch].
  case_decide as Hl; [|by eauto]. rewrite slice_Some by lia. cbn [mbind option_bind].
  set (q := take _ _). destruct (read_packet_ok now q s Hwf) as (s1 & -> & Hwf1 & Hr1).
  cbn [mbind option_bind]. destruct (IH reads s1 Hwf1) as (res & s2 & -> & Hwf2 & Hr2).
  eexists _, _. split; [done|]. split; [done|]. congruence.
Qed.

(** ** Theorems *)

(** [C3] Server to client, end to end. Whatever IP packets below 64 KiB the sender takes
    from a client's queue (on the padded transport: whose header announces their length),
    whenever its flush timer fires and however quinn answers, the sender never panics.
    Whatever sub-collection of the datagrams it gave to quinn then arrives, in whatever
    order, the client does not panic either, and every packet it writes to its TUN device
    is one of the packets queued, none twice; they are in the order of the queue when
    the datagrams are. A packet is written unaltered, except that on the padded
    transport one small enough to be batched still has padding zeros behind it. When quinn
    accepts everything and all arrives in order, then after the flush that follows the
    packets written are all those queued, in order. *)
Theorem downlink_delivery good padded inputs :
  Forall (input_ok good padded) inputs ->
  exists ok s, run_sender padded inputs sender_new = Some (ok, s) /\
    (forall arrived, arrived ⊆+ wire s ->
       exists got from, client_datagrams padded arrived = Some got /\
         Forall2 (received padded) got from /\ from ⊆+ queued inputs) /\
    (forall arrived, arrived `sublist_of` wire s ->
       exists got from, client_datagrams padded arrived = Some got /\
         Forall2 (received padded) got from /\ from `sublist_of` queued inputs) /\
    (good = true -> ok = true /\ forall n, accepts true n ->
       exists s' got, on_timer n s = (true, s') /\ client_datagrams padded (wire s') = Some got /\
         Forall2 (received padded) got (queued inputs)).
Proof.
  intros Hin. destruct (run_sender_inv good padded inputs [] sender_new Hin) as (ok & s & E & Hinv & Hok).
  { apply sender_new_inv. }
  exists ok, s. split; [done|]. simpl in Hinv.
  pose proof Hinv as (_ & _ & gs & rest & Hgs & Hr & Hsub & Heq). split; [|split].
  - intros arrived (gs' & Hg & Hgs')%(fun H => Forall2_submseteq _ _ _ _ H Hgs).
    destruct (brings_all _ _ _ Hgs') as (got & -> & Hgot). exists got, (concat gs'). do 2 (split; [done|]).
    etrans; [by apply concat_submseteq|]. apply sublist_submseteq. by eapply sublist_drop_r.
  - intros arrived (gs' & Hg & Hgs')%(fun H => Forall2_sublist _ _ _ _ H Hgs).
    destruct (brings_all _ _ _ Hgs') as (got & -> & Hgot). exists got, (concat gs'). do 2 (split; [done|]).
    etrans; [by apply concat_sublist|]. by eapply sublist_drop_r.
  - intros ->. split; [by apply Hok|]. intros n Hn. unfold on_timer, has_pending.
    assert (Hdone : forall s', sender_inv true padded (queued inputs) s' -> pending (batcher s') = [] ->
      exists got, client_datagrams padded (wire s') = Some got /\ Forall2 (received padded) got (queued inputs)).
    { intros s' (_ & _ & gs' & rest' & Hgs' & Hr' & _ & Heq') Hp. rewrite Hp in Hr'.
      apply Forall2_nil_inv_l in Hr' as ->. rewrite app_nil_r in Heq'. rewrite <-(Heq' eq_refl).
      by apply brings_all. }
    destruct (decide (pending (batcher s) = [])) as [Hp|Hp].
    + rewrite bool_decide_true by done. destruct (Hdone s Hinv Hp) as (got & ? & ?). by exists s, got.
    + rewrite bool_decide_false by done. simpl negb. cbv iota.
      destruct (flush_batch n s) as [ok' s'] eqn:Ef.
      apply (flush_batch_inv true padded (queued inputs)) in Ef as (Hinv' & Hp' & Hok'); [|done|done].
      destruct (Hdone s' Hinv' Hp') as (got & ? & ?). exists s', got. by rewrite Hok'.
Qed.

Definition ex_net : Net := mkNet 2000000 None (fun _ => DgOk) (fun _ => Some DgOk).

Lemma ex_packet_deliverable : deliverable true ex_packet.
Proof.
  split; [|split; [vm_compute; reflexivity|intros _; apply ex_packet_well_sized]].
  eexists _, _. split; [reflexivity|]. left. vm_compute. reflexivity.
Defined.

(** Two packets, of which the second overtakes the first. *)
Definition ex_two_packets : list SenderInput :=
  [Packet ex_net ex_net ex_packet; Timer ex_net; Packet ex_net ex_net ex_packet; Timer ex_net].

Lemma downlink_delivery_witness :
  exists ok s, run_sender true ex_two_packets sender_new = Some (ok, s) /\ length (wire s) = 2%nat /\
    exists got from, client_datagrams true (reverse (wire s)) = Some got /\
      Forall2 (received true) got from /\ from ⊆+ queued ex_two_packets.
Proof.
  destruct (downlink_delivery true true ex_two_packets) as (ok & s & E & Hgot & _).
  - assert (Ha : accepts true ex_net) by (intros _; split; [reflexivity|vm_compute; congruence]).
    assert (Hp : input_ok true true (Packet ex_net ex_net ex_packet))
      by (split; [exact Ha|split; [exact Ha|apply ex_packet_deliverable]]).
    apply Forall_cons. split; [exact Hp|]. apply Forall_cons. split; [exact Ha|].
    apply Forall_cons. split; [exact Hp|]. apply Forall_cons. split; [exact Ha|apply Forall_nil_2].
  - exists ok, s. split; [exact E|]. split.
    + assert (Hl : ((fun r => length (wire r.2)) <$> run_sender true ex_two_packets sender_new) = Some 2%nat)
        by (vm_compute; reflexivity).
      rewrite E in Hl. injection Hl as Hl. exact Hl.
    + apply (Hgot (reverse (wire s))). rewrite reverse_Permutation. reflexivity.
Defined.

(** [C4] Anti-spoofing on every tunnel. None of the three receivers panics or loops for
    ever, whatever the client sends, and every packet a receiver writes to the TUN
    device is IPv6 by its version nibble, or IPv4 with a full header whose source is
    the address assigned to that client. *)
Theorem uplink_anti_spoofing ip tun_ok os :
  (forall padded ds r, exists r', dg2tun_all ip tun_ok os padded ds r = Some r' /\
     exists more, tun r' = tun r ++ more /\ Forall (from_client ip) more) /\
  (forall now inp e r, exists err r', run_tls2tun ip now tun_ok os inp e r = Some (err, r') /\
     exists more, tun r' = tun r ++ more /\ Forall (from_client ip) more) /\
  (forall inp e out, exists fin out', ws2tun ip tun_ok os inp e out = Some (fin, out') /\
     exists more, out' = out ++ more /\ Forall (from_client ip) more).
Proof.
  split; [|split].
  - intros. apply dg2tun_all_adds.
  - intros. apply tls2tun_loop_adds. lia.
  - intros. apply ws2tun_adds.
Qed.

Lemma from_client_valid ip p : from_client ip p -> validate_source_ip p ip = Some true.
Proof.
  intros H. destruct (valid_from_client p ip) as (v & -> & Hv). f_equal. by apply Hv.
Qed.

Lemma nibble_mask b : nibble (z2b (Z.land (b2z b) 15)) = 0.
Proof.
  rewrite nibble_div, b2z_z2b. pose proof (land15_range (b2z b)). rewrite wrap_small by lia.
  apply Z.div_small. lia.
Qed.

Lemma from_client_ip p ip : from_client ip p -> ip_packet p.
Proof. intros (b & rest & -> & [H|(H & _)]); exists b, rest; auto. Qed.

(** [C22] Client to server, end to end. A packet with the client's own source address,
    sent on the plain or on the padded QUIC transport, is written to the server's TUN
    device exactly as it was, when the shaper lets it pass and the write succeeds. The
    idle padding a camouflaged client sends never gets there: it leaves the device and
    the shaper untouched. *)
Theorem uplink_delivery ip now tun_ok os :
  (forall padded p r sh, from_client ip p -> (padded = true -> well_sized p) ->
     shaper_check now (zlen p) (r_shaper r) = (true, sh) ->
     (forall call, tun_ok call = true) ->
     exists r', dg2tun padded ip now tun_ok os (on_wire padded p) r = Some r' /\
       tun r' = tun r ++ [p] /\ r_shaper r' = sh) /\
  (forall padder size fill pkt r, generate padder size fill = Some pkt ->
     exists r', dg2tun true ip now tun_ok os (on_wire true pkt) r = Some r' /\
       tun r' = tun r /\ r_shaper r' = r_shaper r).
Proof.
  split.
  - intros padded p r sh Hf Hw Hsh Hok. unfold dg2tun.
    destruct (on_wire_ip padded p (from_client_ip _ _ Hf)) as (b & rest & Hb & Hn).
    rewrite decide_False by (by rewrite Hb). cbv zeta. set (r1 := mkReceiver _ _ _ _).
    assert (Hadm : exists r', admit_packet ip now tun_ok os p r1 = Some r' /\
       tun r' = tun r ++ [p] /\ r_shaper r' = sh).
    { unfold admit_packet. rewrite (from_client_valid _ _ Hf). cbn [mbind option_bind negb].
      change (r_shaper r1) with (r_shaper r). rewrite Hsh. cbn [negb].
      destruct (write_to_tun_total os p) as ([w|] & -> & Hne).
      - cbn [mbind option_bind]. rewrite Hok. by eexists.
      - destruct Hf as (b' & rest' & -> & _). by destruct Hne. }
    destruct padded; [|exact Hadm]. rewrite Hb. cbn [lookup list_lookup mbind option_bind].
    rewrite <-Hb. unfold on_wire. rewrite strip_pad_id by auto.
    destruct Hn as [-> | ->]; exact Hadm.
  - intros padder size fill pkt r. unfold generate. split_if; [done|].
    destruct (fill <$> seqZ 0 size) as [|b0 buf]; [done|]. cbn [lookup list_lookup mbind option_bind].
    unfold store_at. rewrite decide_True by (simpl; lia). cbn [insert list_insert]. intros [= <-].
    unfold on_wire. rewrite pad_to_standard_app. unfold dg2tun. cbn [app].
    rewrite decide_False by done. cbn [lookup list_lookup mbind option_bind].
    rewrite nibble_mask. cbn. by eexists.
Qed.

Definition ex_receiver : Receiver := mkReceiver [] stats_new metrics_new (shaper_new 0).

Lemma ex_packet_from_client : from_client (ip4 10 0 1 2) ex_packet.
Proof.
  eexists _, _. split; [reflexivity|]. right. split; [vm_compute; reflexivity|].
  split; [vm_compute; congruence|vm_compute; reflexivity].
Defined.

Lemma uplink_delivery_witness :
  exists r', dg2tun true (ip4 10 0 1 2) 0 (fun _ => true) Linux (on_wire true ex_packet) ex_receiver
      = Some r' /\ tun r' = [ex_packet].
Proof.
  destruct (uplink_delivery (ip4 10 0 1 2) 0 (fun _ => true) Linux) as [H _].
  destruct (H true ex_packet ex_receiver (shaper_new 0)) as (r' & E & Ht & _).
  - apply ex_packet_from_client.
  - intros _. apply ex_packet_well_sized.
  - vm_compute. reflexivity.
  - reflexivity.
  - exists r'. split; [exact E|exact Ht].
Defined.

(** The TUN reader never panics on anything the device delivers, and one wake-up
    (at most 64 packets) keeps the router well formed with its routes unchanged. *)
Theorem tun_reader_robust os now reads s :
  router_wf (router s) ->
  exists res s', tun_reader_batch MAX_TUN_BATCH os now reads s = Some (res, s') /\
    router_wf (router s') /\ routes (router s') = routes (router s).
Proof. apply tun_reader_batch_ok. Qed.

Definition ex_reader : Reader := mkReader ex_router (shaper_new 0) metrics_new.

Lemma tun_reader_robust_witness :
  exists res s', tun_reader_batch MAX_TUN_BATCH Linux 0 [ReadPacket ex_packet; WouldBlock] ex_reader
      = Some (res, s') /\ router_wf (router s').
Proof.
  destruct (tun_reader_robust Linux 0 [ReadPacket ex_packet; WouldBlock] ex_reader)
    as (res & s' & E & Hwf & _); [apply ex_router_wf|]. by exists res, s'.
Defined.
