(* ===== verification/Streams.v ===== *)
(** The stream tunnels: how packets get onto a TLS stream or a WebSocket. On the server,
    the [queue2tls] task of [run_tcp_reality_tunnel] ([server.rs]), which drains a
    client's queue into a buffered writer, and the tasks of [run_tcp_vpn_tunnel]
    ([tcp_reality.rs]) and [run_ws_vpn_tunnel] ([websocket_cdn.rs]), which read the TUN
    device themselves; on the client, the [tun2dg] task of [run_tunnel] ([client.rs]),
    which feeds whatever transport is in use.

    The theorems put both ends together: what one side takes from its queue or its
    device is what the other side's receiver hands over. *)

From S2P Require Import Prelude Datagram Padding Batch Priority Demux Stats Shaper Transport Tunnel.

(** ** From a client's queue to the TLS stream *)

(** Where the task is: at [pop] or the [select!]; in the inner [try_pop] loop; gone,
    after a write error. *)
Inductive TlsPhase := AtSelect | Draining | Stopped.

Record TlsSender (B : Type) := mkTlsSender {
  ts_queue : PriorityQueue; ts_writer : B; needs_flush : bool; ts_phase : TlsPhase
}.
Arguments mkTlsSender {B} _ _ _ _.
Arguments ts_queue {B} _.
Arguments ts_writer {B} _.
Arguments needs_flush {B} _.
Arguments ts_phase {B} _.

(** The router pushes a packet; the task runs up to its next pop; one millisecond has
    passed since it started to wait. *)
Inductive TlsInput := Push (pr : Priority) (p : bytes) | Poll | FlushTimer.

Section queue2tls.
Context `{WriterOk B}.

(** Frame the packet just popped and hand it to the writer. *)
Definition write_frame (p : bytes) (q : PriorityQueue) (s : TlsSender B) : TlsSender B :=
  let '(ok, w) := write_all (frame p) (ts_writer s) in
  if ok then mkTlsSender q w true Draining else mkTlsSender q w (needs_flush s) Stopped.

(** One step at time [now]: the packet popped, if any, and the new state. The
    [select!] is biased: the timer only counts when there is nothing to pop. *)
Definition queue2tls_step (now : Z) (i : TlsInput) (s : TlsSender B)
    : option bytes * TlsSender B :=
  match i with
  | Push pr p =>
      (None, mkTlsSender (push now p pr (ts_queue s)).2 (ts_writer s) (needs_flush s) (ts_phase s))
  | Poll =>
      match ts_phase s with
      | Stopped => (None, s)
      | _ =>
          match try_pop now (ts_queue s) with
          | (Some p, q) => (Some p, write_frame p q s)
          | (None, q) => (None, mkTlsSender q (ts_writer s) (needs_flush s) AtSelect)
          end
      end
  | FlushTimer =>
      match ts_phase s with
      | AtSelect =>
          if needs_flush s then
            match try_pop now (ts_queue s) with
            | (Some p, q) => (Some p, write_frame p q s)
            | (None, q) =>
                let '(ok, w) := flush_buf (ts_writer s) in
                if ok then (None, mkTlsSender q w false AtSelect)
                else (None, mkTlsSender q w true Stopped)
            end
          else (None, s)
      | _ => (None, s)
      end
  end.

(** A run, and the packets popped in it. *)
Fixpoint queue2tls (inputs : list (Z * TlsInput)) (s : TlsSender B) : list bytes * TlsSender B :=
  match inputs with
  | [] => ([], s)
  | (now, i) :: inputs =>
      let '(o, s) := queue2tls_step now i s in
      let '(ps, s) := queue2tls inputs s in
      (match o with Some p => p :: ps | None => ps end, s)
  end.

Definition tls_start (capacity : Z) (w : B) : TlsSender B :=
  mkTlsSender (queue_new capacity) w false AtSelect.

(** *** Invariant *)

(** What a frame can carry. *)
Definition framable (p : bytes) : Prop := p <> [] /\ zlen p <= MAX_FRAME_SIZE.

Definition queue_of (P : bytes -> Prop) (q : PriorityQueue) : Prop :=
  Forall (fun e => P e.2) (realtime q) /\ Forall P (bulk q).

Lemma pop_realtime_of (P : bytes -> Prop) now l o l' :
  pop_realtime now l = (o, l') -> Forall (fun e => P e.2) l ->
  Forall (fun e => P e.2) l' /\ (forall p, o = Some p -> P p).
Proof.
  revert o l'. induction l as [|[ts p] l IH]; simpl; intros o l' E Hl.
  { by injection E as <- <-. }
  apply Forall_cons in Hl as [Hp Hl].
  destruct (fresh now ts); [injection E as <- <-; by split; [|intros ? [= <-]]|by apply IH].
Qed.

Lemma try_pop_of (P : bytes -> Prop) now q o q' :
  try_pop now q = (o, q') -> queue_of P q -> queue_of P q' /\ (forall p, o = Some p -> P p).
Proof.
  unfold try_pop, queue_of. intros E [Hr Hb].
  destruct (pop_realtime now (realtime q)) as [o1 rt] eqn:E1.
  apply (pop_realtime_of P) in E1 as [Hrt Ho]; [|done].
  destruct o1; [injection E as <- <-; by auto|].
  unfold pop_bulk in E. destruct (bulk q) as [|p bk] eqn:Eb; injection E as <- <-; simpl.
  - by repeat split; try done; rewrite ?Eb.
  - apply Forall_cons in Hb as [Hp Hb]. by repeat split; try done; intros ? [= <-].
Qed.

Lemma push_of (P : bytes -> Prop) now p pr q : P p -> queue_of P q -> queue_of P (push now p pr q).2.
Proof.
  unfold push, queue_of. intros Hp [Hr Hb].
  destruct pr; split_if; simpl; (split; try done); apply Forall_app; (split; [done|by constructor]).
Qed.

(** Everything popped so far is on the wire or in the writer, in order, and while the
    writer may hold something the flush timer is armed. *)
Definition tls_inv (popped : list bytes) (s : TlsSender B) : Prop :=
  queue_of framable (ts_queue s) /\ Forall framable popped /\
  let sent := concat (frame <$> popped) in
  match ts_phase s with
  | Stopped => written (ts_writer s) `prefix_of` sent
  | ph => written (ts_writer s) ++ buffered (ts_writer s) = sent /\
          (needs_flush s = false -> buffered (ts_writer s) = []) /\
          (ph = Draining -> needs_flush s = true)
  end.

Lemma frames_snoc ps p : concat (frame <$> (ps ++ [p])) = concat (frame <$> ps) ++ frame p.
Proof. rewrite fmap_app, concat_app. simpl. by rewrite app_nil_r. Qed.

Lemma write_frame_inv popped p q s :
  ts_phase s <> Stopped -> tls_inv popped s -> queue_of framable q -> framable p ->
  tls_inv (popped ++ [p]) (write_frame p q s).
Proof.
  intros Hph (_ & Hpop & Hs) Hq Hp. unfold write_frame, tls_inv.
  assert (Hw : written (ts_writer s) ++ buffered (ts_writer s) = concat (frame <$> popped)).
  { by destruct (ts_phase s), Hs. }
  rewrite frames_snoc, <-Hw.
  assert (Forall framable (popped ++ [p])) by (apply Forall_app; split; [done|by apply Forall_singleton]).
  destruct (write_all (frame p) (ts_writer s)) as [[] w] eqn:E; simpl.
  - apply write_all_ok in E. rewrite E, <-app_assoc. by split_and!.
  - apply write_all_err in E. rewrite <-app_assoc. by split_and!.
Qed.

Definition pushes_framable (i : TlsInput) : Prop :=
  match i with Push _ p => framable p | _ => True end.

Lemma queue2tls_step_inv now i popped s o s' :
  queue2tls_step now i s = (o, s') -> pushes_framable i -> tls_inv popped s ->
  tls_inv (match o with Some p => popped ++ [p] | None => popped end) s'.
Proof.
  intros E Hi Hinv. pose proof Hinv as (Hq & Hpop & Hs).
  destruct i as [pr p| |]; unfold queue2tls_step in E.
  - injection E as <- <-. split; [by apply push_of|]. by split.
  - destruct (try_pop now (ts_queue s)) as [o1 q] eqn:E1.
    apply (try_pop_of framable) in E1 as [Hq' Ho]; [|done].
    destruct (ts_phase s) eqn:Eph; [| |by injection E as <- <-];
      (destruct o1; injection E as <- <-; [apply write_frame_inv; by auto; rewrite Eph|]);
      (split; [done|]; split; [done|]); by destruct Hs as (? & ? & _).
  - destruct (ts_phase s) eqn:Eph; [|by injection E as <- <-..].
    destruct (needs_flush s) eqn:En; [|by injection E as <- <-].
    destruct (try_pop now (ts_queue s)) as [o1 q] eqn:E1.
    apply (try_pop_of framable) in E1 as [Hq' Ho]; [|done].
    destruct o1; [injection E as <- <-; apply write_frame_inv; auto; by rewrite Eph|].
    destruct Hs as (Hw & _ & _).
    destruct (flush_buf (ts_writer s)) as [[] w] eqn:Ef; injection E as <- <-;
      (split; [done|]; split; [done|]); simpl.
    + apply flush_buf_ok in Ef as [-> ->]. by rewrite app_nil_r.
    + apply flush_buf_err in Ef. by rewrite <-Hw.
Qed.

Lemma queue2tls_inv inputs : forall popped s ps s',
  queue2tls inputs s = (ps, s') -> Forall (fun ni => pushes_framable ni.2) inputs ->
  tls_inv popped s -> tls_inv (popped ++ ps) s'.
Proof.
  induction inputs as [|[now i] inputs IH]; intros popped s ps s' E Hi Hinv; simpl in E.
  { injection E as <- <-. by rewrite app_nil_r. }
  apply Forall_cons in Hi as [Hi His].
  destruct (queue2tls_step now i s) as [o s1] eqn:E1.
  apply (queue2tls_step_inv _ _ popped) in E1; [|done..].
  destruct (queue2tls inputs s1) as [ps1 s2] eqn:E2. injection E as <- <-.
  apply (IH _ _ _ _ E2 His) in E1. destruct o; [|done]. by rewrite <-app_assoc in E1.
Qed.
End queue2tls.

(** ** From the TUN device to a transport *)

(** One [read] of the device: a packet without its platform header, nothing to be had,
    or an error. *)
Inductive TunNext := GotPacket (ip_pkt : bytes) | NoPacket | TunFailed.

Definition tun_next (os : Platform) (r : TunRead) : panics TunNext :=
  match r with
  | ReadPacket p =>
      let buf := tun_read_buf p in
      if decide (tun_hdr os < length buf)%nat then
        ip_pkt ← slice (tun_hdr os) (length buf) buf; Some (GotPacket ip_pkt)
      else Some NoPacket
  | WouldBlock => Some NoPacket
  | ReadError => Some TunFailed
  end.

(** A task between two reads: [up_err] when it has ended, [up_reads] what the device
    still has, [up_batch] packets taken since it became readable. *)
Record Uplink (T : Type) := mkUplink {
  up_err : bool; up_batch : nat; up_reads : list TunRead; up_stats : Stats; up_conn : T
}.
Arguments mkUplink {T} _ _ _ _ _.
Arguments up_err {T} _.
Arguments up_batch {T} _.
Arguments up_reads {T} _.
Arguments up_stats {T} _.
Arguments up_conn {T} _.

Section tun2dg.
Context `{Transport T}.

(** [stats_send] after a send. *)
Definition count_sent (size : Z) (o : SendResult) (st : Stats) : Stats :=
  match o with
  | Sent => record_send size st
  | TooLarge => record_too_large st
  | Blocked => record_blocked st
  end.

(** The inner loop of the client's [tun2dg_task]: at most [budget] packets. *)
Fixpoint tun2dg_batch (budget : nat) (os : Platform) (reads : list TunRead) (batch : nat)
    (st : Stats) (t : T) : panics (Uplink T) :=
  match budget, reads with
  | O, _ | _, [] => Some (mkUplink false batch reads st t)
  | S budget, r :: reads =>
      n ← tun_next os r;
      match n with
      | NoPacket => Some (mkUplink false batch reads st t)
      | TunFailed => Some (mkUplink true batch reads st t)
      | GotPacket ip_pkt =>
          let st := count_tun_read st in
          '(res, t) ← send ip_pkt t;
          match res with
          | Ok o => tun2dg_batch budget os reads (S batch) (count_sent (zlen ip_pkt) o st) t
          | Err _ => Some (mkUplink true batch reads st t)
          end
      end
  end.

(** One time the device is readable: a batch, then a flush if anything was read. *)
Definition tun2dg_turn (os : Platform) (reads : list TunRead) (st : Stats) (t : T)
    : panics (Uplink T) :=
  u ← tun2dg_batch MAX_TUN_BATCH os reads 0 st t;
  if up_err u then Some u
  else if decide (0 < up_batch u)%nat then
    let '(res, t) := flush_writes (up_conn u) in
    Some (mkUplink (match res with Ok _ => false | Err _ => true end)
            (up_batch u) (up_reads u) (up_stats u) t)
  else Some u.

(** The task: [turns] times the device becomes readable. *)
Fixpoint tun2dg (turns : nat) (os : Platform) (reads : list TunRead) (st : Stats) (t : T)
    : panics (Uplink T) :=
  match turns with
  | O => Some (mkUplink false 0 reads st t)
  | S turns =>
      u ← tun2dg_turn os reads st t;
      if up_err u then Some u else tun2dg turns os (up_reads u) (up_stats u) (up_conn u)
  end.
End tun2dg.

(** The [tun2ws] task of [run_ws_vpn_tunnel], on the shared device of the server. *)
Fixpoint tun2ws (os : Platform) (reads : list TunRead) (ws : WsConn) : panics (bool * WsConn) :=
  match reads with
  | [] => Some (true, ws)
  | r :: reads =>
      n ← tun_next os r;
      match n with
      | NoPacket => tun2ws os reads ws
      | TunFailed => Some (false, ws)
      | GotPacket ip_pkt =>
          let '(res, ws) := ws_send ip_pkt ws in
          match res with Ok _ => tun2ws os reads ws | Err _ => Some (false, ws) end
      end
  end.

(** The [tun2tls] task of [run_tcp_vpn_tunnel], the variant of [queue2tls] that reads the
    device: [Some r] for a read, [None] when a millisecond passes (here between any two
    reads). *)
Fixpoint tun2tls `{Writer B} (os : Platform) (reads : list (option TunRead)) (needs_flush : bool)
    (w : B) : panics (bool * bool * B) :=
  match reads with
  | [] => Some (true, needs_flush, w)
  | None :: reads =>
      if needs_flush then
        let '(ok, w) := flush_buf w in
        if ok then tun2tls os reads false w else Some (false, needs_flush, w)
      else tun2tls os reads needs_flush w
  | Some r :: reads =>
      n ← tun_next os r;
      match n with
      | NoPacket => tun2tls os reads needs_flush w
      | TunFailed => Some (false, needs_flush, w)
      | GotPacket ip_pkt =>
          let '(ok, w) := write_all (frame ip_pkt) w in
          if ok then tun2tls os reads true w else Some (false, needs_flush, w)
      end
  end.

(** *** Lemmas *)

(** A read that is longer than the platform header, and the packet in it. *)
Definition readable (os : Platform) (p : bytes) : Prop := (tun_hdr os < length (tun_read_buf p))%nat.
Definition payload (os : Platform) (p : bytes) : bytes := drop (tun_hdr os) (tun_read_buf p).

Lemma tun_next_packet os p : readable os p ->
  tun_next os (ReadPacket p) = Some (GotPacket (payload os p)).
Proof.
  intros Hp. unfold tun_next, payload. unfold readable in Hp. rewrite decide_True by done.
  rewrite slice_Some by lia. cbn [mbind option_bind]. by rewrite take_ge by (rewrite length_drop; lia).
Qed.

Lemma payload_framable os p : readable os p -> framable (payload os p).
Proof.
  unfold readable, payload, framable, tun_read_buf, zlen, MAX_FRAME_SIZE, TUN_MTU. intros Hr.
  rewrite length_take in Hr. split.
  - intros E. apply (f_equal length) in E. rewrite length_drop, length_take in E. cbn [length] in E. lia.
  - rewrite length_drop, length_take. lia.
Qed.

(** A batch is [send_all] on the next [budget] packets of the device. *)
Lemma tun2dg_batch_sends `{Transport T} os : forall budget ps batch st (t : T) sent e t',
  Forall (readable os) ps ->
  send_all (payload os <$> take budget ps) t = Some (sent, e, t') ->
  exists u, tun2dg_batch budget os (ReadPacket <$> ps) batch st t = Some u /\
    up_conn u = t' /\ up_err u = bool_decide (is_Some e) /\
    (e = None -> up_reads u = ReadPacket <$> drop budget ps /\
       up_batch u = (batch + length (take budget ps))%nat).
Proof.
  induction budget as [|budget IH]; intros ps batch st t sent e t' Hps E.
  { simpl in E. injection E as <- <- <-. rewrite drop_0.
    eexists; split; [by destruct ps|]. by rewrite Nat.add_0_r. }
  destruct ps as [|p ps].
  { injection E as <- <- <-. eexists; split; [done|]. by rewrite Nat.add_0_r. }
  apply Forall_cons in Hps as [Hp Hps]. cbn [take] in E. rewrite fmap_cons in E. cbn [send_all] in E.
  rewrite fmap_cons. cbn [tun2dg_batch]. rewrite tun_next_packet by done. cbn [mbind option_bind].
  destruct (send (payload os p) t) as [[[o|err] t1]|] eqn:Es; cbn [mbind option_bind] in *; [| |done].
  - destruct (send_all (payload os <$> take budget ps) t1) as [[[sent1 e1] t2]|] eqn:Ea;
      cbn [mbind option_bind] in E; [|done]. injection E as <- <- <-.
    edestruct (IH ps (S batch)) as (u & -> & Hc & He & Hn); [done|exact Ea|].
    exists u. split; [done|]. do 2 (split; [done|]). intros E1. destruct (Hn E1) as [Hr Hb].
    split; [done|]. rewrite Hb. simpl. lia.
  - injection E as <- <- <-. eexists; split; [done|]. done.
Qed.

Section tcp_uplink.
Context `{WriterOk B}.
Implicit Types c : TcpConn B.

Lemma tcp_send_all ps : forall c, Forall framable ps ->
  exists sent e c', send_all ps c = Some (sent, e, c') /\
    written (writer c') `prefix_of`
      written (writer c) ++ buffered (writer c) ++ concat (frame <$> ps) /\
    (e = None -> written (writer c') ++ buffered (writer c') =
                 written (writer c) ++ buffered (writer c) ++ concat (frame <$> ps)).
Proof.
  induction ps as [|p ps IH]; intros c Hps; cbn [send_all].
  { eexists _, _, c. split; [done|]. simpl. rewrite app_nil_r. split; [by apply prefix_app_r|done]. }
  apply Forall_cons in Hps as [[Hne Hmax] Hps]. cbn [send tcp_reality]. unfold tcp_send.
  rewrite (proj2 (Z.ltb_ge _ _)) by done.
  destruct (write_all (frame p) (writer c)) as [[] w] eqn:Ew; cbn [mbind option_bind].
  - apply write_all_ok in Ew. destruct (IH (with_writer w c) Hps) as (sent & e & c' & -> & Hpre & Hn).
    cbn [mbind option_bind writer with_writer] in *. eexists _, e, c'. split; [done|].
    rewrite app_assoc, Ew in Hpre, Hn. rewrite fmap_cons. cbn [concat].
    by rewrite <-!app_assoc in *.
  - apply write_all_err in Ew. eexists _, _, _. split; [done|]. split; [|done].
    rewrite fmap_cons. cbn [concat writer with_writer]. rewrite !app_assoc in *. by apply prefix_app_r.
Qed.

Lemma tun2dg_turn_tcp os ps st c : Forall (readable os) ps -> buffered (writer c) = [] ->
  exists u, tun2dg_turn os (ReadPacket <$> ps) st c = Some u /\
    written (writer (up_conn u)) `prefix_of`
      written (writer c) ++ concat (frame <$> (payload os <$> take MAX_TUN_BATCH ps)) /\
    (up_err u = false -> up_reads u = ReadPacket <$> drop MAX_TUN_BATCH ps /\
       buffered (writer (up_conn u)) = [] /\
       written (writer (up_conn u)) =
         written (writer c) ++ concat (frame <$> (payload os <$> take MAX_TUN_BATCH ps))).
Proof.
  intros Hps Hb. set (now := take MAX_TUN_BATCH ps).
  assert (Hf : Forall framable (payload os <$> now)).
  { apply Forall_fmap, (Forall_impl (readable os)); [by apply Forall_take|apply payload_framable]. }
  destruct (tcp_send_all _ c Hf) as (sent & e & c' & Es & Hpre & Hn). rewrite Hb in *. cbn [app] in *.
  destruct (tun2dg_batch_sends os _ _ 0 st _ _ _ _ Hps Es) as (u & Eu & Hc & He & Hr).
  unfold tun2dg_turn. rewrite Eu. cbn [mbind option_bind]. rewrite He.
  case_bool_decide as Hsome; [exists u; split; [done|]; by rewrite Hc, He|].
  assert (e = None) as -> by (destruct e; [destruct Hsome; by eauto|done]).
  destruct (Hr eq_refl) as [Hreads Hbatch]. specialize (Hn eq_refl). fold now in Hbatch. rewrite Hbatch. simpl.
  destruct (decide (0 < length now)%nat) as [Hpos|Hzero].
  - cbn [flush_writes tcp_reality]. unfold tcp_flush. rewrite Hc.
    destruct (flush_buf (writer c')) as [[] w] eqn:Ef; eexists; (split; [done|]); simpl.
    + apply flush_buf_ok in Ef as [-> ->]. rewrite Hn. by split_and!.
    + apply flush_buf_err in Ef. rewrite Hn in Ef. by split_and!.
  - destruct now as [|p l] eqn:El; [|simpl in Hzero; lia]. cbn [fmap list_fmap concat] in *.
    simpl in Es. injection Es as <- <-. exists u. rewrite Hc. split; [done|]. split; [done|].
    intros _. by rewrite app_nil_r in Hn |- *.
Qed.

Lemma tun2dg_tcp os : forall turns ps st c, (length ps <= turns)%nat ->
  Forall (readable os) ps -> buffered (writer c) = [] ->
  exists u, tun2dg turns os (ReadPacket <$> ps) st c = Some u /\
    written (writer (up_conn u)) `prefix_of`
      written (writer c) ++ concat (frame <$> (payload os <$> ps)) /\
    (up_err u = false -> up_reads u = [] /\
       written (writer (up_conn u)) =
         written (writer c) ++ concat (frame <$> (payload os <$> ps))).
Proof.
  induction turns as [|turns IH]; intros ps st c Hl Hps Hb; cbn [tun2dg].
  { destruct ps; [|simpl in Hl; lia]. eexists; split; [done|]. simpl. by rewrite app_nil_r. }
  destruct (tun2dg_turn_tcp os ps st c Hps Hb) as (u & -> & Hpre & Hok). cbn [mbind option_bind].
  assert (Hsplit : concat (frame <$> (payload os <$> ps)) =
    concat (frame <$> (payload os <$> take MAX_TUN_BATCH ps)) ++
    concat (frame <$> (payload os <$> drop MAX_TUN_BATCH ps))).
  { rewrite <-concat_app, <-!fmap_app. by rewrite take_drop. }
  rewrite Hsplit. destruct (up_err u) eqn:Eu.
  { exists u. split; [done|]. rewrite app_assoc. split; [by apply prefix_app_r|congruence]. }
  destruct (Hok eq_refl) as (-> & Hb' & Hw).
  destruct (IH (drop MAX_TUN_BATCH ps) (up_stats u) (up_conn u)) as (u' & -> & Hpre' & Hok');
    [|by apply Forall_drop|done|].
  { rewrite length_drop. unfold MAX_TUN_BATCH. lia. }
  exists u'. split; [done|]. by rewrite Hw, <-app_assoc in Hpre', Hok'.
Qed.
End tcp_uplink.

(** The variant that reads the device keeps the same invariant as [queue2tls]: what it
    read is on the wire or in the writer, and then the timer is armed. *)
Lemma tun2tls_frames `{WriterOk B} os : forall (ps : list (option bytes)) needs (w : B) ok needs' w',
  Forall (fun o => match o with Some p => readable os p | None => True end) ps ->
  tun2tls os (option_map ReadPacket <$> ps) needs w = Some (ok, needs', w') ->
  (needs = false -> buffered w = []) -> ok = true ->
  written w' ++ buffered w' =
    written w ++ buffered w ++ concat (frame <$> (payload os <$> omap (M:=list) id ps)) /\
  (needs' = false -> buffered w' = []).
Proof.
  induction ps as [|[p|] ps IH]; intros needs w ok needs' w' Hps E Hn Hok; rewrite ?fmap_cons in E.
  - injection E as <- <- <-. simpl. by rewrite app_nil_r.
  - apply Forall_cons in Hps as [Hp Hps]. cbn [tun2tls option_map] in E.
    rewrite tun_next_packet in E by done. cbn [mbind option_bind] in E.
    destruct (write_all (frame (payload os p)) w) as [[] w1] eqn:Ew; [|by simplify_eq].
    apply write_all_ok in Ew. destruct (IH _ _ _ _ _ Hps E) as [Hw Hb]; [done..|].
    split; [|done]. rewrite Hw, app_assoc, Ew. cbn [omap list_omap id fmap list_fmap concat].
    by rewrite <-!app_assoc.
  - apply Forall_cons in Hps as [_ Hps]. cbn [tun2tls option_map] in E.
    destruct needs; [|by apply (IH _ _ _ _ _ Hps E)].
    destruct (flush_buf w) as [[] w1] eqn:Ef; [|by simplify_eq].
    apply flush_buf_ok in Ef as [Hw Hb].
    destruct (IH _ _ _ _ _ Hps E) as [Hw' Hb']; [done..|]. split; [|done].
    rewrite Hw', Hw, Hb. cbn [omap list_omap id app]. by rewrite <-app_assoc.
Qed.

#[export] Instance from_client_dec ip p : Decision (from_client ip p).
Proof.
  refine (cast_if (decide (validate_source_ip p ip = Some true)));
    abstract (destruct (valid_from_client p ip) as (v & E & Hv); rewrite <-Hv; congruence).
Defined.

(** The server's [tls2tun] loop on what has arrived of a client's frames. [unhindered]:
    the device takes every packet and the shaper lets everything pass. *)
Section tls_receiver.
Context (ip : Ipv4Addr) (now : Z) (tun_ok : bytes -> bool) (os : Platform).

Definition unhindered (sh : AdaptiveShaper) : Prop :=
  (forall call, tun_ok call = true) /\ forall n, shaper_check now n sh = (true, sh).

Lemma tls2tun_one p r :
  exists r' got, tls2tun ip now tun_ok os p r = Some r' /\ tun r' = tun r ++ got /\
    got `sublist_of` [p] /\ Forall (from_client ip) got /\
    (unhindered (r_shaper r) -> r_shaper r' = r_shaper r /\ got = filter (from_client ip) [p]).
Proof.
  unfold tls2tun. destruct (valid_from_client p ip) as (v & -> & Hv).
  cbn [mbind option_bind]. rewrite filter_cons. destruct v; cbn [negb].
  2: { eexists _, []. split; [done|]. rewrite app_nil_r, decide_False by (intros Hf; by apply Hv in Hf).
       split; [done|]. split; [apply sublist_nil_l|]. by split; [constructor|]. }
  pose proof (proj1 Hv eq_refl) as Hp. rewrite decide_True by done.
  assert (Hdrop : forall r', tun r' = tun r -> ~ unhindered (r_shaper r) ->
    exists r1 got, Some r' = Some r1 /\ tun r1 = tun r ++ got /\ got `sublist_of` [p] /\
      Forall (from_client ip) got /\ (unhindered (r_shaper r) -> r_shaper r1 = r_shaper r /\ got = [p])).
  { intros r' Hr Hno. exists r', []. rewrite app_nil_r. split; [done|]. split; [done|].
    split; [apply sublist_nil_l|]. by split; [constructor|]. }
  destruct (shaper_check now (zlen p) (r_shaper r)) as [pass sh] eqn:Esh. destruct pass; cbn [negb].
  2: { apply Hdrop; [done|]. intros [_ Hs]. by rewrite Hs in Esh. }
  destruct (write_to_tun_total os p) as ([call|] & -> & Hw); cbn [mbind option_bind].
  2: { destruct Hp as (b & rest & -> & _). by destruct Hw. }
  destruct (tun_ok call) eqn:Et.
  - eexists _, [p]. split; [done|]. split; [done|]. split; [done|]. split; [by repeat constructor|].
    intros [_ Hs]. rewrite Hs in Esh. by injection Esh as <-.
  - apply Hdrop; [done|]. intros [Ht _]. by rewrite Ht in Et.
Qed.

Lemma tls2tun_loop_frames e ps : forall fuel inp buf r,
  Forall framable ps -> inp `prefix_of` concat (frame <$> ps) -> (length inp < fuel)%nat ->
  exists err r' arrived got, tls2tun_loop fuel ip now tun_ok os inp e buf r = Some (err, r') /\
    tun r' = tun r ++ got /\ arrived `prefix_of` ps /\ got `sublist_of` arrived /\
    Forall (from_client ip) got /\ (unhindered (r_shaper r) -> got = filter (from_client ip) arrived) /\
    (inp = concat (frame <$> ps) -> arrived = ps).
Proof.
  induction ps as [|p ps IH]; intros [|fuel] inp buf r Hf Hpre Hfuel; try lia; cbn [tls2tun_loop].
  { apply prefix_nil_inv in Hpre as ->. cbn [read_frame mbind option_bind].
    destruct e; eexists _, _, [], []; (split; [done|]); rewrite app_nil_r; by repeat (split; [done|]). }
  apply Forall_cons in Hf as [[Hne Hmax] Hf].
  rewrite fmap_cons in *. cbn [concat] in *. destruct Hpre as [rest Hpre].
  assert (Hshort : (exists x k, frame p = inp ++ x :: k) \/
    (exists k, inp = frame p ++ k /\ concat (frame <$> ps) = k ++ rest)).
  { apply app_eq_inv in Hpre as [(k & Hk & Hrest)|(k & -> & Hk)]; [|by eauto].
    destruct k as [|x k]; [|by eauto]. right. exists []. rewrite !app_nil_r in *. by subst. }
  destruct Hshort as [Hshort|(k & -> & Hk)].
  - rewrite (read_frame_short p) by done. cbn [mbind option_bind].
    assert (Hcut : inp <> frame p ++ concat (frame <$> ps)).
    { destruct Hshort as (x & k & Ek). intros ->. apply (f_equal length) in Ek.
      rewrite !length_app in Ek. simpl in Ek. lia. }
    destruct e; eexists _, _, [], []; (split; [done|]); rewrite app_nil_r;
      (split; [done|]); (split; [apply prefix_nil|]); by repeat (split; [constructor|]).
  - destruct (read_frame_frame p k e buf Hne Hmax) as (buf' & ->). cbn [mbind option_bind].
    destruct (tls2tun_one p r) as (r1 & g1 & -> & Ht & Hg1 & Hc1 & Hu1). cbn [mbind option_bind].
    destruct (IH fuel k buf' r1) as (err & r' & arr & got & -> & Hg & Hpa & Hpg & Hcg & Hu & Hfull); try done.
    { by exists rest. }
    { rewrite length_app in Hfuel. unfold frame in Hfuel. rewrite length_app in Hfuel.
      destruct p; [done|]. simpl in Hfuel. lia. }
    exists err, r', (p :: arr), (g1 ++ got). split; [done|]. rewrite Hg, Ht, <-app_assoc.
    split; [done|]. split; [by apply prefix_cons|].
    split; [by apply (sublist_app g1 [p])|]. split; [by apply Forall_app|]. split.
    + intros Hun. destruct (Hu1 Hun) as [Hs ->]. rewrite Hu by by rewrite Hs.
      by rewrite <-filter_app.
    + intros E%app_inv_head. by rewrite Hfull.
Qed.
End tls_receiver.

(** ** Theorems *)

(** [C5] The TLS downlink, end to end. A server task starts with an empty queue and an empty
    writer, and the router pushes packets, the task runs and its timer fires in any
    order and at any times. Then the client of the stream reads, at every moment, a
    prefix of the packets that were popped, none damaged; it reads all of them whenever
    no flush is due; while the task lives and the writer holds anything back, a flush is
    due, and when the timer fires with an empty queue it succeeds and leaves nothing
    behind, or the task ends. *)
Theorem tls_downlink_delivery `{WriterOk B, Writer B'} (capacity : Z) (w : B) inputs popped s
    (client : TcpConn B') :
  written w = [] -> buffered w = [] -> Forall (fun ni => pushes_framable ni.2) inputs ->
  queue2tls inputs (tls_start capacity w) = (popped, s) ->
  let arrived (s : TlsSender B) := tcp_with (written (ts_writer s)) client in
  (exists got c', recv_all (length popped) (arrived s) = Some (got, c') /\ got `prefix_of` popped) /\
  (ts_phase s <> Stopped -> needs_flush s = false ->
     exists c', recv_all (length popped) (arrived s) = Some (popped, c')) /\
  (ts_phase s <> Stopped -> buffered (ts_writer s) <> [] -> needs_flush s = true) /\
  (forall now s', ts_phase s = AtSelect -> needs_flush s = true ->
     realtime (ts_queue s) = [] -> bulk (ts_queue s) = [] ->
     queue2tls_step now FlushTimer s = (None, s') ->
     ts_phase s' = Stopped \/
     exists c', recv_all (length popped) (arrived s') = Some (popped, c')).
Proof.
  intros Hw Hb Hin E. cbn zeta.
  assert (Hinv : tls_inv popped s).
  { apply (queue2tls_inv inputs [] _ _ _ E Hin). split; [by repeat constructor|]. split; [constructor|].
    simpl. by rewrite Hw, Hb. }
  assert (Hall : forall s' : TlsSender B, tls_inv popped s' -> ts_phase s' <> Stopped -> needs_flush s' = false ->
    exists c', recv_all (length popped) (tcp_with (written (ts_writer s')) client) = Some (popped, c')).
  { intros s' (_ & Hf & Hs) Hph Hn. destruct (proj1 (Forall_and _ _) Hf) as [Hne Hmax].
    assert (written (ts_writer s') = concat (frame <$> popped)) as ->.
    { destruct (ts_phase s'); [..|done]; destruct Hs as (<- & Hz & _);
        rewrite (Hz Hn); by rewrite app_nil_r. }
    by apply tcp_recv_all. }
  pose proof Hinv as (_ & Hf & Hs). destruct (proj1 (Forall_and _ _) Hf) as [Hne Hmax].
  split; [|split; [by apply Hall|split]].
  - apply tcp_recv_all_part; try done. destruct (ts_phase s); [..|done]; destruct Hs as (<- & _);
      by apply prefix_app_r.
  - intros Hph Hbuf. destruct (needs_flush s) eqn:En; [done|].
    destruct (ts_phase s); [..|done]; by destruct Hs as (_ & Hz & _); destruct Hbuf; apply Hz.
  - intros now s' Hph Hn Hrt Hbk Est.
    pose proof (queue2tls_step_inv _ _ _ _ _ _ Est I Hinv) as Hinv'. simpl in Hinv'.
    unfold queue2tls_step in Est. rewrite Hph, Hn in Est.
    unfold try_pop in Est. rewrite Hrt, Hbk in Est. simpl in Est.
    destruct (flush_buf (ts_writer s)) as [[] w'] eqn:Ef; injection Est as <-; [right|by left].
    by apply Hall.
Qed.

(** Two packets, one of them realtime, then the timer. *)
Definition ex_writer : CappedWriter := mkCapped 30 1000 [] [].
Definition ex_inputs : list (Z * TlsInput) :=
  [(0, Push Bulk ex_packet); (1, Push Realtime [x45; x01]); (2, Poll); (3, Poll); (4, Poll)].
Definition ex_run : list bytes * TlsSender CappedWriter := queue2tls ex_inputs (tls_start 8 ex_writer).

(** The realtime packet is out first; both are with the client after the flush. *)
Lemma tls_downlink_delivery_witness :
  ex_run.1 = [[x45; x01]; ex_packet] /\ buffered (ts_writer ex_run.2) <> [] /\
  exists s', queue2tls_step 5 FlushTimer ex_run.2 = (None, s') /\
    exists c', recv_all 2 (tcp_with (written (ts_writer s')) ex_tcp) = Some (ex_run.1, c').
Proof.
  split; [vm_compute; reflexivity|]. split; [vm_compute; discriminate|].
  destruct (queue2tls_step 5 FlushTimer ex_run.2) as [o s'] eqn:E.
  destruct (tls_downlink_delivery 8 ex_writer ex_inputs ex_run.1 ex_run.2 ex_tcp)
    as (_ & _ & _ & Hflush); [reflexivity|reflexivity| |exact (surjective_pairing ex_run)|].
  { repeat constructor; (discriminate || (vm_compute; discriminate)). }
  assert (Ho : (queue2tls_step 5 FlushTimer ex_run.2).1 = None) by (vm_compute; reflexivity).
  assert (Hp : ts_phase (queue2tls_step 5 FlushTimer ex_run.2).2 = AtSelect) by (vm_compute; reflexivity).
  rewrite E in Ho, Hp. simpl in Ho, Hp. subst o. exists s'. split; [reflexivity|].
  destruct (Hflush 5 s') as [Hs|Hc]; try (vm_compute; reflexivity); [exact E|congruence|exact Hc].
Defined.

(** [C6] The TLS uplink, end to end. Whatever packets the client's TUN device delivers, its
    sending task never panics and comes to an end within one turn per packet. What has
    then arrived at the server stands for a prefix of those packets, even if the
    connection broke in the middle of a frame, and for all of them if no write failed.
    Whatever the server's shaper and device do, its receiver writes to its own device a
    subsequence of these, unaltered, all of them with this client's source address (or
    IPv6); and exactly the ones with that address if the shaper lets everything pass and
    the device takes every packet. *)
Theorem tcp_uplink_delivery `{WriterOk B} ip now tun_ok os os' eof ps st (c : TcpConn B) r :
  Forall (readable os) ps -> written (writer c) = [] -> buffered (writer c) = [] ->
  exists u, tun2dg (length ps) os (ReadPacket <$> ps) st c = Some u /\
  exists err r' arrived got,
    run_tls2tun ip now tun_ok os' (written (writer (up_conn u))) eof r = Some (err, r') /\
    arrived `prefix_of` (payload os <$> ps) /\ (up_err u = false -> arrived = payload os <$> ps) /\
    tun r' = tun r ++ got /\ got `sublist_of` arrived /\ Forall (from_client ip) got /\
    (unhindered now tun_ok (r_shaper r) -> got = filter (from_client ip) arrived).
Proof.
  intros Hps Hw Hb.
  destruct (tun2dg_tcp os (length ps) ps st c) as (u & -> & Hpre & Hok); [done..|].
  exists u. split; [done|]. rewrite Hw in *. cbn [app] in *.
  destruct (tls2tun_loop_frames ip now tun_ok os' eof (payload os <$> ps)
    (S (length (written (writer (up_conn u))))) (written (writer (up_conn u)))
    (replicate 1500 x00) r) as (err & r' & arr & got & E & Ht & Ha & Hg & Hc & Hu & Hfull); try done.
  - apply Forall_fmap, (Forall_impl (readable os)); [done|apply payload_framable].
  - lia.
  - exists err, r', arr, got. split; [exact E|]. split; [done|]. split; [|done].
    intros He. apply Hfull, Hok, He.
Qed.

(** Three packets through a writer of 30 octets, the second with a foreign source. *)
Definition ex_spoofed : bytes := take 12 ex_packet ++ octets (ip4 10 0 1 77) ++ drop 16 ex_packet.
Definition ex_uplink : list bytes := [ex_packet; ex_spoofed; ex_packet].

Lemma tcp_uplink_delivery_witness :
  exists u r' err, tun2dg 3 Linux (ReadPacket <$> ex_uplink) stats_new ex_tcp = Some u /\
    run_tls2tun (ip4 10 0 1 2) 0 (fun _ => true) Linux (written (writer (up_conn u))) false ex_receiver
      = Some (err, r') /\ tun r' = [ex_packet; ex_packet].
Proof.
  destruct (tcp_uplink_delivery (ip4 10 0 1 2) 0 (fun _ => true) Linux Linux false ex_uplink stats_new
    ex_tcp ex_receiver) as (u & Eu & err & r' & arr & got & E & _ & Hall & Ht & _ & _ & Hgot).
  - repeat constructor; vm_compute; lia.
  - reflexivity.
  - reflexivity.
  - exists u, r', err. split; [exact Eu|]. split; [exact E|]. rewrite Ht.
    rewrite Hgot; [|split; reflexivity]. rewrite Hall; [vm_compute; reflexivity|].
    assert (Hu : (up_err <$> tun2dg (length ex_uplink) Linux (ReadPacket <$> ex_uplink) stats_new ex_tcp) = Some false)
      by (vm_compute; reflexivity).
    rewrite Eu in Hu. simpl in Hu. congruence.
Defined.

(** [C34] A WebSocket client is sent every packet the server's TUN device delivers to its task,
    whatever client the packet is addressed to: on a working connection the peer
    receives exactly the packets read, in order. (The task reads the device that the
    global reader reads, and a packet can be read only once.) *)
Theorem ws_tunnel_ignores_destination os ps (server client : WsConn) :
  peers server client -> ws_writable server = true -> Forall (readable os) ps ->
  exists server' client', tun2ws os (ReadPacket <$> ps) server = Some (true, server') /\
    recv_all (length ps) (carry server' client) = Some (payload os <$> ps, client').
Proof.
  intros Hp Hw Hps.
  assert (Hrun : forall ws, ws_writable ws = true ->
    exists ws', tun2ws os (ReadPacket <$> ps) ws = Some (true, ws') /\
      send_all (payload os <$> ps) ws = Some (payload os <$> ps, None, ws')).
  { clear Hp Hw. induction Hps as [|p ps Hr Hps IH]; intros ws Hws; [by eexists|].
    rewrite !fmap_cons. cbn [tun2ws send_all]. rewrite tun_next_packet by done.
    cbn [mbind option_bind send websocket_cdn]. unfold ws_send. rewrite Hws.
    destruct (IH (mkWs (ws_out ws ++ [Binary (payload os p)]) (ws_in ws) (ws_eof ws) true) eq_refl)
      as (ws' & -> & E). cbn [mbind option_bind]. rewrite E. by eexists. }
  destruct (Hrun server Hw) as (server' & Erun & Es).
  destruct (carrier_law (payload os <$> ps) server client) as (sent & e & a' & Ea & _ & _ & Hall);
    [by apply Forall_true|done|].
  rewrite Es in Ea. injection Ea as <- <- <-.
  destruct (Hall server' eq_refl eq_refl) as (client' & Er). rewrite length_fmap in Er.
  by exists server', client'.
Qed.

(** A packet for 10.0.1.77 read by the task of another client. *)
Definition ex_foreign : bytes := take 16 ex_packet ++ octets (ip4 10 0 1 77) ++ drop 20 ex_packet.
Definition ex_ws : WsConn := mkWs [] [] false true.

Lemma ws_tunnel_ignores_destination_witness :
  extract_dst_ipv4 ex_foreign = Some (Some (ip4 10 0 1 77)) /\
  exists server' client', tun2ws Linux [ReadPacket ex_foreign] ex_ws = Some (true, server') /\
    recv_all 1 (carry server' ex_ws) = Some ([ex_foreign], client').
Proof.
  split; [vm_compute; reflexivity|].
  destruct (ws_tunnel_ignores_destination Linux [ex_foreign] ex_ws ex_ws) as (s & c & Es & Er);
    [reflexivity|reflexivity|repeat constructor; vm_compute; lia|].
  exists s, c. split; [exact Es|]. exact Er.
Defined.
