(* ===== verification/Server.v ===== *)
(** The server's connection handlers ([server.rs], [reality.rs]) and the state they
    share: the address pool, the router, the connection counter and the session
    gauges.

    A handler is a program of atomic actions: operations on the shared state, each
    under its own lock or atomic, and interactions with its connection, whose answers
    are the environment's. Any number of handlers run interleaved. RAII guards are
    [guard]: the release runs when the body returns, on every path, innermost first. *)

From S2P Require Import Prelude Datagram Batch Control Auth Users IpPool Priority Demux.

(** [AuthMode] *)
Inductive AuthMode := SinglePsk (a : PskAuthenticator) | MultiUser (s : UserStore).

Definition auth_mode_verify `{Hmac, HashIter} (m : AuthMode) (nonce mac : bytes) : option bytes :=
  match m with
  | SinglePsk a => if verify a nonce mac then Some (str "default") else None
  | MultiUser s => UserStore_verify s nonce mac
  end.

Definition ALPN_VPN : bytes := str "redpill-vpn-1".
Definition ALPN_H3 : bytes := str "h3".
Definition CLIENT_CHANNEL_SIZE : Z := 1024.
Definition TCP_CLIENT_CHANNEL_SIZE : Z := 4096.

(** [ServerState], as far as the handlers use it; the pool is any [Allocator]. *)
Record ServerState (P : Type) := mkServer {
  auth : AuthMode;
  ip_pool : P;
  active_connections : Z;
  max_connections : Z;
  srv_mtu : Z;
  srv_ip : Ipv4Addr;
  srv_dns_ip : Ipv4Addr;
  decoy_enabled : bool;
  srv_router : ClientRouter;
  active_sessions : Z;
  sessions_by_user : gmap bytes Z;
  handshakes_total : Z;
  handshakes_failed : Z
}.
Arguments mkServer {P}.
Arguments auth {P}. Arguments ip_pool {P}. Arguments active_connections {P}.
Arguments max_connections {P}. Arguments srv_mtu {P}. Arguments srv_ip {P}.
Arguments srv_dns_ip {P}. Arguments decoy_enabled {P}. Arguments srv_router {P}.
Arguments active_sessions {P}. Arguments sessions_by_user {P}.
Arguments handshakes_total {P}. Arguments handshakes_failed {P}.

(** ** Programs *)

Inductive TunnelKind := QuicTunnel (padded : bool) | TcpTunnel | WsTunnel.

Inductive action : Type -> Type :=
  (* shared state *)
  | FetchAddConn : action unit
  | FetchSubConn : action unit
  | IncHandshakesTotal : action unit
  | IncHandshakesFailed : action unit
  | SessionsInc : action unit
  | SessionsDec : action unit
  | UserInc (u : bytes) : action unit
  | UserDec (u : bytes) : action unit
  | VerifyAuth (snapshot : option AuthMode) (nonce mac : bytes) : action (option bytes)
  | SnapshotAuth : action AuthMode
  | PoolAllocate : action (option Ipv4Addr)
  | PoolRelease (ip : Ipv4Addr) : action unit
  | RouterRegister (ip : Ipv4Addr) (buffer : Z) : action nat
  | HandleDrop (ip : Ipv4Addr) : action unit
  (* the connection; [None] and [false] are errors *)
  | Handshake : action (option (option bytes))
  | AcceptBi (timeout : bool) : action bool
  | ReadExact (n : nat) (timeout : bool) : action (option bytes)
  | NextBinary : action (option bytes)
  | WriteAll (data : bytes) : action bool
  | CloseConn (code : Z) : action unit
  | ServeDecoy : action unit
  | ConnectTarget : action bool
  | WriteTarget (data : bytes) : action bool
  | ProxyBidirectional : action unit
  | RunTunnel (k : TunnelKind) (ip : Ipv4Addr) (queue : option nat) : action unit.

Inductive prog (A : Type) : Type :=
  | Ret (a : A)
  | Do {X : Type} (a : action X) (k : X -> prog A).
Arguments Ret {A} a.
Arguments Do {A X} a k.

Fixpoint pbind {A B} (f : A -> prog B) (p : prog A) : prog B :=
  match p with
  | Ret a => f a
  | Do a k => Do a (fun x => pbind f (k x))
  end.
#[export] Instance prog_ret : MRet prog := fun A => Ret.
#[export] Instance prog_bind : MBind prog := fun A B f p => pbind f p.

Definition do {X} (a : action X) : prog X := Do a Ret.

(** A value whose [Drop] is [release], alive while [body] runs. *)
Definition guard {A} (release : prog unit) (body : prog A) : prog A :=
  x ← body; _ ← release; Ret x.

Definition ConnectionGuard_drop : prog unit := do FetchSubConn.
Definition SessionGuard_drop (username : bytes) : prog unit :=
  _ ← do SessionsDec; do (UserDec username).
Definition ClientHandle_drop (client_ip : Ipv4Addr) : prog unit := do (HandleDrop client_ip).

(** [ClientAuth::decode] and [encode]; neither panics ([ClientAuth_decode_no_panic],
    [SessionConfig_layout]). *)
Definition decode_auth (buf : bytes) : option ClientAuth :=
  match ClientAuth_decode buf with Some r => r | None => None end.
Definition wire_config (c : SessionConfig) : bytes := default [] (SessionConfig_encode c).

(** The fields of [ServerState] that never change while the server runs. *)
Record ServerConsts := mkConsts {
  c_mtu : Z; c_server_ip : Ipv4Addr; c_dns_ip : Ipv4Addr; c_decoy : bool
}.

Definition session_config (c : ServerConsts) (ip : Ipv4Addr) (flags : Z) : SessionConfig :=
  mkSessionConfig ip (c_server_ip c) (c_dns_ip c) (wrap16 (c_mtu c)) (z2b 10) (z2b flags).

(** ** The handlers *)

(** From the authentication message on, [handle_vpn] and [handle_vpn_h3] are the same
    code. *)
Definition vpn_session (c : ServerConsts) (padded : bool) : prog unit :=
  buf ← do (ReadExact CLIENT_AUTH_LEN false);
  match buf with
  | None => do (CloseConn 1)
  | Some auth_buf =>
      match decode_auth auth_buf with
      | None => do (CloseConn 1)
      | Some client_auth =>
          _ ← do IncHandshakesTotal;
          name ← do (VerifyAuth None (nonce client_auth) (mac client_auth));
          match name with
          | None => _ ← do IncHandshakesFailed; do (CloseConn 1)
          | Some username =>
              _ ← do SessionsInc;
              _ ← do (UserInc username);
              guard (SessionGuard_drop username)
                (a ← do PoolAllocate;
                 match a with
                 | None => do (CloseConn 3)
                 | Some client_ip =>
                     q ← do (RouterRegister client_ip CLIENT_CHANNEL_SIZE);
                     guard (ClientHandle_drop client_ip)
                       (ok ← do (WriteAll (wire_config (session_config c client_ip BATCHING)));
                        match ok with
                        | false => do (PoolRelease client_ip)
                        | true =>
                            _ ← do (RunTunnel (QuicTunnel padded) client_ip (Some q));
                            do (PoolRelease client_ip)
                        end)
                 end)
          end
      end
  end.

Definition handle_vpn (c : ServerConsts) : prog unit :=
  _ ← do FetchAddConn;
  guard ConnectionGuard_drop
    (ok ← do (AcceptBi false);
     match ok with false => Ret tt | true => vpn_session c false end).

Definition handle_vpn_h3 (c : ServerConsts) : prog unit :=
  _ ← do FetchAddConn;
  guard ConnectionGuard_drop (vpn_session c true).

Definition handle_incoming (c : ServerConsts) : prog unit :=
  conn ← do Handshake;
  match conn with
  | None => Ret tt
  | Some alpn =>
      if decide (alpn = Some ALPN_VPN) then handle_vpn c
      else if decide (alpn = Some ALPN_H3) then
        bi ← do (AcceptBi true);
        match bi with
        | true => handle_vpn_h3 c
        | false => if c_decoy c then do ServeDecoy else do (CloseConn 2)
        end
      else do (CloseConn 2)
  end.

(** [reality.rs] *)
Inductive RealityResult := Vpn (client_ip : Ipv4Addr) (username : bytes) | Proxied | RealityError.

Definition proxy_with_initial_data (initial_data : bytes) : prog RealityResult :=
  ok ← do ConnectTarget;
  match ok with
  | false => Ret RealityError
  | true =>
      ok ← (if decide (initial_data = []) then Ret true else do (WriteTarget initial_data));
      match ok with
      | false => Ret RealityError
      | true => _ ← do ProxyBidirectional; Ret Proxied
      end
  end.

Definition handle_tcp_connection (c : ServerConsts) (auth : AuthMode) : prog RealityResult :=
  tls ← do Handshake;
  match tls with
  | None => Ret RealityError
  | Some _ =>
      buf ← do (ReadExact CLIENT_AUTH_LEN true);
      match buf with
      | None => proxy_with_initial_data []
      | Some auth_buf =>
          match decode_auth auth_buf with
          | None => proxy_with_initial_data auth_buf
          | Some client_auth =>
              if decide (auth_buf !! 0%nat = Some MSG_CLIENT_AUTH) then
                name ← do (VerifyAuth (Some auth) (nonce client_auth) (mac client_auth));
                match name with
                | None => proxy_with_initial_data auth_buf
                | Some username =>
                    a ← do PoolAllocate;
                    match a with
                    | None => Ret RealityError
                    | Some client_ip =>
                        ok ← do (WriteAll (wire_config (session_config c client_ip 0)));
                        match ok with
                        | false => _ ← do (PoolRelease client_ip); Ret RealityError
                        | true => Ret (Vpn client_ip username)
                        end
                    end
                end
              else proxy_with_initial_data auth_buf
          end
      end
  end.

(** The task [run_tcp_reality_listener] spawns. *)
Definition tcp_reality_task (c : ServerConsts) : prog unit :=
  auth_snapshot ← do SnapshotAuth;
  result ← handle_tcp_connection c auth_snapshot;
  match result with
  | Vpn client_ip username =>
      _ ← do FetchAddConn;
      guard ConnectionGuard_drop
        (_ ← do SessionsInc;
         _ ← do (UserInc username);
         guard (SessionGuard_drop username)
           (q ← do (RouterRegister client_ip TCP_CLIENT_CHANNEL_SIZE);
            guard (ClientHandle_drop client_ip)
              (_ ← do (RunTunnel TcpTunnel client_ip (Some q));
               do (PoolRelease client_ip))))
  | Proxied => Ret tt
  | RealityError => Ret tt
  end.

Definition handle_ws_connection (c : ServerConsts) : prog unit :=
  ws ← do Handshake;
  match ws with
  | None => Ret tt
  | Some _ =>
      msg ← do NextBinary;
      match msg with
      | None => Ret tt
      | Some auth_msg =>
          if decide (length auth_msg < CLIENT_AUTH_LEN)%nat then Ret tt
          else
            match decode_auth auth_msg with
            | None => Ret tt
            | Some client_auth =>
                _ ← do IncHandshakesTotal;
                name ← do (VerifyAuth None (nonce client_auth) (mac client_auth));
                match name with
                | None => do IncHandshakesFailed
                | Some username =>
                    a ← do PoolAllocate;
                    match a with
                    | None => Ret tt
                    | Some client_ip =>
                        ok ← do (WriteAll (wire_config (session_config c client_ip 0)));
                        match ok with
                        | false => do (PoolRelease client_ip)
                        | true =>
                            _ ← do FetchAddConn;
                            guard ConnectionGuard_drop
                              (_ ← do SessionsInc;
                               _ ← do (UserInc username);
                               guard (SessionGuard_drop username)
                                 (_ ← do (RunTunnel WsTunnel client_ip None);
                                  do (PoolRelease client_ip)))
                        end
                    end
                end
            end
      end
  end.

(** ** What the actions do *)

Section semantics.
Context `{Hmac, HashIter} {P : Type} `{Allocator P}.

Definition set_conn (n : Z) (s : ServerState P) : ServerState P :=
  let '(mkServer a p _ m t i d y r x u h f) := s in mkServer a p n m t i d y r x u h f.
Definition set_pool (p : P) (s : ServerState P) : ServerState P :=
  let '(mkServer a _ n m t i d y r x u h f) := s in mkServer a p n m t i d y r x u h f.
Definition set_router (r : ClientRouter) (s : ServerState P) : ServerState P :=
  let '(mkServer a p n m t i d y _ x u h f) := s in mkServer a p n m t i d y r x u h f.
Definition set_sessions (x : Z) (s : ServerState P) : ServerState P :=
  let '(mkServer a p n m t i d y r _ u h f) := s in mkServer a p n m t i d y r x u h f.
Definition set_by_user (u : gmap bytes Z) (s : ServerState P) : ServerState P :=
  let '(mkServer a p n m t i d y r x _ h f) := s in mkServer a p n m t i d y r x u h f.
Definition set_handshakes (h f : Z) (s : ServerState P) : ServerState P :=
  let '(mkServer a p n m t i d y r x u _ _) := s in mkServer a p n m t i d y r x u h f.
(** What a reload can change. *)
Definition set_reloaded (a : AuthMode) (m : Z) (s : ServerState P) : ServerState P :=
  let '(mkServer _ p n _ t i d y r x u h f) := s in mkServer a p n m t i d y r x u h f.

(** [with_label_values(&[u])], zero when new. *)
Definition gauge (s : ServerState P) (u : bytes) : Z := default 0 (sessions_by_user s !! u).

(** [act a s x s']: action [a] in state [s] may answer [x] and lead to [s']. The
    connection counter is a [u32]. *)
Definition act {X} (a : action X) (s : ServerState P) : X -> ServerState P -> Prop :=
  match a in action X return X -> ServerState P -> Prop with
  | FetchAddConn => fun _ s' => s' = set_conn (wrap32 (active_connections s + 1)) s
  | FetchSubConn => fun _ s' => s' = set_conn (wrap32 (active_connections s - 1)) s
  | IncHandshakesTotal => fun _ s' =>
      s' = set_handshakes (wrap64 (handshakes_total s + 1)) (handshakes_failed s) s
  | IncHandshakesFailed => fun _ s' =>
      s' = set_handshakes (handshakes_total s) (wrap64 (handshakes_failed s + 1)) s
  | SessionsInc => fun _ s' => s' = set_sessions (active_sessions s + 1) s
  | SessionsDec => fun _ s' => s' = set_sessions (active_sessions s - 1) s
  | UserInc u => fun _ s' => s' = set_by_user (<[u:=gauge s u + 1]> (sessions_by_user s)) s
  | UserDec u => fun _ s' => s' = set_by_user (<[u:=gauge s u - 1]> (sessions_by_user s)) s
  | VerifyAuth snap nonce mac => fun x s' =>
      s' = s /\ x = auth_mode_verify (default (auth s) snap) nonce mac
  | SnapshotAuth => fun x s' => s' = s /\ x = auth s
  | PoolAllocate => fun x s' =>
      exists p', alloc (ip_pool s) = (x, p') /\ s' = set_pool p' s
  | PoolRelease ip => fun _ s' => s' = set_pool (free ip (ip_pool s)) s
  | RouterRegister ip buffer => fun x s' =>
      let '(_, q, r) := register ip buffer (srv_router s) in x = q /\ s' = set_router r s
  | HandleDrop ip => fun _ s' => s' = set_router (handle_drop ip (srv_router s)) s
  | ReadExact n _ => fun x s' =>
      s' = s /\ match x with Some b => length b = n | None => True end
  | Handshake | AcceptBi _ | NextBinary | WriteAll _ | CloseConn _ | ServeDecoy
  | ConnectTarget | WriteTarget _ | ProxyBidirectional | RunTunnel _ _ _ =>
      fun _ s' => s' = s
  end.

(** What the connection delivered to a handler. *)
Definition delivered {X} (a : action X) : X -> list bytes :=
  match a in action X return X -> list bytes with
  | ReadExact _ _ => option_list
  | NextBinary => option_list
  | _ => fun _ => []
  end.

(** The server: its state, the running handlers, every authentication table that was in
    force so far, and every message that was read, with the handler that read it. *)
Record System := mkSystem {
  st : ServerState P; threads : list (prog unit); modes : list AuthMode; heard : list (nat * bytes)
}.

Inductive step (c : ServerConsts) : System -> System -> Prop :=
  (** A handler performs its next action. *)
  | step_act sys i X (a : action X) k x s' :
      threads sys !! i = Some (Do a k) -> act a (st sys) x s' ->
      step c sys (mkSystem s' (<[i:=k x]> (threads sys)) (modes sys) ((pair i <$> delivered a x) ++ heard sys))
  (** The QUIC accept loop: below the limit, a task is spawned. *)
  | step_accept sys :
      active_connections (st sys) < max_connections (st sys) ->
      step c sys (mkSystem (st sys) (threads sys ++ [handle_incoming c]) (modes sys) (heard sys))
  (** The TCP and WebSocket listeners: no limit. *)
  | step_accept_tcp sys :
      step c sys (mkSystem (st sys) (threads sys ++ [tcp_reality_task c]) (modes sys) (heard sys))
  | step_accept_ws sys :
      step c sys (mkSystem (st sys) (threads sys ++ [handle_ws_connection c]) (modes sys) (heard sys))
  (** The TUN reader routes a packet. *)
  | step_route sys now ip p b r' :
      route now ip p (srv_router (st sys)) = Some (b, r') ->
      step c sys (mkSystem (set_router r' (st sys)) (threads sys) (modes sys) (heard sys))
  (** A reload installs an authentication table and a limit. *)
  | step_reload sys m n :
      step c sys (mkSystem (set_reloaded m n (st sys)) (threads sys) (m :: modes sys) (heard sys)).

(** Nothing allocated, nobody connected. *)
Definition initial (s : ServerState P) : Prop :=
  active_connections s = 0 /\ active_sessions s = 0 /\ sessions_by_user s = ∅ /\
  held (ip_pool s) = ∅ /\ srv_router s = router_new.

Definition boot (s : ServerState P) : System := mkSystem s [] [auth s] [].
End semantics.
Arguments System : clear implicits.
Arguments mkSystem {P}.
Arguments st {P}. Arguments threads {P}. Arguments modes {P}. Arguments heard {P}.

(** ** Resources *)

(** What a handler has taken and must give back, and what it has learnt. *)
Inductive token :=
  | TConn | TSession | TUser (u : bytes) | TIp (ip : Ipv4Addr) | TRoute (ip : Ipv4Addr)
  | TAuth (u : bytes) | TMode (m : AuthMode) | THeard (f : bytes).

(** Tokens that need not be given back. *)
Definition known (t : token) : bool :=
  match t with TAuth _ | TMode _ | THeard _ => true | _ => false end.

(** [owns a R x R']: a handler with tokens [R] may perform [a], and has [R'] after the
    answer [x]. Only the nonce and MAC of a message the handler has read are verified; a
    session is counted, and a tunnel run, only for an authenticated user and on an
    address of one's own. *)
Definition owns {X} (a : action X) (R : list token) : X -> list token -> Prop :=
  match a in action X return X -> list token -> Prop with
  | FetchAddConn => fun _ R' => R' = TConn :: R
  | FetchSubConn => fun _ R' => R ≡ₚ TConn :: R'
  | SessionsInc => fun _ R' => R' = TSession :: R
  | SessionsDec => fun _ R' => R ≡ₚ TSession :: R'
  | UserInc u => fun _ R' => TAuth u ∈ R /\ R' = TUser u :: R
  | UserDec u => fun _ R' => R ≡ₚ TUser u :: R'
  | VerifyAuth snap n t => fun x R' =>
      match snap with None => True | Some m => TMode m ∈ R end /\
      (exists f a, decode_auth f = Some a /\ nonce a = n /\ mac a = t /\ THeard f ∈ R) /\
      R' = match x with Some u => TAuth u :: R | None => R end
  | SnapshotAuth => fun x R' => R' = TMode x :: R
  | PoolAllocate => fun x R' => R' = match x with Some ip => TIp ip :: R | None => R end
  | PoolRelease ip => fun _ R' => R ≡ₚ TIp ip :: R'
  | RouterRegister ip buf => fun _ R' => 0 <= buf /\ TIp ip ∈ R /\ R' = TRoute ip :: R
  | HandleDrop ip => fun _ R' => R ≡ₚ TRoute ip :: R'
  | ReadExact _ _ => fun x R' => R' = match x with Some f => THeard f :: R | None => R end
  | NextBinary => fun x R' => R' = match x with Some f => THeard f :: R | None => R end
  | RunTunnel _ ip _ => fun _ R' => TIp ip ∈ R /\ (exists u, TAuth u ∈ R) /\ R' = R
  | _ => fun _ R' => R' = R
  end.

(** [wp p Q R]: with tokens [R], every run of [p] takes and gives back tokens as
    [owns] says and ends with [Q]. *)
Fixpoint wp {A} (p : prog A) (Q : A -> list token -> Prop) (R : list token) : Prop :=
  match p with
  | Ret a => Q a R
  | Do a k => forall x, exists R', owns a R x R' /\ wp (k x) Q R'
  end.

(** Everything that must be given back has been. *)
Definition settled (R : list token) : Prop := Forall (fun t => known t = true) R.
Definition leaves_nothing (p : prog unit) (R : list token) : Prop := wp p (fun _ => settled) R.

Lemma wp_mono {A} (p : prog A) (Q Q' : A -> list token -> Prop) : forall R,
  wp p Q R -> (forall a R, Q a R -> Q' a R) -> wp p Q' R.
Proof.
  induction p as [a|X a k IH]; intros R Hp HQ; simpl in *; [by apply HQ|].
  intros x. destruct (Hp x) as (R' & Ho & Hk). exists R'. split; [done|]. by apply IH.
Qed.

Lemma wp_bind {A B} (p : prog A) (f : A -> prog B) Q : forall R,
  wp p (fun a => wp (f a) Q) R -> wp (p ≫= f) Q R.
Proof.
  induction p as [a|X a k IH]; intros R Hp; simpl in *; [done|].
  intros x. destruct (Hp x) as (R' & Ho & Hk). exists R'. split; [done|]. by apply IH.
Qed.

Lemma wp_do {X} (a : action X) Q R :
  (forall x, exists R', owns a R x R' /\ Q x R') -> wp (do a) Q R.
Proof. done. Qed.

Lemma wp_guard {A} (release : prog unit) (body : prog A) Q R :
  wp body (fun a => wp release (fun _ => Q a)) R -> wp (guard release body) Q R.
Proof.
  intros Hb. unfold guard. apply wp_bind. eapply wp_mono; [exact Hb|].
  intros a R' Hr. simpl. apply wp_bind. eapply wp_mono; [exact Hr|]. done.
Qed.

(** ** Every handler gives back what it takes *)

Lemma perm_under {A} (h t : A) T T' : T ≡ₚ t :: T' -> h :: T ≡ₚ t :: h :: T'.
Proof. intros ->. apply perm_swap. Qed.

(** [R ≡ₚ t :: ?R'] for an explicit [R]. *)
Ltac take_token :=
  lazymatch goal with
  | |- ?t :: _ ≡ₚ ?t :: _ => reflexivity
  | |- _ :: _ ≡ₚ _ :: _ => eapply perm_under; take_token
  end.

(** Perform the next action. *)
Ltac act_tac :=
  first [apply wp_bind|idtac]; apply wp_do;
  first [intros []; lazymatch goal with |- exists _, @owns unit _ _ _ _ /\ _ => idtac end
        | intros x]; eexists; cbn [owns];
  split; [first [reflexivity | take_token
                | split; [first [done|set_solver]|first [reflexivity|split; [set_solver|reflexivity]]]
                | split; [set_solver|split; [eexists; set_solver|reflexivity]]
                | split; [first [done|set_solver]|split; [|reflexivity]];
                  eexists _, _; split; [eassumption|split; [reflexivity|split; [reflexivity|set_solver]]]]|].

(** The tokens a session leaves behind: what it knows, and the connection it had. *)
Definition session_post (_ : unit) (R : list token) : Prop := exists K, R = K ++ [TConn] /\ settled K.

Lemma session_post_conn a R : session_post a R -> wp ConnectionGuard_drop (fun _ => settled) R.
Proof.
  intros (K & -> & HK). apply wp_do. intros []. exists K. cbn [owns]. split; [|done].
  by rewrite (comm (++) K).
Qed.

Ltac end_session :=
  lazymatch goal with
  | |- session_post _ [TConn] => exists []; split; [done|by repeat constructor]
  | |- session_post _ [?a; TConn] => exists [a]; split; [done|by repeat constructor]
  | |- session_post _ [?a; ?b; TConn] => exists [a; b]; split; [done|by repeat constructor]
  end.

Lemma wp_vpn_session c padded : wp (vpn_session c padded) session_post [TConn].
Proof.
  unfold vpn_session. act_tac. destruct x as [buf|]; [|act_tac; end_session].
  destruct (decode_auth buf) as [ca|] eqn:Hd; [|act_tac; end_session]. act_tac. act_tac.
  destruct x as [u|]; [|act_tac; act_tac; end_session].
  act_tac. act_tac. apply wp_guard. act_tac.
  destruct x as [ip|].
  2: { act_tac. unfold SessionGuard_drop. act_tac. act_tac. end_session. }
  act_tac. rename x into q. apply wp_guard. act_tac.
  destruct x.
  - act_tac. act_tac. unfold ClientHandle_drop. act_tac. unfold SessionGuard_drop.
    act_tac. act_tac. end_session.
  - act_tac. unfold ClientHandle_drop. act_tac. unfold SessionGuard_drop.
    act_tac. act_tac. end_session.
Qed.

Lemma wp_handle_vpn c : leaves_nothing (handle_vpn c) [].
Proof.
  unfold leaves_nothing, handle_vpn. act_tac. apply wp_guard. act_tac. destruct x.
  - eapply wp_mono; [apply wp_vpn_session|]. apply session_post_conn.
  - apply (session_post_conn tt). end_session.
Qed.

Lemma wp_handle_vpn_h3 c : leaves_nothing (handle_vpn_h3 c) [].
Proof.
  unfold leaves_nothing, handle_vpn_h3. act_tac. apply wp_guard.
  eapply wp_mono; [apply wp_vpn_session|]. apply session_post_conn.
Qed.

Lemma settled_nil : settled [].
Proof. constructor. Qed.

Lemma wp_handle_incoming c : leaves_nothing (handle_incoming c) [].
Proof.
  unfold leaves_nothing, handle_incoming. act_tac. destruct x as [alpn|]; [|apply settled_nil].
  case_decide; [apply wp_handle_vpn|]. case_decide.
  - act_tac. destruct x; [apply wp_handle_vpn_h3|].
    destruct (c_decoy c); act_tac; apply settled_nil.
  - act_tac. apply settled_nil.
Qed.

(** What [handle_tcp_connection] hands to the task. *)
Definition reality_post (r : RealityResult) (R : list token) : Prop :=
  match r with
  | Vpn ip u => exists m f, R = [TIp ip; TAuth u; THeard f; TMode m]
  | _ => settled R
  end.

Lemma wp_proxy d R : settled R -> wp (proxy_with_initial_data d) reality_post R.
Proof.
  intros HR. unfold proxy_with_initial_data. act_tac. destruct x; [|done]. apply wp_bind.
  assert (Hk : forall b, wp (match b with false => Ret RealityError
     | true => _ ← do ProxyBidirectional; Ret Proxied end) reality_post R).
  { intros []; [|done]. by act_tac. }
  case_decide; [apply Hk|]. act_tac. apply Hk.
Qed.

Lemma wp_handle_tcp_connection c m :
  wp (handle_tcp_connection c m) reality_post [TMode m].
Proof.
  assert (HR : settled [TMode m]) by by repeat constructor.
  unfold handle_tcp_connection. act_tac. destruct x; [|done].
  act_tac. destruct x as [buf|]; [|by apply wp_proxy].
  assert (HR1 : settled [THeard buf; TMode m]) by by repeat constructor.
  destruct (decode_auth buf) as [ca|] eqn:Hd; [|by apply wp_proxy].
  case_decide; [|by apply wp_proxy].
  act_tac. destruct x as [u|]; [|by apply wp_proxy].
  act_tac. destruct x as [ip|]; [|by repeat constructor].
  act_tac. destruct x; [by exists m, buf|]. act_tac. by repeat constructor.
Qed.

Lemma wp_tcp_reality_task c : leaves_nothing (tcp_reality_task c) [].
Proof.
  unfold leaves_nothing, tcp_reality_task. act_tac. rename x into snap. apply wp_bind.
  eapply wp_mono; [apply wp_handle_tcp_connection|].
  intros [ip u| |] R; [|done..]. intros (m & f & ->).
  act_tac. apply wp_guard. act_tac. act_tac. apply wp_guard. act_tac. rename x into q.
  apply wp_guard. act_tac. act_tac. unfold ClientHandle_drop. act_tac. unfold SessionGuard_drop. act_tac. act_tac.
  unfold ConnectionGuard_drop. act_tac. by repeat constructor.
Qed.

Lemma wp_handle_ws_connection c : leaves_nothing (handle_ws_connection c) [].
Proof.
  unfold leaves_nothing, handle_ws_connection. act_tac. destruct x; [|apply settled_nil].
  act_tac. destruct x as [msg|]; [|apply settled_nil].
  case_decide; [by repeat constructor|].
  destruct (decode_auth msg) as [ca|] eqn:Hd; [|by repeat constructor].
  act_tac. act_tac. destruct x as [u|]; [|act_tac; by repeat constructor].
  act_tac. destruct x as [ip|]; [|by repeat constructor].
  act_tac. destruct x; [|act_tac; by repeat constructor].
  act_tac. apply wp_guard. act_tac. act_tac. apply wp_guard. act_tac. act_tac.
  unfold SessionGuard_drop. act_tac. act_tac. unfold ConnectionGuard_drop. act_tac.
  by repeat constructor.
Qed.

(** ** The shared state is the sum of what the handlers hold *)

Definition conns (L : list token) : list unit :=
  omap (fun t => match t with TConn => Some tt | _ => None end) L.
Definition sessions (L : list token) : list unit :=
  omap (fun t => match t with TSession => Some tt | _ => None end) L.
Definition user_sessions (u : bytes) (L : list token) : list unit :=
  omap (fun t => match t with TUser u' => if decide (u' = u) then Some tt else None | _ => None end) L.
Definition addresses (L : list token) : list Ipv4Addr :=
  omap (fun t => match t with TIp ip => Some ip | _ => None end) L.

#[local] Arguments conns : simpl never.
#[local] Arguments sessions : simpl never.
#[local] Arguments user_sessions : simpl never.
#[local] Arguments addresses : simpl never.

Lemma addresses_elem ip L : ip ∈ addresses L <-> TIp ip ∈ L.
Proof.
  unfold addresses. rewrite list_elem_of_omap. split.
  - intros (t & Ht & E). destruct t; simplify_eq. done.
  - intros H. by exists (TIp ip).
Qed.

Section invariant.
Context `{Hmac, HashIter} {P : Type} `{AllocatorOk P}.

Record balanced (s : ServerState P) (ms : list AuthMode) (L : list token) : Prop := mkBalanced {
  bal_conn : active_connections s = wrap32 (zlen (conns L));
  bal_sessions : active_sessions s = zlen (sessions L);
  bal_user : forall u, gauge s u = zlen (user_sessions u L);
  bal_nodup : NoDup (addresses L);
  bal_pool : held (ip_pool s) = list_to_set (addresses L);
  bal_router : router_wf (srv_router s);
  bal_routes : forall ip q, routes (srv_router s) !! ip = Some q -> TRoute ip ∈ L;
  bal_mode : auth s ∈ ms
}.

Lemma balanced_perm s ms L L' : L ≡ₚ L' -> balanced s ms L -> balanced s ms L'.
Proof.
  intros HL [Hc Hs Hu Hn Hp Hw Hr Hm]. split.
  - by rewrite Hc; unfold conns, zlen; rewrite HL.
  - by rewrite Hs; unfold sessions, zlen; rewrite HL.
  - intros u. by rewrite Hu; unfold user_sessions, zlen; rewrite HL.
  - unfold addresses in *. by rewrite <-HL.
  - rewrite Hp. apply set_eq. intros ip. rewrite !elem_of_list_to_set, !addresses_elem. by rewrite HL.
  - done.
  - intros ip q Hq. rewrite <-HL. by eapply Hr.
  - done.
Qed.

Lemma wrap_add w x y : 0 <= w -> wrap w (wrap w x + y) = wrap w (x + y).
Proof. intros. unfold wrap. rewrite Zplus_mod_idemp_l. done. Qed.

Lemma wrap_succ_pred x : wrap32 (wrap32 (1 + x) - 1) = wrap32 x.
Proof.
  replace (wrap32 (1 + x) - 1) with (wrap32 (1 + x) + -1) by lia.
  rewrite wrap_add by lia. f_equal. lia.
Qed.

(** Taking and giving back one token, one lemma per pair of actions. *)
Lemma bal_add_conn s ms L :
  balanced s ms L ->
  balanced (set_conn (wrap32 (active_connections s + 1)) s) ms (TConn :: L).
Proof.
  intros [Hc Hs Hu Hn Hp Hw Hr Hm]. destruct s. simpl in *.
  split; simpl in *; try done; [|set_solver..].
  subst. change (conns (TConn :: L)) with (tt :: conns L).
  rewrite wrap_add, zlen_cons by lia. f_equal. lia.
Qed.
Lemma bal_sub_conn s ms L :
  balanced s ms (TConn :: L) ->
  balanced (set_conn (wrap32 (active_connections s - 1)) s) ms L.
Proof.
  intros [Hc Hs Hu Hn Hp Hw Hr Hm]. destruct s. simpl in *.
  split; simpl in *; try done; [|set_solver..].
  change (conns (TConn :: L)) with (tt :: conns L) in Hc. rewrite zlen_cons in Hc. subst.
  by rewrite wrap_succ_pred.
Qed.
Lemma bal_add_session s ms L :
  balanced s ms L -> balanced (set_sessions (active_sessions s + 1) s) ms (TSession :: L).
Proof.
  intros [Hc Hs Hu Hn Hp Hw Hr Hm]. destruct s. simpl in *.
  split; simpl in *; try done; [|set_solver..].
  change (sessions (TSession :: L)) with (tt :: sessions L). rewrite zlen_cons. lia.
Qed.
Lemma bal_sub_session s ms L :
  balanced s ms (TSession :: L) -> balanced (set_sessions (active_sessions s - 1) s) ms L.
Proof.
  intros [Hc Hs Hu Hn Hp Hw Hr Hm]. destruct s. simpl in *.
  split; simpl in *; try done; [|set_solver..].
  change (sessions (TSession :: L)) with (tt :: sessions L) in Hs. rewrite zlen_cons in Hs. lia.
Qed.

Lemma user_sessions_cons u u' L :
  zlen (user_sessions u (TUser u' :: L)) =
  zlen (user_sessions u L) + if decide (u' = u) then 1 else 0.
Proof.
  unfold user_sessions. cbn [omap list_omap]. case_decide; [rewrite zlen_cons|]; lia.
Qed.

Lemma gauge_set (m : gmap bytes Z) u u' x :
  default 0 (<[u:=x]> m !! u') = if decide (u = u') then x else default 0 (m !! u').
Proof.
  case_decide; [subst; by rewrite lookup_insert_eq|by rewrite lookup_insert_ne].
Qed.

Lemma bal_add_user s ms L u :
  balanced s ms L ->
  balanced (set_by_user (<[u:=gauge s u + 1]> (sessions_by_user s)) s) ms (TUser u :: L).
Proof.
  intros [Hc Hs Hu Hn Hp Hw Hr Hm]. destruct s. unfold gauge in *. simpl in *.
  split; simpl in *; try done; [|set_solver..].
  intros u'. unfold gauge. simpl. rewrite gauge_set, user_sessions_cons, <-Hu.
  case_decide; [subst|]; lia.
Qed.
Lemma bal_sub_user s ms L u :
  balanced s ms (TUser u :: L) ->
  balanced (set_by_user (<[u:=gauge s u - 1]> (sessions_by_user s)) s) ms L.
Proof.
  intros [Hc Hs Hu Hn Hp Hw Hr Hm]. destruct s. unfold gauge in *. simpl in *.
  split; simpl in *; try done; [|set_solver..].
  intros u'. unfold gauge. simpl. rewrite gauge_set. specialize (Hu u') as Hu'.
  rewrite user_sessions_cons in Hu'. case_decide; [subst|]; lia.
Qed.

Lemma bal_alloc s ms L x p' :
  alloc (ip_pool s) = (x, p') -> balanced s ms L ->
  balanced (set_pool p' s) ms (match x with Some ip => TIp ip :: L | None => L end).
Proof.
  intros Ea [Hc Hs Hu Hn Hp Hw Hr Hm]. destruct s; simpl in *. destruct x as [ip|].
  - apply alloc_some in Ea as (Hni & _ & Hh & _).
    split; simpl in *; try done; [| |set_solver..].
    + apply NoDup_cons. split; [|done]. rewrite Hp in Hni. by rewrite elem_of_list_to_set in Hni.
    + by rewrite Hh, Hp.
  - apply alloc_none in Ea as [-> _]. by split.
Qed.
Lemma bal_release s ms L ip :
  balanced s ms (TIp ip :: L) -> balanced (set_pool (free ip (ip_pool s)) s) ms L.
Proof.
  intros [Hc Hs Hu Hn Hp Hw Hr Hm]. destruct s; simpl in *.
  destruct (free_held ip_pool0 ip) as [Hf _].
  change (addresses (TIp ip :: L)) with (ip :: addresses L) in *.
  apply NoDup_cons in Hn as [Hni Hn].
  split; simpl in *; try done; [|set_solver..].
  rewrite Hf, Hp. apply set_eq. intros x. simpl. rewrite elem_of_difference, elem_of_union,
    !elem_of_singleton, elem_of_list_to_set. naive_solver.
Qed.

Lemma bal_register s ms L ip buf q r :
  0 <= buf -> register ip buf (srv_router s) = (ip, q, r) -> balanced s ms L ->
  balanced (set_router r s) ms (TRoute ip :: L).
Proof.
  intros Hb Er [Hc Hs Hu Hn Hp Hw Hr Hm]. destruct s; simpl in *.
  split; simpl in *; try done; [| |set_solver..].
  - by eapply register_wf.
  - injection Er as <- <-. simpl. intros ip' q' [[<- _]|[_ Hq]]%lookup_insert_Some; set_solver.
Qed.
Lemma bal_unregister s ms L ip :
  balanced s ms (TRoute ip :: L) ->
  balanced (set_router (handle_drop ip (srv_router s)) s) ms L.
Proof.
  intros [Hc Hs Hu Hn Hp Hw Hr Hm]. destruct s; simpl in *.
  split; simpl in *; try done; [| |set_solver..].
  - by apply unregister_wf.
  - intros ip' q' [Hne Hq]%lookup_delete_Some. specialize (Hr _ _ Hq). set_solver.
Qed.
End invariant.

Section balance.
Context `{Hmac, HashIter} {P : Type} `{AllocatorOk P}.

Lemma bal_handshakes (s : ServerState P) ms L h f :
  balanced s ms L -> balanced (set_handshakes h f s) ms L.
Proof. intros [Hc Hs Hu Hn Hp Hw Hr Hm]. destruct s; simpl in *. by split. Qed.

Lemma bal_known (s : ServerState P) ms L t :
  known t = true -> balanced s ms L -> balanced s ms (t :: L).
Proof.
  intros Ht [Hc Hs Hu Hn Hp Hw Hr Hm].
  destruct t; try done; split; try done; set_solver.
Qed.

(** What a handler knows is true: its tables were in force, what it heard its connection
    delivered, and a user was verified by such a message against such a table. *)
Definition vouched (ms : list AuthMode) (h : bytes -> Prop) (t : token) : Prop :=
  match t with
  | TMode m => m ∈ ms
  | THeard f => h f
  | TAuth u | TUser u =>
      exists m f a, m ∈ ms /\ h f /\ decode_auth f = Some a /\ auth_mode_verify m (nonce a) (mac a) = Some u
  | _ => True
  end.

Lemma vouched_mono ms ms' (h h' : bytes -> Prop) t :
  ms ⊆ ms' -> (forall f, h f -> h' f) -> vouched ms h t -> vouched ms' h' t.
Proof. intros Hms Hh. destruct t; simpl; try done; [|set_solver..]; intros (m & f & a & ?); exists m, f, a; naive_solver. Qed.

Lemma act_vouched {X} (a : action X) (s s' : ServerState P) ms (h : bytes -> Prop) R R' x :
  act a s x s' -> owns a R x R' -> auth s ∈ ms -> (forall f, f ∈ delivered a x -> h f) ->
  Forall (vouched ms h) R -> Forall (vouched ms h) R'.
Proof.
  intros Ha Ho Hm Hd HR.
  assert (Htake : forall t, R ≡ₚ t :: R' -> Forall (vouched ms h) R').
  { intros t Hp. rewrite Hp in HR. by apply Forall_cons in HR as [_ HR]. }
  assert (Hknow : forall t, t ∈ R -> vouched ms h t) by by apply Forall_forall.
  destruct a; cbn [act owns delivered] in *; try (subst; done); try (by eapply Htake; exact Ho);
    try (subst; constructor; done).
  - destruct Ho as [Hin ->]. constructor; [exact (Hknow _ Hin)|done].
  - destruct Ha as [-> ->], Ho as (Hs & (f & ca & Hf & <- & <- & Hin) & ->).
    destruct (auth_mode_verify _ _ _) as [u|] eqn:E; [|done]. constructor; [|done].
    exists (default (auth s) snapshot), f, ca. split; [|by split; [exact (Hknow _ Hin)|]].
    destruct snapshot as [m|]; [exact (Hknow _ Hs)|done].
  - destruct Ha as [-> ->]. subst. by constructor.
  - subst. destruct x; [by constructor|done].
  - destruct Ho as (_ & _ & ->). by constructor.
  - subst. destruct x as [f|]; [|done]. constructor; [|done]. apply Hd. simpl. by left.
  - subst. destruct x as [f|]; [|done]. constructor; [|done]. apply Hd. simpl. by left.
  - by destruct Ho as (_ & _ & ->).
Qed.

(** One action of one handler, the tokens of all others in [L]. *)
Lemma act_balanced {X} (a : action X) (s s' : ServerState P) ms R R' L x :
  act a s x s' -> owns a R x R' -> balanced s ms (R ++ L) -> balanced s' ms (R' ++ L).
Proof.
  intros Ha Ho Hb.
  assert (Htake : forall t, R ≡ₚ t :: R' -> balanced s ms (t :: R' ++ L)).
  { intros t Hp. eapply balanced_perm; [|exact Hb]. by rewrite Hp. }
  destruct a; cbn [act owns] in *; subst; simpl; try done;
    try (by apply bal_handshakes).
  - by apply bal_add_conn.
  - apply bal_sub_conn, Htake, Ho.
  - by apply bal_add_session.
  - apply bal_sub_session, Htake, Ho.
  - destruct Ho as [_ ->]. by apply (bal_add_user _ _ (R ++ L)).
  - apply bal_sub_user, Htake, Ho.
  - destruct Ha as [-> _], Ho as (_ & _ & ->). destruct x; [|done]. by apply (bal_known _ _ (R ++ L)).
  - destruct Ha as [-> _]. by apply (bal_known _ _ (R ++ L)).
  - destruct Ha as (p' & Ea & ->). pose proof (bal_alloc _ _ _ _ _ Ea Hb) as Hb'.
    by destruct x.
  - apply bal_release, Htake, Ho.
  - destruct Ho as (Hbuf & _ & ->). destruct Ha as [-> ->].
    by eapply (bal_register _ _ (R ++ L)).
  - apply bal_unregister, Htake, Ho.
  - destruct Ha as [-> _]. destruct x; [|done]. by apply (bal_known _ _ (R ++ L)).
  - destruct x; [|done]. by apply (bal_known _ _ (R ++ L)).
  - by destruct Ho as (_ & _ & ->).
Qed.

(** The tokens of every handler, and what each of them knows. *)
Definition sys_inv (sys : System P) : Prop :=
  exists Rs, Forall2 leaves_nothing (threads sys) Rs /\ balanced (st sys) (modes sys) (concat Rs) /\
    forall i R, Rs !! i = Some R -> Forall (vouched (modes sys) (fun f => (i, f) ∈ heard sys)) R.

Lemma concat_insert (Rs : list (list token)) i R R' :
  Rs !! i = Some R ->
  concat Rs ≡ₚ R ++ concat (delete i Rs) /\
  concat (<[i:=R']> Rs) ≡ₚ R' ++ concat (delete i Rs).
Proof.
  intros Hi. rewrite delete_take_drop. split.
  - rewrite <-(take_drop_middle Rs i R Hi) at 1. rewrite !concat_app. simpl.
    rewrite !(assoc_L (++)). by rewrite (comm (++) (concat (take i Rs)) R).
  - rewrite insert_take_drop by by eapply lookup_lt_Some. rewrite !concat_app. simpl.
    rewrite !(assoc_L (++)). by rewrite (comm (++) (concat (take i Rs)) R').
Qed.

Lemma spawn_inv (sys : System P) p :
  sys_inv sys -> leaves_nothing p [] ->
  sys_inv (mkSystem (st sys) (threads sys ++ [p]) (modes sys) (heard sys)).
Proof.
  intros (Rs & HRs & Hb & Hv) Hp. exists (Rs ++ [[]]). simpl. split; [|split].
  - apply Forall2_app; [done|]. by constructor.
  - rewrite concat_app. simpl. by rewrite app_nil_r.
  - intros i R [HR|[_ HR]]%lookup_app_Some; [by apply Hv|].
    apply list_lookup_singleton_Some in HR as [_ <-]. constructor.
Qed.

Lemma act_inv (sys : System P) i X (a : action X) k x s' :
  threads sys !! i = Some (Do a k) -> act a (st sys) x s' -> sys_inv sys ->
  sys_inv (mkSystem s' (<[i:=k x]> (threads sys)) (modes sys) ((pair i <$> delivered a x) ++ heard sys)).
Proof.
  intros Ht Ha (Rs & HRs & Hb & Hv).
  destruct (Forall2_lookup_l _ _ _ _ _ HRs Ht) as (R & HR & Hwp).
  destruct (Hwp x) as (R' & Ho & Hwp').
  destruct (concat_insert Rs i R R' HR) as [HP1 HP2].
  exists (<[i:=R']> Rs). simpl. split; [by apply Forall2_insert|]. split.
  { eapply balanced_perm; [symmetry; exact HP2|]. eapply act_balanced; [done|done|].
    by eapply balanced_perm. }
  assert (Hold : forall j S, Rs !! j = Some S -> Forall (vouched (modes sys)
    (fun f => (j, f) ∈ (pair i <$> delivered a x) ++ heard sys)) S).
  { intros j S HS. eapply Forall_impl; [by apply Hv|]. intros t. apply vouched_mono; [done|]. set_solver. }
  intros j S [(<- & <- & _)|[_ HS]]%list_lookup_insert_Some; [|by apply Hold].
  eapply act_vouched; [exact Ha|exact Ho|by eapply bal_mode| |by apply Hold].
  intros f Hf. apply elem_of_app. left. apply list_elem_of_fmap. by exists f.
Qed.

Lemma step_inv c (sys sys' : System P) : step c sys sys' -> sys_inv sys -> sys_inv sys'.
Proof.
  intros Hs Hinv. destruct Hs.
  - by apply act_inv.
  - apply spawn_inv; [done|apply wp_handle_incoming].
  - apply spawn_inv; [done|apply wp_tcp_reality_task].
  - apply spawn_inv; [done|apply wp_handle_ws_connection].
  - destruct Hinv as (Rs & HRs & Hb & Hv). exists Rs. split; [done|]. simpl. split; [|done].
    destruct Hb as [Hc Hs Hu Hn Hp Hw Hr Hm].
    destruct (route_ok now ip p _ Hw) as (b' & r2 & E & Hw' & Hro & _).
    rewrite H3 in E. injection E as <- <-. destruct (st sys); simpl in *.
    split; simpl; try done. intros ip' q. rewrite Hro. apply Hr.
  - destruct Hinv as (Rs & HRs & Hb & Hv). exists Rs. split; [done|]. simpl. split.
    + destruct Hb as [Hc Hs Hu Hn Hp Hw Hr Hm]. destruct (st sys); simpl in *. split; simpl; try done. by left.
    + intros i R HR. eapply Forall_impl; [by apply Hv|]. intros t. apply vouched_mono; [set_solver|done].
Qed.

Lemma boot_inv (s : ServerState P) : initial s -> sys_inv (boot s).
Proof.
  intros (Hc & Hs & Hu & Hp & Hr). exists []. split; [constructor|]. split; [|done]. simpl.
  split; simpl; try done.
  - intros u. unfold gauge. rewrite Hu, lookup_empty. done.
  - constructor.
  - rewrite Hr. apply router_new_wf.
  - intros ip q. rewrite Hr. cbn. by rewrite lookup_empty.
  - by left.
Qed.

Lemma reachable_inv c (s : ServerState P) sys :
  initial s -> rtc (step c) (boot s) sys -> sys_inv sys.
Proof.
  intros Hi Hs. revert Hs. apply (rtc_ind_r (fun sys => sys_inv sys)); [by apply boot_inv|].
  intros y z _ Hyz Hy. by eapply step_inv.
Qed.
End balance.

(** ** Running the server

    A schedule names, step by step, a new connection, or a handler with what its
    connection answers. *)

Inductive Answer := AnsFlag (b : bool) | AnsBytes (o : option bytes) | AnsAlpn (o : option bytes) | AnsNone.

Section exec.
Context `{Hmac, HashIter} {P : Type} `{Allocator P}.

Definition flag (r : Answer) : bool := match r with AnsFlag b => b | _ => false end.
Definition octs (r : Answer) : option bytes := match r with AnsBytes o => o | _ => None end.
Definition alpn (r : Answer) : option (option bytes) :=
  match r with AnsAlpn o => Some o | _ => None end.

Definition exec {X} (a : action X) (s : ServerState P) (r : Answer) : X * ServerState P :=
  match a in action X return X * ServerState P with
  | FetchAddConn => (tt, set_conn (wrap32 (active_connections s + 1)) s)
  | FetchSubConn => (tt, set_conn (wrap32 (active_connections s - 1)) s)
  | IncHandshakesTotal =>
      (tt, set_handshakes (wrap64 (handshakes_total s + 1)) (handshakes_failed s) s)
  | IncHandshakesFailed =>
      (tt, set_handshakes (handshakes_total s) (wrap64 (handshakes_failed s + 1)) s)
  | SessionsInc => (tt, set_sessions (active_sessions s + 1) s)
  | SessionsDec => (tt, set_sessions (active_sessions s - 1) s)
  | UserInc u => (tt, set_by_user (<[u:=gauge s u + 1]> (sessions_by_user s)) s)
  | UserDec u => (tt, set_by_user (<[u:=gauge s u - 1]> (sessions_by_user s)) s)
  | VerifyAuth snap nonce mac => (auth_mode_verify (default (auth s) snap) nonce mac, s)
  | SnapshotAuth => (auth s, s)
  | PoolAllocate => let '(x, p') := alloc (ip_pool s) in (x, set_pool p' s)
  | PoolRelease ip => (tt, set_pool (free ip (ip_pool s)) s)
  | RouterRegister ip buffer =>
      let '(_, q, rt) := register ip buffer (srv_router s) in (q, set_router rt s)
  | HandleDrop ip => (tt, set_router (handle_drop ip (srv_router s)) s)
  | ReadExact n _ =>
      (match octs r with Some b => if decide (length b = n) then Some b else None | None => None end, s)
  | Handshake => (alpn r, s)
  | AcceptBi _ => (flag r, s)
  | NextBinary => (octs r, s)
  | WriteAll _ => (flag r, s)
  | CloseConn _ => (tt, s)
  | ServeDecoy => (tt, s)
  | ConnectTarget => (flag r, s)
  | WriteTarget _ => (flag r, s)
  | ProxyBidirectional => (tt, s)
  | RunTunnel _ _ _ => (tt, s)
  end.

Lemma exec_act {X} (a : action X) s r : act a s (exec a s r).1 (exec a s r).2.
Proof.
  destruct a; cbn [exec act fst snd]; try done.
  - destruct (alloc (ip_pool s)) as [x p']. by exists p'.
  - split; [done|]. destruct (octs r); [|done]. by case_decide.
Qed.

Inductive Event := NewQuic | NewTcp | NewWs | Move (i : nat) (r : Answer).

Definition exec_event (c : ServerConsts) (e : Event) (sys : System P) : option (System P) :=
  match e with
  | NewQuic =>
      if active_connections (st sys) <? max_connections (st sys)
      then Some (mkSystem (st sys) (threads sys ++ [handle_incoming c]) (modes sys) (heard sys)) else None
  | NewTcp => Some (mkSystem (st sys) (threads sys ++ [tcp_reality_task c]) (modes sys) (heard sys))
  | NewWs => Some (mkSystem (st sys) (threads sys ++ [handle_ws_connection c]) (modes sys) (heard sys))
  | Move i r =>
      match threads sys !! i with
      | Some (Do a k) =>
          let '(x, s') := exec a (st sys) r in
          Some (mkSystem s' (<[i:=k x]> (threads sys)) (modes sys) ((pair i <$> delivered a x) ++ heard sys))
      | _ => None
      end
  end.

Definition run (c : ServerConsts) (es : list Event) (sys : System P) : option (System P) :=
  foldl (fun o e => sys ← o; exec_event c e sys) (Some sys) es.

Lemma exec_event_step c e sys sys' : exec_event c e sys = Some sys' -> step c sys sys'.
Proof.
  destruct e as [| | |i r]; simpl.
  - split_if; intros; simplify_eq. by apply step_accept.
  - intros [= <-]. apply step_accept_tcp.
  - intros [= <-]. apply step_accept_ws.
  - destruct (threads sys !! i) as [[|X a k]|] eqn:E; try done.
    pose proof (exec_act a (st sys) r) as Ha. destruct (exec a (st sys) r) as [x s'].
    intros [= <-]. by eapply step_act.
Qed.

Lemma run_reachable c es : forall sys sys', run c es sys = Some sys' -> rtc (step c) sys sys'.
Proof.
  unfold run. induction es as [|e es IH] using rev_ind; intros sys sys'; simpl.
  { by intros [= <-]. }
  rewrite foldl_snoc. destruct (foldl _ _ es) as [sys1|] eqn:E; [|done]. simpl. intros Hs.
  eapply rtc_r; [by apply IH|]. by eapply exec_event_step.
Qed.

Lemma run_some c es sys :
  match run c es sys with Some _ => true | None => false end = true ->
  exists sys', run c es sys = Some sys'.
Proof. destruct (run c es sys); [by eexists|done]. Qed.
End exec.

(** A server on 10.0.1.0/24. *)
#[local] Instance sv_hmac : Hmac := fun key msg => take 32 (key ++ msg ++ replicate 32 x00).
#[local] Instance sv_iter : HashIter := map_to_list.
#[local] Instance sv_iter_ok : HashIterOk.
Proof. intros m. reflexivity. Qed.

Definition ex_consts : ServerConsts := mkConsts 1200 (ip4 10 0 1 1) (ip4 10 0 1 1) false.
Definition ex_server : ServerState IpPool :=
  mkServer (SinglePsk (mkPsk [])) ex_pool 0 2 1200 (ip4 10 0 1 1) (ip4 10 0 1 1) false router_new
    0 ∅ 0 0.

Lemma ex_server_initial : initial ex_server.
Proof. repeat split. Defined.

(** The address a handler is running a tunnel for. *)
Definition tunnel_of (p : prog unit) : option Ipv4Addr :=
  match p with
  | Do a _ => match a with RunTunnel _ ip _ => Some ip | _ => None end
  | Ret _ => None
  end.

(** The user whose session a handler ends next, after its tunnel and the releases. *)
Fixpoint session_user (p : prog unit) : option bytes :=
  match p with
  | Ret _ => None
  | Do a k =>
      match a in action X return (X -> option bytes) -> option bytes with
      | UserDec u => fun _ => Some u
      | SessionsDec => fun next => next tt
      | PoolRelease _ => fun next => next tt
      | HandleDrop _ => fun next => next tt
      | RunTunnel _ _ _ => fun next => next tt
      | _ => fun _ => None
      end (fun x => session_user (k x))
  end.

Definition finished (p : prog unit) : Prop := match p with Ret _ => True | Do _ _ => False end.

Lemma tunnel_tokens p R ip : leaves_nothing p R -> tunnel_of p = Some ip -> TIp ip ∈ R.
Proof.
  unfold leaves_nothing. destruct p as [|X a k]; [done|]. simpl. intros Hwp Ht.
  destruct a; simplify_eq. destruct (Hwp tt) as (R' & (Hip & _) & _). done.
Qed.

(** Every tunnel runs inside a session. *)
Fixpoint in_session (p : prog unit) : Prop :=
  match p with
  | Ret _ => True
  | Do a k => (tunnel_of (Do a k) <> None -> session_user (Do a k) <> None) /\
              forall x, in_session (k x)
  end.

Lemma in_session_handlers c :
  in_session (handle_incoming c) /\ in_session (tcp_reality_task c) /\
  in_session (handle_ws_connection c).
Proof.
  unfold handle_incoming, handle_vpn, handle_vpn_h3, vpn_session, tcp_reality_task,
    handle_tcp_connection, proxy_with_initial_data, handle_ws_connection.
  repeat match goal with
    | |- _ /\ _ => split
    | |- True => exact I
    | |- forall _, _ => intros ?
    | |- context [match ?x with _ => _ end] => is_var x; destruct x
    | |- context [decide ?P] => destruct (decide P)
    | |- context [decode_auth ?b] => destruct (decode_auth b)
    | |- context [c_decoy ?c] => destruct (c_decoy c)
    | _ => progress cbn
    | _ => done
    end.
Qed.

Lemma in_session_reachable `{Hmac, HashIter} {P} `{Allocator P} c (s : ServerState P) sys :
  rtc (step c) (boot s) sys -> Forall in_session (threads sys).
Proof.
  apply (rtc_ind_r (fun sys => Forall in_session (threads sys))); [constructor|].
  destruct (in_session_handlers c) as (Hi & Ht & Hw).
  intros y z _ Hyz Hy. destruct Hyz; simpl in *; try done; try (by apply Forall_app_2; [|constructor]).
  apply Forall_insert; [done|]. rewrite Forall_lookup in Hy. by apply (Hy _ _ H2).
Qed.

Lemma session_user_token p Q : forall R u,
  wp p Q R -> session_user p = Some u -> TUser u ∈ R.
Proof.
  induction p as [|X a k IH]; intros R u Hwp Hu; [done|].
  destruct a; try done; simpl in *; destruct (Hwp tt) as (R' & Ho & Hk); cbn [owns] in Ho.
  - rewrite Ho. right. by eapply IH.
  - simplify_eq. rewrite Ho. by left.
  - rewrite Ho. right. by eapply IH.
  - rewrite Ho. right. by eapply IH.
  - destruct Ho as (_ & _ & ->). by eapply IH.
Qed.

Lemma settled_concat ps Rs : Forall finished ps -> Forall2 leaves_nothing ps Rs -> settled (concat Rs).
Proof.
  intros Hf H2. induction H2 as [|p R ps Rs Hp _ IH]; [constructor|]. simpl.
  apply Forall_cons in Hf as [Hfp Hf]. apply Forall_app. split; [|by apply IH].
  destruct p; [exact Hp|done].
Qed.

Lemma settled_omap {B} (f : token -> option B) L :
  settled L -> (forall t, known t = true -> f t = None) -> omap f L = [].
Proof.
  intros HL Hf. induction HL as [|t L Ht _ IH]; [done|].
  change (omap f (t :: L)) with (match f t with Some y => y :: omap f L | None => omap f L end).
  by rewrite Hf, IH.
Qed.

Lemma user_sessions_pos u L : TUser u ∈ L -> 1 <= zlen (user_sessions u L).
Proof.
  intros Hin. assert (tt ∈ user_sessions u L) as Ht.
  { unfold user_sessions. apply list_elem_of_omap. exists (TUser u). by rewrite decide_True. }
  destruct (user_sessions u L); [by apply elem_of_nil in Ht|]. rewrite zlen_cons.
  pose proof (zlen_nonneg l). lia.
Qed.

(** ** Proof of identity *)

(** A table gives key [k] to user [u]; with a single key everybody is [default]. *)
Definition key_of (m : AuthMode) (u k : bytes) : Prop :=
  match m with
  | SinglePsk a => u = str "default" /\ k = psk a
  | MultiUser s => users s !! k = Some u
  end.

(** On the wire: the type, 32 octets of nonce, 32 octets of tag and the version. *)
Definition genuine `{Hmac} (m : AuthMode) (frame u : bytes) : Prop :=
  exists k nonce version rest, key_of m u k /\ length nonce = 32%nat /\
    frame = MSG_CLIENT_AUTH :: nonce ++ hmac_sha256 k nonce ++ version :: rest.

Lemma verified_genuine `{Hmac, HashIterOk} m f a u :
  decode_auth f = Some a -> auth_mode_verify m (nonce a) (mac a) = Some u -> genuine m f u.
Proof.
  unfold decode_auth. destruct (ClientAuth_decode f) as [r|] eqn:E; [|done]. intros ->.
  apply ClientAuth_decode_frame in E as (rest & -> & Hn). intros Hv.
  assert (Hk : exists k, key_of m u k /\ hmac_sha256 k (nonce a) = mac a).
  { destruct m as [p|t]; simpl in Hv.
    - unfold verify, verify_slice in Hv. case_bool_decide as Hh; [|done]. injection Hv as <-. by exists (psk p).
    - destruct (trial_sound _ _ _ _ Hv) as (k & Hin & Hh). exists k. split; [by apply iter_in|done]. }
  destruct Hk as (k & Hk & Hh). exists k, (nonce a), (version a), rest. by rewrite Hh.
Qed.

(** ** Theorems *)

(** [C1] The server leaks nothing. In every interleaving of any number of QUIC, HTTP/3,
    TCP Reality and WebSocket handlers, packet routing and table reloads, whatever the
    peers do: when all handlers have returned, the connection counter and every
    session gauge are back at zero, every address is back in the pool, and the router
    has no route left. *)
Theorem server_releases_everything `{Hmac, HashIter} {P} `{AllocatorOk P} c (s : ServerState P) sys :
  initial s -> rtc (step c) (boot s) sys -> Forall finished (threads sys) ->
  active_connections (st sys) = 0 /\ active_sessions (st sys) = 0 /\
  (forall u, gauge (st sys) u = 0) /\ held (ip_pool (st sys)) = ∅ /\
  routes (srv_router (st sys)) = ∅.
Proof.
  intros Hi Hs Hf. destruct (reachable_inv c s sys Hi Hs) as (Rs & HRs & Hb & _).
  pose proof (settled_concat _ _ Hf HRs) as HL. set (L := concat Rs) in *.
  destruct Hb as [Hc Hse Hu Hn Hp Hw Hr _].
  assert (Hz : forall B (f : token -> option B), (forall t, known t = true -> f t = None) ->
    omap f L = []) by (intros; by apply settled_omap).
  split; [|split; [|split; [|split]]].
  - rewrite Hc. unfold conns. by rewrite Hz by (by intros []).
  - rewrite Hse. unfold sessions. by rewrite Hz by (by intros []).
  - intros u. rewrite Hu. unfold user_sessions. by rewrite Hz by (by intros []).
  - rewrite Hp. unfold addresses. by rewrite Hz by (by intros []).
  - apply map_eq. intros ip. rewrite lookup_empty.
    destruct (routes (srv_router (st sys)) !! ip) as [q|] eqn:E; [|done].
    apply Hr in E. unfold settled in HL. rewrite Forall_forall in HL. by apply HL in E.
Qed.

(** A QUIC client that authenticates and gets to its tunnel, as handler [i]. *)
Definition ex_auth_msg : bytes :=
  MSG_CLIENT_AUTH :: replicate 32 x07 ++ replicate 32 x07 ++ [x01].
Definition connect_to_tunnel (i : nat) : list Event :=
  [NewQuic; Move i (AnsAlpn (Some ALPN_VPN)); Move i AnsNone; Move i (AnsFlag true);
   Move i (AnsBytes (Some ex_auth_msg)); Move i AnsNone; Move i AnsNone; Move i AnsNone;
   Move i AnsNone; Move i AnsNone; Move i AnsNone; Move i (AnsFlag true)].

(** That client disconnects, and a WebSocket client fails its handshake. *)
Definition ex_visit : list Event :=
  connect_to_tunnel 0 ++ replicate 6 (Move 0 AnsNone) ++ [NewWs; Move 1 AnsNone].

Definition all_finished (sys : System IpPool) : bool :=
  forallb (fun p => match p with Ret _ => true | Do _ _ => false end) (threads sys).

Lemma all_finished_spec sys : all_finished sys = true -> Forall finished (threads sys).
Proof.
  unfold all_finished. intros Hf. apply Forall_forall. intros p Hp.
  apply (forallb_forall _ _) with (x := p) in Hf; [by destruct p|by apply list_elem_of_In].
Qed.

Lemma server_releases_everything_witness :
  exists sys, run ex_consts ex_visit (boot ex_server) = Some sys /\
    length (threads sys) = 2%nat /\ held (ip_pool (st sys)) = ∅.
Proof.
  destruct (run_some ex_consts ex_visit (boot ex_server)) as [sys E]; [vm_compute; reflexivity|].
  assert (Hf : all_finished sys && Nat.eqb (length (threads sys)) 2 = true).
  { cut (default false ((fun sys => all_finished sys && Nat.eqb (length (threads sys)) 2) <$>
           run ex_consts ex_visit (boot ex_server)) = true); [rewrite E; exact (fun H => H)|].
    vm_compute. reflexivity. }
  apply andb_prop in Hf as [Hf Hl]. exists sys. split; [exact E|].
  split; [apply Nat.eqb_eq; exact Hl|].
  apply (server_releases_everything ex_consts ex_server sys ex_server_initial
    (run_reachable _ _ _ _ E) (all_finished_spec _ Hf)).
Defined.

(** [C2] Addresses are exclusive, and tunnels authenticated. In every reachable state,
    two handlers that run a tunnel have different addresses, a tunnel's address is
    marked in the pool, every route in the router belongs to a running handler, the
    gauges are never negative, and a tunnel runs only inside a session that is counted
    for the user it ends for. The handler of that tunnel has itself read from its
    connection a message that proves who the user is: an authentication message whose
    tag is the HMAC of its nonce under the key that some table in force until then gives
    to this user. *)
Theorem tunnels_exclusive_and_authenticated `{Hmac, HashIterOk} {P} `{AllocatorOk P}
    c (s : ServerState P) sys :
  initial s -> rtc (step c) (boot s) sys ->
  (forall i j p q ip, threads sys !! i = Some p -> threads sys !! j = Some q ->
     tunnel_of p = Some ip -> tunnel_of q = Some ip -> i = j) /\
  (forall i p ip, threads sys !! i = Some p -> tunnel_of p = Some ip ->
     ip ∈ held (ip_pool (st sys)) /\
     exists u, session_user p = Some u /\ 1 <= gauge (st sys) u /\
       exists m frame, m ∈ modes sys /\ (i, frame) ∈ heard sys /\ genuine m frame u) /\
  (routes (srv_router (st sys)) <> ∅ -> ~ Forall finished (threads sys)) /\
  0 <= active_sessions (st sys) /\ (forall u, 0 <= gauge (st sys) u).
Proof.
  intros Hi Hs. destruct (reachable_inv c s sys Hi Hs) as (Rs & HRs & Hb & Hv).
  pose proof Hb as [Hc Hse Hu Hn Hp Hw Hr _].
  split; [|split; [|split; [|split]]].
  - intros i j p q ip Hpi Hqj Hti Htj.
    destruct (Forall2_lookup_l _ _ _ _ _ HRs Hpi) as (R & HR & Hwp).
    destruct (Forall2_lookup_l _ _ _ _ _ HRs Hqj) as (R' & HR' & Hwq).
    pose proof (tunnel_tokens _ _ _ Hwp Hti) as Hip. pose proof (tunnel_tokens _ _ _ Hwq Htj) as Hiq.
    destruct (decide (i = j)) as [|Hne]; [done|]. exfalso.
    destruct (concat_insert Rs i R R HR) as [HP _].
    unfold addresses in Hn. rewrite HP, omap_app in Hn. apply NoDup_app in Hn as (_ & Hdis & _).
    apply (Hdis ip); [by apply addresses_elem|]. apply addresses_elem.
    apply list_elem_of_In, in_concat. exists R'. split; [|by apply list_elem_of_In].
    apply list_elem_of_In. rewrite delete_take_drop. apply elem_of_app.
    destruct (decide (j < i)%nat) as [Hlt|Hge].
    + left. apply list_elem_of_lookup. exists j. by rewrite lookup_take_lt.
    + right. apply list_elem_of_lookup. exists (j - S i)%nat. rewrite lookup_drop.
      by replace (S i + (j - S i))%nat with j by lia.
  - intros i p ip Hpi Hti. destruct (Forall2_lookup_l _ _ _ _ _ HRs Hpi) as (R & HR & Hwp).
    pose proof (tunnel_tokens _ _ _ Hwp Hti) as Hip.
    assert (Hin : forall t, t ∈ R -> t ∈ concat Rs).
    { intros t Ht. destruct (concat_insert Rs i R R HR) as [HP _]. rewrite HP. set_solver. }
    split; [rewrite Hp; apply elem_of_list_to_set, addresses_elem; by apply Hin|].
    pose proof (in_session_reachable c s sys Hs) as Hin'. rewrite Forall_lookup in Hin'.
    destruct (session_user p) as [u|] eqn:Eu.
    + pose proof (session_user_token _ _ _ _ Hwp Eu) as Hau. exists u. split; [done|].
      split; [rewrite Hu; apply user_sessions_pos, Hin, Hau|].
      pose proof (proj1 (Forall_forall _ _) (Hv i R HR) _ Hau) as (m & f & a & Hm & Hf & Hd & Hver).
      exists m, f. split; [done|]. split; [done|]. by eapply verified_genuine.
    + specialize (Hin' _ _ Hpi). destruct p as [|X a k]; [done|].
      destruct Hin' as [Hin' _]. exfalso. apply Hin'; [by rewrite Hti|done].
  - intros Hne Hf. apply Hne. apply map_eq. intros ip. rewrite lookup_empty.
    destruct (routes (srv_router (st sys)) !! ip) as [q|] eqn:E; [|done].
    apply Hr in E. pose proof (settled_concat _ _ Hf HRs) as HL.
    unfold settled in HL. rewrite Forall_forall in HL. by apply HL in E.
  - rewrite Hse. apply zlen_nonneg.
  - intros u. rewrite Hu. apply zlen_nonneg.
Qed.

(** Two clients in their tunnels at the same time. *)
Lemma tunnels_exclusive_and_authenticated_witness :
  exists sys, rtc (step ex_consts) (boot ex_server) sys /\
    run ex_consts (connect_to_tunnel 0 ++ connect_to_tunnel 1) (boot ex_server) = Some sys /\
    0 <= active_sessions (st sys).
Proof.
  destruct (run_some ex_consts (connect_to_tunnel 0 ++ connect_to_tunnel 1) (boot ex_server))
    as [sys E]; [vm_compute; reflexivity|].
  pose proof (run_reachable _ _ _ _ E) as Hs. exists sys. split; [exact Hs|]. split; [exact E|].
  apply (tunnels_exclusive_and_authenticated ex_consts ex_server sys ex_server_initial Hs).
Defined.

(** Two QUIC clients: the first one leaves and has released its address, but not yet
    dropped its handle, when the second one comes, is given the same address and
    starts its tunnel; then the first handle is dropped. *)
Definition race_schedule : list Event :=
  connect_to_tunnel 0 ++ [Move 0 AnsNone; Move 0 AnsNone] ++
  connect_to_tunnel 1 ++ [Move 0 AnsNone].

Definition in_tunnel_without_route (i : nat) (ip : Ipv4Addr) (sys : System IpPool) : bool :=
  bool_decide ((threads sys !! i) ≫= tunnel_of = Some ip) &&
  bool_decide (routes (srv_router (st sys)) !! ip = None).

(** [C24] Releasing an address before its route is dropped loses the route of the next
    client. There is a run of the server, from its initial state, that ends with a
    client in its tunnel, on an address assigned to it, for which the router has no
    route: no packet from the TUN device reaches that client any more. *)
Theorem release_before_unregister_race :
  exists sys, rtc (step ex_consts) (boot ex_server) sys /\
    (threads sys !! 1%nat) ≫= tunnel_of = Some (ip4 10 0 1 2) /\
    ip4 10 0 1 2 ∈ held (ip_pool (st sys)) /\
    routes (srv_router (st sys)) !! ip4 10 0 1 2 = None.
Proof.
  destruct (run_some ex_consts race_schedule (boot ex_server)) as [sys E];
    [vm_compute; reflexivity|].
  pose proof (run_reachable _ _ _ _ E) as Hs. exists sys. split; [exact Hs|].
  assert (Hb : in_tunnel_without_route 1 (ip4 10 0 1 2) sys = true).
  { cut (default false (in_tunnel_without_route 1 (ip4 10 0 1 2) <$>
           run ex_consts race_schedule (boot ex_server)) = true); [by rewrite E|].
    vm_compute. reflexivity. }
  unfold in_tunnel_without_route in Hb. boolify. split; [done|]. split; [|done].
  destruct (reachable_inv _ _ _ ex_server_initial Hs) as (Rs & HRs & Hbal & _).
  destruct (threads sys !! 1%nat) as [p|] eqn:Ep; [|done]. simpl in *.
  destruct (Forall2_lookup_l _ _ _ _ _ HRs Ep) as (R & HR & Hwp).
  pose proof (tunnel_tokens _ _ _ Hwp H) as Hip.
  pose proof (bal_pool _ _ _ Hbal) as Hpool. unfold held, pool_allocator in *. rewrite Hpool.
  apply elem_of_list_to_set, addresses_elem. destruct (concat_insert Rs 1 R R HR) as [HP _].
  rewrite HP. apply elem_of_app. by left.
Qed.
