(* ===== verification/F64.v ===== *)
(** Double-precision arithmetic as the sources use it, on the specification floats
    of the standard library: conversion from integers, the four operations, the
    comparison, and [x as u64]. *)

From S2P Require Import Prelude.
From Stdlib.Floats Require Import SpecFloat.

Abbreviation f64 := spec_float.

Definition f64_prec : Z := 53.
Definition f64_emax : Z := 1024.

(** [n as f64], rounded to nearest, ties to even. *)
Definition f64_of_Z (n : Z) : f64 := binary_normalize f64_prec f64_emax n 0 false.

Definition f64_add : f64 -> f64 -> f64 := SFadd f64_prec f64_emax.
Definition f64_mul : f64 -> f64 -> f64 := SFmul f64_prec f64_emax.
Definition f64_div : f64 -> f64 -> f64 := SFdiv f64_prec f64_emax.
Definition f64_gtb (x y : f64) : bool := SFltb y x.

(** [x as u64]: truncation towards zero, saturating; NaN gives 0. *)
Definition f64_to_u64 (x : f64) : Z :=
  match x with
  | S754_zero _ | S754_nan => 0
  | S754_infinity s => if s then 0 else u64_max
  | S754_finite s m e =>
      if s then 0
      else Z.min u64_max (if 0 <=? e then Z.shiftl (Zpos m) e else Z.shiftr (Zpos m) (- e))
  end.

(** [Duration::as_secs_f64], a duration being nanoseconds. *)
Definition as_secs_f64 (nanos : Z) : f64 :=
  f64_add (f64_of_Z (nanos / 1000000000))
    (f64_div (f64_of_Z (nanos mod 1000000000)) (f64_of_Z 1000000000)).

(** The literals [0.2], [3.0] and [1000.0]. *)
Definition f64_0_2 : f64 := S754_finite false 7205759403792794 (-55).
Definition f64_3 : f64 := f64_of_Z 3.
Definition f64_1000 : f64 := f64_of_Z 1000.
