(* ===== verification/Client.v ===== *)
(** The client ([client.rs]): reconnection delays, the connection loop with its
    routes, DNS and kill-switch, and the stream of [SessionUpdate] messages.

    Commands that change the system (routes, DNS, firewall) are the environment's;
    the model keeps what they leave behind, [Os], beside the client's own variables. *)

From S2P Require Import Prelude F64 Datagram Batch Control.

(** ** [reconnect_delay] *)

(** Durations in milliseconds. *)
Definition RECONNECT_MIN_DELAY : Z := 1000.
Definition RECONNECT_MAX_DELAY : Z := 30000.
Definition u32_max : Z := 2 ^ 32 - 1.
(** [Duration::MAX] *)
Definition duration_max_ms : Z := u64_max * 1000 + 999.

(** [base.min(MAX).as_millis()]; the multiplication and the power saturate. *)
Definition capped_delay (attempt : Z) : Z :=
  let pow := Z.min u32_max (2 ^ sat_sub attempt 1) in
  let base := Z.min duration_max_ms (RECONNECT_MIN_DELAY * pow) in
  Z.min base RECONNECT_MAX_DELAY.

(** [random] is the [u64] the generator gives. *)
Definition reconnect_delay (attempt random : Z) : Z :=
  let millis := wrap64 (capped_delay attempt) in
  let jitter := f64_to_u64 (f64_mul (f64_of_Z millis) f64_0_2) in
  wrap64 (millis + random mod (jitter * 2 + 1) - jitter).

(** ** The connection loop *)

Inductive Signal := SIGINT | SIGTERM | SIGHUP.

(** What the client has changed on the machine. *)
Record Os := mkOs { os_routes : bool; os_dns : bool; os_killswitch : bool }.

Record ClientState := mkClient {
  routes_configured : bool;
  saved_routes : bool;
  killswitch_enabled : bool;
  attempt : Z;
  connected : bool;
  (** the task that waits in [shutdown_signal] has not fired yet *)
  signal_task : bool;
  os : Os
}.

Definition client_init : ClientState :=
  mkClient false false false 0 false true (mkOs false false false).

(** Where the loop is: racing [shutdown.notified()] against the connection attempt;
    the two backoffs; the tunnel; the cleanup done; left through [?]. *)
Inductive Phase := Connecting | ConnectBackoff | InTunnel | TunnelBackoff | Exited | Failed.

#[export] Instance phase_eq_dec : EqDecision Phase.
Proof. solve_decision. Defined.

Record Cli := mkCli { test_mode : bool; server_loopback : bool }.

(** The answers of the setup commands after a successful connection; [routes_partial]:
    [setup_client_routes] had changed routes before it failed. *)
Record Setup := mkSetup {
  interface_ok : bool; gateway_ok : bool; routes_ok : bool; routes_partial : bool;
  dns_ok : bool; killswitch_ok : bool
}.

Inductive Input :=
  | Signalled (s : Signal)
  | ConnectOk (e : Setup)
  | ConnectFailed
  | TunnelLost
  | HealthReconnect
  | DelayElapsed.

Definition set_os (o : Os) (c : ClientState) : ClientState :=
  mkClient (routes_configured c) (saved_routes c) (killswitch_enabled c) (attempt c) (connected c)
    (signal_task c) o.
Definition set_attempt (n : Z) (conn : bool) (c : ClientState) : ClientState :=
  mkClient (routes_configured c) (saved_routes c) (killswitch_enabled c) n conn (signal_task c) (os c).

(** After the loop: kill-switch off, DNS and routes restored. *)
Definition cleanup (c : ClientState) : ClientState :=
  let o := os c in
  let o := if killswitch_enabled c then mkOs (os_routes o) (os_dns o) false else o in
  let o := if saved_routes c then mkOs false false (os_killswitch o) else o in
  set_os o c.

(** The body of the [Ok] branch: interface, routes, DNS, kill-switch. [false]: an
    error was returned with [?]. *)
Definition on_connected (cli : Cli) (e : Setup) (c : ClientState) : bool * ClientState :=
  let c := set_attempt 0 true c in
  if negb (interface_ok e) then (false, c)
  else if negb (test_mode cli) && negb (routes_configured c) then
    if server_loopback cli then (true, c)
    else if negb (gateway_ok e) then (false, c)
    else if negb (routes_ok e)
    then (false, set_os (mkOs (os_routes (os c) || routes_partial e) (os_dns (os c))
                           (os_killswitch (os c))) c)
    else
      let c := set_os (mkOs true (os_dns (os c)) (os_killswitch (os c))) c in
      if negb (dns_ok e) then (false, c)
      else
        let c := mkClient true true (killswitch_enabled c) (attempt c) (connected c) (signal_task c)
                   (mkOs true true (os_killswitch (os c))) in
        if negb (killswitch_ok e) then (false, c)
        else (true, mkClient true true true (attempt c) (connected c) (signal_task c)
                      (mkOs true true true))
  else (true, c).

(** A signal reaches [shutdown.notified()] only through the signal task, which fires
    once and wakes the waiters of that moment ([notify_waiters] stores nothing). *)
Definition on_signal (p : Phase) (s : Signal) (c : ClientState) : Phase * ClientState :=
  let fired := signal_task c in
  let c' := mkClient (routes_configured c) (saved_routes c) (killswitch_enabled c) (attempt c)
              (connected c) false (os c) in
  match p with
  | Connecting | InTunnel | TunnelBackoff =>
      if fired then (Exited, cleanup c') else (p, c')
  | ConnectBackoff =>
      match s with
      | SIGINT => (Exited, cleanup c')
      | SIGTERM | SIGHUP => (ConnectBackoff, c')
      end
  | Exited | Failed => (p, c)
  end.

(** One event of the loop; events that cannot happen in a phase leave it alone. *)
Definition client_step (cli : Cli) (i : Input) (pc : Phase * ClientState) : Phase * ClientState :=
  let '(p, c) := pc in
  match p, i with
  | Exited, _ | Failed, _ => (p, c)
  | _, Signalled s => on_signal p s c
  | Connecting, ConnectOk e =>
      let '(ok, c) := on_connected cli e c in
      if ok then (InTunnel, c) else (Failed, c)
  | Connecting, ConnectFailed => (ConnectBackoff, set_attempt (wrap32 (attempt c + 1)) false c)
  | ConnectBackoff, DelayElapsed => (Connecting, c)
  | InTunnel, HealthReconnect => (Connecting, set_attempt 0 false c)
  | InTunnel, TunnelLost => (TunnelBackoff, set_attempt (wrap32 (attempt c + 1)) false c)
  | TunnelBackoff, DelayElapsed => (Connecting, c)
  | _, _ => (p, c)
  end.

Definition client_run (cli : Cli) (inputs : list Input) : Phase * ClientState :=
  foldl (fun pc i => client_step cli i pc) (Connecting, client_init) inputs.

(** ** [SessionUpdate] messages *)

(** [read_session_updates] on the octets of the control stream: the MTU values handed
    to [ip link set], in order. A message that does not decode is skipped. *)
Fixpoint read_session_updates (fuel : nat) (inp : bytes) : panics (list Z) :=
  match fuel with
  | O => None
  | S fuel =>
      match inp with
      | a :: b :: c :: rest =>
          u ← SessionUpdate_decode [a; b; c];
          mtus ← read_session_updates fuel rest;
          Some (match u with Some u => new_mtu u :: mtus | None => mtus end)
      | _ => Some []
      end
  end.

(** [run_pmtu_monitor] of [server.rs]: from the path MTU seen at every tick to the
    octets written; [last] is the value last announced. *)
Fixpoint run_pmtu_monitor (last : Z) (mtus : list Z) : panics bytes :=
  match mtus with
  | [] => Some []
  | current :: mtus =>
      let delta := Z.abs (current - last) in
      if 50 <? delta then
        w ← SessionUpdate_encode (mkSessionUpdate current);
        rest ← run_pmtu_monitor current mtus;
        Some (w ++ rest)
      else run_pmtu_monitor last mtus
  end.

(** ** Delays *)

Definition delays : list Z := [1000; 2000; 4000; 8000; 16000; 30000].

Lemma capped_delay_spec a :
  0 <= a -> capped_delay a = Z.min (1000 * 2 ^ sat_sub a 1) 30000.
Proof.
  intros Ha. unfold capped_delay, RECONNECT_MIN_DELAY, RECONNECT_MAX_DELAY, duration_max_ms, u64_max.
  assert (0 < 2 ^ sat_sub a 1) by (apply Z.pow_pos_nonneg; unfold sat_sub; lia).
  unfold u32_max. lia.
Qed.

Lemma capped_delay_in a : 0 <= a -> capped_delay a ∈ delays.
Proof.
  intros Ha. rewrite capped_delay_spec by done.
  destruct (decide (sat_sub a 1 < 5)) as [Hs|Hs].
  - assert (sat_sub a 1 ∈ seqZ 0 5) as Hin by (apply elem_of_seqZ; unfold sat_sub in *; lia).
    revert Hin. generalize (sat_sub a 1). apply Forall_forall. repeat constructor; vm_compute; set_solver.
  - assert (2 ^ 5 <= 2 ^ sat_sub a 1) by (apply Z.pow_le_mono_r; lia).
    rewrite Z.min_r by lia. set_solver.
Qed.

(** The floating-point jitter of each of the six delays is a fifth of it. *)
Lemma jitter_fifth m : m ∈ delays ->
  0 <= m <= 30000 /\ 5 * f64_to_u64 (f64_mul (f64_of_Z m) f64_0_2) = m.
Proof. revert m. apply Forall_forall. repeat constructor; vm_compute; congruence. Qed.

(** ** Invariant of the loop *)

(** The client's variables say what is changed on the machine, and nothing is changed
    without being recorded. *)
Definition tracked (c : ClientState) : Prop :=
  os_killswitch (os c) = killswitch_enabled c /\
  os_routes (os c) = saved_routes c /\ os_dns (os c) = saved_routes c /\
  routes_configured c = saved_routes c /\
  (killswitch_enabled c = saved_routes c).

Definition loop_inv (cli : Cli) (pc : Phase * ClientState) : Prop :=
  let '(p, c) := pc in
  match p with
  | Exited => os c = mkOs false false false
  | Failed => True
  | InTunnel => tracked c /\ (test_mode cli = false -> server_loopback cli = false ->
      os c = mkOs true true true)
  | _ => tracked c
  end.

Lemma cleanup_clean c : tracked c -> os (cleanup c) = mkOs false false false.
Proof.
  destruct c as [r s k a n t [x y z]]. unfold tracked, cleanup. simpl.
  intros (-> & -> & -> & -> & ->). by destruct s.
Qed.

Lemma client_step_inv cli i pc : loop_inv cli pc -> loop_inv cli (client_step cli i pc).
Proof.
  destruct pc as [p c]. destruct p; try done; destruct i as [s|e| | | |]; try done; simpl.
  - intros Ht. unfold on_signal. destruct (signal_task c); [by apply cleanup_clean|exact Ht].
  - intros Ht. destruct c as [r s k a n t [x y z]]. unfold tracked in Ht. simpl in Ht.
    destruct Ht as (-> & -> & -> & -> & ->). unfold on_connected.
    destruct cli as [tm lb], e as [io go ro rp do ko]; simpl.
    destruct io, tm, s, lb, go, ro, do, ko; simpl; unfold tracked; simpl; naive_solver.
  - intros Ht. unfold on_signal. destruct s; [by apply cleanup_clean|exact Ht|exact Ht].
  - intros [Ht Hos]. unfold on_signal.
    destruct (signal_task c); [by apply cleanup_clean|by split].
  - intros [Ht _]. exact Ht.
  - intros [Ht _]. exact Ht.
  - intros Ht. unfold on_signal. destruct (signal_task c); [by apply cleanup_clean|exact Ht].
Qed.

Lemma client_run_inv cli is0 : loop_inv cli (client_run cli is0).
Proof.
  unfold client_run. induction is0 as [|i is0 IH] using rev_ind; [done|].
  rewrite foldl_snoc. by apply client_step_inv.
Qed.

Lemma client_run_snoc cli is0 i :
  client_run cli (is0 ++ [i]) = client_step cli i (client_run cli is0).
Proof. unfold client_run. by rewrite foldl_snoc. Qed.

Lemma killswitch_step cli i p c p' c' :
  client_step cli i (p, c) = (p', c') -> p <> Exited -> p' <> Exited ->
  tracked c \/ p = Failed ->
  os_killswitch (os c) = true -> os_killswitch (os c') = true.
Proof.
  intros E Hp Hp' Ht Hk. destruct p; try done; destruct i as [s|e| | | |]; simpl in E;
    try (by injection E as <- <-).
  - unfold on_signal in E. destruct (signal_task c); injection E as <- <-; done.
  - destruct Ht as [Ht|]; [|done]. destruct c as [r s k a n t [x y z]]. unfold tracked in Ht. simpl in *.
    subst z. destruct Ht as (<- & -> & -> & -> & <-). unfold on_connected in E.
    destruct (interface_ok e), (test_mode cli); simpl in E; injection E as <- <-; done.
  - unfold on_signal in E. destruct s; injection E as <- <-; done.
  - unfold on_signal in E. destruct (signal_task c); injection E as <- <-; done.
  - unfold on_signal in E. destruct (signal_task c); injection E as <- <-; done.
Qed.

(** ** Session updates *)

(** The values the monitor announces. *)
Fixpoint announced (last : Z) (mtus : list Z) : list Z :=
  match mtus with
  | [] => []
  | m :: mtus => if 50 <? Z.abs (m - last) then m :: announced m mtus else announced last mtus
  end.

(** The last value of a list, [d] if there is none. *)
Definition last_or (d : Z) (l : list Z) : Z := foldl (fun _ x => x) d l.

Lemma update_decode m :
  0 <= m < 65536 -> exists a b c, SessionUpdate_encode (mkSessionUpdate m) = Some [a; b; c] /\
    SessionUpdate_decode [a; b; c] = Some (Some (mkSessionUpdate m)).
Proof.
  intros Hm. destruct (SessionUpdate_roundtrip (mkSessionUpdate m) [] Hm) as (w & Hw & Hl & Hd).
  rewrite app_nil_r in Hd. destruct w as [|a [|b [|c [|]]]]; try done. by exists a, b, c.
Qed.

Lemma pmtu_stream mtus : forall last,
  Forall (fun m => 0 <= m < 65536) mtus ->
  exists w, run_pmtu_monitor last mtus = Some w /\
    forall fuel, (length w < fuel)%nat -> read_session_updates fuel w = Some (announced last mtus).
Proof.
  induction mtus as [|m mtus IH]; intros last Hm; cbn [run_pmtu_monitor announced].
  { exists []. split; [done|]. intros [|fuel] Hf; [simpl in Hf; lia|done]. }
  apply Forall_cons in Hm as [Hm Hms]. split_if; [|by apply IH].
  destruct (update_decode m Hm) as (a & b & c & -> & Hd).
  destruct (IH m Hms) as (w & -> & Hr). cbn [mbind option_bind].
  exists ([a; b; c] ++ w). split; [done|]. intros [|fuel] Hf; [simpl in Hf; lia|].
  cbn [app read_session_updates]. rewrite Hd. cbn [mbind option_bind].
  rewrite Hr by (simpl in Hf; lia). done.
Qed.

Lemma announced_close mtus : forall last d,
  Z.abs (d - last) <= 50 -> Z.abs (last_or d mtus - last_or last (announced last mtus)) <= 50.
Proof.
  induction mtus as [|x mtus IH]; intros last d Hd; [done|].
  cbn [announced last_or foldl]. split_if.
  - apply (IH x x). lia.
  - apply (IH last x). lia.
Qed.

(** ** Theorems *)

(** [C39] The reconnection delay is the capped exponential backoff with a jitter of a
    fifth: for every attempt number and every random draw, computed with the
    source's saturating, wrapping and double-precision arithmetic, it lies between
    80% and 120% of min(2^(attempt-1) s, 30 s); so it is never under 0.8 s nor over
    36 s. *)
Theorem reconnect_delay_bounds a random :
  0 <= a -> 0 <= random ->
  capped_delay a = Z.min (1000 * 2 ^ sat_sub a 1) 30000 /\
  8 * capped_delay a <= 10 * reconnect_delay a random <= 12 * capped_delay a /\
  800 <= reconnect_delay a random <= 36000.
Proof.
  intros Ha Hr. split; [by apply capped_delay_spec|].
  pose proof (capped_delay_in a Ha) as Hin. destruct (jitter_fifth _ Hin) as [Hm Hj].
  assert (1000 <= capped_delay a) by (revert Hin; unfold delays; set_solver by lia).
  unfold reconnect_delay. rewrite (wrap_small 64 (capped_delay a)) by lia.
  set (j := f64_to_u64 _) in *. pose proof (Z.mod_pos_bound random (j * 2 + 1) ltac:(lia)).
  rewrite wrap_small by lia. lia.
Qed.

Lemma reconnect_delay_bounds_witness : 800 <= reconnect_delay 3 12345 <= 36000.
Proof. apply (reconnect_delay_bounds 3 12345); lia. Defined.

(** Leaving through a shutdown signal restores the machine, and the tunnel is
    never unprotected: whatever the sequence of connections, failures, reconnections
    and signals, when the client has exited its loop the routes, the DNS settings and
    the kill-switch are all undone; and whenever a tunnel runs (outside test mode and
    with a remote server) all three are in place. *)
Theorem client_exit_restores_system cli inputs p c :
  client_run cli inputs = (p, c) ->
  (p = Exited -> os c = mkOs false false false) /\
  (p = InTunnel -> test_mode cli = false -> server_loopback cli = false ->
     os c = mkOs true true true).
Proof.
  intros E. pose proof (client_run_inv cli inputs) as Hinv. rewrite E in Hinv.
  split; intros ->; [exact Hinv|]. apply Hinv.
Qed.

Definition ex_cli : Cli := mkCli false false.
Definition ex_setup : Setup := mkSetup true true true false true true.

Lemma client_exit_restores_system_witness :
  exists c, client_run ex_cli [ConnectOk ex_setup; TunnelLost; DelayElapsed; Signalled SIGTERM]
      = (Exited, c) /\ os c = mkOs false false false.
Proof.
  eexists. split; [reflexivity|].
  refine (proj1 (client_exit_restores_system ex_cli
    [ConnectOk ex_setup; TunnelLost; DelayElapsed; Signalled SIGTERM] _ _ eq_refl) eq_refl).
Defined.

(** The kill-switch holds while the client reconnects: once it is on, it stays on
    through lost tunnels, failed attempts, backoffs, health reconnections and even an
    error exit; only the final cleanup turns it off. *)
Theorem killswitch_holds_while_reconnecting cli inputs more p c p' c' :
  client_run cli inputs = (p, c) -> client_run cli (inputs ++ more) = (p', c') ->
  p' <> Exited -> os_killswitch (os c) = true -> os_killswitch (os c') = true.
Proof.
  intros E. revert p' c'. induction more as [|i more IH] using rev_ind; intros p' c'.
  { rewrite app_nil_r, E. by intros [= -> ->]. }
  rewrite app_assoc, client_run_snoc. destruct (client_run cli (inputs ++ more)) as [p1 c1] eqn:E1.
  intros E2 Hp' Hk.
  assert (Hp1 : p1 <> Exited) by (intros ->; by injection E2 as <- <-).
  eapply killswitch_step; [exact E2|done|done| |by eapply IH].
  pose proof (client_run_inv cli (inputs ++ more)) as Hinv. rewrite E1 in Hinv.
  destruct p1; try done; [by left..|left; apply Hinv|by left|by right].
Qed.

Lemma killswitch_holds_while_reconnecting_witness :
  os_killswitch (os (snd (client_run ex_cli
    ([ConnectOk ex_setup] ++ [TunnelLost; DelayElapsed; ConnectFailed])))) = true.
Proof.
  eapply (killswitch_holds_while_reconnecting ex_cli [ConnectOk ex_setup]
    [TunnelLost; DelayElapsed; ConnectFailed]); [reflexivity|reflexivity|discriminate|reflexivity].
Defined.

(** What was not a signal. *)
Definition no_signal (i : Input) : bool := match i with Signalled _ => false | _ => true end.

(** Every command that configures the machine works. *)
Definition sets_up (e : Setup) : bool :=
  interface_ok e && gateway_ok e && routes_ok e && dns_ok e && killswitch_ok e.

(** Two clients that differ at most in the signal task, gone in the first one. *)
Definition deaf (c d : ClientState) : Prop :=
  signal_task c = false /\ c = mkClient (routes_configured d) (saved_routes d) (killswitch_enabled d)
    (attempt d) (connected d) (signal_task c) (os d).

Lemma on_connected_deaf cli e c d : deaf c d ->
  (on_connected cli e c).1 = (on_connected cli e d).1 /\ deaf (on_connected cli e c).2 (on_connected cli e d).2 /\
  (sets_up e = true -> (on_connected cli e c).1 = true).
Proof.
  destruct c as [r s k a n t o], d as [r' s' k' a' n' t' o']. unfold deaf. simpl. intros [-> [= -> -> -> -> -> ->]].
  destruct e as [io go ro rp d ks], cli as [tm lb]. unfold on_connected, sets_up. simpl.
  destruct io, tm, r', lb, go, ro, d, ks; done.
Qed.

Lemma client_step_deaf cli i p c d : deaf c d -> i <> Signalled SIGINT ->
  exists p' c' d', client_step cli i (p, c) = (p', c') /\
    (if no_signal i then client_step cli i (p, d) else (p, d)) = (p', d') /\ deaf c' d' /\
    (p' = Exited -> p = Exited) /\
    (p' = Failed -> p = Failed \/ exists e, i = ConnectOk e /\ sets_up e = false).
Proof.
  intros Hd Hi.
  assert (Hrest : forall p1 c1 d1, deaf c1 d1 -> p1 <> Exited -> p1 <> Failed -> exists p' c' d',
    (p1, c1) = (p', c') /\ (p1, d1) = (p', d') /\ deaf c' d' /\ (p' = Exited -> p = Exited) /\
    (p' = Failed -> p = Failed \/ exists e, i = ConnectOk e /\ sets_up e = false)).
  { intros p1 c1 d1 H1 Hx Hf. by exists p1, c1, d1. }
  destruct (decide (p = Exited \/ p = Failed)) as [Hp|Hp].
  { exists p, c, d. split; [by destruct Hp as [->| ->]|]. split; [by destruct (no_signal i), Hp as [->| ->]|]. auto. }
  assert (Hset : forall n b, deaf (set_attempt n b c) (set_attempt n b d)).
  { intros n b. destruct Hd as [Ht Hc]. by rewrite Hc. }
  assert (Hat : attempt c = attempt d) by (destruct Hd as [_ ->]; done).
  destruct i as [s|e| | | |]; destruct p; try (by destruct Hp; auto); cbn [client_step no_signal];
    rewrite ?Hat; try (by apply Hrest).
  - destruct Hd as [Ht Hc]. unfold on_signal. rewrite Ht. apply Hrest; [|done..]. by split; [|rewrite Hc].
  - destruct Hd as [Ht Hc]. unfold on_signal. destruct s; [by destruct Hi|..]; (apply Hrest; [|done..]);
      by split; [|rewrite Hc].
  - destruct Hd as [Ht Hc]. unfold on_signal. rewrite Ht. apply Hrest; [|done..]. by split; [|rewrite Hc].
  - destruct Hd as [Ht Hc]. unfold on_signal. rewrite Ht. apply Hrest; [|done..]. by split; [|rewrite Hc].
  - destruct (on_connected_deaf cli e c d Hd) as (Hok & Hdf & Hs).
    destruct (on_connected cli e c) as [ok c1], (on_connected cli e d) as [ok' d1]. simpl in *. subst ok'.
    destruct ok; [by apply Hrest|]. exists Failed, c1, d1. split_and!; try done.
    intros _. right. exists e. split; [done|]. destruct (sets_up e); [by specialize (Hs eq_refl)|done].
Qed.

(** [C40] A SIGTERM or SIGHUP that arrives while the client waits after a failed
    connection attempt is lost, and so is every later one: from then on, as long as
    nobody presses Ctrl-C, the client goes through the same phases as if none of these
    signals had been sent. In particular it never leaves its loop in order, and it ends
    only when a command fails that configures the machine after a successful connection. *)
Theorem sigterm_lost_in_backoff cli inputs c s more p' c' :
  client_run cli inputs = (ConnectBackoff, c) -> s <> SIGINT ->
  Forall (fun i => i <> Signalled SIGINT) more ->
  client_run cli (inputs ++ Signalled s :: more) = (p', c') ->
  p' = (client_run cli (inputs ++ List.filter no_signal more)).1 /\ p' <> Exited /\
  (p' = Failed -> exists e, ConnectOk e ∈ more /\ sets_up e = false).
Proof.
  intros E Hs Hmore. rewrite cons_middle, app_assoc. intros E'.
  enough (H : exists d, client_run cli (inputs ++ List.filter no_signal more) = (p', d) /\ deaf c' d /\
    p' <> Exited /\ (p' = Failed -> exists e, ConnectOk e ∈ more /\ sets_up e = false)).
  { destruct H as (d & -> & _ & H). by split. }
  revert p' c' E'. induction more as [|i more IH] using rev_ind; intros p' c'.
  { rewrite !app_nil_r, client_run_snoc, E. intros E'. exists c. destruct s; [done|..];
      injection E' as <- <-; by split_and!. }
  apply Forall_app in Hmore as [Hmore Hi]. rewrite Forall_singleton in Hi.
  rewrite app_assoc, client_run_snoc.
  destruct (client_run cli ((inputs ++ [Signalled s]) ++ more)) as [p1 c1] eqn:E1.
  destruct (IH Hmore _ _ eq_refl) as (d1 & Ed & Hd & Hx & Hf).
  destruct (client_step_deaf cli i p1 c1 d1 Hd Hi) as (p2 & c2 & d2 & -> & E2 & Hd2 & Hx2 & Hf2).
  intros [= <- <-]. exists d2. split.
  { rewrite List.filter_app. simpl. destruct (no_signal i); [by rewrite app_assoc, client_run_snoc, Ed|].
    by rewrite app_nil_r, Ed, E2. }
  split; [done|]. split; [auto|]. intros [Hp|(e & -> & He)]%Hf2.
  - destruct (Hf Hp) as (e & Hin & He). exists e. split; [set_solver|done].
  - exists e. split; [set_solver|done].
Qed.

Lemma sigterm_lost_in_backoff_witness :
  let more := [DelayElapsed; Signalled SIGTERM; ConnectOk ex_setup; Signalled SIGHUP] in
  (client_run ex_cli ([ConnectFailed] ++ Signalled SIGTERM :: more)).1 = InTunnel /\
  (client_run ex_cli ([ConnectFailed] ++ Signalled SIGTERM :: more)).1 <> Exited.
Proof.
  split; [reflexivity|].
  refine (proj1 (proj2 (sigterm_lost_in_backoff ex_cli [ConnectFailed] _ SIGTERM
    [DelayElapsed; Signalled SIGTERM; ConnectOk ex_setup; Signalled SIGHUP] _ _ eq_refl _ _
    (surjective_pairing _)))); [discriminate|].
  repeat constructor; discriminate.
Defined.

(** Path-MTU updates reach the client: what the server's monitor writes on the
    control stream, the client reads back as exactly the announced values, in order
    and without a panic, and after every tick the value the client holds is within 50
    octets of the path's. *)
Theorem pmtu_updates_delivered start mtus :
  Forall (fun m => 0 <= m < 65536) mtus ->
  exists w, run_pmtu_monitor start mtus = Some w /\
    read_session_updates (S (length w)) w = Some (announced start mtus) /\
    Z.abs (last_or start mtus - last_or start (announced start mtus)) <= 50.
Proof.
  intros Hm. destruct (pmtu_stream mtus start Hm) as (w & Hw & Hr). exists w.
  split; [done|]. split; [apply Hr; lia|]. apply announced_close. lia.
Qed.

Lemma pmtu_updates_delivered_witness :
  exists w, run_pmtu_monitor 1400 [1410; 1280; 1290; 1452] = Some w /\
    read_session_updates (S (length w)) w = Some [1280; 1452].
Proof.
  destruct (pmtu_updates_delivered 1400 [1410; 1280; 1290; 1452]) as (w & Hw & Hr & _);
    [repeat constructor; lia|]. exists w. split; [exact Hw|exact Hr].
Defined.
