(* ===== verification/Manager.v ===== *)
(** Choosing and opening a transport ([transport/manager.rs], the connectors of
    [tcp_reality.rs] and [websocket_cdn.rs], the SNI pool of [camouflage.rs]), and
    watching it ([transport/health.rs]).

    TLS, sockets and files are the environment's: a connector sees whether its setup
    succeeds, whether writes succeed, and the octets the server sends. *)

From S2P Require Import Prelude F64 Datagram Control Auth Users IpPool Transport Server.

(** ** Connectors *)

Inductive ConnectError :=
  | SetupFailed | OpenFailed | WriteFailed | ReadFailed | InvalidConfig | ConfigTooShort
  | NotConfigured | TimedOut (m : TransportMode) | NoConnectors.

(** [ConnectResult]: [quic_conn] and [control_recv] are present or not. *)
Record ConnectResult := mkConnect {
  cr_mode : TransportMode;
  cr_config : SessionConfig;
  cr_quic_conn : bool;
  cr_control_recv : bool;
  cr_padding : bool
}.

(** The server as a connector sees it: certificate, TLS configuration and connection
    ([setup_ok]), [open_bi], [write_all]/[finish], and the octets received. *)
Record Remote := mkRemote {
  setup_ok : bool; open_ok : bool; write_ok : bool; reply : bytes
}.

Definition PROTOCOL_VERSION : byte := x01.

(** The authentication frame for a fresh nonce. *)
Definition auth_frame `{Hmac} (auth : PskAuthenticator) (nonce : bytes) : panics bytes :=
  mac ← compute_mac auth nonce;
  ClientAuth_encode (mkClientAuth nonce mac PROTOCOL_VERSION).

(** [read_exact] of 17 octets, then [SessionConfig::decode]. *)
Definition read_config (reply : bytes) : panics (result ConnectError SessionConfig) :=
  if decide (length reply < SESSION_CONFIG_LEN)%nat then Some (Err ReadFailed)
  else
    c ← SessionConfig_decode (take SESSION_CONFIG_LEN reply);
    Some (ok_or InvalidConfig c).

(** The exchange over a stream, shared by the QUIC and TCP connectors: the frame that
    was written, and the result. *)
Definition stream_handshake `{Hmac} (auth : PskAuthenticator) (nonce : bytes) (r : Remote)
    : panics (option bytes * result ConnectError SessionConfig) :=
  if negb (setup_ok r) then Some (None, Err SetupFailed)
  else if negb (open_ok r) then Some (None, Err OpenFailed)
  else
    frame ← auth_frame auth nonce;
    if negb (write_ok r) then Some (None, Err WriteFailed)
    else c ← read_config (reply r); Some (Some frame, c).

Definition with_mode (m : TransportMode) (quic recv pad : bool)
    (x : result ConnectError SessionConfig) : result ConnectError ConnectResult :=
  match x with
  | Ok c => Ok (mkConnect m c quic recv pad)
  | Err e => Err e
  end.

(** [QuicDirectConnector::connect] *)
Definition connect_quic `{Hmac} (auth : PskAuthenticator) (nonce : bytes) (r : Remote)
    : panics (result ConnectError ConnectResult) :=
  x ← stream_handshake auth nonce r; Some (with_mode QuicRaw true true false x.2).

(** [QuicCamouflagedConnectorAdapter::connect] *)
Definition connect_camouflaged `{Hmac} (padding : bool) (auth : PskAuthenticator) (nonce : bytes)
    (r : Remote) : panics (result ConnectError ConnectResult) :=
  x ← stream_handshake auth nonce r; Some (with_mode QuicCamouflaged true true padding x.2).

(** [TcpRealityConnector::connect] and its adapter: no stream to open. *)
Definition connect_tcp `{Hmac} (auth : PskAuthenticator) (nonce : bytes) (r : Remote)
    : panics (result ConnectError ConnectResult) :=
  x ← stream_handshake auth nonce (mkRemote (setup_ok r) true (write_ok r) (reply r));
  Some (with_mode TcpReality false false false x.2).

(** [WebSocketConnector::connect] and its adapter; the answer is one message, [None]
    when the stream ends or fails. *)
Definition connect_ws `{Hmac} (url : option bytes) (auth : PskAuthenticator) (nonce : bytes)
    (r : Remote) (msg : option Message) : panics (result ConnectError ConnectResult) :=
  match url with
  | None => Some (Err NotConfigured)
  | Some _ =>
      if negb (setup_ok r) then Some (Err SetupFailed)
      else
        frame ← auth_frame auth nonce;
        if negb (write_ok r) then Some (Err WriteFailed)
        else match msg with
             | None => Some (Err ReadFailed)
             | Some (Binary data) =>
                 if decide (length data < SESSION_CONFIG_LEN)%nat then Some (Err ConfigTooShort)
                 else
                   d ← slice 0 SESSION_CONFIG_LEN data;
                   c ← SessionConfig_decode d;
                   Some (with_mode WebSocketCdn false false false (ok_or InvalidConfig c))
             | Some _ => Some (Err InvalidConfig)
             end
  end.

(** ** The manager *)

(** One probe, under the ten-second timeout ([None]). *)
Definition Probe : Type := TransportMode * option (result ConnectError ConnectResult).

Fixpoint probe_loop (ps : list Probe) (last : option ConnectError)
    : result ConnectError ConnectResult :=
  match ps with
  | [] => Err (default NoConnectors last)
  | (m, None) :: ps => probe_loop ps (Some (TimedOut m))
  | (m, Some (Ok r)) :: _ => Ok r
  | (m, Some (Err e)) :: ps => probe_loop ps (Some e)
  end.

Definition probe_and_connect (ps : list Probe) : result ConnectError ConnectResult :=
  probe_loop ps None.

(** [SniCamouflage] *)
Record SniCamouflage := mkSni { domains : list bytes; index : Z }.

Definition sni_new (ds : list bytes) : panics SniCamouflage :=
  if decide (ds = []) then None else Some (mkSni ds 0).

(** [next_sni]; the index is a [usize]. *)
Definition next_sni (s : SniCamouflage) : panics (bytes * SniCamouflage) :=
  let idx := index s mod zlen (domains s) in
  d ← domains s !! Z.to_nat idx;
  Some (d, mkSni (domains s) (wrap64 (index s + 1))).

(** [build_transport_manager]: the connectors, by mode, in the order tried. *)
Definition build_transport_manager (mode : bytes) (sni_pool : list bytes) (ws_url : option bytes)
    : panics (list TransportMode) :=
  let camo := _ ← sni_new sni_pool; Some [QuicCamouflaged] in
  let ws := match ws_url with Some _ => [WebSocketCdn] | None => [] end in
  if decide (mode = str "quic") then Some [QuicRaw]
  else if decide (mode = str "quic-camouflaged") then camo
  else if decide (mode = str "tcp-reality") then Some [TcpReality]
  else if decide (mode = str "websocket") then Some ws
  else c ← camo; Some ([QuicRaw] ++ c ++ [TcpReality] ++ ws).

(** ** The health monitor *)

Inductive ReconnectReason := Degraded | Upgrade.

Definition DEGRADED_THRESHOLD : Z := 2.

(** [current_ms > baseline_ms * 3.0], durations in nanoseconds. *)
Definition degraded (baseline current : Z) : bool :=
  let baseline_ms := f64_mul (as_secs_f64 baseline) f64_1000 in
  let current_ms := f64_mul (as_secs_f64 current) f64_1000 in
  let threshold_ms := f64_mul baseline_ms f64_3 in
  f64_gtb current_ms threshold_ms.

(** [watch_quic] over the round-trip times read at each tick after the baseline;
    [None] while it has not returned. *)
Fixpoint watch_quic_loop (baseline : Z) (consecutive : Z) (rtts : list Z) : option ReconnectReason :=
  match rtts with
  | [] => None
  | rtt :: rtts =>
      if degraded baseline rtt then
        let consecutive := wrap32 (consecutive + 1) in
        if DEGRADED_THRESHOLD <=? consecutive then Some Degraded
        else watch_quic_loop baseline consecutive rtts
      else watch_quic_loop baseline 0 rtts
  end.
Definition watch_quic (baseline : Z) (rtts : list Z) : option ReconnectReason :=
  watch_quic_loop baseline 0 rtts.

(** [probe_udp_reachable]: each operation's outcome; [rcv] is [Some true] for an
    answer, [Some false] for an error, [None] when one second passes. *)
Definition probe_udp_reachable (in_time bind conn snd : bool) (rcv : option bool) : bool :=
  if negb in_time then false
  else if bind && conn && snd then match rcv with Some b => b | None => true end
  else false.

(** [watch_fallback] over the results of its probes. *)
Fixpoint watch_fallback (server_addr : bool) (probes : list bool) : option ReconnectReason :=
  match probes with
  | [] => None
  | ok :: probes =>
      if negb server_addr then None
      else if ok then Some Upgrade else watch_fallback server_addr probes
  end.

Definition watch (quic_conn : bool) (m : TransportMode) (server_addr : bool)
    (baseline : Z) (rtts : list Z) (probes : list bool) : option ReconnectReason :=
  match quic_conn, m with
  | true, QuicRaw | true, QuicCamouflaged => watch_quic baseline rtts
  | false, TcpReality | false, WebSocketCdn => watch_fallback server_addr probes
  | _, _ => None
  end.

(** ** Lemmas *)

Lemma probe_loop_first ps : forall last m r,
  (forall q, q ∈ ps -> forall r', q.2 <> Some (Ok r')) ->
  forall rest, probe_loop (ps ++ (m, Some (Ok r)) :: rest) last = Ok r.
Proof.
  induction ps as [|[m' o] ps IH]; intros last m r Hf rest; [done|]. simpl.
  destruct o as [[r'|e]|].
  - by destruct (Hf (m', Some (Ok r')) ltac:(by left) r').
  - apply IH. intros q Hq. apply Hf. by right.
  - apply IH. intros q Hq. apply Hf. by right.
Qed.

Lemma probe_loop_inv ps : forall last r, probe_loop ps last = Ok r ->
  exists pre m rest, ps = pre ++ (m, Some (Ok r)) :: rest /\
    forall q, q ∈ pre -> forall r', q.2 <> Some (Ok r').
Proof.
  induction ps as [|[m o] ps IH]; intros last r; [done|]. simpl.
  destruct o as [[r'|e]|].
  - intros [= <-]. exists [], m, ps. split; [done|]. intros q Hq. by apply elem_of_nil in Hq.
  - intros (pre & m' & rest & -> & Hpre)%IH. exists ((m, Some (Err e)) :: pre), m', rest.
    split; [done|]. intros q [->|Hq]%elem_of_cons r'; [done|by apply Hpre].
  - intros (pre & m' & rest & -> & Hpre)%IH. exists ((m, None) :: pre), m', rest.
    split; [done|]. intros q [->|Hq]%elem_of_cons r'; [done|by apply Hpre].
Qed.

Lemma watch_quic_spec baseline rtts : forall n, (n = 0 \/ n = 1) ->
  watch_quic_loop baseline n rtts = Some Degraded <->
  (n = 1 /\ exists x rest, rtts = x :: rest /\ degraded baseline x = true) \/
  exists pre x y rest, rtts = pre ++ x :: y :: rest /\
    degraded baseline x = true /\ degraded baseline y = true.
Proof.
  induction rtts as [|r rtts IH]; intros n Hn; cbn [watch_quic_loop].
  { split; [done|]. intros [(_ & x & rest & E & _)|([|] & x & y & rest & E & _)]; done. }
  destruct (degraded baseline r) eqn:Ed.
  - destruct Hn as [-> | ->].
    + change (wrap32 (0 + 1)) with 1. cbn [Z.leb DEGRADED_THRESHOLD Z.compare Pos.compare Pos.compare_cont].
      rewrite IH by auto. split.
      * intros [(_ & x & rest & -> & Hx)|(pre & x & y & rest & -> & Hx & Hy)]; right.
        -- by exists [], r, x, rest.
        -- by exists (r :: pre), x, y, rest.
      * intros [[? _]|(pre & x & y & rest & E & Hx & Hy)]; [lia|].
        destruct pre as [|z pre]; injection E as -> ->; [left; eauto|right; eauto 8].
    + change (DEGRADED_THRESHOLD <=? wrap32 (1 + 1)) with true. cbv iota. split; [|done]. intros _.
      left. split; [done|]. eauto.
  - rewrite IH by auto. split.
    + intros [[? _]|(pre & x & y & rest & -> & Hx & Hy)]; [lia|]. right. by exists (r :: pre), x, y, rest.
    + intros [(_ & x & rest & E & Hx)|(pre & x & y & rest & E & Hx & Hy)].
      * injection E as <- <-. congruence.
      * destruct pre as [|z pre]; injection E as -> ->; [congruence|]. right. eauto 8.
Qed.

(** ** Theorems *)

(** [C20] The handshake agrees end to end. For a server with the client's key, on every
    stream transport: the frame a connector writes is 66 octets, the server decodes it
    and accepts it under the name "default", and the configuration the server answers
    with is decoded by the connector as the one the server built, so that the client
    takes the address the server assigned. *)
Theorem handshake_agreement `{HmacOk, HashIter} k nonce c ip flags r :
  length nonce = 32%nat -> setup_ok r = true -> open_ok r = true -> write_ok r = true ->
  reply r = wire_config (session_config c ip flags) ->
  exists frame a, stream_handshake (mkPsk k) nonce r =
      Some (Some frame, Ok (session_config c ip flags)) /\
    length frame = CLIENT_AUTH_LEN /\ decode_auth frame = Some a /\
    auth_mode_verify (SinglePsk (mkPsk k)) (Control.nonce a) (mac a) = Some (str "default") /\
    client_ip (session_config c ip flags) = ip.
Proof.
  intros Hn Hs Ho Hw Hr. unfold stream_handshake, auth_frame. rewrite Hs, Ho, Hw. simpl negb. cbv iota.
  assert (Hc : compute_mac (mkPsk k) nonce = Some (hmac_sha256 k nonce)).
  { unfold compute_mac, copy_into. rewrite decide_True by (rewrite hmac_length, length_replicate; lia).
    simpl. by rewrite app_nil_r. }
  rewrite Hc. cbn [mbind option_bind].
  set (a := mkClientAuth nonce (hmac_sha256 k nonce) PROTOCOL_VERSION).
  destruct (ClientAuth_roundtrip a []) as (w & Hw' & Hl & Hd); [split; [done|apply hmac_length]|].
  rewrite Hw'. cbn [mbind option_bind]. unfold read_config. rewrite Hr.
  destruct (SessionConfig_roundtrip (session_config c ip flags) []) as (wc & Hwc & Hlc & Hdc & _).
  { apply (wrap_range 16). lia. }
  unfold wire_config. rewrite Hwc. simpl default. rewrite decide_False by lia.
  rewrite app_nil_r in Hdc, Hd. rewrite take_ge by lia. rewrite Hdc. cbn [mbind option_bind ok_or].
  exists w, a. split; [done|]. split; [done|]. unfold decode_auth. rewrite Hd.
  split; [done|]. split; [|done]. unfold auth_mode_verify, verify, verify_slice. simpl.
  by rewrite bool_decide_true.
Qed.

#[local] Instance mg_hmac : Hmac := fun key msg => take 32 (key ++ msg ++ replicate 32 x00).
Lemma mg_hmac_ok : @HmacOk mg_hmac.
Proof.
  intros key msg. unfold hmac_sha256, mg_hmac. rewrite length_take, !length_app, length_replicate. lia.
Defined.

Lemma handshake_agreement_witness :
  exists frame a, @stream_handshake mg_hmac (mkPsk [x05]) (replicate 32 x01)
      (mkRemote true true true (wire_config (session_config ex_consts (ip4 10 0 1 7) 1))) =
      Some (Some frame, Ok (session_config ex_consts (ip4 10 0 1 7) 1)) /\
    decode_auth frame = Some a.
Proof.
  destruct (@handshake_agreement mg_hmac mg_hmac_ok map_to_list [x05] (replicate 32 x01) ex_consts
    (ip4 10 0 1 7) 1 (mkRemote true true true (wire_config (session_config ex_consts (ip4 10 0 1 7) 1))))
    as (frame & a & E & _ & Hd & _); [reflexivity..|].
  exists frame, a. split; [exact E|exact Hd].
Defined.

(** The manager connects through the first transport that works: a connection is
    the result of the earliest successful probe, all earlier ones having failed or
    timed out, and no connection is returned only when every probe failed. In mode
    "auto" (or any unknown mode) the order is QUIC, camouflaged QUIC, TCP Reality and,
    when a URL is configured, WebSocket; a named mode has that transport only. *)
Theorem manager_first_success ps :
  (forall r, probe_and_connect ps = Ok r <->
     exists pre m rest, ps = pre ++ (m, Some (Ok r)) :: rest /\
       forall q, q ∈ pre -> forall r', q.2 <> Some (Ok r')) /\
  (forall mode pool url, pool <> [] ->
     mode ∉ [str "quic"; str "quic-camouflaged"; str "tcp-reality"; str "websocket"] ->
     build_transport_manager mode pool url =
       Some ([QuicRaw; QuicCamouflaged; TcpReality] ++
             match url with Some _ => [WebSocketCdn] | None => [] end)).
Proof.
  split.
  - intros r. split; [apply probe_loop_inv|]. intros (pre & m & rest & -> & Hpre).
    by apply probe_loop_first.
  - intros mode pool url Hp Hm. unfold build_transport_manager, sni_new.
    rewrite (decide_False (P := pool = [])) by done.
    rewrite !decide_False; [done|set_solver..].
Qed.

Lemma manager_first_success_witness :
  build_transport_manager (str "auto") [str "dl.google.com"] None =
    Some [QuicRaw; QuicCamouflaged; TcpReality].
Proof.
  apply (manager_first_success []); [discriminate|].
  apply (bool_decide_eq_true_1 (str "auto" ∉ _)). vm_compute. reflexivity.
Defined.

(** The QUIC health monitor asks for a reconnection exactly when two consecutive
    checks find the round-trip time over three times the baseline: one bad check, or
    any number of isolated ones, never does. *)
Theorem watch_quic_two_consecutive baseline rtts :
  watch_quic baseline rtts = Some Degraded <->
  exists pre x y rest, rtts = pre ++ x :: y :: rest /\
    degraded baseline x = true /\ degraded baseline y = true.
Proof.
  unfold watch_quic. rewrite watch_quic_spec by auto. split; [|auto].
  intros [[? _]|?]; [lia|done].
Qed.
