(* ===== verification/Config.v ===== *)
(** Configuration ([config.rs]), what the server derives from it
    ([subnet_from_config], the pool) and its reload on SIGHUP ([reload_config]).

    The TOML reader (crates [toml] and [serde]) is the environment's: it gives a table
    of the keys present, and [serde(default)] fills in the others. Strings are parsed
    by the standard library; the IPv4 grammar is modelled ([IpText]), and [SocketAddr] is either
    an IPv4 address with a port or an IPv6 form, class [Ipv6Text]. *)

From S2P Require Import Prelude Datagram IpText Auth Users IpPool Demux Server Control.

(** ** Socket addresses *)

(** [s.parse::<SocketAddr>()], as a test: [ip:port], or an IPv6 form. *)
Class Ipv6Text := is_socket_v6 : bytes -> bool.
Definition read_port (s : bytes) : option Z :=
  let '(ds, rest) := digits s in
  match ds, rest with
  | _ :: _, [] => if 65535 <? number ds then None else Some (number ds)
  | _, _ => None
  end.
Definition is_socket_addr `{Ipv6Text} (s : bytes) : bool :=
  match ('(ip, s) ← read_ipv4 s; s ← expect x3a s; read_port s) with
  | Some _ => true
  | None => is_socket_v6 s
  end.

(** The toml crate: a value of type [A] from a text. *)
Class Toml (A : Type) := from_toml : bytes -> option A.

(** ** The server's configuration *)

Record NatConfig := mkNat { nat_enabled : bool; nat_interface : bytes }.
Record DecoyConfig := mkDecoy { decoy_on : bool; decoy_page : bytes }.
Record RealityServerConfig := mkReality {
  reality_enabled : bool; reality_listen : bytes; reality_target : bytes
}.
Record WebSocketServerConfig := mkWsConfig { ws_enabled : bool; ws_listen : bytes }.
Record CamouflageServerConfig := mkCamoConfig { known_sni_pool : list bytes }.

Record ServerConfig := mkConfig {
  listen : bytes; tun_name : bytes; tun_address : bytes; tun_prefix_len : Z; cfg_mtu : Z;
  cfg_max_connections : Z; max_bandwidth_mbps : Z; metrics_listen : bytes; psk_file : bytes;
  users_dir : option bytes; cert_file : bytes; key_file : bytes; domain : option bytes;
  acme_dir : bytes; acme_email : option bytes; log_level : bytes; dns : bytes;
  nat : NatConfig; decoy : DecoyConfig; reality : RealityServerConfig;
  websocket : WebSocketServerConfig; camouflage : CamouflageServerConfig
}.

Definition default_listen : bytes := str "0.0.0.0:443".
Definition default_tun_name : bytes := str "redpill1".
Definition default_tun_address : bytes := str "10.0.1.1".
Definition default_tun_prefix_len : Z := 24.
Definition default_mtu : Z := 1200.
Definition default_max_connections : Z := 64.
Definition default_psk_file : bytes := str "/etc/redpill/psk".
Definition default_cert_file : bytes := str "/etc/redpill/quic-cert.pem".
Definition default_key_file : bytes := str "/etc/redpill/quic-key.pem".
Definition default_log_level : bytes := str "info".
Definition default_dns : bytes := str "1.1.1.1".
Definition default_wan_interface : bytes := str "ens1".
Definition default_decoy_page : bytes := str "/etc/redpill/decoy.html".
Definition default_metrics_listen : bytes := str "127.0.0.1:9093".
Definition default_acme_dir : bytes := str "/etc/redpill/acme".
Definition default_true : bool := true.
Definition default_reality_listen : bytes := str "0.0.0.0:8443".
Definition default_reality_target : bytes := str "www.google.com:443".
Definition default_ws_listen : bytes := str "127.0.0.1:8443".
Definition default_transport_mode : bytes := str "auto".
Definition default_browser_profile : bytes := str "chrome".
Definition default_sni_pool : list bytes :=
  [str "dl.google.com"; str "www.google.com"; str "fonts.gstatic.com"; str "www.youtube.com"].

Definition reality_default : RealityServerConfig :=
  mkReality false default_reality_listen default_reality_target.
Definition websocket_default : WebSocketServerConfig := mkWsConfig false default_ws_listen.
Definition nat_default : NatConfig := mkNat true default_wan_interface.
Definition decoy_default : DecoyConfig := mkDecoy true default_decoy_page.

Definition server_config_default : ServerConfig :=
  mkConfig default_listen default_tun_name default_tun_address default_tun_prefix_len default_mtu
    default_max_connections 0 default_metrics_listen default_psk_file None default_cert_file
    default_key_file None default_acme_dir None default_log_level default_dns nat_default
    decoy_default reality_default websocket_default (mkCamoConfig []).

Inductive ConfigError :=
  | BadListen | BadTunAddress | BadDns | BadMetricsListen | BadMtu (n : Z) | BadPrefix (n : Z)
  | NoConnections.

Definition is_some_b {A} (o : option A) : bool := match o with Some _ => true | None => false end.

Definition validate `{Ipv6Text} (c : ServerConfig) : result ConfigError unit :=
  if negb (is_socket_addr (listen c)) then Err BadListen
  else if negb (is_some_b (parse_ipv4 (tun_address c))) then Err BadTunAddress
  else if negb (is_some_b (parse_ipv4 (dns c))) then Err BadDns
  else if negb (is_socket_addr (metrics_listen c)) then Err BadMetricsListen
  else if (cfg_mtu c <? 576) || (1500 <? cfg_mtu c) then Err (BadMtu (cfg_mtu c))
  else if (tun_prefix_len c =? 0) || (32 <? tun_prefix_len c) then Err (BadPrefix (tun_prefix_len c))
  else if cfg_max_connections c =? 0 then Err NoConnections
  else Ok tt.

(** [subnet_from_config]: [unwrap] panics on an address that does not parse. *)
Definition subnet_from_config (c : ServerConfig) : panics bytes :=
  ip ← parse_ipv4 (tun_address c);
  Some (show_ipv4 (mkIp (oct0 ip) (oct1 ip) (oct2 ip) x00)).

(** ** The client's configuration *)

Record ClientServerSection := mkClientServer {
  cs_address : option bytes; cs_cert : option bytes; cs_psk : option bytes; cs_domain : option bytes
}.
Record ClientTransportSection := mkClientTransport { ct_mode : bytes }.
Record ClientCamouflageSection := mkClientCamo {
  sni_pool : list bytes; padding : bool; chrome_fingerprint : bool; browser_profile : bytes
}.
Record ClientRealitySection := mkClientReality { cr_target : bytes; cr_address : option bytes }.
Record ClientWebSocketSection := mkClientWs { cw_url : option bytes; cw_host : option bytes }.
Record ClientTomlConfig := mkClientToml {
  cfg_server : ClientServerSection; cfg_transport : ClientTransportSection;
  cfg_camouflage : ClientCamouflageSection; cfg_reality : ClientRealitySection;
  cfg_websocket : ClientWebSocketSection
}.

Definition client_transport_default : ClientTransportSection := mkClientTransport default_transport_mode.
Definition client_camouflage_default : ClientCamouflageSection :=
  mkClientCamo default_sni_pool true true default_browser_profile.
Definition client_reality_default : ClientRealitySection := mkClientReality default_reality_target None.

(** ** Reload on SIGHUP *)

(** The reloadable part of [ServerState]. *)
Record Reloadable := mkReloadable {
  rl_max_connections : Z; rl_decoy_page : bytes; rl_auth : AuthMode
}.

(** [config] is what [ServerConfig::load] gives ([None]: an error), [store] and [psk]
    what [UserStore::load] and [load_psk] give. *)
Definition reload_config (config : option ServerConfig)
    (store : bytes -> panics (result UserError UserStore))
    (psk : bytes -> panics (result LoadError bytes)) (s : Reloadable) : panics Reloadable :=
  match config with
  | None => Some s
  | Some c =>
      let s := if negb (cfg_max_connections c =? rl_max_connections s)
               then mkReloadable (cfg_max_connections c) (rl_decoy_page s) (rl_auth s) else s in
      let s := if negb (bool_decide (rl_decoy_page s = decoy_page (decoy c)))
               then mkReloadable (rl_max_connections s) (decoy_page (decoy c)) (rl_auth s) else s in
      match users_dir c with
      | Some dir =>
          r ← store dir;
          Some match r with
               | Ok st => mkReloadable (rl_max_connections s) (rl_decoy_page s) (MultiUser st)
               | Err _ => s
               end
      | None =>
          r ← psk (psk_file c);
          Some match r with
               | Ok k => mkReloadable (rl_max_connections s) (rl_decoy_page s)
                           (SinglePsk (PskAuthenticator_new k))
               | Err _ => s
               end
      end
  end.

(** ** Theorems *)

(** A configuration that passes validation is safe to start from: the subnet is
    computed without a panic, parses back, and is the /24 of the tunnel address, so
    the pool gives addresses next to the server's; and the MTU survives the cast to
    16 bits in every [SessionConfig] the server sends. *)
Theorem validated_config_safe `{Ipv6Text} c :
  validate c = Ok tt ->
  576 <= cfg_mtu c <= 1500 /\ wrap16 (cfg_mtu c) = cfg_mtu c /\ 0 <> cfg_max_connections c /\
  exists ip subnet base, parse_ipv4 (tun_address c) = Some ip /\
    subnet_from_config c = Some subnet /\ parse_ipv4 subnet = Some base /\
    forall h, host_ip (IpPool.base (pool_new base)) h = mkIp (oct0 ip) (oct1 ip) (oct2 ip) h.
Proof.
  unfold validate, subnet_from_config. intros Hv.
  repeat (split_if_in Hv; try done). destruct (parse_ipv4 (tun_address c)) as [ip|]; [|done].
  split; [lia|]. split; [apply wrap_small; lia|]. split; [lia|].
  exists ip, (show_ipv4 (mkIp (oct0 ip) (oct1 ip) (oct2 ip) x00)), (mkIp (oct0 ip) (oct1 ip) (oct2 ip) x00).
  split; [done|]. split; [done|]. split; [apply parse_show_ipv4|]. done.
Qed.

Lemma validated_config_safe_witness :
  exists subnet, subnet_from_config server_config_default = Some subnet /\
    @validate (fun _ => false) server_config_default = Ok tt.
Proof.
  assert (Hv : @validate (fun _ => false) server_config_default = Ok tt) by (vm_compute; reflexivity).
  destruct (@validated_config_safe (fun _ => false) server_config_default Hv)
    as (_ & _ & _ & ip & subnet & base & _ & Hs & _).
  exists subnet. split; [exact Hs|exact Hv].
Defined.

(** A failed reload changes nothing it should not: when the file cannot be loaded
    the state is untouched; when the keys cannot be loaded the authentication table
    in force stays; and otherwise the limit, the decoy page and the table are the new
    ones. A reload never panics when loading does not. *)
Theorem reload_config_spec config store psk s :
  (forall d, is_Some (store d)) -> (forall f, is_Some (psk f)) ->
  exists s', reload_config config store psk s = Some s' /\
    match config with
    | None => s' = s
    | Some c =>
        rl_max_connections s' = cfg_max_connections c /\ rl_decoy_page s' = decoy_page (decoy c) /\
        match users_dir c with
        | Some d => (forall st, store d = Some (Ok st) -> rl_auth s' = MultiUser st) /\
                    (forall e, store d = Some (Err e) -> rl_auth s' = rl_auth s)
        | None => (forall k, psk (psk_file c) = Some (Ok k) -> rl_auth s' = SinglePsk (mkPsk k)) /\
                  (forall e, psk (psk_file c) = Some (Err e) -> rl_auth s' = rl_auth s)
        end
    end.
Proof.
  intros Hst Hpsk. unfold reload_config. destruct config as [c|]; [|by eexists]. cbv zeta.
  set (s1 := if negb (cfg_max_connections c =? rl_max_connections s) then _ else _).
  assert (H1 : rl_max_connections s1 = cfg_max_connections c /\ rl_auth s1 = rl_auth s).
  { subst s1. destruct (_ =? _) eqn:E; boolify; simpl; [|done]. by rewrite E. }
  set (s2 := if negb (bool_decide (rl_decoy_page s1 = _)) then _ else _).
  assert (H2 : rl_max_connections s2 = cfg_max_connections c /\ rl_auth s2 = rl_auth s /\
    rl_decoy_page s2 = decoy_page (decoy c)).
  { subst s2. case_bool_decide; simpl; naive_solver. }
  destruct H2 as (Hm & Ha & Hd). destruct (users_dir c) as [d|].
  - destruct (Hst d) as [[st|e] E]; rewrite E; cbn [mbind option_bind];
      (eexists; split; [done|]; simpl); naive_solver.
  - destruct (Hpsk (psk_file c)) as [[k|e] E]; rewrite E; cbn [mbind option_bind];
      (eexists; split; [done|]; simpl); naive_solver.
Qed.

Lemma reload_config_spec_witness :
  exists s', reload_config (Some server_config_default) (fun _ => Some (Err IoError))
      (fun _ => Some (Ok [x01])) (mkReloadable 1 [] (SinglePsk (mkPsk []))) = Some s' /\
    rl_max_connections s' = 64.
Proof.
  destruct (reload_config_spec (Some server_config_default) (fun _ => Some (Err IoError))
    (fun _ => Some (Ok [x01])) (mkReloadable 1 [] (SinglePsk (mkPsk [])))) as (s' & E & Hm & _).
  - intros d. eexists. reflexivity.
  - intros f. eexists. reflexivity.
  - exists s'. split; [exact E|exact Hm].
Defined.
