(* ===== verification/Route.v ===== *)
(** System configuration by external commands ([redpill-tun/src/route.rs], Linux): the
    command runner, interface setup, the client's routes and DNS. The firewall rules of
    the server are in [Firewall].

    The commands and the file system are the environment's, over a world of type [W]:
    class [Shell] runs a program, class [Files] reads and writes files. What the proofs
    need of [ip route] and of files is in [RoutesOk] and [FilesOk]. *)

From S2P Require Import Prelude Datagram Text IpText.

Inductive RouteError :=
  | CommandFailed (cmd stderr : bytes) | Io | UnsupportedPlatform | NoDefaultGateway.

(** What [Command::output] gives: exit status, standard output and error (as
    [from_utf8_lossy] decodes them); [None] when the program could not be started. *)
Record Output := mkOutput { success : bool; stdout : bytes; stderr : bytes }.

Class Shell (W : Type) := spawn : bytes -> list bytes -> W -> option Output * W.

Class Files (W : Type) := {
  read_file : bytes -> W -> option bytes;
  write_file : bytes -> bytes -> W -> bool * W;
  remove_file : bytes -> W -> bool * W
}.

(** ** Code that runs commands: the world is threaded, [?] returns early *)

Definition M (W A : Type) : Type := W -> result RouteError A * W.

#[export] Instance M_ret {W} : MRet (M W) := fun A a w => (Ok a, w).
#[export] Instance M_bind {W} : MBind (M W) := fun A B k m w =>
  match m w with
  | (Ok a, w) => k a w
  | (Err e, w) => (Err e, w)
  end.

Definition fail_with {W A} (e : RouteError) : M W A := fun w => (Err e, w).
(** [let _ = m;] *)
Definition ignore {W A} (m : M W A) : M W unit := fun w => (Ok tt, (m w).2).
(** [if let Ok(x) = m { k }] *)
Definition if_ok {W A} (m : M W A) (k : A -> M W unit) : M W unit := fun w =>
  match m w with
  | (Ok a, w) => k a w
  | (Err _, w) => (Ok tt, w)
  end.
Fixpoint for_each {W A} (l : list A) (k : A -> M W unit) : M W unit :=
  match l with
  | [] => mret tt
  | a :: l => _ ← k a; for_each l k
  end.

Section ops.
Context {W : Type} `{Shell W, Files W}.

Definition command_failed (program : bytes) (args : list bytes) (o : Output) : RouteError :=
  CommandFailed (program ++ [SP] ++ join_with [SP] args) (stderr o).

Definition run_cmd (program : bytes) (args : list bytes) : M W unit := fun w =>
  match spawn program args w with
  | (None, w) => (Err Io, w)
  | (Some o, w) =>
      if negb (success o) then (Err (command_failed program args o), w) else (Ok tt, w)
  end.

Definition run_cmd_output (program : bytes) (args : list bytes) : M W bytes := fun w =>
  match spawn program args w with
  | (None, w) => (Err Io, w)
  | (Some o, w) =>
      if negb (success o) then (Err (command_failed program args o), w) else (Ok (stdout o), w)
  end.

(** [std::fs::write(path, data)?] *)
Definition write_or_io (path data : bytes) : M W unit := fun w =>
  let '(ok, w) := write_file path data w in
  (if (ok : bool) then Ok tt else Err Io, w).

Definition configure_interface (dev_name : bytes) (address : Ipv4Addr) (prefix_len : Z) : M W unit :=
  let addr_cidr := show_ipv4 address ++ str "/" ++ show_int prefix_len in
  _ ← run_cmd (str "ip") [str "addr"; str "add"; addr_cidr; str "dev"; dev_name];
  run_cmd (str "ip") [str "link"; str "set"; dev_name; str "up"].

Definition enable_ip_forwarding : M W unit :=
  write_or_io (str "/proc/sys/net/ipv4/ip_forward") (str "1").

Definition configure_tun_performance (dev_name : bytes) (txqueuelen : Z) : M W unit :=
  _ ← ignore (run_cmd (str "ip")
        [str "link"; str "set"; dev_name; str "txqueuelen"; show_int txqueuelen]);
  ignore (run_cmd (str "tc")
    [str "qdisc"; str "replace"; str "dev"; dev_name; str "root"; str "noqueue"]).

Definition configure_client_interface (dev_name : bytes) (client_ip server_tunnel_ip : Ipv4Addr)
    (mtu : Z) : M W unit :=
  _ ← run_cmd (str "ip")
        [str "addr"; str "add"; show_ipv4 client_ip ++ str "/32"; str "peer";
         show_ipv4 server_tunnel_ip ++ str "/32"; str "dev"; dev_name];
  run_cmd (str "ip") [str "link"; str "set"; dev_name; str "mtu"; show_int mtu; str "up"].

(** ** Default gateway *)

(** The gateway a line of [ip route show default] names. *)
Definition gateway_of (line : bytes) : option bytes :=
  let parts := split_whitespace line in
  if decide (head parts = Some (str "default")) then
    pos ← position (str "via") parts; parts !! S pos
  else None.

Definition get_default_gateway : M W bytes :=
  output ← run_cmd_output (str "ip") [str "route"; str "show"; str "default"];
  match omap gateway_of (lines output) with
  | gw :: _ => mret gw
  | [] => fail_with NoDefaultGateway
  end.

(** ** Routes *)

Record SavedRoutes := mkSaved {
  server_real_ip : bytes; saved_gateway : bytes; saved_tunnel_ip : bytes
}.

Definition LOW_HALF : bytes := str "0.0.0.0/1".
Definition HIGH_HALF : bytes := str "128.0.0.0/1".

Definition setup_client_routes (server_real_ip : bytes) (server_tunnel_ip : Ipv4Addr)
    (gateway : bytes) : M W SavedRoutes :=
  let tunnel_ip := show_ipv4 server_tunnel_ip in
  _ ← run_cmd (str "ip") [str "route"; str "add"; server_real_ip; str "via"; gateway];
  _ ← run_cmd (str "ip") [str "route"; str "add"; LOW_HALF; str "via"; tunnel_ip];
  _ ← run_cmd (str "ip") [str "route"; str "add"; HIGH_HALF; str "via"; tunnel_ip];
  mret (mkSaved server_real_ip gateway tunnel_ip).

Definition cleanup_client_routes (saved : SavedRoutes) : M W unit :=
  _ ← ignore (run_cmd (str "ip")
        [str "route"; str "del"; server_real_ip saved; str "via"; saved_gateway saved]);
  _ ← ignore (run_cmd (str "ip") [str "route"; str "del"; LOW_HALF]);
  ignore (run_cmd (str "ip") [str "route"; str "del"; HIGH_HALF]).

(** ** DNS *)

Definition RESOLV : bytes := str "/etc/resolv.conf".
Definition RESOLV_BAK : bytes := str "/etc/resolv.conf.redpill-bak".
Definition DNS_PRIMARY : bytes := str "1.1.1.1".
Definition DNS_SECONDARY : bytes := str "1.0.0.1".
Definition tunnel_dns : bytes :=
  str "nameserver " ++ DNS_PRIMARY ++ [NL] ++ str "nameserver " ++ DNS_SECONDARY ++ [NL].

(** [std::fs::read_to_string]: a file that is not UTF-8 is an error. *)
Definition read_to_string (path : bytes) (w : W) : option bytes :=
  text ← read_file path w; if utf8_valid text then Some text else None.

Definition setup_client_dns : M W unit := fun w =>
  let orig := default [] (read_to_string RESOLV w) in
  let '(_, w) := write_file RESOLV_BAK orig w in
  write_or_io RESOLV tunnel_dns w.

Definition cleanup_client_dns : M W unit := fun w =>
  match read_to_string RESOLV_BAK w with
  | Some orig =>
      let '(_, w) := write_file RESOLV orig w in
      let '(_, w) := remove_file RESOLV_BAK w in
      (Ok tt, w)
  | None => (Ok tt, w)
  end.

Definition cleanup_stale_client : M W unit :=
  _ ← ignore (run_cmd (str "ip") [str "route"; str "del"; LOW_HALF]);
  _ ← ignore (run_cmd (str "ip") [str "route"; str "del"; HIGH_HALF]);
  cleanup_client_dns.
End ops.

(** ** What [ip route] and the file system do *)

Definition ran (o : option Output) : bool := match o with Some out => success out | None => false end.

(** [table w]: the routes with a gateway, by destination. [add] refuses a destination
    that has a route; [del] removes the route it names. A command may fail for other
    reasons, and then changes nothing; [del] of an existing route works. *)
Class RoutesOk (W : Type) `{Shell W, Files W} := {
  table : W -> gmap bytes bytes;
  add_new w dst gw o w' :
    table w !! dst = None ->
    spawn (str "ip") [str "route"; str "add"; dst; str "via"; gw] w = (o, w') ->
    table w' = if ran o then <[dst:=gw]> (table w) else table w;
  add_exists w dst gw g o w' :
    table w !! dst = Some g ->
    spawn (str "ip") [str "route"; str "add"; dst; str "via"; gw] w = (o, w') ->
    ran o = false /\ table w' = table w;
  del_via w dst gw :
    table (spawn (str "ip") [str "route"; str "del"; dst; str "via"; gw] w).2 =
      if decide (table w !! dst = Some gw) then delete dst (table w) else table w;
  del_any w dst :
    table (spawn (str "ip") [str "route"; str "del"; dst] w).2 = delete dst (table w);
  write_table w p d : table (write_file p d w).2 = table w;
  remove_table w p : table (remove_file p w).2 = table w
}.

Class FilesOk (W : Type) `{Files W} := {
  read_written w p d q w' : write_file p d w = (true, w') ->
    read_file q w' = if decide (q = p) then Some d else read_file q w;
  read_unwritten w p d q w' : write_file p d w = (false, w') -> read_file q w' = read_file q w;
  read_removed w p q ok w' : remove_file p w = (ok, w') -> q <> p -> read_file q w' = read_file q w
}.

(** ** Longest prefix *)

Definition to_u32 (ip : Ipv4Addr) : Z :=
  ((b2z (oct0 ip) * 256 + b2z (oct1 ip)) * 256 + b2z (oct2 ip)) * 256 + b2z (oct3 ip).

(** A destination: [default], [a.b.c.d] or [a.b.c.d/n]. *)
Definition prefix_of (dst : bytes) : option (Ipv4Addr * Z) :=
  if decide (dst = str "default") then Some (ip4 0 0 0 0, 0)
  else
    '(ip, rest) ← read_ipv4 dst;
    match rest with
    | [] => Some (ip, 32)
    | b :: ds =>
        if decide (b = x2f) then
          match digits ds with
          | (d :: more, []) => Some (ip, number (d :: more))
          | _ => None
          end
        else None
    end.

Definition in_prefix (p : Ipv4Addr) (n : Z) (ip : Ipv4Addr) : Prop :=
  Z.shiftr (to_u32 ip) (32 - n) = Z.shiftr (to_u32 p) (32 - n).

(** [matches t ip n gw]: a route of [t] with prefix length [n] covers [ip]. *)
Definition matches (t : gmap bytes bytes) (ip : Ipv4Addr) (n : Z) (gw : bytes) : Prop :=
  exists dst p, t !! dst = Some gw /\ prefix_of dst = Some (p, n) /\ in_prefix p n ip.

(** The kernel uses the longest prefix. *)
Definition goes_via (t : gmap bytes bytes) (ip : Ipv4Addr) (gw : bytes) : Prop :=
  exists n, matches t ip n gw /\ forall n' gw', matches t ip n' gw' -> n' <= n.

Lemma to_u32_range ip : 0 <= to_u32 ip < 2 ^ 32.
Proof.
  unfold to_u32. pose proof (b2z_range (oct0 ip)). pose proof (b2z_range (oct1 ip)).
  pose proof (b2z_range (oct2 ip)). pose proof (b2z_range (oct3 ip)). lia.
Qed.

Lemma to_u32_inj a b : to_u32 a = to_u32 b -> a = b.
Proof.
  destruct a as [a0 a1 a2 a3], b as [b0 b1 b2 b3]. unfold to_u32. simpl. intros E.
  pose proof (b2z_range a0). pose proof (b2z_range a1). pose proof (b2z_range a2).
  pose proof (b2z_range a3). pose proof (b2z_range b0). pose proof (b2z_range b1).
  pose proof (b2z_range b2). pose proof (b2z_range b3).
  f_equal; apply b2z_inj; lia.
Qed.

Lemma low_half_prefix : prefix_of LOW_HALF = Some (ip4 0 0 0 0, 1).
Proof. vm_compute. reflexivity. Qed.
Lemma high_half_prefix : prefix_of HIGH_HALF = Some (ip4 128 0 0 0, 1).
Proof. vm_compute. reflexivity. Qed.

(** The two halves cover everything. *)
Lemma halves ip : in_prefix (ip4 0 0 0 0) 1 ip \/ in_prefix (ip4 128 0 0 0) 1 ip.
Proof.
  unfold in_prefix. change (32 - 1) with 31. pose proof (to_u32_range ip).
  rewrite !(Z.shiftr_div_pow2 (to_u32 ip)) by lia.
  change (Z.shiftr (to_u32 (ip4 0 0 0 0)) 31) with 0.
  change (Z.shiftr (to_u32 (ip4 128 0 0 0)) 31) with 1.
  assert (0 <= to_u32 ip / 2 ^ 31 < 2); [|lia].
  split; [apply Z.div_pos; lia|apply Z.div_lt_upper_bound; lia].
Qed.

Lemma host_prefix s ip : parse_ipv4 s = Some ip -> prefix_of s = Some (ip, 32).
Proof.
  unfold parse_ipv4, prefix_of. case_decide as Hd; [subst; vm_compute; done|].
  destruct (read_ipv4 s) as [[ip' [|]]|]; simpl; [|done..]. by intros [= ->].
Qed.

Lemma in_host p ip : in_prefix p 32 ip <-> ip = p.
Proof.
  unfold in_prefix. rewrite !Z.shiftr_0_r. split; [apply to_u32_inj|by intros ->].
Qed.

(** ** Commands *)

Section laws.
Context {W : Type} `{RoutesOk W}.

Lemma run_cmd_snd program args (w : W) : (run_cmd program args w).2 = (spawn program args w).2.
Proof. unfold run_cmd. destruct (spawn program args w) as [[o|] w1]; [by destruct (success o)|done]. Qed.

Lemma run_add dst gw (w : W) :
  exists r w', run_cmd (str "ip") [str "route"; str "add"; dst; str "via"; gw] w = (r, w') /\
    ((r = Ok tt /\ table w !! dst = None /\ table w' = <[dst:=gw]> (table w)) \/
     ((exists e, r = Err e) /\ table w' = table w)).
Proof.
  unfold run_cmd. destruct (spawn _ _ w) as [o w1] eqn:E.
  destruct (table w !! dst) as [g|] eqn:Et.
  - destruct (add_exists _ _ _ _ _ _ Et E) as [Ho Hw]. destruct o as [o|]; simpl in Ho.
    + rewrite Ho. simpl. eexists _, _. split; [done|]. right. split; [by eexists|done].
    + eexists _, _. split; [done|]. right. split; [by eexists|done].
  - pose proof (add_new _ _ _ _ _ Et E) as Hw. destruct o as [o|]; simpl in Hw.
    + destruct (success o); simpl; eexists _, _; (split; [done|]); [by left|right].
      split; [by eexists|done].
    + eexists _, _. split; [done|]. right. split; [by eexists|done].
Qed.

(** Where a setup can stop, and the routes it leaves. *)
Lemma setup_client_routes_cases srv tun gw (w : W) r w' :
  setup_client_routes srv tun gw w = (r, w') ->
  let t1 := <[srv:=gw]> (table w) in
  let t2 := <[LOW_HALF:=show_ipv4 tun]> t1 in
  let t3 := <[HIGH_HALF:=show_ipv4 tun]> t2 in
  (r = Ok (mkSaved srv gw (show_ipv4 tun)) /\ table w' = t3 /\ table w !! srv = None /\
     t1 !! LOW_HALF = None /\ t2 !! HIGH_HALF = None) \/
  ((exists e, r = Err e) /\ (table w' = table w \/ table w' = t1 \/ table w' = t2)).
Proof.
  cbv zeta. unfold setup_client_routes, mbind, M_bind.
  destruct (run_add srv gw w) as (r1 & w1 & -> & [(-> & Hn1 & T1)|([e ->] & T1)]);
    [|intros [= <- <-]; right; eauto].
  destruct (run_add LOW_HALF (show_ipv4 tun) w1) as (r2 & w2 & -> & [(-> & Hn2 & T2)|([e ->] & T2)]);
    [|intros [= <- <-]; right; rewrite T2, T1; eauto].
  destruct (run_add HIGH_HALF (show_ipv4 tun) w2) as (r3 & w3 & -> & [(-> & Hn3 & T3)|([e ->] & T3)]);
    intros [= <- <-]; [left|right]; rewrite ?T3, ?T2, ?T1 in *; eauto 10.
Qed.

Lemma cleanup_client_routes_table saved (w : W) :
  table (cleanup_client_routes saved w).2 =
  delete HIGH_HALF (delete LOW_HALF
    (if decide (table w !! server_real_ip saved = Some (saved_gateway saved))
     then delete (server_real_ip saved) (table w) else table w)).
Proof.
  unfold cleanup_client_routes, mbind, M_bind, ignore. simpl.
  by rewrite !run_cmd_snd, del_any, del_any, del_via.
Qed.

Lemma cleanup_client_dns_table (w : W) : table (cleanup_client_dns w).2 = table w.
Proof.
  unfold cleanup_client_dns. destruct (read_to_string RESOLV_BAK w) as [orig|]; [|done].
  destruct (write_file RESOLV orig w) as [ok1 w1] eqn:E1.
  destruct (remove_file RESOLV_BAK w1) as [ok2 w2] eqn:E2. simpl.
  pose proof (remove_table w1 RESOLV_BAK) as Er. rewrite E2 in Er. simpl in Er. rewrite Er.
  pose proof (write_table w RESOLV orig) as Ew. by rewrite E1 in Ew.
Qed.

Lemma cleanup_stale_client_table (w : W) :
  table (cleanup_stale_client w).2 = delete HIGH_HALF (delete LOW_HALF (table w)).
Proof.
  unfold cleanup_stale_client, mbind, M_bind, ignore.
  rewrite cleanup_client_dns_table. by rewrite !run_cmd_snd, !del_any.
Qed.
End laws.

(** ** Theorems *)

Lemma table3_lookup (t : gmap bytes bytes) srv gw tun dst g :
  <[HIGH_HALF:=tun]> (<[LOW_HALF:=tun]> (<[srv:=gw]> t)) !! dst = Some g ->
  (dst = HIGH_HALF \/ dst = LOW_HALF) /\ g = tun \/ dst = srv /\ g = gw \/ t !! dst = Some g.
Proof.
  intros [[-> ->]|[_ [[-> ->]|[_ [[-> ->]|[_ ?]]%lookup_insert_Some]]%lookup_insert_Some]]%lookup_insert_Some;
    auto.
Qed.

Lemma table3_srv (t : gmap bytes bytes) srv gw tun :
  srv <> LOW_HALF -> srv <> HIGH_HALF ->
  <[HIGH_HALF:=tun]> (<[LOW_HALF:=tun]> (<[srv:=gw]> t)) !! srv = Some gw.
Proof.
  intros Hl Hh. rewrite lookup_insert_ne by done. rewrite lookup_insert_ne by done.
  by rewrite lookup_insert_eq.
Qed.

Lemma table3_fresh (t : gmap bytes bytes) srv gw tun :
  <[srv:=gw]> t !! LOW_HALF = None -> <[LOW_HALF:=tun]> (<[srv:=gw]> t) !! HIGH_HALF = None ->
  srv <> LOW_HALF /\ srv <> HIGH_HALF /\ t !! LOW_HALF = None /\ t !! HIGH_HALF = None.
Proof.
  intros [Hl Hsl]%lookup_insert_None [[Hh Hsh]%lookup_insert_None _]%lookup_insert_None. done.
Qed.

Lemma table3_restore (t : gmap bytes bytes) srv gw tun :
  t !! srv = None -> <[srv:=gw]> t !! LOW_HALF = None ->
  <[LOW_HALF:=tun]> (<[srv:=gw]> t) !! HIGH_HALF = None ->
  delete HIGH_HALF (delete LOW_HALF (delete srv
    (<[HIGH_HALF:=tun]> (<[LOW_HALF:=tun]> (<[srv:=gw]> t))))) = t.
Proof.
  intros Hn Hl Hh. destruct (table3_fresh _ _ _ _ Hl Hh) as (Hsl & Hsh & Htl & Hth).
  apply map_eq. intros k.
  destruct (decide (k = HIGH_HALF)) as [->|]; [by rewrite lookup_delete_eq|].
  rewrite lookup_delete_ne by done.
  destruct (decide (k = LOW_HALF)) as [->|]; [by rewrite lookup_delete_eq|].
  rewrite lookup_delete_ne by done.
  destruct (decide (k = srv)) as [->|]; [by rewrite lookup_delete_eq|].
  by rewrite lookup_delete_ne, !lookup_insert_ne.
Qed.

Lemma table3_matches (t : gmap bytes bytes) srv sip gw tun ip n g :
  parse_ipv4 srv = Some sip -> (forall n g, matches t ip n g -> n = 0) ->
  matches (<[HIGH_HALF:=tun]> (<[LOW_HALF:=tun]> (<[srv:=gw]> t))) ip n g ->
  n = 1 /\ g = tun \/ ip = sip /\ n = 32 /\ g = gw \/ n = 0.
Proof.
  intros Hp H0 (dst & p & Hl & Hd & Hin).
  apply table3_lookup in Hl as [[Hh ->]|[[-> ->]|Ht]].
  - left. split; [|done]. destruct Hh as [-> | ->].
    + rewrite high_half_prefix in Hd. by simplify_eq.
    + rewrite low_half_prefix in Hd. by simplify_eq.
  - rewrite (host_prefix _ _ Hp) in Hd. simplify_eq. apply in_host in Hin. auto.
  - right. right. apply (H0 n g). by exists dst, p.
Qed.

Lemma table3_half (t : gmap bytes bytes) srv gw tun ip :
  matches (<[HIGH_HALF:=tun]> (<[LOW_HALF:=tun]> (<[srv:=gw]> t))) ip 1 tun.
Proof.
  destruct (halves ip) as [Hl|Hh].
  - exists LOW_HALF, (ip4 0 0 0 0). split; [|split; [apply low_half_prefix|done]].
    rewrite lookup_insert_ne by done. by rewrite lookup_insert_eq.
  - exists HIGH_HALF, (ip4 128 0 0 0). split; [|split; [apply high_half_prefix|done]].
    by rewrite lookup_insert_eq.
Qed.

Lemma table3_goes (t : gmap bytes bytes) srv sip gw tun ip g :
  parse_ipv4 srv = Some sip -> (forall n g, matches t ip n g -> n = 0) ->
  goes_via (<[HIGH_HALF:=tun]> (<[LOW_HALF:=tun]> (<[srv:=gw]> t))) ip g <->
  g = if decide (ip = sip) then gw else tun.
Proof.
  intros Hp H0. pose proof (table3_half t srv gw tun ip) as Hhalf.
  assert (Hsrv : ip = sip ->
    matches (<[HIGH_HALF:=tun]> (<[LOW_HALF:=tun]> (<[srv:=gw]> t))) ip 32 gw).
  { intros ->. exists srv, sip. split; [|split; [by apply host_prefix|by apply in_host]].
    apply table3_srv; intros ->; vm_compute in Hp; done. }
  split.
  - intros (n & Hm & Hmax). specialize (Hmax _ _ Hhalf) as H1.
    apply (table3_matches _ _ sip) in Hm as [[-> ->]|[(-> & -> & ->)| ->]]; [|by rewrite decide_True|lia|done..].
    case_decide as Hip; [|done]. specialize (Hmax _ _ (Hsrv Hip)). lia.
  - intros ->. case_decide as Hip.
    + exists 32. split; [by apply Hsrv|]. intros n' g' Hm.
      apply (table3_matches _ _ sip) in Hm as [[-> _]|[(_ & -> & _)| ->]]; [lia..|done|done].
    + exists 1. split; [done|]. intros n' g' Hm.
      apply (table3_matches _ _ sip) in Hm as [[-> _]|[(-> & _)| ->]]; [lia|done|lia|done..].
Qed.

(** The client's routes form a full tunnel. When [setup_client_routes] succeeds,
    every IPv4 address for which the machine had no route more specific than its
    default one is routed through the tunnel, by the longest-prefix rule, except the
    VPN server's own address, which keeps going to the old gateway; and removing the
    saved routes later gives back exactly the table there was. A setup that fails in
    the middle leaves the routes already added in place. *)
Theorem client_routes_full_tunnel {W} `{RoutesOk W} srv tun gw (w w' : W) r :
  setup_client_routes srv tun gw w = (r, w') ->
  (forall saved sip ip, r = Ok saved -> parse_ipv4 srv = Some sip ->
     (forall n g, matches (table w) ip n g -> n = 0) ->
     forall g, goes_via (table w') ip g <-> g = if decide (ip = sip) then gw else show_ipv4 tun) /\
  (forall saved w2, r = Ok saved -> table w2 = table w' ->
     table (cleanup_client_routes saved w2).2 = table w) /\
  (forall e, r = Err e -> exists added, added `prefix_of` [(srv, gw); (LOW_HALF, show_ipv4 tun)] /\
     table w' = foldl (fun t e => <[e.1:=e.2]> t) (table w) added).
Proof.
  intros Hs. destruct (setup_client_routes_cases _ _ _ _ _ _ Hs)
    as [(-> & Ht & Hn1 & Hn2 & Hn3)|([e ->] & Ht)].
  - split; [|split; [|done]].
    + intros saved sip ip _ Hp Hz g. rewrite Ht. by apply table3_goes.
    + intros saved w2 [= <-] Hw2. rewrite cleanup_client_routes_table, Hw2, Ht. simpl.
      destruct (table3_fresh _ _ _ _ Hn2 Hn3) as (Hsl & Hsh & _).
      rewrite decide_True by by apply table3_srv. by apply table3_restore.
  - split; [done|]. split; [done|]. intros e' _. destruct Ht as [Ht|[Ht|Ht]]; rewrite Ht.
    + exists []. split; [apply prefix_nil|done].
    + exists [(srv, gw)]. split; [by eexists|done].
    + exists [(srv, gw); (LOW_HALF, show_ipv4 tun)]. split; [done|done].
Qed.

(** A machine with a route table and files on which every command works. *)
Record Machine := mkMachine { m_table : gmap bytes bytes; m_files : gmap bytes bytes }.

Definition done_ok : option Output := Some (mkOutput true [] []).
Definition done_err : option Output := Some (mkOutput false [] []).

#[local] Instance machine_shell : Shell Machine := fun program args m =>
  match args with
  | [a; b; dst; c; gw] =>
      if decide (b = str "add") then
        match m_table m !! dst with
        | Some _ => (done_err, m)
        | None => (done_ok, mkMachine (<[dst:=gw]> (m_table m)) (m_files m))
        end
      else if decide (m_table m !! dst = Some gw)
      then (done_ok, mkMachine (delete dst (m_table m)) (m_files m)) else (done_err, m)
  | [a; b; dst] => (done_ok, mkMachine (delete dst (m_table m)) (m_files m))
  | _ => (done_err, m)
  end.

#[local] Instance machine_files : Files Machine := {
  read_file p m := m_files m !! p;
  write_file p d m := (true, mkMachine (m_table m) (<[p:=d]> (m_files m)));
  remove_file p m := (true, mkMachine (m_table m) (delete p (m_files m)))
}.

#[local] Instance machine_routes : RoutesOk Machine.
Proof.
  refine {| table := m_table |}.
  - intros w dst gw o w' Hn. unfold spawn, machine_shell. rewrite decide_True, Hn by done.
    by intros [= <- <-].
  - intros w dst gw g o w' Hn. unfold spawn, machine_shell. rewrite decide_True, Hn by done.
    by intros [= <- <-].
  - intros w dst gw. unfold spawn, machine_shell. rewrite decide_False by done. by case_decide.
  - done.
  - done.
  - done.
Defined.

#[local] Instance machine_files_ok : FilesOk Machine.
Proof.
  split.
  - intros w p d q w' [= <-]. simpl. case_decide; subst; [by rewrite lookup_insert_eq|by rewrite lookup_insert_ne].
  - done.
  - intros w p q ok w' [= _ <-] Hq. simpl. by rewrite lookup_delete_ne.
Qed.

Definition ex_machine : Machine :=
  mkMachine {[str "default" := str "192.168.1.1"]} {[RESOLV := str "nameserver 192.168.1.1"]}.

Definition ex_setup : result RouteError SavedRoutes * Machine :=
  setup_client_routes (str "203.0.113.7") (ip4 10 0 1 1) (str "192.168.1.1") ex_machine.

Lemma ex_setup_ok : is_ok ex_setup.1 = true.
Proof. vm_compute. reflexivity. Qed.

Lemma client_routes_full_tunnel_witness :
  exists saved w', ex_setup = (Ok saved, w') /\
    table (cleanup_client_routes saved w').2 = table ex_machine.
Proof.
  pose proof ex_setup_ok as Hok. unfold ex_setup in *.
  destruct (setup_client_routes _ _ _ ex_machine) as [[saved|e] w'] eqn:E; [|discriminate Hok].
  exists saved, w'. split; [reflexivity|].
  apply (proj1 (proj2 (client_routes_full_tunnel _ _ _ _ _ _ E)) saved w' eq_refl eq_refl).
Defined.

(** A killed client cannot come back. After a successful setup, a client that was
    killed before its cleanup is started again: its cleanup of stale state removes the
    two halves but not the route to the server, and then the new setup, towards the
    same server, fails at its first command, whatever the gateway. *)
Theorem stale_host_route_blocks_restart {W} `{RoutesOk W} srv tun gw tun' gw' (w w1 : W) saved :
  setup_client_routes srv tun gw w = (Ok saved, w1) ->
  exists e w2, setup_client_routes srv tun' gw' (cleanup_stale_client w1).2 = (Err e, w2).
Proof.
  intros Hs. destruct (setup_client_routes_cases _ _ _ _ _ _ Hs)
    as [(_ & Ht & Hn1 & Hn2 & Hn3)|([e He] & _)]; [|done].
  destruct (table3_fresh _ _ _ _ Hn2 Hn3) as (Hsl & Hsh & _).
  assert (Hstale : table (cleanup_stale_client w1).2 !! srv = Some gw).
  { rewrite cleanup_stale_client_table, Ht. rewrite !lookup_delete_ne by done. by apply table3_srv. }
  unfold setup_client_routes, mbind, M_bind.
  destruct (run_add srv gw' (cleanup_stale_client w1).2) as (r & w2 & -> & [(_ & Hn & _)|([e ->] & _)]);
    [by rewrite Hstale in Hn|]. by exists e, w2.
Qed.

Lemma stale_host_route_blocks_restart_witness :
  exists saved w1 e w2, ex_setup = (Ok saved, w1) /\
    setup_client_routes (str "203.0.113.7") (ip4 10 0 1 1) (str "192.168.1.1")
      (cleanup_stale_client w1).2 = (Err e, w2).
Proof.
  pose proof ex_setup_ok as Hok. unfold ex_setup in *.
  destruct (setup_client_routes _ _ _ ex_machine) as [[saved|e] w1] eqn:E; [|discriminate Hok].
  destruct (stale_host_route_blocks_restart _ _ _ (ip4 10 0 1 1) (str "192.168.1.1") _ _ _ E)
    as (e & w2 & E2).
  exists saved, w1, e, w2. split; [reflexivity|exact E2].
Defined.

Lemma read_to_string_text {W} `{Files W} path text (w : W) :
  read_file path w = Some text -> utf8_valid text = true -> read_to_string path w = Some text.
Proof. unfold read_to_string. intros -> Hu. cbn [mbind option_bind]. by rewrite Hu. Qed.

(** After an override of a text [orig] whose backup could be written. *)
Lemma setup_client_dns_files {W} `{FilesOk W} orig (w w1 : W) :
  read_file RESOLV w = Some orig -> utf8_valid orig = true -> setup_client_dns w = (Ok tt, w1) ->
  read_file RESOLV w1 = Some tunnel_dns /\
  ((write_file RESOLV_BAK orig w).1 = true -> read_file RESOLV_BAK w1 = Some orig).
Proof.
  unfold setup_client_dns. intros Ho Hu. rewrite (read_to_string_text _ _ _ Ho Hu). simpl.
  destruct (write_file RESOLV_BAK orig w) as [ok0 w0] eqn:E0. unfold write_or_io.
  destruct (write_file RESOLV tunnel_dns w0) as [[|] w2] eqn:E1; [|done]. intros [= ->]. simpl.
  split; [by rewrite (read_written _ _ _ _ _ E1), decide_True|]. intros ->.
  rewrite (read_written _ _ _ _ _ E1), decide_False by done.
  by rewrite (read_written _ _ _ _ _ E0), decide_True.
Qed.

Lemma cleanup_client_dns_files {W} `{FilesOk W} orig (w : W) :
  read_file RESOLV_BAK w = Some orig -> utf8_valid orig = true -> (write_file RESOLV orig w).1 = true ->
  read_file RESOLV (cleanup_client_dns w).2 = Some orig.
Proof.
  intros Hb Hu. unfold cleanup_client_dns. rewrite (read_to_string_text _ _ _ Hb Hu).
  destruct (write_file RESOLV orig w) as [ok3 w3] eqn:E3. simpl. intros ->.
  destruct (remove_file RESOLV_BAK w3) as [ok4 w4] eqn:E4. simpl.
  rewrite (read_removed _ _ _ _ _ E4) by done.
  by rewrite (read_written _ _ _ _ _ E3), decide_True.
Qed.

(** The DNS override is undone. After [setup_client_dns] the resolver file holds the
    two tunnel servers; when the original was text and its backup could be written,
    cleaning up (with the files writable) puts it back. A file that is not UTF-8 is taken for
    empty, and the empty text is what the cleanup then restores. *)
Theorem client_dns_restored {W} `{FilesOk W} orig (w w1 : W) :
  read_file RESOLV w = Some orig -> setup_client_dns w = (Ok tt, w1) ->
  if utf8_valid orig then
    read_file RESOLV w1 = Some tunnel_dns /\
    ((write_file RESOLV_BAK orig w).1 = true -> (write_file RESOLV orig w1).1 = true ->
     read_file RESOLV (cleanup_client_dns w1).2 = Some orig)
  else (write_file RESOLV_BAK [] w).1 = true -> (write_file RESOLV [] w1).1 = true ->
     read_file RESOLV (cleanup_client_dns w1).2 = Some [].
Proof.
  intros Ho E. destruct (utf8_valid orig) eqn:Hu.
  - destruct (setup_client_dns_files orig w w1 Ho Hu E) as [Hr Hb]. split; [done|].
    intros Hw1 Hw2. by apply cleanup_client_dns_files; [apply Hb|..].
  - intros Hw1 Hw2. revert E. unfold setup_client_dns, read_to_string. rewrite Ho. cbn [mbind option_bind].
    rewrite Hu. simpl. destruct (write_file RESOLV_BAK [] w) as [ok0 w0] eqn:E0. simpl in Hw1. subst ok0.
    unfold write_or_io. destruct (write_file RESOLV tunnel_dns w0) as [[|] w2] eqn:E1; [|done]. intros [= ->].
    apply cleanup_client_dns_files; [|done|done].
    rewrite (read_written _ _ _ _ _ E1), decide_False by done.
    by rewrite (read_written _ _ _ _ _ E0), decide_True.
Qed.

Definition ex_dns : result RouteError unit * Machine := setup_client_dns ex_machine.

Lemma ex_dns_ok : is_ok ex_dns.1 = true.
Proof. vm_compute. reflexivity. Qed.

Lemma ex_resolv : read_file RESOLV ex_machine = Some (str "nameserver 192.168.1.1").
Proof. vm_compute. reflexivity. Qed.

Lemma client_dns_restored_witness :
  exists w1, ex_dns = (Ok tt, w1) /\
    read_file RESOLV (cleanup_client_dns w1).2 = Some (str "nameserver 192.168.1.1").
Proof.
  pose proof ex_dns_ok as Hok. unfold ex_dns in *.
  destruct (setup_client_dns ex_machine) as [[[]|e] w1] eqn:E; [|discriminate Hok].
  exists w1. split; [reflexivity|].
  pose proof (client_dns_restored _ ex_machine w1 ex_resolv E) as Hd.
  assert (Hu : utf8_valid (str "nameserver 192.168.1.1") = true) by (vm_compute; reflexivity).
  rewrite Hu in Hd. destruct Hd as [_ Hd]. apply Hd; reflexivity.
Defined.
