(* ===== verification/RoutePorts.v ===== *)
(** The macOS and Windows branches of [redpill-tun/src/route.rs]: interface, default
    gateway, routes, DNS and the removal of stale state. The Linux branch is in [Route];
    the shapes are the same, the commands differ.

    Classes [MacRoutesOk] and [WinRoutesOk] state what the two [route] commands do; class
    [Scutil] runs [scutil] with a script on its standard input. *)

From S2P Require Import Prelude Datagram Text IpText Route.

(** ** macOS *)

Class Scutil (W : Type) := scutil : bytes -> W -> option Output * W.

Section macos.
Context {W : Type} `{Shell W, Scutil W}.

Definition mac_configure_client_interface (dev_name : bytes) (client_ip server_tunnel_ip : Ipv4Addr)
    (mtu : Z) : M W unit :=
  run_cmd (str "ifconfig")
    [dev_name; str "inet"; show_ipv4 client_ip; show_ipv4 server_tunnel_ip; str "mtu"; show_int mtu; str "up"].

(** The value of the last line that starts with [key]. *)
Definition last_value (key : bytes) (ls : list bytes) : option bytes :=
  foldl (fun acc line =>
    match strip_prefix key (trim line) with Some v => Some (trim v) | None => acc end) None ls.

Definition is_utun (iface : bytes) : bool := starts_with (str "utun") iface.

(** A default route of [netstat -rn] on an interface that is not a tunnel. *)
Definition physical_gateway (line : bytes) : option bytes :=
  let parts := split_whitespace line in
  match parts with
  | dst :: gw :: _ :: netif :: _ =>
      if decide (dst = str "default") then if is_utun netif then None else Some gw else None
  | _ => None
  end.

(** The gateway of the default route, unless that goes through a tunnel. *)
Definition direct_gateway (ls : list bytes) : option bytes :=
  gw ← last_value (str "gateway:") ls;
  iface ← last_value (str "interface:") ls;
  if negb (is_utun iface) then Some gw else None.

Definition mac_get_default_gateway : M W bytes :=
  output ← run_cmd_output (str "route") [str "-n"; str "get"; str "default"];
  match direct_gateway (lines output) with
  | Some gw => mret gw
  | None =>
      table ← run_cmd_output (str "netstat") [str "-rn"; str "-f"; str "inet"];
      match omap physical_gateway (lines table), last_value (str "gateway:") (lines output) with
      | p :: _, _ => mret p
      | [], Some gw => mret gw
      | [], None => fail_with NoDefaultGateway
      end
  end.

Definition mac_setup_client_routes (server_real_ip : bytes) (server_tunnel_ip : Ipv4Addr)
    (gateway : bytes) : M W SavedRoutes :=
  let tunnel_ip := show_ipv4 server_tunnel_ip in
  _ ← run_cmd (str "route") [str "add"; str "-host"; server_real_ip; gateway];
  _ ← run_cmd (str "route") [str "add"; str "-net"; LOW_HALF; tunnel_ip];
  _ ← run_cmd (str "route") [str "add"; str "-net"; HIGH_HALF; tunnel_ip];
  mret (mkSaved server_real_ip gateway tunnel_ip).

Definition mac_cleanup_client_routes (saved : SavedRoutes) : M W unit :=
  _ ← ignore (run_cmd (str "route")
        [str "delete"; str "-host"; server_real_ip saved; saved_gateway saved]);
  _ ← ignore (run_cmd (str "route") [str "delete"; str "-net"; LOW_HALF; saved_tunnel_ip saved]);
  ignore (run_cmd (str "route") [str "delete"; str "-net"; HIGH_HALF; saved_tunnel_ip saved]).

Definition DNS_KEY : bytes := str "State:/Network/Service/RedpillVPN/DNS".

Definition setup_script : bytes :=
  str "d.init" ++ [NL] ++
  str "d.add ServerAddresses * " ++ DNS_PRIMARY ++ [SP] ++ DNS_SECONDARY ++ [NL] ++
  str "d.add SupplementalMatchDomains * " ++ [x22; x22] ++ [NL] ++
  str "d.add SupplementalMatchOrder # 1" ++ [NL] ++
  str "set " ++ DNS_KEY ++ [NL] ++ str "quit" ++ [NL].
Definition remove_script : bytes := str "remove " ++ DNS_KEY ++ [NL] ++ str "quit" ++ [NL].

Definition mac_setup_client_dns : M W unit := fun w =>
  match scutil setup_script w with
  | (None, w) => (Err Io, w)
  | (Some output, w) =>
      if negb (success output)
      then (Err (CommandFailed (str "scutil (setup DNS)") (stderr output)), w) else (Ok tt, w)
  end.

Definition mac_cleanup_client_dns : M W unit := fun w => (Ok tt, (scutil remove_script w).2).

(** [line.split(':').next()] *)
Definition before_colon (line : bytes) : option bytes :=
  head (split_on (fun b => bool_decide (b = x3a)) line).

(** The tunnel interfaces of [ifconfig -a] with an address of the VPN, once per line that
    shows one. *)
Fixpoint stale_ifaces (current : option bytes) (ls : list bytes) : list bytes :=
  match ls with
  | [] => []
  | line :: ls =>
      if negb (starts_with [x09] line) && negb (starts_with [SP] line)
      then stale_ifaces (before_colon line) ls
      else if contains (str "10.0.1.") line then
        match current with
        | Some iface => (if is_utun iface then [iface] else []) ++ stale_ifaces current ls
        | None => stale_ifaces current ls
        end
      else stale_ifaces current ls
  end.

Definition SERVER_TUNNEL : bytes := str "10.0.1.1".

Definition bring_down (iface : bytes) : M W unit :=
  _ ← ignore (run_cmd (str "ifconfig") [iface; str "down"]);
  _ ← ignore (run_cmd (str "ifconfig") [iface; str "delete"; SERVER_TUNNEL]);
  ignore (run_cmd (str "route") [str "delete"; str "-host"; SERVER_TUNNEL]).

Definition bring_down_stale : M W unit := fun w =>
  match spawn (str "ifconfig") [str "-a"] w with
  | (None, w) => (Ok tt, w)
  | (Some output, w) => for_each (stale_ifaces None (lines (stdout output))) bring_down w
  end.

Definition mac_cleanup_stale_client : M W unit :=
  _ ← ignore (run_cmd (str "route") [str "delete"; str "-net"; LOW_HALF]);
  _ ← ignore (run_cmd (str "route") [str "delete"; str "-net"; HIGH_HALF]);
  _ ← ignore (run_cmd (str "route") [str "delete"; str "-host"; SERVER_TUNNEL]);
  _ ← ignore (run_cmd (str "route") [str "delete"; str "-net"; str "10.0.1.0/24"]);
  _ ← bring_down_stale;
  mac_cleanup_client_dns.
End macos.

(** ** Windows *)

Section windows.
Context {W : Type} `{Shell W}.

Definition win_configure_client_interface (dev_name : bytes) (client_ip server_tunnel_ip : Ipv4Addr)
    (mtu : Z) : M W unit :=
  _ ← run_cmd (str "netsh")
        [str "interface"; str "ip"; str "set"; str "address"; dev_name; str "static";
         show_ipv4 client_ip; str "255.255.255.0"; show_ipv4 server_tunnel_ip];
  run_cmd (str "netsh")
    [str "interface"; str "ipv4"; str "set"; str "subinterface"; dev_name;
     str "mtu=" ++ show_int mtu; str "store=active"].

Definition win_gateway_of (line : bytes) : option bytes :=
  match split_whitespace line with
  | a :: b :: gw :: _ => if decide (a = str "0.0.0.0" /\ b = str "0.0.0.0") then Some gw else None
  | _ => None
  end.

Definition win_get_default_gateway : M W bytes :=
  output ← run_cmd_output (str "route") [str "print"; str "0.0.0.0"];
  match omap win_gateway_of (lines output) with
  | gw :: _ => mret gw
  | [] => fail_with NoDefaultGateway
  end.

Definition win_add (dst mask gw : bytes) : M W unit :=
  run_cmd (str "route") [str "add"; dst; str "mask"; mask; gw; str "metric"; str "1"].
Definition HALF_MASK : bytes := str "128.0.0.0".
Definition HOST_MASK : bytes := str "255.255.255.255".

Definition win_setup_client_routes (server_real_ip : bytes) (server_tunnel_ip : Ipv4Addr)
    (gateway : bytes) : M W SavedRoutes :=
  let tunnel_ip := show_ipv4 server_tunnel_ip in
  _ ← win_add server_real_ip HOST_MASK gateway;
  _ ← win_add (str "0.0.0.0") HALF_MASK tunnel_ip;
  _ ← win_add (str "128.0.0.0") HALF_MASK tunnel_ip;
  mret (mkSaved server_real_ip gateway tunnel_ip).

Definition win_delete_half (dst : bytes) : M W unit :=
  ignore (run_cmd (str "route") [str "delete"; dst; str "mask"; HALF_MASK]).

Definition win_cleanup_client_routes (saved : SavedRoutes) : M W unit :=
  _ ← ignore (run_cmd (str "route") [str "delete"; server_real_ip saved]);
  _ ← win_delete_half (str "0.0.0.0");
  win_delete_half (str "128.0.0.0").

Definition WIN_DEV : bytes := str "Redpill VPN".

Definition win_setup_client_dns : M W unit :=
  _ ← run_cmd (str "netsh")
        [str "interface"; str "ip"; str "set"; str "dns"; WIN_DEV; str "static"; DNS_PRIMARY; str "primary"];
  ignore (run_cmd (str "netsh")
    [str "interface"; str "ip"; str "add"; str "dns"; WIN_DEV; DNS_SECONDARY; str "index=2"]).

Definition win_cleanup_client_dns : M W unit :=
  ignore (run_cmd (str "netsh") [str "interface"; str "ip"; str "set"; str "dns"; WIN_DEV; str "dhcp"]).

Definition win_cleanup_stale_client : M W unit :=
  _ ← win_delete_half (str "0.0.0.0");
  _ ← win_delete_half (str "128.0.0.0");
  win_cleanup_client_dns.
End windows.

(** ** What the commands do *)

(** [mac_table]: the routes by destination. Adding a route to a destination without one puts
    it there or fails; [delete] with a gateway removes the route through that gateway, and
    without one any route to the destination. Other commands leave the table alone. *)
Class MacRoutesOk (W : Type) `{Shell W, Scutil W} := {
  mac_table : W -> gmap bytes bytes;
  mac_add_new kind w dst gw o w' : mac_table w !! dst = None ->
    spawn (str "route") [str "add"; kind; dst; gw] w = (o, w') ->
    mac_table w' = if ran o then <[dst:=gw]> (mac_table w) else mac_table w;
  mac_del_via kind w dst gw :
    mac_table (spawn (str "route") [str "delete"; kind; dst; gw] w).2 =
      if decide (mac_table w !! dst = Some gw) then delete dst (mac_table w) else mac_table w;
  mac_del_any kind w dst :
    mac_table (spawn (str "route") [str "delete"; kind; dst] w).2 = delete dst (mac_table w);
  ifconfig_keeps args w : mac_table (spawn (str "ifconfig") args w).2 = mac_table w;
  scutil_keeps script w : mac_table (scutil script w).2 = mac_table w
}.

(** The same for Windows, with the mask written as a prefix length. *)
Definition win_key (dst mask : bytes) : option bytes :=
  if decide (mask = HOST_MASK) then Some dst
  else if decide (mask = HALF_MASK) then Some (dst ++ str "/1") else None.

Class WinRoutesOk (W : Type) `{Shell W} := {
  win_table : W -> gmap bytes bytes;
  win_add_new w dst mask gw key o w' : win_key dst mask = Some key -> win_table w !! key = None ->
    spawn (str "route") [str "add"; dst; str "mask"; mask; gw; str "metric"; str "1"] w = (o, w') ->
    win_table w' = if ran o then <[key:=gw]> (win_table w) else win_table w;
  win_del_mask w dst mask key : win_key dst mask = Some key ->
    win_table (spawn (str "route") [str "delete"; dst; str "mask"; mask] w).2 = delete key (win_table w);
  win_del_host w dst :
    win_table (spawn (str "route") [str "delete"; dst] w).2 = delete dst (win_table w);
  win_netsh_keeps args w : win_table (spawn (str "netsh") args w).2 = win_table w
}.

(** ** Three routes, whatever command adds them *)

Section three.
Context {W : Type} (tbl : W -> gmap bytes bytes).

(** [m] adds a route to [k], where there is none. *)
Definition adds_route (m : M W unit) (k g : bytes) : Prop :=
  forall w w', tbl w !! k = None -> m w = (Ok tt, w') -> tbl w' = <[k:=g]> (tbl w).

(** None of the three destinations has a route. *)
Definition no_routes (srv : bytes) (t : gmap bytes bytes) : Prop :=
  t !! srv = None /\ t !! LOW_HALF = None /\ t !! HIGH_HALF = None /\ srv <> LOW_HALF /\ srv <> HIGH_HALF.

Definition table3 (srv gw tun : bytes) (t : gmap bytes bytes) : gmap bytes bytes :=
  <[HIGH_HALF:=tun]> (<[LOW_HALF:=tun]> (<[srv:=gw]> t)).

Lemma no_routes_fresh srv gw tun t : no_routes srv t ->
  <[srv:=gw]> t !! LOW_HALF = None /\ <[LOW_HALF:=tun]> (<[srv:=gw]> t) !! HIGH_HALF = None.
Proof.
  intros (_ & Hl & Hh & Hsl & Hsh). split; [by rewrite lookup_insert_ne|].
  rewrite lookup_insert_ne by done. by rewrite lookup_insert_ne.
Qed.

Lemma three_adds {A} m1 m2 m3 (x y : A) srv gw tun w w' :
  adds_route m1 srv gw -> adds_route m2 LOW_HALF tun -> adds_route m3 HIGH_HALF tun ->
  no_routes srv (tbl w) ->
  (_ ← m1; _ ← m2; _ ← m3; mret x) w = (Ok y, w') -> y = x /\ tbl w' = table3 srv gw tun (tbl w).
Proof.
  intros A1 A2 A3 Hno. destruct (no_routes_fresh srv gw tun _ Hno) as [F2 F3].
  unfold mbind, M_bind. destruct (m1 w) as [[[]|] w1] eqn:E1; [|done].
  destruct (m2 w1) as [[[]|] w2] eqn:E2; [|done]. destruct (m3 w2) as [[[]|] w3] eqn:E3; [|done].
  intros [= <- <-]. split; [done|]. unfold table3.
  pose proof (A1 _ _ (proj1 Hno) E1) as T1. rewrite <-T1 in *.
  pose proof (A2 _ _ F2 E2) as T2. rewrite <-T2 in *. by rewrite (A3 _ _ F3 E3).
Qed.
End three.

(** A command that succeeds when its output says so. *)
Lemma run_cmd_ok {W} `{Shell W} program args (w w' : W) :
  run_cmd program args w = (Ok tt, w') -> exists o, spawn program args w = (o, w') /\ ran o = true.
Proof.
  unfold run_cmd. destruct (spawn program args w) as [[o|] w1]; [|done].
  destruct (success o) eqn:E; simpl; [|done]. intros [= <-]. by exists (Some o).
Qed.

Section mac_lemmas.
Context {W : Type} `{MacRoutesOk W}.

Lemma mac_adds kind dst gw : adds_route mac_table (run_cmd (str "route") [str "add"; kind; dst; gw]) dst gw.
Proof.
  intros w w' Hn (o & E & Ho)%run_cmd_ok. rewrite (mac_add_new _ _ _ _ _ _ Hn E). by rewrite Ho.
Qed.

Lemma mac_cleanup_table saved (w : W) :
  let del dst gw t := if decide (t !! dst = Some gw) then delete dst t else t in
  mac_table (mac_cleanup_client_routes saved w).2 =
    del HIGH_HALF (saved_tunnel_ip saved) (del LOW_HALF (saved_tunnel_ip saved)
      (del (server_real_ip saved) (saved_gateway saved) (mac_table w))).
Proof.
  unfold mac_cleanup_client_routes, mbind, M_bind, ignore. cbn [snd].
  by rewrite !run_cmd_snd, !mac_del_via.
Qed.

Lemma bring_down_table ifs : forall w : W,
  mac_table (for_each ifs bring_down w).2 = mac_table w \/
  mac_table (for_each ifs bring_down w).2 = delete SERVER_TUNNEL (mac_table w).
Proof.
  induction ifs as [|i ifs IH]; intros w; [by left|]. right.
  cbn [for_each]. unfold mbind at 1, M_bind at 1, bring_down at 1, ignore, mbind, M_bind. cbn [snd].
  set (w3 := (run_cmd (str "route") [str "delete"; str "-host"; SERVER_TUNNEL] _).2).
  assert (Hw3 : mac_table w3 = delete SERVER_TUNNEL (mac_table w)).
  { unfold w3. by rewrite !run_cmd_snd, mac_del_any, !ifconfig_keeps. }
  destruct (IH w3) as [-> | ->]; rewrite Hw3; [done|]. by rewrite delete_delete_eq.
Qed.

(** What a start after a kill removes: not the route to the server. *)
Lemma mac_stale_keeps (w : W) dst g :
  dst ∉ [LOW_HALF; HIGH_HALF; SERVER_TUNNEL; str "10.0.1.0/24"] -> mac_table w !! dst = Some g ->
  mac_table (mac_cleanup_stale_client w).2 !! dst = Some g.
Proof.
  intros Hd Hg. unfold mac_cleanup_stale_client, ignore, mbind, M_bind. cbn [snd].
  set (w4 := (run_cmd (str "route") [str "delete"; str "-net"; str "10.0.1.0/24"] _).2).
  assert (H4 : mac_table w4 !! dst = Some g).
  { unfold w4. rewrite !run_cmd_snd, !mac_del_any. rewrite !lookup_delete_ne by set_solver. done. }
  unfold bring_down_stale. destruct (spawn (str "ifconfig") [str "-a"] w4) as [o w5] eqn:E5.
  assert (H5 : mac_table w5 !! dst = Some g).
  { pose proof (ifconfig_keeps [str "-a"] w4) as Hk. rewrite E5 in Hk. simpl in Hk. by rewrite Hk. }
  destruct o as [o|]; cbn [snd fst].
  2: { unfold mac_cleanup_client_dns. simpl. by rewrite scutil_keeps. }
  destruct (bring_down_table (stale_ifaces None (lines (stdout o))) w5) as [Hb|Hb];
    destruct (for_each _ bring_down w5) as [[[]|e] w6]; cbn [snd] in *;
    unfold mac_cleanup_client_dns; cbn [snd]; rewrite ?scutil_keeps, Hb, ?lookup_delete_ne by set_solver; done.
Qed.
End mac_lemmas.

Section win_lemmas.
Context {W : Type} `{WinRoutesOk W}.

Lemma win_adds dst mask key gw : win_key dst mask = Some key -> adds_route win_table (win_add dst mask gw) key gw.
Proof.
  intros Hk w w' Hn (o & E & Ho)%run_cmd_ok. rewrite (win_add_new _ _ _ _ _ _ _ Hk Hn E). by rewrite Ho.
Qed.

Lemma win_cleanup_table saved (w : W) :
  win_table (win_cleanup_client_routes saved w).2 =
    delete HIGH_HALF (delete LOW_HALF (delete (server_real_ip saved) (win_table w))).
Proof.
  unfold win_cleanup_client_routes, win_delete_half, mbind, M_bind, ignore. cbn [snd].
  rewrite !run_cmd_snd, (win_del_mask _ (str "128.0.0.0") HALF_MASK HIGH_HALF) by reflexivity.
  by rewrite (win_del_mask _ (str "0.0.0.0") HALF_MASK LOW_HALF), win_del_host.
Qed.

Lemma win_stale_keeps (w : W) dst g :
  dst <> LOW_HALF -> dst <> HIGH_HALF -> win_table w !! dst = Some g ->
  win_table (win_cleanup_stale_client w).2 !! dst = Some g.
Proof.
  intros Hl Hh Hg. unfold win_cleanup_stale_client, win_cleanup_client_dns, win_delete_half, mbind, M_bind, ignore.
  cbn [snd]. rewrite !run_cmd_snd, win_netsh_keeps.
  rewrite (win_del_mask _ (str "128.0.0.0") HALF_MASK HIGH_HALF) by reflexivity.
  rewrite (win_del_mask _ (str "0.0.0.0") HALF_MASK LOW_HALF) by reflexivity.
  by rewrite !lookup_delete_ne.
Qed.
End win_lemmas.

(** ** Theorems *)

(** The three routes in force: everything without a more specific route goes into the
    tunnel, except the server. *)
Definition full_tunnel (srv gw tun : bytes) (before after : gmap bytes bytes) : Prop :=
  forall sip ip g, parse_ipv4 srv = Some sip -> (forall n g, matches before ip n g -> n = 0) ->
    goes_via after ip g <-> g = if decide (ip = sip) then gw else tun.

Lemma table3_full srv gw tun t : full_tunnel srv gw tun t (table3 srv gw tun t).
Proof. intros sip ip g Hp Hz. by apply table3_goes. Qed.

Lemma delete_via_table3 srv gw tun t : no_routes srv t ->
  let del dst gw t := if decide (t !! dst = Some gw) then delete dst t else t in
  del HIGH_HALF tun (del LOW_HALF tun (del srv gw (table3 srv gw tun t))) = t.
Proof.
  intros Hno. cbv zeta. destruct (no_routes_fresh srv gw tun t Hno) as [F2 F3].
  pose proof Hno as (Hs & _ & _ & Hsl & Hsh). unfold table3.
  assert (HL : LOW_HALF <> HIGH_HALF) by (intros E; vm_compute in E; discriminate E).
  rewrite (decide_True (P:=_ !! srv = _)) by (by apply table3_srv).
  rewrite (decide_True (P:=_ !! LOW_HALF = _)).
  2: { rewrite lookup_delete_ne by done. rewrite lookup_insert_ne by done. by rewrite lookup_insert_eq. }
  rewrite decide_True.
  2: { rewrite !lookup_delete_ne by done. by rewrite lookup_insert_eq. }
  by apply table3_restore.
Qed.

(** [C15] On macOS and Windows too the client's routes form a full tunnel. Where the three
    destinations have no route yet, a setup that succeeds sends every address without a
    more specific route into the tunnel, except the server's; the cleanup gives back the
    table there was. But the cleanup of stale state at the next start, after a kill,
    leaves the host route to the server in place, as on Linux. *)
Theorem ports_full_tunnel srv tun gw :
  (forall W `{MacRoutesOk W} (w w' : W) saved,
     no_routes srv (mac_table w) -> mac_setup_client_routes srv tun gw w = (Ok saved, w') ->
     full_tunnel srv gw (show_ipv4 tun) (mac_table w) (mac_table w') /\
     (forall w2, mac_table w2 = mac_table w' -> mac_table (mac_cleanup_client_routes saved w2).2 = mac_table w) /\
     (srv ∉ [SERVER_TUNNEL; str "10.0.1.0/24"] ->
        mac_table (mac_cleanup_stale_client w').2 !! srv = Some gw)) /\
  (forall W `{WinRoutesOk W} (w w' : W) saved,
     no_routes srv (win_table w) -> win_setup_client_routes srv tun gw w = (Ok saved, w') ->
     full_tunnel srv gw (show_ipv4 tun) (win_table w) (win_table w') /\
     (forall w2, win_table w2 = win_table w' -> win_table (win_cleanup_client_routes saved w2).2 = win_table w) /\
     win_table (win_cleanup_stale_client w').2 !! srv = Some gw).
Proof.
  split.
  - intros W Hsh Hsc Hok w w' saved Hno E. unfold mac_setup_client_routes in E.
    destruct (three_adds mac_table _ _ _ _ _ _ _ _ _ _ (mac_adds _ _ _) (mac_adds _ _ _) (mac_adds _ _ _)
      Hno E) as [-> Ht].
    rewrite Ht. split; [apply table3_full|]. split.
    + intros w2 Hw2. rewrite mac_cleanup_table, Hw2. by apply delete_via_table3.
    + intros Hs. pose proof Hno as (_ & _ & _ & Hsl & Hsh').
      apply mac_stale_keeps; [set_solver|]. rewrite Ht. by apply table3_srv.
  - intros W Hsh Hok w w' saved Hno E. unfold win_setup_client_routes in E.
    destruct (three_adds win_table _ _ _ _ _ _ _ _ _ _
      (win_adds srv HOST_MASK srv _ eq_refl) (win_adds (str "0.0.0.0") HALF_MASK LOW_HALF _ eq_refl)
      (win_adds (str "128.0.0.0") HALF_MASK HIGH_HALF _ eq_refl) Hno E) as [-> Ht].
    rewrite Ht. pose proof Hno as (Hs & _ & _ & Hsl & Hsh').
    destruct (no_routes_fresh srv gw (show_ipv4 tun) _ Hno) as [F2 F3].
    split; [apply table3_full|]. split.
    + intros w2 Hw2. rewrite win_cleanup_table, Hw2. by apply table3_restore.
    + apply win_stale_keeps; [done..|]. rewrite Ht. by apply table3_srv.
Qed.

(** A Mac on which every command works. *)
Record Mac := mkMac { mac_routes : gmap bytes bytes }.

#[local] Instance mac_shell : Shell Mac := fun program args m =>
  if decide (program = str "route") then
    match args with
    | [op; kind; dst; gw] =>
        if decide (op = str "add") then (done_ok, mkMac (<[dst:=gw]> (mac_routes m)))
        else if decide (mac_routes m !! dst = Some gw)
        then (done_ok, mkMac (delete dst (mac_routes m))) else (done_err, m)
    | [op; kind; dst] => (done_ok, mkMac (delete dst (mac_routes m)))
    | _ => (done_err, m)
    end
  else (done_ok, m).
#[local] Instance mac_scutil : Scutil Mac := fun _ m => (done_ok, m).

#[local] Instance mac_ok : MacRoutesOk Mac.
Proof.
  refine {| mac_table := mac_routes |}; unfold spawn, mac_shell.
  - intros kind w dst gw o w' _. rewrite !decide_True by done. by intros [= <- <-].
  - intros kind w dst gw. rewrite decide_True by done. rewrite decide_False by done. by case_decide.
  - done.
  - done.
  - done.
Defined.

Definition ex_mac : Mac := mkMac {[str "default" := str "192.168.1.1"]}.
Definition ex_mac_setup : result RouteError SavedRoutes * Mac :=
  mac_setup_client_routes (str "203.0.113.7") (ip4 10 0 1 1) (str "192.168.1.1") ex_mac.

Lemma ex_mac_setup_ok : is_ok ex_mac_setup.1 = true.
Proof. vm_compute. reflexivity. Qed.

Lemma ports_full_tunnel_witness :
  exists saved w', ex_mac_setup = (Ok saved, w') /\
    mac_table (mac_cleanup_client_routes saved w').2 = mac_table ex_mac.
Proof.
  pose proof ex_mac_setup_ok as Hok. unfold ex_mac_setup in *.
  destruct (mac_setup_client_routes _ _ _ ex_mac) as [[saved|e] w'] eqn:E; [|discriminate Hok].
  exists saved, w'. split; [reflexivity|].
  destruct (ports_full_tunnel (str "203.0.113.7") (ip4 10 0 1 1) (str "192.168.1.1")) as [Hmac _].
  destruct (Hmac Mac mac_shell mac_scutil mac_ok ex_mac w' saved) as (_ & Hc & _).
  - repeat split; vm_compute; (reflexivity || discriminate).
  - exact E.
  - apply Hc. reflexivity.
Defined.

(** Windows. *)
Record Win := mkWin { win_routes : gmap bytes bytes }.

#[local] Instance win_shell : Shell Win := fun program args m =>
  if decide (program = str "route") then
    match args with
    | [_; dst; _; mask; gw; _; _] =>
        match win_key dst mask with
        | Some key => (done_ok, mkWin (<[key:=gw]> (win_routes m)))
        | None => (done_err, m)
        end
    | [_; dst; _; mask] =>
        match win_key dst mask with
        | Some key => (done_ok, mkWin (delete key (win_routes m)))
        | None => (done_err, m)
        end
    | [_; dst] => (done_ok, mkWin (delete dst (win_routes m)))
    | _ => (done_err, m)
    end
  else (done_ok, m).

#[local] Instance win_ok : WinRoutesOk Win.
Proof.
  refine {| win_table := win_routes |}; unfold spawn, win_shell.
  - intros w dst mask gw key o w' Hk _. rewrite decide_True by done. rewrite Hk. by intros [= <- <-].
  - intros w dst mask key Hk. rewrite decide_True by done. by rewrite Hk.
  - done.
  - done.
Defined.

(** With another VPN in force the gateway of the physical interface is found. *)
Example gateway_past_a_tunnel :
  direct_gateway [str "    gateway: 10.8.0.1"; str "  interface: utun3"] = None /\
  omap physical_gateway [str "Destination Gateway Flags Netif";
    str "default 10.8.0.1 UGScg utun3"; str "default 192.168.1.1 UGScIg en0"] = [str "192.168.1.1"].
Proof. split; vm_compute; reflexivity. Qed.
