(* ===== verification/Device.v ===== *)
(** The TUN device ([redpill-tun/src/device.rs]): opening it on Linux, macOS and Windows,
    its MTU, packets in and out, and closing it.

    The system calls are the environment's (class [Libc]), and so is the wintun library
    (class [Wintun]). A descriptor is a number; [LibcOk] says which calls open and close
    descriptors, so that the theorems can account for every one of them. [TunDevices] is
    what the start-up code relies on; the Linux implementation is an instance. *)

From S2P Require Import Prelude Datagram Text Route.

(** ** Data *)

Inductive ErrorKind := InvalidInput | Other.
(** [io::Error]: an errno, or a kind with a message. *)
Inductive IoError := Os (errno : Z) | Custom (kind : ErrorKind) (msg : bytes).
Inductive TunError := TunIo (e : IoError) | TunUnsupportedPlatform.

Definition IFF_TUN : Z := 0x0001.
Definition IFF_NO_PI : Z := 0x1000.
Definition IFNAMSIZ : nat := 16.
Definition TUNSETIFF : Z := 0x400454ca.
Definition SIOCSIFMTU : Z := 0x8922.
Definition SYSPROTO_CONTROL : Z := 2.
Definition UTUN_OPT_IFNAME : Z := 2.
Definition CTLIOCGINFO : Z := 0xc0644e03.
Definition AF_SYSTEM : Z := 32.
Definition AF_SYS_CONTROL : Z := 2.
Definition SOCK_DGRAM : Z := 2.
Definition O_RDWR : Z := 2.
Definition O_CLOEXEC : Z := 0x80000.
Definition O_NONBLOCK (os : Platform) : Z := match os with Linux => 0x800 | MacOS => 0x4 end.
(** The errno whose [kind()] is [WouldBlock]. *)
Definition EAGAIN (os : Platform) : Z := match os with Linux => 11 | MacOS => 35 end.

Record TunDevice := mkTun { dev_fd : Z; dev_name : bytes }.

(** [libc::ifreq]: the name field of 16 octets, and the word of the union in use. *)
Record ifreq := mkIfreq { ifr_name : bytes; ifr_ifru : Z }.
Record SockaddrCtl := mkSockaddr {
  sc_len : Z; sc_family : Z; ss_sysaddr : Z; sc_id : Z; sc_unit : Z; sc_reserved : list Z
}.

(** ** C strings *)

Fixpoint cstr (b : bytes) : bytes :=
  match b with
  | [] => []
  | c :: b => if bool_decide (c = x00) then [] else c :: cstr b
  end.

(** [zeroed()], then [copy_nonoverlapping] of at most [IFNAMSIZ - 1] octets. *)
Definition name_field (n : bytes) : bytes :=
  let copy_len := Nat.min (length n) (IFNAMSIZ - 1) in
  take copy_len n ++ replicate (IFNAMSIZ - copy_len) x00.

(** What [String::from_utf8_lossy] does at the head of a string: a whole character of so many
    octets, or so many octets that become one U+FFFD. *)
Definition utf8_step (s : bytes) : bool * nat :=
  match s with
  | [] => (true, 0%nat)
  | a :: r =>
      let z := b2z a in
      let second ok k := match r with b :: r' => if (ok b : bool) then k r' else (false, 1%nat) | [] => (false, 1%nat) end in
      let next n (k : bytes -> bool * nat) r := match r with b :: r' => if cont b then k r' else (false, n) | [] => (false, n) end in
      if z <? 128 then (true, 1%nat)
      else if (194 <=? z) && (z <=? 223) then second cont (fun _ => (true, 2%nat))
      else if (224 <=? z) && (z <=? 239) then
        second (fun b => cont b && (negb (z =? 224) || (160 <=? b2z b)) && (negb (z =? 237) || (b2z b <=? 159)))
          (next 2%nat (fun _ => (true, 3%nat)))
      else if (240 <=? z) && (z <=? 244) then
        second (fun b => cont b && (negb (z =? 240) || (144 <=? b2z b)) && (negb (z =? 244) || (b2z b <=? 143)))
          (next 2%nat (next 3%nat (fun _ => (true, 4%nat))))
      else (false, 1%nat)
  end.

Definition REPLACEMENT : bytes := [xef; xbf; xbd].

(** One turn consumes at least one octet: as many turns as octets are enough. *)
Fixpoint lossy (fuel : nat) (s : bytes) : bytes :=
  match fuel, s with
  | S fuel, _ :: _ =>
      match utf8_step s with
      | (true, n) => take n s ++ lossy fuel (drop n s)
      | (false, n) => REPLACEMENT ++ lossy fuel (drop n s)
      end
  | _, _ => []
  end.
Definition to_string_lossy (s : bytes) : bytes := lossy (length s) s.

(** ** The environment *)

(** Results are C's: negative on failure, and then [last_os_error] is the errno. The second
    component is what the call writes through its pointer. *)
Class Libc (W : Type) := {
  sys_open : bytes -> Z -> W -> Z * W;
  sys_socket : Z -> Z -> Z -> W -> Z * W;
  sys_close : Z -> W -> W;
  ioctl_ifreq : Z -> Z -> ifreq -> W -> Z * ifreq * W;
  (** [ctl_name] in, [ctl_id] out *)
  ioctl_ctl : Z -> Z -> bytes -> W -> Z * Z * W;
  sys_connect : Z -> SockaddrCtl -> W -> Z * W;
  sys_getsockopt : Z -> Z -> Z -> nat -> W -> Z * bytes * W;
  fcntl_getfl : Z -> W -> Z * W;
  fcntl_setfl : Z -> Z -> W -> Z * W;
  (** descriptor and buffer sizes in, octets out *)
  sys_read : Z -> nat -> W -> Z * bytes * W;
  sys_readv : Z -> list nat -> W -> Z * bytes * W;
  sys_write : Z -> bytes -> W -> Z * W;
  sys_writev : Z -> list bytes -> W -> Z * W;
  last_os_error : W -> Z
}.

(** [wintun]: a ring buffer of packets instead of a descriptor. Errors are their message. *)
Class Wintun (W Session : Type) := {
  wt_load : W -> result bytes unit * W;
  wt_adapter_create : bytes -> bytes -> W -> result bytes unit * W;
  wt_start_session : Z -> W -> result bytes Session * W;
  wt_adapter_name : W -> option bytes;
  wt_receive_blocking : Session -> W -> result bytes bytes * W;
  (** the buffer of an allocated packet *)
  wt_allocate_send_packet : Session -> Z -> W -> result bytes bytes * W;
  wt_send_packet : Session -> bytes -> W -> W
}.

(** What the start-up code relies on. *)
Class TunDevices (W : Type) := {
  tun_create : bytes -> W -> option bytes * W;
  tun_set_mtu : bytes -> Z -> W -> bool * W
}.

(** ** Code that makes system calls: the world is threaded, [?] returns early *)

Definition D (W A : Type) : Type := W -> result TunError A * W.

#[export] Instance D_ret {W} : MRet (D W) := fun A a w => (Ok a, w).
#[export] Instance D_bind {W} : MBind (D W) := fun A B k m w =>
  match m w with
  | (Ok a, w) => k a w
  | (Err e, w) => (Err e, w)
  end.

Definition tun_fail {W A} (e : TunError) : D W A := fun w => (Err e, w).
Definition custom (kind : ErrorKind) (msg : bytes) : TunError := TunIo (Custom kind msg).

(** "utun" leaves the choice to the kernel, "utunN" asks for unit [N + 1]. *)
Definition utun_unit (name : bytes) : result TunError Z :=
  if decide (name = str "utun") then Ok 0
  else match strip_prefix (str "utun") name with
  | Some num_str =>
      match parse_u32 num_str with
      | Some n => Ok (wrap32 (n + 1))
      | None => Err (custom InvalidInput (str "invalid utun number"))
      end
  | None => Err (custom InvalidInput (str "macOS TUN name must start with 'utun'"))
  end.

Section unix.
Context {W : Type} `{Libc W}.

Definition last_error (w : W) : TunError := TunIo (Os (last_os_error w)).

(** [close(fd); return Err(last_os_error())] *)
Definition close_fail {A} (fd : Z) : D W A := fun w =>
  let w := sys_close fd w in (Err (last_error w), w).
(** [let err = last_os_error(); close(fd); return Err(err)] *)
Definition fail_close {A} (fd : Z) : D W A := fun w => (Err (last_error w), sys_close fd w).

(** The two [fcntl] calls that end both versions of [create]. *)
Definition set_nonblocking (os : Platform) (fd : Z) : D W unit := fun w =>
  let '(flags, w) := fcntl_getfl fd w in
  if flags <? 0 then close_fail fd w else
  let '(ret, w) := fcntl_setfl fd (Z.lor flags (O_NONBLOCK os)) w in
  if ret <? 0 then close_fail fd w else (Ok tt, w).

Definition create_linux (name : bytes) : D W TunDevice := fun w =>
  let '(fd, w) := sys_open (str "/dev/net/tun") (Z.lor O_RDWR O_CLOEXEC) w in
  if fd <? 0 then (Err (last_error w), w) else
  if bool_decide (x00 ∈ name) then (Err (custom InvalidInput (str "invalid device name")), w) else
  let '(ret, ifr, w) := ioctl_ifreq fd TUNSETIFF
                          (mkIfreq (name_field name) (Z.lor IFF_TUN IFF_NO_PI)) w in
  if ret <? 0 then close_fail fd w else
  let actual_name := to_string_lossy (cstr (ifr_name ifr)) in
  (_ ← set_nonblocking Linux fd; mret (mkTun fd actual_name)) w.

Definition UTUN_CONTROL : bytes := str "com.apple.net.utun_control".

Definition utun_addr (ctl_id unit : Z) : SockaddrCtl :=
  mkSockaddr 32 AF_SYSTEM AF_SYS_CONTROL ctl_id unit (replicate 5 0).

Definition create_macos (name : bytes) : D W TunDevice := fun w =>
  match utun_unit name with
  | Err e => (Err e, w)
  | Ok unit =>
      let '(fd, w) := sys_socket AF_SYSTEM SOCK_DGRAM SYSPROTO_CONTROL w in
      if fd <? 0 then (Err (last_error w), w) else
      let '(ret, ctl_id, w) := ioctl_ctl fd CTLIOCGINFO UTUN_CONTROL w in
      if ret <? 0 then fail_close fd w else
      let '(ret, w) := sys_connect fd (utun_addr ctl_id unit) w in
      if ret <? 0 then fail_close fd w else
      let '(ret, ifname_buf, w) := sys_getsockopt fd SYSPROTO_CONTROL UTUN_OPT_IFNAME IFNAMSIZ w in
      if ret <? 0 then fail_close fd w else
      let actual_name := to_string_lossy (cstr ifname_buf) in
      (_ ← set_nonblocking MacOS fd; mret (mkTun fd actual_name)) w
  end.

Definition create (os : Platform) : bytes -> D W TunDevice :=
  match os with Linux => create_linux | MacOS => create_macos end.

(** [Drop] *)
Definition drop_tun (d : TunDevice) (w : W) : W := sys_close (dev_fd d) w.

Definition set_mtu_linux (dev : bytes) (mtu : Z) : D W unit := fun w =>
  let '(sock, w) := sys_socket AF_INET SOCK_DGRAM 0 w in
  if sock <? 0 then (Err (last_error w), w) else
  let '(ret, _, w) := ioctl_ifreq sock SIOCSIFMTU (mkIfreq (name_field dev) (as_i32 mtu)) w in
  let w := sys_close sock w in
  if ret <? 0 then (Err (last_error w), w) else (Ok tt, w).

(** [Ok(0)] when the call would block. *)
Definition io_failed {A} (os : Platform) (zero : A) (w : W) : result TunError A :=
  if last_os_error w =? EAGAIN os then Ok zero else Err (last_error w).

(** The result, with what is in the buffer afterwards. *)
Definition read_packet (os : Platform) (d : TunDevice) (buf : bytes) : D W (Z * bytes) := fun w =>
  match os with
  | Linux =>
      let '(n, data, w) := sys_read (dev_fd d) (length buf) w in
      (if n <? 0 then io_failed Linux (0, buf) w
       else Ok (n, data ++ drop (length data) buf), w)
  | MacOS =>
      let '(n, data, w) := sys_readv (dev_fd d) [4%nat; length buf] w in
      (if n <? 0 then io_failed MacOS (0, buf) w
       else
         let total := n in
         let buf := drop 4 data ++ drop (length data - 4) buf in
         if total <=? 4 then Ok (0, buf) else Ok (total - 4, buf), w)
  end.

Definition af_of (buf : bytes) : Z :=
  if match buf with b :: _ => nibble b =? 6 | [] => false end then AF_INET6 else AF_INET.

Definition write_packet (os : Platform) (d : TunDevice) (buf : bytes) : D W Z := fun w =>
  match os with
  | Linux =>
      let '(n, w) := sys_write (dev_fd d) buf w in
      (if n <? 0 then io_failed Linux 0 w else Ok n, w)
  | MacOS =>
      let '(n, w) := sys_writev (dev_fd d) [u32_to_be_bytes (af_of buf); buf] w in
      (if n <? 0 then io_failed MacOS 0 w else Ok (sat_sub n 4), w)
  end.
End unix.

(** *** The MTU by command (macOS, Windows) *)

Section commands.
Context {W : Type} `{Shell W, Libc W}.

Definition set_mtu_by (program what : bytes) (args : list bytes) : D W unit := fun w =>
  match spawn program args w with
  | (None, w) => (Err (last_error w), w)
  | (Some o, w) =>
      if negb (success o) then (Err (custom Other (what ++ str " mtu failed: " ++ stderr o)), w)
      else (Ok tt, w)
  end.
Definition set_mtu_macos (d : TunDevice) (mtu : Z) : D W unit :=
  set_mtu_by (str "ifconfig") (str "ifconfig") [dev_name d; str "mtu"; show_int mtu].
Definition set_mtu_windows (name : bytes) (mtu : Z) : D W unit :=
  set_mtu_by (str "netsh") (str "netsh")
    [str "interface"; str "ipv4"; str "set"; str "subinterface"; name;
     str "mtu=" ++ show_int mtu; str "store=active"].
End commands.

(** *** Windows *)

Section windows.
Context {W Session : Type} `{Wintun W Session}.

Record WinDevice := mkWinTun { win_session : Session; win_name : bytes }.

Definition wintun_err {A} (what : bytes) (m : W -> result bytes A * W) : D W A := fun w =>
  let '(r, w) := m w in
  (match r with Ok a => Ok a | Err e => Err (custom Other (str "wintun " ++ what ++ str ": " ++ e)) end, w).

(** [adapter.get_name().unwrap_or_else(|_| name.to_string())] *)
Definition adapter_name (name : bytes) : D W bytes := fun w => (Ok (default name (wt_adapter_name w)), w).

Definition create_windows (name : bytes) : D W WinDevice :=
  _ ← wintun_err (str "load") wt_load;
  _ ← wintun_err (str "adapter") (wt_adapter_create name (str "Redpill VPN"));
  session ← wintun_err (str "session") (wt_start_session 0x400000);
  actual_name ← adapter_name name;
  mret (mkWinTun session actual_name).

Definition read_packet_windows (d : WinDevice) (buf : bytes) (w : W)
    : panics (result TunError (Z * bytes) * W) :=
  match wt_receive_blocking (win_session d) w with
  | (Ok data, w) =>
      let len := Nat.min (length data) (length buf) in
      src ← slice 0 len data;
      buf ← copy_into 0 len src buf;
      Some (Ok (Z.of_nat len, buf), w)
  | (Err e, w) => Some (Err (custom Other (str "wintun recv: " ++ e)), w)
  end.

Definition write_packet_windows (d : WinDevice) (buf : bytes) (w : W)
    : panics (result TunError Z * W) :=
  match wintun_err (str "alloc") (wt_allocate_send_packet (win_session d) (wrap16 (zlen buf))) w with
  | (Ok packet, w) =>
      packet ← copy_into 0 (length packet) buf packet;
      Some (Ok (zlen buf), wt_send_packet (win_session d) packet w)
  | (Err e, w) => Some (Err e, w)
  end.
End windows.
Arguments WinDevice : clear implicits.

(** The Linux implementation, as the start-up code uses it. *)
#[export] Instance linux_devices {W} `{Libc W} : TunDevices W := {
  tun_create n w := let '(r, w) := create_linux n w in
                    (match r with Ok d => Some (dev_name d) | Err _ => None end, w);
  tun_set_mtu n mtu w := let '(r, w) := set_mtu_linux n mtu w in (is_ok r, w)
}.

(** ** What the system calls do *)

(** A call that gives a new descriptor, or none. *)
Definition opens (before after : gset Z) (fd : Z) : Prop :=
  if fd <? 0 then after = before else (fd ∉ before) /\ after = {[fd]} ∪ before.

Class LibcOk (W : Type) `{Libc W} := {
  open_fds : W -> gset Z;
  fd_flags : W -> Z -> Z;
  (** the interface attached to a descriptor, and the MTU of an interface *)
  tun_iface : W -> Z -> option bytes;
  iface_mtu : W -> bytes -> Z;
  open_law p f w : opens (open_fds w) (open_fds (sys_open p f w).2) (sys_open p f w).1;
  socket_law a t p w : opens (open_fds w) (open_fds (sys_socket a t p w).2) (sys_socket a t p w).1;
  socket_plain a t p w : 0 <= (sys_socket a t p w).1 ->
    tun_iface (sys_socket a t p w).2 (sys_socket a t p w).1 = None;
  close_law fd w : open_fds (sys_close fd w) = open_fds w ∖ {[fd]};
  close_mtu fd w n : tun_iface w fd = None -> iface_mtu (sys_close fd w) n = iface_mtu w n;
  ifreq_fds fd r ifr w : open_fds (ioctl_ifreq fd r ifr w).2 = open_fds w;
  ctl_fds fd r n w : open_fds (ioctl_ctl fd r n w).2 = open_fds w;
  connect_fds fd a w : open_fds (sys_connect fd a w).2 = open_fds w;
  getsockopt_fds fd l o n w : open_fds (sys_getsockopt fd l o n w).2 = open_fds w;
  getfl_fds fd w : open_fds (fcntl_getfl fd w).2 = open_fds w;
  setfl_fds fd f w : open_fds (fcntl_setfl fd f w).2 = open_fds w;
  (** a TUN interface gets a name of at most 15 octets: the one asked for, unless it is empty
      or a template *)
  tunsetiff_law fd ifr w n ifr' w' : ioctl_ifreq fd TUNSETIFF ifr w = (n, ifr', w') -> 0 <= n ->
    tun_iface w' fd = Some (cstr (ifr_name ifr')) /\
    (length (cstr (ifr_name ifr')) < IFNAMSIZ)%nat /\
    (cstr (ifr_name ifr) <> [] -> x25 ∉ cstr (ifr_name ifr) ->
     (length (cstr (ifr_name ifr)) < IFNAMSIZ)%nat ->
     cstr (ifr_name ifr') = cstr (ifr_name ifr));
  setmtu_law fd ifr w n ifr' w' : ioctl_ifreq fd SIOCSIFMTU ifr w = (n, ifr', w') -> 0 <= n ->
    iface_mtu w' (cstr (ifr_name ifr)) = ifr_ifru ifr;
  setmtu_iface fd ifr w fd' : tun_iface (ioctl_ifreq fd SIOCSIFMTU ifr w).2 fd' = tun_iface w fd';
  connect_law fd a w : 0 <= (sys_connect fd a w).1 -> 0 < sc_unit a ->
    tun_iface (sys_connect fd a w).2 fd = Some (str "utun" ++ show_int (sc_unit a - 1));
  getsockopt_law fd w n buf w' :
    sys_getsockopt fd SYSPROTO_CONTROL UTUN_OPT_IFNAME IFNAMSIZ w = (n, buf, w') -> 0 <= n ->
    tun_iface w' fd = tun_iface w fd /\ tun_iface w fd = Some (cstr buf);
  getfl_law fd w : 0 <= (fcntl_getfl fd w).1 -> (fcntl_getfl fd w).1 = fd_flags w fd;
  getfl_iface fd w fd' : tun_iface (fcntl_getfl fd w).2 fd' = tun_iface w fd';
  setfl_law fd f w : 0 <= (fcntl_setfl fd f w).1 -> fd_flags (fcntl_setfl fd f w).2 fd = f;
  setfl_iface fd f w fd' : tun_iface (fcntl_setfl fd f w).2 fd' = tun_iface w fd'
}.

(** What no system call of this file changes. *)
Class LibcKeeps {W X : Type} `{Libc W} (V : W -> X) := {
  open_keeps p f w : V (sys_open p f w).2 = V w;
  socket_keeps a t p w : V (sys_socket a t p w).2 = V w;
  close_keeps fd w : V (sys_close fd w) = V w;
  ifreq_keeps fd r ifr w : V (ioctl_ifreq fd r ifr w).2 = V w;
  getfl_keeps fd w : V (fcntl_getfl fd w).2 = V w;
  setfl_keeps fd f w : V (fcntl_setfl fd f w).2 = V w
}.

(** ** Names *)

Lemma cstr_no_nul s : x00 ∉ s -> forall t, cstr (s ++ x00 :: t) = s.
Proof.
  induction s as [|c s IH]; intros Hs t; [done|]. simpl.
  rewrite bool_decide_eq_false_2 by set_solver. rewrite IH by set_solver. done.
Qed.
Lemma cstr_nul_free s : x00 ∉ cstr s.
Proof. induction s as [|c s IH]; simpl; [set_solver|]. case_bool_decide; set_solver. Qed.

Lemma cstr_name_field n : x00 ∉ n -> cstr (name_field n) = take (IFNAMSIZ - 1) n.
Proof.
  intros Hn. unfold name_field, IFNAMSIZ. set (k := Nat.min _ _).
  assert (k <= 15)%nat by lia.
  replace (16 - k)%nat with (S (15 - k)) by lia. rewrite replicate_S, cstr_no_nul.
  - subst k. destruct (decide (length n <= 15)%nat).
    + rewrite Nat.min_l by lia. by rewrite !take_ge by lia.
    + by rewrite Nat.min_r by lia.
  - intros Hx. apply Hn. by apply (elem_of_take) in Hx as (? & ?%list_elem_of_lookup_2 & _).
Qed.

(** A head that is a whole character does not matter to what follows. *)
Lemma utf8_step_char s n : s <> [] -> utf8_step s = (true, n) ->
  (0 < n)%nat /\ forall t, utf8_valid (take n s ++ t) = utf8_valid t.
Proof.
  destruct s as [|a r]; [done|]. intros _. unfold utf8_step.
  destruct (b2z a <? 128) eqn:E1.
  { intros [= <-]. split; [lia|]. intros t. simpl. by rewrite E1. }
  destruct ((194 <=? b2z a) && (b2z a <=? 223)) eqn:E2.
  { destruct r as [|b r]; [done|]. destruct (cont b) eqn:Eb; [|done]. intros [= <-].
    split; [lia|]. intros t. simpl. by rewrite E1, E2, Eb. }
  destruct ((224 <=? b2z a) && (b2z a <=? 239)) eqn:E3.
  { destruct r as [|b r]; [done|]. destruct (cont b && _ && _) eqn:Eb; [|done].
    destruct r as [|c r]; [done|]. destruct (cont c) eqn:Ec; [|done]. intros [= <-].
    split; [lia|]. intros t. simpl. by rewrite E1, E2, E3, Eb, Ec. }
  destruct ((240 <=? b2z a) && (b2z a <=? 244)) eqn:E4; [|done].
  destruct r as [|b r]; [done|]. destruct (cont b && _ && _) eqn:Eb; [|done].
  destruct r as [|c r]; [done|]. destruct (cont c) eqn:Ec; [|done].
  destruct r as [|d r]; [done|]. destruct (cont d) eqn:Ed; [|done]. intros [= <-].
  split; [lia|]. intros t. simpl. rewrite E1, E2, E3, Ec, Ed.
  apply andb_true_iff in E4 as [-> ->]. simpl. by rewrite Eb.
Qed.

Lemma utf8_step_bad s n : utf8_step s = (false, n) -> (0 < n)%nat.
Proof.
  destruct s as [|a r]; [done|]. unfold utf8_step.
  repeat (case_match; try done); intros; simplify_eq; lia.
Qed.

Lemma utf8_valid_step s : s <> [] -> utf8_valid s = true -> (utf8_step s).1 = true.
Proof.
  destruct s as [|a r]; [done|]. intros _. unfold utf8_step. simpl.
  destruct (b2z a <? 128) eqn:E1; [done|].
  destruct r as [|b r]; [done|].
  destruct ((194 <=? b2z a) && (b2z a <=? 223)) eqn:E2.
  { intros [-> _]%andb_true_iff. done. }
  destruct r as [|c r]; [done|].
  destruct ((224 <=? b2z a) && (b2z a <=? 239)) eqn:E3.
  { intros [[-> ->]%andb_true_iff _]%andb_true_iff. done. }
  destruct r as [|d r]; [done|].
  intros [[[H1 ->]%andb_true_iff ->]%andb_true_iff _]%andb_true_iff.
  rewrite <-!andb_assoc in H1. apply andb_true_iff in H1 as [-> H1].
  apply andb_true_iff in H1 as [-> H1]. simpl. rewrite !andb_assoc in H1. by rewrite H1.
Qed.

Lemma lossy_valid fuel : forall s, utf8_valid (lossy fuel s) = true.
Proof.
  induction fuel as [|fuel IH]; intros [|a r]; try done.
  cbn [lossy]. destruct (utf8_step (a :: r)) as [[] n] eqn:E.
  - destruct (utf8_step_char (a :: r) n) as [_ ->]; [done..|]. apply IH.
  - change (utf8_valid (REPLACEMENT ++ lossy fuel (drop n (a :: r))))
      with (utf8_valid (lossy fuel (drop n (a :: r)))). apply IH.
Qed.

Lemma lossy_id fuel : forall s, (length s <= fuel)%nat -> utf8_valid s = true -> lossy fuel s = s.
Proof.
  induction fuel as [|fuel IH]; intros [|a r] Hl Hv; try done; [simpl in Hl; lia|].
  cbn [lossy]. pose proof (utf8_valid_step (a :: r)) as Hs.
  destruct (utf8_step (a :: r)) as [b n] eqn:E. cbn [fst] in Hs. rewrite Hs in E |- * by done.
  destruct (utf8_step_char (a :: r) n) as [Hn Ht]; [done|done|].
  rewrite IH.
  - by rewrite take_drop.
  - rewrite length_drop. simpl in *. lia.
  - by rewrite <-Ht, take_drop.
Qed.

Lemma to_string_lossy_exact s : to_string_lossy s = s <-> utf8_valid s = true.
Proof.
  split; [|by apply lossy_id]. intros <-. apply lossy_valid.
Qed.

(** ** Descriptors *)

(** Name the results of the first system call in [Hrun]. *)
Ltac syscall Hrun :=
  match type of Hrun with
  | context [let '(_, _) := ?c in _] =>
      lazymatch c with
      | (_, _) => fail
      | _ => let n := fresh "n" in let w := fresh "w" in let Ec := fresh "Ecall" in
             destruct c as [n w] eqn:Ec; cbv beta iota in Hrun
      end
  end.

Section descriptors.
Context {W : Type} `{LibcOk W}.

Lemma set_nonblocking_spec os fd w r w' : set_nonblocking os fd w = (r, w') ->
  match r with
  | Ok _ => open_fds w' = open_fds w /\ (forall fd', tun_iface w' fd' = tun_iface w fd') /\
            fd_flags w' fd = Z.lor (fd_flags w fd) (O_NONBLOCK os)
  | Err _ => open_fds w' = open_fds w ∖ {[fd]}
  end.
Proof.
  unfold set_nonblocking, close_fail. intros Hrun.
  pose proof (getfl_fds fd w) as Hg. pose proof (getfl_law fd w) as Hgl.
  pose proof (getfl_iface fd w) as Hgi. syscall Hrun. cbn [fst snd] in *.
  destruct (n <? 0) eqn:En; boolify; [simplify_eq; by rewrite close_law, Hg|].
  pose proof (setfl_fds fd (Z.lor n (O_NONBLOCK os)) w0) as Hs.
  pose proof (setfl_law fd (Z.lor n (O_NONBLOCK os)) w0) as Hsl.
  pose proof (setfl_iface fd (Z.lor n (O_NONBLOCK os)) w0) as Hsi. syscall Hrun. cbn [fst snd] in *.
  destruct (n0 <? 0) eqn:En0; boolify; simplify_eq; [by rewrite close_law, Hs, Hg|].
  rewrite Hs, Hg, Hsl, Hgl by lia. split_and!; [done| |done]. intros. by rewrite Hsi, Hgi.
Qed.

Lemma opened fd before after : opens before after fd -> 0 <= fd ->
  (fd ∉ before) /\ after = {[fd]} ∪ before.
Proof. unfold opens. intros Ho Hf. rewrite (proj2 (Z.ltb_ge fd 0)) in Ho by lia. done. Qed.
Lemma not_opened fd before after : opens before after fd -> fd < 0 -> after = before.
Proof. unfold opens. intros Ho Hf. by rewrite (proj2 (Z.ltb_lt fd 0)) in Ho by lia. Qed.
Lemma closed_again (fd : Z) (s : gset Z) : fd ∉ s -> ({[fd]} ∪ s) ∖ {[fd]} = s.
Proof. set_solver. Qed.

(** What is left after the descriptor is opened: the device owns it, or it is closed. *)
Lemma finish_create os fd n (s : gset Z) w r w' : fd ∉ s -> open_fds w = {[fd]} ∪ s ->
  (set_nonblocking os fd ≫= fun _ => mret (mkTun fd n)) w = (r, w') ->
  match r with
  | Ok d => dev_fd d = fd /\ dev_name d = n /\ open_fds w' = {[fd]} ∪ s
  | Err _ => open_fds w' = s
  end.
Proof.
  intros Hfd Hw. unfold mbind, D_bind. destruct (set_nonblocking os fd w) as [[]] eqn:E;
    apply set_nonblocking_spec in E; intros [= <- <-].
  - split_and!; [done..|]. destruct E as [-> _]. done.
  - by rewrite E, Hw, closed_again.
Qed.

Lemma create_linux_fds n w r w' : create_linux n w = (r, w') ->
  match r with
  | Ok d => (dev_fd d ∉ open_fds w) /\ open_fds w' = {[dev_fd d]} ∪ open_fds w
  | Err _ => if bool_decide (x00 ∈ n)
             then opens (open_fds w) (open_fds w') (sys_open (str "/dev/net/tun") (Z.lor O_RDWR O_CLOEXEC) w).1
             else open_fds w' = open_fds w
  end.
Proof.
  unfold create_linux, close_fail. intros Hrun.
  pose proof (open_law (str "/dev/net/tun") (Z.lor O_RDWR O_CLOEXEC) w) as Ho.
  syscall Hrun. cbn [fst snd] in *. destruct (n0 <? 0) eqn:En0; boolify.
  { simplify_eq. case_bool_decide; [done|]. by eapply not_opened. }
  case_bool_decide; [by simplify_eq|]. apply opened in Ho as [Hn Ho]; [|done].
  pose proof (ifreq_fds n0 TUNSETIFF (mkIfreq (name_field n) (Z.lor IFF_TUN IFF_NO_PI)) w0) as Hi.
  syscall Hrun. destruct n1 as [ret ifr]. cbn [snd] in Hi. destruct (ret <? 0) eqn:Er; boolify.
  { simplify_eq. by rewrite close_law, Hi, Ho, closed_again. }
  apply (finish_create _ _ _ (open_fds w)) in Hrun; [|done|by rewrite Hi].
  destruct r; [|done]. destruct Hrun as (-> & _ & ->). done.
Qed.

Lemma create_macos_fds n w r w' : create_macos n w = (r, w') ->
  match r with
  | Ok d => (dev_fd d ∉ open_fds w) /\ open_fds w' = {[dev_fd d]} ∪ open_fds w
  | Err _ => open_fds w' = open_fds w
  end.
Proof.
  unfold create_macos, fail_close. destruct (utun_unit n) as [unit|e]; [|by intros; simplify_eq].
  intros Hrun. pose proof (socket_law AF_SYSTEM SOCK_DGRAM SYSPROTO_CONTROL w) as Ho.
  syscall Hrun. cbn [fst snd] in *. destruct (n0 <? 0) eqn:En0; boolify.
  { simplify_eq. by eapply not_opened. }
  apply opened in Ho as [Hn Ho]; [|done].
  pose proof (ctl_fds n0 CTLIOCGINFO UTUN_CONTROL w0) as Hc. syscall Hrun. destruct n1 as [ret id].
  cbn [snd] in Hc. rewrite Ho in Hc. destruct (ret <? 0).
  { simplify_eq. by rewrite close_law, Hc, closed_again. }
  pose proof (connect_fds n0 (utun_addr id unit) w1) as Hk. syscall Hrun. cbn [snd] in Hk.
  rewrite Hc in Hk. destruct (n1 <? 0).
  { simplify_eq. by rewrite close_law, Hk, closed_again. }
  pose proof (getsockopt_fds n0 SYSPROTO_CONTROL UTUN_OPT_IFNAME IFNAMSIZ w2) as Hg. syscall Hrun.
  destruct n2 as [ret2 buf]. cbn [snd] in Hg. rewrite Hk in Hg. destruct (ret2 <? 0).
  { simplify_eq. by rewrite close_law, Hg, closed_again. }
  apply (finish_create _ _ _ (open_fds w)) in Hrun; [|done..].
  destruct r; [|done]. destruct Hrun as (-> & _ & ->). done.
Qed.

Lemma set_mtu_linux_fds dev mtu w r w' : set_mtu_linux dev mtu w = (r, w') -> open_fds w' = open_fds w.
Proof.
  unfold set_mtu_linux. intros Hrun. pose proof (socket_law AF_INET SOCK_DGRAM 0 w) as Ho.
  syscall Hrun. cbn [fst snd] in *. destruct (n <? 0) eqn:En; boolify.
  { simplify_eq. by eapply not_opened. }
  apply opened in Ho as [Hn Ho]; [|done].
  pose proof (ifreq_fds n SIOCSIFMTU (mkIfreq (name_field dev) (as_i32 mtu)) w0) as Hi.
  syscall Hrun. destruct n0 as [ret ifr]. cbn [snd] in Hi.
  destruct (ret <? 0); simplify_eq; by rewrite close_law, Hi, Ho, closed_again.
Qed.
End descriptors.

Section kept.
Context {W X : Type} `{Libc W} (V : W -> X) `{!LibcKeeps V}.

(** Creating a device and setting its MTU leave alone whatever the system calls leave alone. *)
Lemma devices_keep n mtu w : V (tun_create n w).2 = V w /\ V (tun_set_mtu n mtu w).2 = V w.
Proof.
  split; unfold tun_create, tun_set_mtu, linux_devices.
  - destruct (create_linux n w) as [r w'] eqn:Hrun. simpl. unfold create_linux, close_fail in Hrun.
    pose proof (open_keeps (str "/dev/net/tun") (Z.lor O_RDWR O_CLOEXEC) w) as Ho.
    syscall Hrun. cbn [snd] in Ho. destruct (n0 <? 0); [by simplify_eq|].
    case_bool_decide; [by simplify_eq|].
    pose proof (ifreq_keeps n0 TUNSETIFF (mkIfreq (name_field n) (Z.lor IFF_TUN IFF_NO_PI)) w0) as Hi.
    syscall Hrun. destruct n1 as [ret ifr]. cbn [snd] in Hi.
    destruct (ret <? 0); [simplify_eq; by rewrite close_keeps, Hi|].
    unfold set_nonblocking, close_fail, mbind, D_bind in Hrun.
    pose proof (getfl_keeps n0 w1) as Hg. destruct (fcntl_getfl n0 w1) as [f w2]. cbn [snd] in Hg.
    destruct (f <? 0); [simplify_eq; by rewrite close_keeps, Hg, Hi|].
    pose proof (setfl_keeps n0 (Z.lor f (O_NONBLOCK Linux)) w2) as Hs.
    destruct (fcntl_setfl n0 _ w2) as [g w3]. cbn [snd] in Hs.
    destruct (g <? 0); unfold mret, D_ret in *; simplify_eq/=; rewrite ?close_keeps; congruence.
  - destruct (set_mtu_linux n mtu w) as [r w'] eqn:Hrun. simpl. unfold set_mtu_linux in Hrun.
    pose proof (socket_keeps AF_INET SOCK_DGRAM 0 w) as Ho. syscall Hrun. cbn [snd] in Ho.
    destruct (n0 <? 0); [by simplify_eq|].
    pose proof (ifreq_keeps n0 SIOCSIFMTU (mkIfreq (name_field n) (as_i32 mtu)) w0) as Hi.
    syscall Hrun. destruct n1 as [ret ifr]. cbn [snd] in Hi.
    destruct (ret <? 0); simplify_eq; rewrite close_keeps; congruence.
Qed.
End kept.

(** ** Names and the MTU *)

Section names.
Context {W : Type} `{LibcOk W}.

Definition nonblocking (os : Platform) (w : W) (fd : Z) : Prop :=
  Z.land (fd_flags w fd) (O_NONBLOCK os) = O_NONBLOCK os.

Lemma nonblocking_set os f : Z.land (Z.lor f (O_NONBLOCK os)) (O_NONBLOCK os) = O_NONBLOCK os.
Proof.
  apply Z.bits_inj'. intros n Hn. rewrite Z.land_spec, Z.lor_spec.
  by destruct (Z.testbit f n), (Z.testbit (O_NONBLOCK os) n).
Qed.

Lemma finish_create_named os fd n w d w' :
  (set_nonblocking os fd ≫= fun _ => mret (mkTun fd n)) w = (Ok d, w') ->
  d = mkTun fd n /\ (forall fd', tun_iface w' fd' = tun_iface w fd') /\ nonblocking os w' fd.
Proof.
  unfold mbind, D_bind. destruct (set_nonblocking os fd w) as [[]] eqn:E;
    apply set_nonblocking_spec in E; intros [= <- <-].
  destruct E as (_ & Hi & Hf). split_and!; [done..|]. unfold nonblocking. by rewrite Hf, nonblocking_set.
Qed.

Lemma set_mtu_linux_sets dev mtu w w' : x00 ∉ dev -> (length dev < IFNAMSIZ)%nat ->
  set_mtu_linux dev mtu w = (Ok tt, w') -> iface_mtu w' dev = as_i32 mtu.
Proof.
  intros Hz Hl. unfold set_mtu_linux. intros Hrun.
  pose proof (socket_plain AF_INET SOCK_DGRAM 0 w) as Hp. syscall Hrun. cbn [fst snd] in *.
  destruct (n <? 0) eqn:En; boolify; [done|].
  pose proof (setmtu_iface n (mkIfreq (name_field dev) (as_i32 mtu)) w0 n) as Hi.
  syscall Hrun. destruct n0 as [ret ifr]. cbn [snd] in Hi.
  destruct (ret <? 0) eqn:Er; boolify; simplify_eq. apply setmtu_law in Ecall0; [|done]. simpl in *.
  rewrite close_mtu by (rewrite Hi; by apply Hp).
  rewrite cstr_name_field, take_ge in Ecall0 by (done || unfold IFNAMSIZ in *; lia). done.
Qed.
End names.

(** ** Packets *)

(** The frame a packet travels in between the program and the device. *)
Definition tun_frame (os : Platform) (p : bytes) : bytes :=
  match os with Linux => p | MacOS => u32_to_be_bytes (af_of p) ++ p end.

Section packets.
Context {W : Type} `{Libc W}.

(** The call that reads a frame, into buffers for a packet of [k] octets. *)
Definition read_call (os : Platform) (fd : Z) (k : nat) (w : W) : Z * bytes * W :=
  match os with Linux => sys_read fd k w | MacOS => sys_readv fd [4%nat; k] w end.
Definition write_call (os : Platform) (fd : Z) (p : bytes) (w : W) : Z * W :=
  match os with Linux => sys_write fd p w | MacOS => sys_writev fd [u32_to_be_bytes (af_of p); p] w end.

Lemma read_packet_frame os d buf p w w' : (length p <= length buf)%nat ->
  read_call os (dev_fd d) (length buf) w = (zlen (tun_frame os p), tun_frame os p, w') ->
  read_packet os d buf w = (Ok (zlen p, p ++ drop (length p) buf), w').
Proof.
  intros Hl. destruct os; simpl; intros ->.
  - pose proof (zlen_nonneg p). by rewrite (proj2 (Z.ltb_ge (zlen p) 0)) by lia.
  - change (u32_to_be_bytes (af_of p) ++ p) with
      (z2b (Z.shiftr (af_of p) 24) :: z2b (Z.shiftr (af_of p) 16) :: z2b (Z.shiftr (af_of p) 8) ::
       z2b (af_of p) :: p).
    rewrite !zlen_cons. pose proof (zlen_nonneg p).
    rewrite (proj2 (Z.ltb_ge _ 0)) by lia. simpl drop. simpl length. rewrite Nat.sub_0_r.
    destruct (_ <=? 4) eqn:E; boolify; [|do 3 f_equal; lia].
    assert (zlen p = 0) as -> by lia. done.
Qed.

Lemma read_packet_error os d buf w n data w' : n < 0 ->
  read_call os (dev_fd d) (length buf) w = (n, data, w') ->
  read_packet os d buf w =
    (if last_os_error w' =? EAGAIN os then Ok (0, buf) else Err (last_error w'), w').
Proof. intros Hn. destruct os; simpl; intros ->; by rewrite (proj2 (Z.ltb_lt n 0)). Qed.

Lemma write_packet_result os d p w n w' : write_call os (dev_fd d) p w = (n, w') ->
  write_packet os d p w =
    (if n <? 0 then if last_os_error w' =? EAGAIN os then Ok 0 else Err (last_error w')
     else Ok (sat_sub n (zlen (tun_frame os p) - zlen p)), w').
Proof.
  unfold write_packet, write_call, tun_frame, io_failed. destruct os; intros ->.
  - f_equal. destruct (n <? 0) eqn:E; boolify; [done|]. unfold sat_sub. f_equal. lia.
  - rewrite zlen_app. by replace (zlen _ + zlen p - zlen p) with 4 by (change (zlen (u32_to_be_bytes (af_of p))) with 4; lia).
Qed.

Lemma write_to_tun_frame os p : p <> [] -> write_to_tun os p = Some (Some (tun_frame os p)).
Proof. destruct p as [|b p]; [done|]. intros _. by destruct os. Qed.
End packets.

(** *** A loopback device for the witnesses: what is written can be read. *)

Record Kernel := mkKernel {
  k_fds : gset Z; k_flags : gmap Z Z; k_tun : gmap Z bytes; k_mtu : gmap bytes Z;
  k_errno : Z; k_deny : bool; k_queue : list bytes
}.

Definition k_set_fds (s : gset Z) (k : Kernel) : Kernel :=
  mkKernel s (k_flags k) (k_tun k) (k_mtu k) (k_errno k) (k_deny k) (k_queue k).
Definition k_set_errno (e : Z) (k : Kernel) : Kernel :=
  mkKernel (k_fds k) (k_flags k) (k_tun k) (k_mtu k) e (k_deny k) (k_queue k).
Definition k_set_tun (t : gmap Z bytes) (k : Kernel) : Kernel :=
  mkKernel (k_fds k) (k_flags k) t (k_mtu k) (k_errno k) (k_deny k) (k_queue k).
Definition k_set_mtu (m : gmap bytes Z) (k : Kernel) : Kernel :=
  mkKernel (k_fds k) (k_flags k) (k_tun k) m (k_errno k) (k_deny k) (k_queue k).
Definition k_set_flags (m : gmap Z Z) (k : Kernel) : Kernel :=
  mkKernel (k_fds k) m (k_tun k) (k_mtu k) (k_errno k) (k_deny k) (k_queue k).
Definition k_set_queue (q : list bytes) (k : Kernel) : Kernel :=
  mkKernel (k_fds k) (k_flags k) (k_tun k) (k_mtu k) (k_errno k) (k_deny k) q.

Definition k_open (k : Kernel) : Z * Kernel :=
  let fd := fresh (k_fds k) in
  if fd <? 0 then (-1, k)
  else (fd, k_set_tun (delete fd (k_tun k)) (k_set_fds ({[fd]} ∪ k_fds k) k)).
Definition k_close (fd : Z) (k : Kernel) : Kernel :=
  let m := match k_tun k !! fd with Some n => delete n (k_mtu k) | None => k_mtu k end in
  k_set_mtu m (k_set_tun (delete fd (k_tun k)) (k_set_fds (k_fds k ∖ {[fd]}) k)).
Definition k_ifname (n : bytes) : bytes :=
  if decide (n = [] \/ x25 ∈ n) then str "tun0" else take 15 n.
Definition k_ifreq (fd r : Z) (ifr : ifreq) (k : Kernel) : Z * ifreq * Kernel :=
  if k_deny k then (-1, ifr, k_set_errno 1 k)
  else if r =? TUNSETIFF then
    let n := k_ifname (cstr (ifr_name ifr)) in
    (0, mkIfreq (name_field n) (ifr_ifru ifr), k_set_tun (<[fd := n]> (k_tun k)) k)
  else (0, ifr, k_set_mtu (<[cstr (ifr_name ifr) := ifr_ifru ifr]> (k_mtu k)) k).
Definition k_connect (fd : Z) (a : SockaddrCtl) (k : Kernel) : Z * Kernel :=
  let n := if sc_unit a =? 0 then str "utun9" else str "utun" ++ show_int (sc_unit a - 1) in
  (0, k_set_tun (<[fd := n]> (k_tun k)) k).
Definition k_getsockopt (fd : Z) (k : Kernel) : Z * bytes * Kernel :=
  match k_tun k !! fd with
  | Some n => if decide (cstr (n ++ [x00]) = n) then (0, n ++ [x00], k) else (-1, [], k)
  | None => (-1, [], k)
  end.
Definition k_read (k : Kernel) : Z * bytes * Kernel :=
  match k_queue k with
  | f :: q => (zlen f, f, k_set_queue q k)
  | [] => (-1, [], k_set_errno 11 k)
  end.

#[local] Instance kernel_libc : Libc Kernel := {
  sys_open _ _ := k_open;
  sys_socket _ _ _ := k_open;
  sys_close := k_close;
  ioctl_ifreq := k_ifreq;
  ioctl_ctl _ _ _ k := (0, 1, k);
  sys_connect := k_connect;
  sys_getsockopt fd _ _ _ := k_getsockopt fd;
  fcntl_getfl fd k := (default 0 (k_flags k !! fd), k);
  fcntl_setfl fd f k := (0, k_set_flags (<[fd := f]> (k_flags k)) k);
  sys_read _ _ := k_read;
  sys_readv _ _ := k_read;
  sys_write _ p k := (zlen p, k_set_queue (k_queue k ++ [p]) k);
  sys_writev _ ps k := (zlen (concat ps), k_set_queue (k_queue k ++ [concat ps]) k);
  last_os_error := k_errno
}.

Lemma k_open_law k : opens (k_fds k) (k_fds (k_open k).2) (k_open k).1.
Proof.
  unfold k_open, opens. destruct (fresh (k_fds k) <? 0) eqn:E; [done|]. simpl. rewrite E.
  split; [apply is_fresh|done].
Qed.

Lemma k_ifname_ok n : x00 ∉ n ->
  cstr (name_field (k_ifname n)) = k_ifname n /\ (length (k_ifname n) < IFNAMSIZ)%nat /\
  (n <> [] -> x25 ∉ n -> (length n < IFNAMSIZ)%nat -> k_ifname n = n).
Proof.
  intros Hn. assert ((x00 ∉ k_ifname n) /\ (length (k_ifname n) < 16)%nat) as [Hz Hl].
  { unfold k_ifname. case_decide; [split; [|vm_compute; lia]|].
    - vm_compute. set_solver.
    - split; [|rewrite length_take; lia]. intros Hx. apply Hn.
      by apply elem_of_take in Hx as (? & ?%list_elem_of_lookup_2 & _). }
  rewrite cstr_name_field by done. unfold IFNAMSIZ in *. split_and!; [rewrite take_ge; [done|lia]|done|].
  intros ?? Hs. unfold k_ifname. rewrite decide_False by naive_solver. by rewrite take_ge by lia.
Qed.

#[local] Instance kernel_ok : LibcOk Kernel.
Proof.
  refine {| open_fds := k_fds; fd_flags k fd := default 0 (k_flags k !! fd);
            tun_iface k fd := k_tun k !! fd; iface_mtu k n := default 1500 (k_mtu k !! n) |}.
  - intros. apply k_open_law.
  - intros. apply k_open_law.
  - intros a t p k. simpl. unfold k_open. destruct (_ <? 0); simpl; [lia|]. intros _.
    by rewrite lookup_delete_eq.
  - done.
  - intros fd k n Hn. simpl. by rewrite Hn.
  - intros fd r ifr k. simpl. unfold k_ifreq. by repeat case_match.
  - done.
  - done.
  - intros fd l o n k. simpl. unfold k_getsockopt. by repeat case_match.
  - done.
  - done.
  - intros fd ifr k n ifr' k'. simpl. unfold k_ifreq. destruct (k_deny k); [intros; simplify_eq; lia|].
    rewrite Z.eqb_refl. intros [= <- <- <-] _. cbn [k_tun k_set_tun ifr_name].
    destruct (k_ifname_ok (cstr (ifr_name ifr))) as (-> & Hl & Hsame); [apply cstr_nul_free|].
    rewrite lookup_insert_eq. done.
  - intros fd ifr k n ifr' k'. simpl. unfold k_ifreq. destruct (k_deny k); [intros; simplify_eq; lia|].
    intros [= <- <- <-] _. simpl. by rewrite lookup_insert_eq.
  - intros fd ifr k fd'. simpl. unfold k_ifreq. by destruct (k_deny k).
  - intros fd a k _ Hu. simpl. rewrite (proj2 (Z.eqb_neq (sc_unit a) 0)) by lia. by rewrite lookup_insert_eq.
  - intros fd k n buf k'. simpl. unfold k_getsockopt. destruct (k_tun k !! fd) as [i|] eqn:E; [|intros; simplify_eq; lia].
    case_decide as Hc; [|intros; simplify_eq; lia]. intros [= <- <- <-] _. rewrite E, Hc. done.
  - done.
  - done.
  - intros fd f k _. simpl. by rewrite lookup_insert_eq.
  - done.
Defined.

(** ** Theorems *)

(** [C13] Every descriptor is accounted for. A device that was created owns one descriptor
    that was not open before, setting its MTU opens none, and dropping it restores the set of
    open descriptors; a creation that fails leaves no descriptor open, on every error path of
    both systems but one: on Linux a name with a NUL octet is found after [/dev/net/tun] has
    been opened, and that descriptor stays open. *)
Theorem device_descriptors {W} `{LibcOk W} os n (w : W) r w' :
  create os n w = (r, w') ->
  match r with
  | Ok d =>
      (dev_fd d ∉ open_fds w) /\ open_fds w' = {[dev_fd d]} ∪ open_fds w /\
      (forall dev mtu r1 w1, set_mtu_linux dev mtu w' = (r1, w1) ->
         open_fds (drop_tun d w1) = open_fds w)
  | Err _ => os = MacOS \/ x00 ∉ n -> open_fds w' = open_fds w
  end /\
  (os = Linux -> x00 ∈ n -> is_ok r = false /\
     opens (open_fds w) (open_fds w') (sys_open (str "/dev/net/tun") (Z.lor O_RDWR O_CLOEXEC) w).1).
Proof.
  intros Hrun. split.
  - assert (match r with
            | Ok d => (dev_fd d ∉ open_fds w) /\ open_fds w' = {[dev_fd d]} ∪ open_fds w
            | Err _ => os = MacOS \/ x00 ∉ n -> open_fds w' = open_fds w
            end) as Hfds.
    { destruct os; simpl in Hrun.
      - apply create_linux_fds in Hrun. destruct r; [done|]. intros [?|Hz]; [done|].
        by rewrite bool_decide_eq_false_2 in Hrun.
      - apply create_macos_fds in Hrun. by destruct r. }
    destruct r as [d|e]; [|done]. destruct Hfds as [Hn Ho]. split_and!; [done..|].
    intros dev mtu r1 w1 Hm. apply set_mtu_linux_fds in Hm. unfold drop_tun.
    by rewrite close_law, Hm, Ho, closed_again.
  - intros -> Hz. assert (is_ok r = false) as Hr.
    { simpl in Hrun. unfold create_linux in Hrun. syscall Hrun. destruct (n0 <? 0); [by simplify_eq|].
      rewrite bool_decide_eq_true_2 in Hrun by done. by simplify_eq. }
    split; [done|]. apply create_linux_fds in Hrun. destruct r; [done|].
    by rewrite bool_decide_eq_true_2 in Hrun.
Qed.

Definition ex_kernel : Kernel := mkKernel {[0; 1; 2]} ∅ ∅ ∅ 0 false [].

Definition ex_create (os : Platform) (n : bytes) : result TunError TunDevice * Kernel := create os n ex_kernel.

Lemma device_descriptors_witness :
  is_ok (ex_create Linux (str "redpill0")).1 = true /\
  is_ok (ex_create Linux [x00]).1 = false /\
  opens {[0; 1; 2]} (k_fds (ex_create Linux [x00]).2) 3.
Proof.
  split; [vm_compute; reflexivity|].
  destruct (ex_create Linux [x00]) as [r k] eqn:E.
  destruct (device_descriptors Linux [x00] ex_kernel r k E) as [_ Hleak].
  destruct Hleak as [Hr Ho]; [reflexivity|by left|]. exact (conj Hr Ho).
Defined.

Section named.
Context {W : Type} `{LibcOk W}.

Lemma create_linux_named n (w : W) d w' : create_linux n w = (Ok d, w') ->
  exists i, tun_iface w' (dev_fd d) = Some i /\ nonblocking Linux w' (dev_fd d) /\
    dev_name d = to_string_lossy i /\ (x00 ∉ i) /\ (length i < IFNAMSIZ)%nat /\
    (n <> [] -> x25 ∉ n -> i = take 15 n).
Proof.
  unfold create_linux, close_fail. intros Hrun. syscall Hrun. destruct (n0 <? 0); [done|].
  case_bool_decide as Hz; [done|]. syscall Hrun. destruct n1 as [ret ifr].
  destruct (ret <? 0) eqn:Er; boolify; [done|].
  apply tunsetiff_law in Ecall0 as (Hi & Hl & Hn); [|done].
  apply finish_create_named in Hrun as (-> & Hif & Hb). cbn [dev_fd dev_name ifr_name] in *.
  exists (cstr (ifr_name ifr)). rewrite Hif. split_and!; [done..|apply cstr_nul_free|done|].
  intros Hne Hp. rewrite cstr_name_field in Hn by done. apply Hn; unfold IFNAMSIZ.
  - by destruct n.
  - intros Hx. apply Hp. by apply elem_of_take in Hx as (? & ?%list_elem_of_lookup_2 & _).
  - rewrite length_take. lia.
Qed.

Lemma utun_unit_show k : 0 <= k < 2 ^ 32 -> utun_unit (str "utun" ++ show_int k) = Ok (wrap32 (k + 1)).
Proof.
  intros Hk. unfold utun_unit. rewrite decide_False.
  - unfold strip_prefix. rewrite (proj2 (starts_with_spec _ _)) by eauto.
    change (drop (length (str "utun")) (str "utun" ++ show_int k)) with (show_int k).
    by rewrite parse_show_u32.
  - rewrite <-(app_nil_r (str "utun")) at 2. intros Hs%app_inv_head.
    rewrite <-(Z2Nat.id k) in Hs by lia. by apply show_nat_nonempty in Hs.
Qed.

Lemma create_macos_named k (w : W) d w' : 0 <= k < 2 ^ 32 - 1 ->
  create_macos (str "utun" ++ show_int k) w = (Ok d, w') ->
  tun_iface w' (dev_fd d) = Some (str "utun" ++ show_int k) /\ dev_name d = str "utun" ++ show_int k.
Proof.
  intros Hk. unfold create_macos. rewrite utun_unit_show by lia. rewrite wrap_small by lia.
  intros Hrun. syscall Hrun. destruct (n <? 0); [done|]. syscall Hrun. destruct n0 as [ret id].
  destruct (ret <? 0); [done|]. pose proof (connect_law n (utun_addr id (k + 1)) w1) as Hc.
  syscall Hrun. cbn [fst snd sc_unit utun_addr] in Hc. destruct (n0 <? 0) eqn:En0; boolify; [done|].
  rewrite Z.add_simpl_r in Hc. specialize (Hc En0 ltac:(lia)).
  syscall Hrun. destruct n1 as [ret2 buf]. destruct (ret2 <? 0) eqn:Er2; boolify; [done|].
  apply getsockopt_law in Ecall2 as [Hi Hb]; [|done].
  apply finish_create_named in Hrun as (-> & Hif & _). cbn [dev_fd dev_name].
  rewrite Hc in Hb. injection Hb as Hb. rewrite Hif, Hi, Hc, <-Hb. split; [done|].
  apply to_string_lossy_exact, utf8_solid, Forall_app. split; [|apply show_u32_solid; lia].
  repeat (apply Forall_cons; split; [split; vm_compute; done|]). constructor.
Qed.

Lemma create_macos_nonblocking n (w : W) d w' : create_macos n w = (Ok d, w') ->
  nonblocking MacOS w' (dev_fd d).
Proof.
  unfold create_macos. destruct (utun_unit n); [|done]. intros Hrun.
  syscall Hrun. destruct (n0 <? 0); [done|]. syscall Hrun. destruct n1 as [ret id].
  destruct (ret <? 0); [done|]. syscall Hrun. destruct (n1 <? 0); [done|].
  syscall Hrun. destruct n2 as [ret2 buf]. destruct (ret2 <? 0); [done|].
  by apply finish_create_named in Hrun as (-> & _ & Hb).
Qed.
End named.

(** The handle and the interface agree. A device created on Linux is attached to one
    interface and does not block; it is the one asked for, cut to 15 octets, when the name is
    neither empty nor a template. The handle has exactly its name if and only if that name
    is UTF-8 (a name cut inside a character is not), and then [set_mtu] sets the MTU of this
    interface. On macOS "utunN" gives unit [N], except that for the largest [N] the unit wraps
    to 0 and the kernel chooses. *)
Theorem device_named {W} `{LibcOk W} n (w : W) d w' :
  (create Linux n w = (Ok d, w') ->
   exists i, tun_iface w' (dev_fd d) = Some i /\ nonblocking Linux w' (dev_fd d) /\
     (n <> [] -> x25 ∉ n -> i = take 15 n) /\
     (dev_name d = i <-> utf8_valid i = true) /\
     (utf8_valid i = true -> forall mtu w1, set_mtu_linux (dev_name d) mtu w' = (Ok tt, w1) ->
        iface_mtu w1 i = as_i32 mtu)) /\
  (forall k, 0 <= k < 2 ^ 32 -> create MacOS (str "utun" ++ show_int k) w = (Ok d, w') ->
   nonblocking MacOS w' (dev_fd d) /\
   if k =? 2 ^ 32 - 1 then utun_unit (str "utun" ++ show_int k) = Ok 0
   else tun_iface w' (dev_fd d) = Some (str "utun" ++ show_int k) /\
        dev_name d = str "utun" ++ show_int k).
Proof.
  split.
  - intros (i & Hi & Hb & Hd & Hz & Hl & Hn)%create_linux_named. exists i.
    assert (dev_name d = i <-> utf8_valid i = true) as Hu by (rewrite Hd; apply to_string_lossy_exact).
    split_and!; [done..|]. intros Hv%Hu mtu w1. rewrite Hv. by apply set_mtu_linux_sets.
  - intros k Hk Hrun. split; [by eapply create_macos_nonblocking|].
    destruct (k =? 2 ^ 32 - 1) eqn:Ek; boolify.
    + subst k. by rewrite utun_unit_show.
    + eapply create_macos_named; [|done]. lia.
Qed.

Definition ex_device (r : result TunError TunDevice * Kernel) : TunDevice :=
  match r.1 with Ok d => d | Err _ => mkTun 0 [] end.

(** A name of 17 octets whose fifteenth starts a character of two. *)
Definition ex_long_name : bytes := replicate 14 x61 ++ [xc3; xa9; x61].

Lemma ex_created_linux : ex_create Linux ex_long_name =
  (Ok (ex_device (ex_create Linux ex_long_name)), (ex_create Linux ex_long_name).2).
Proof. vm_compute. reflexivity. Qed.
Lemma ex_created_mac : ex_create MacOS (str "utun" ++ show_int 5) =
  (Ok (ex_device (ex_create MacOS (str "utun" ++ show_int 5))), (ex_create MacOS (str "utun" ++ show_int 5)).2).
Proof. vm_compute. reflexivity. Qed.

(** The interface gets the cut name, the handle another one. *)
Lemma device_named_witness :
  (exists i, k_tun (ex_create Linux ex_long_name).2 !! dev_fd (ex_device (ex_create Linux ex_long_name)) = Some i /\
     i = take 15 ex_long_name /\ dev_name (ex_device (ex_create Linux ex_long_name)) <> i) /\
  dev_name (ex_device (ex_create MacOS (str "utun" ++ show_int 5))) = str "utun5".
Proof.
  split.
  - destruct (device_named ex_long_name ex_kernel (ex_device (ex_create Linux ex_long_name))
      (ex_create Linux ex_long_name).2) as [Hl _].
    destruct (Hl ex_created_linux) as (i & Hi & _ & Hn & Hu & _). exists i.
    assert (i = take 15 ex_long_name) as Hin.
    { apply Hn; [discriminate|]. apply (bool_decide_eq_false_1 (x25 ∈ ex_long_name)). vm_compute. reflexivity. }
    split; [exact Hi|]. split; [exact Hin|]. rewrite Hu, Hin. vm_compute. discriminate.
  - destruct (device_named [] ex_kernel (ex_device (ex_create MacOS (str "utun" ++ show_int 5)))
      (ex_create MacOS (str "utun" ++ show_int 5)).2) as [_ Hm].
    destruct (Hm 5 ltac:(lia) ex_created_mac) as [_ [_ Hd]]. rewrite Hd. vm_compute. reflexivity.
Defined.

(** Packets in and out. A frame of a packet that fits the buffer is read as that packet,
    with the length reported; a call that would block is read and written as 0 octets and any
    other failure is an error; what is written is the frame [write_to_tun] would write, and
    the octets reported are those of the packet; so a packet written to a device that loops
    back is read unchanged, on both systems. *)
Theorem packet_io_spec {W} `{Libc W} os d (w : W) :
  (forall buf p w', (length p <= length buf)%nat ->
     read_call os (dev_fd d) (length buf) w = (zlen (tun_frame os p), tun_frame os p, w') ->
     read_packet os d buf w = (Ok (zlen p, p ++ drop (length p) buf), w')) /\
  (forall buf n data w', n < 0 -> read_call os (dev_fd d) (length buf) w = (n, data, w') ->
     read_packet os d buf w =
       (if last_os_error w' =? EAGAIN os then Ok (0, buf) else Err (last_error w'), w')) /\
  (forall p n w', write_call os (dev_fd d) p w = (n, w') ->
     write_packet os d p w =
       (if n <? 0 then if last_os_error w' =? EAGAIN os then Ok 0 else Err (last_error w')
        else Ok (sat_sub n (zlen (tun_frame os p) - zlen p)), w')) /\
  (forall p, p <> [] -> write_to_tun os p = Some (Some (tun_frame os p))).
Proof.
  split_and!.
  - intros. by apply read_packet_frame.
  - intros. by eapply read_packet_error.
  - intros. by apply write_packet_result.
  - apply write_to_tun_frame.
Qed.

(** A packet written and read back on macOS. *)
Lemma packet_io_spec_witness :
  let d := mkTun 3 (str "utun0") in
  let k := (write_packet MacOS d [x60; x01] ex_kernel).2 in
  read_packet MacOS d [x00; x00; x00] k = (Ok (2, [x60; x01; x00]), k_set_queue [] k).
Proof.
  intros d k. destruct (packet_io_spec MacOS d k) as [Hr _].
  apply (Hr [x00; x00; x00] [x60; x01]); [simpl; lia|vm_compute; reflexivity].
Defined.

(** *** wintun *)

(** An allocated packet has the size asked for. *)
Class WintunOk (W Session : Type) `{Wintun W Session} :=
  allocate_law : forall s n (w w' : W) packet,
    wt_allocate_send_packet s n w = (Ok packet, w') -> zlen packet = n.

Lemma copy_whole {A} (src buf : list A) : length src = length buf -> copy_into 0 (length buf) src buf = Some src.
Proof.
  intros Hl. unfold copy_into. rewrite decide_True by lia.
  rewrite drop_ge by lia. by rewrite app_nil_r.
Qed.

(** On Windows a packet that is read is cut to the buffer and reading never panics; a packet
    of less than 64 KiB is sent as it is. A longer one has its length truncated to 16 bits for
    the allocation, and copying into that buffer panics. *)
Theorem wintun_io_spec {W Session} `{WintunOk W Session} (d : WinDevice Session) buf (w : W) :
  (exists r w', read_packet_windows d buf w = Some (r, w') /\
     forall data, wt_receive_blocking (win_session d) w = (Ok data, w') ->
       r = Ok (Z.min (zlen data) (zlen buf),
               take (length buf) data ++ drop (length data) buf)) /\
  (forall packet w', wt_allocate_send_packet (win_session d) (wrap16 (zlen buf)) w = (Ok packet, w') ->
     write_packet_windows d buf w =
       if zlen buf <? 65536 then Some (Ok (zlen buf), wt_send_packet (win_session d) buf w') else None).
Proof.
  split.
  - unfold read_packet_windows. destruct (wt_receive_blocking _ w) as [[data|e] w'].
    2: { eexists _, _. split; [done|]. intros; simplify_eq. }
    rewrite slice_Some by lia. cbn [mbind option_bind]. rewrite Nat.sub_0_r, drop_0.
    unfold copy_into. rewrite decide_True by (rewrite length_take; lia). cbn [mbind option_bind].
    eexists _, _. split; [done|]. intros ? [= <-]. rewrite take_0. do 2 f_equal; [unfold zlen; lia|].
    destruct (decide (length data <= length buf)%nat).
    + rewrite Nat.min_l by lia. by rewrite !take_ge by lia.
    + rewrite Nat.min_r by lia. by rewrite !drop_ge by lia.
  - intros packet w' Ha. unfold write_packet_windows, wintun_err. rewrite Ha.
    apply allocate_law in Ha. pose proof (zlen_nonneg buf). destruct (_ <? _) eqn:E; boolify.
    + rewrite wrap_small in Ha by lia. rewrite copy_whole by (unfold zlen in *; lia). done.
    + unfold copy_into. rewrite decide_False; [done|].
      pose proof (wrap_range 16 (zlen buf) ltac:(lia)). unfold zlen in *. lia.
Qed.
