(* ===== verification/Firewall.v ===== *)
(** The server's firewall rules ([redpill-tun/src/route.rs], Linux): NAT and MSS
    clamping, set up with [iptables], with stale rules found in the listing of [nft] and
    deleted by handle.

    The commands are the environment's ([Shell]); [NetfilterOk] says what the proofs need
    of them. *)

From S2P Require Import Prelude Text Route.

Definition quoted (s : bytes) : bytes := [x22] ++ s ++ [x22].

Definition NAT : bytes := str "nat".
Definition FILTER : bytes := str "filter".
Definition MANGLE : bytes := str "mangle".
Definition POSTROUTING : bytes := str "POSTROUTING".
Definition FORWARD : bytes := str "FORWARD".
Definition OUTPUT : bytes := str "OUTPUT".

(** The word after the first [handle] of a line. *)
Definition handle_of (line : bytes) : option bytes :=
  let words := split_whitespace line in
  i ← position (str "handle") words; words !! S i.

(** The handles of the lines that satisfy [p]. *)
Definition handles (p : bytes -> bool) (output : bytes) : list bytes :=
  omap handle_of (List.filter p (lines output)).

(** ** Rules, as [iptables] arguments *)

Definition masquerade (tun_subnet wan : bytes) : list bytes :=
  [str "-s"; tun_subnet; str "-o"; wan; str "-j"; str "MASQUERADE"].
Definition forward_in (wan : bytes) : list bytes :=
  [str "-i"; wan; str "-o"; str "redpill+"; str "-m"; str "state"; str "--state";
   str "RELATED,ESTABLISHED"; str "-j"; str "ACCEPT"].
Definition forward_out (wan : bytes) : list bytes :=
  [str "-i"; str "redpill+"; str "-o"; wan; str "-j"; str "ACCEPT"].
Definition clamp (dir dev mss : bytes) : list bytes :=
  [dir; dev; str "-p"; str "tcp"; str "--tcp-flags"; str "SYN,RST"; str "SYN"; str "-j";
   str "TCPMSS"; str "--set-mss"; mss].

(** [(tun_mtu as i32 - 60).max(512).to_string()] *)
Definition mss_of (tun_mtu : Z) : Z := Z.max (as_i32 (as_i32 tun_mtu - 60)) 512.

(** The lines of a listing that a flush deletes. *)
Definition nat_line (tun_subnet line : bytes) : bool :=
  contains tun_subnet line && contains (str "masquerade") line.
Definition forward_line (wan line : bytes) : bool :=
  (contains (quoted (str "redpill+")) line || contains (quoted (str "redpill*")) line)
  && contains (quoted wan) line && contains (str "accept") line.
Definition mss_line (dev line : bytes) : bool :=
  (contains (str "oifname " ++ quoted dev) line || contains (str "iifname " ++ quoted dev) line)
  && contains (str "maxseg") line.

(** The table is named, except for [filter]. *)
Definition table_args (t : bytes) : list bytes :=
  if decide (t = FILTER) then [] else [str "-t"; t].
Definition iptables_args (t op c : bytes) (spec : list bytes) : list bytes :=
  table_args t ++ [op; c] ++ spec.
Definition list_args (t c : bytes) : list bytes :=
  [str "-a"; str "list"; str "chain"; str "ip"; t; c].
Definition delete_args (t c h : bytes) : list bytes :=
  [str "delete"; str "rule"; str "ip"; t; c; str "handle"; h].

Section ops.
Context {W : Type} `{Shell W}.

Definition iptables (t op c : bytes) (spec : list bytes) : M W unit :=
  run_cmd (str "iptables") (iptables_args t op c spec).

(** List a chain, delete the matching rules by handle. *)
Definition flush_chain (t c : bytes) (p : bytes -> bool) : M W unit :=
  if_ok (run_cmd_output (str "nft") (list_args t c)) (fun output =>
    for_each (handles p output) (fun h =>
      ignore (run_cmd (str "nft") (delete_args t c h)))).

Definition flush_nat_rules (tun_subnet wan_interface : bytes) : M W unit :=
  _ ← flush_chain NAT POSTROUTING (nat_line tun_subnet);
  flush_chain FILTER FORWARD (forward_line wan_interface).

Definition setup_nat (tun_subnet wan_interface : bytes) : M W unit :=
  _ ← flush_nat_rules tun_subnet wan_interface;
  _ ← iptables NAT (str "-A") POSTROUTING (masquerade tun_subnet wan_interface);
  _ ← iptables FILTER (str "-A") FORWARD (forward_in wan_interface);
  iptables FILTER (str "-A") FORWARD (forward_out wan_interface).

Definition cleanup_nat (tun_subnet wan_interface : bytes) : M W unit :=
  _ ← flush_nat_rules tun_subnet wan_interface;
  _ ← ignore (iptables NAT (str "-D") POSTROUTING (masquerade tun_subnet wan_interface));
  _ ← ignore (iptables FILTER (str "-D") FORWARD (forward_in wan_interface));
  ignore (iptables FILTER (str "-D") FORWARD (forward_out wan_interface)).

Definition flush_mss_rules_nft (tun_dev : bytes) : M W unit :=
  for_each [FORWARD; OUTPUT] (fun chain => flush_chain MANGLE chain (mss_line tun_dev)).

(** [loop { if run_cmd(-D ..).is_err() { break } }]; [None] while [fuel] turns are not
    enough. *)
Fixpoint delete_until_err (fuel : nat) (c : bytes) (spec : list bytes) (w : W) : option W :=
  match fuel with
  | O => None
  | S fuel =>
      match iptables MANGLE (str "-D") c spec w with
      | (Ok _, w) => delete_until_err fuel c spec w
      | (Err _, w) => Some w
      end
  end.

Definition setup_mss_clamping (fuel : nat) (tun_dev : bytes) (tun_mtu : Z) (w : W)
    : option (result RouteError unit * W) :=
  let mss := show_int (mss_of tun_mtu) in
  w ← delete_until_err fuel FORWARD (clamp (str "-o") tun_dev mss) w;
  w ← delete_until_err fuel FORWARD (clamp (str "-i") tun_dev mss) w;
  w ← delete_until_err fuel OUTPUT (clamp (str "-o") tun_dev mss) w;
  Some ((_ ← flush_mss_rules_nft tun_dev;
         _ ← iptables MANGLE (str "-A") FORWARD (clamp (str "-o") tun_dev mss);
         _ ← iptables MANGLE (str "-A") FORWARD (clamp (str "-i") tun_dev mss);
         iptables MANGLE (str "-A") OUTPUT (clamp (str "-o") tun_dev mss)) w).

Definition cleanup_mss_clamping (tun_dev : bytes) (tun_mtu : Z) : M W unit :=
  let mss := show_int (mss_of tun_mtu) in
  _ ← flush_mss_rules_nft tun_dev;
  _ ← ignore (iptables MANGLE (str "-D") FORWARD (clamp (str "-o") tun_dev mss));
  _ ← ignore (iptables MANGLE (str "-D") FORWARD (clamp (str "-i") tun_dev mss));
  ignore (iptables MANGLE (str "-D") OUTPUT (clamp (str "-o") tun_dev mss)).
End ops.

(** ** What the commands do *)

Abbreviation Rule := (nat * list bytes)%type.

Definition show_handle (h : nat) : bytes := show_int (Z.of_nat h).

Fixpoint remove_first (spec : list bytes) (rs : list Rule) : list Rule :=
  match rs with
  | [] => []
  | r :: rs => if decide (r.2 = spec) then rs else r :: remove_first spec rs
  end.

(** The lines of a listing around the rules. *)
Definition frame_line (l : bytes) : Prop :=
  contains [x22] l = false /\ contains (str "masquerade") l = false.

(** [rules w t c]: the chain, each rule with its handle; [line]: how [nft -a list]
    prints one. [-A] appends with a fresh handle or fails; [-D] removes the first rule
    with these arguments and fails when there is none; the listing works and prints
    every rule on a line of its own; deleting by handle removes that rule. *)
Class NetfilterOk (W : Type) `{Shell W} := {
  rules : W -> bytes -> bytes -> list Rule;
  line : Rule -> bytes;
  append_law w t c spec o w' :
    spawn (str "iptables") (iptables_args t (str "-A") c spec) w = (o, w') ->
    (exists h, (h ∉ (rules w t c).*1) /\
       rules w' t c = if ran o then rules w t c ++ [(h, spec)] else rules w t c) /\
    forall t' c', (t', c') <> (t, c) -> rules w' t' c' = rules w t' c';
  delete_law w t c spec o w' :
    spawn (str "iptables") (iptables_args t (str "-D") c spec) w = (o, w') ->
    ran o = bool_decide (spec ∈ (rules w t c).*2) /\
    rules w' t c = remove_first spec (rules w t c) /\
    forall t' c', (t', c') <> (t, c) -> rules w' t' c' = rules w t' c';
  list_law w t c :
    Forall (fun r => line_text (line r)) (rules w t c) ->
    exists out top bot w', spawn (str "nft") (list_args t c) w = (Some (mkOutput true out []), w') /\
      lines out = top ++ (line <$> rules w t c) ++ bot /\ Forall frame_line (top ++ bot) /\
      forall t' c', rules w' t' c' = rules w t' c';
  delete_handle_law w t c h :
    let w' := (spawn (str "nft") (delete_args t c (show_handle h)) w).2 in
    rules w' t c = filter (fun r => r.1 <> h) (rules w t c) /\
    forall t' c', (t', c') <> (t, c) -> rules w' t' c' = rules w t' c'
}.

(** ** Flushing a chain *)

Section flush.
Context {W : Type} `{NetfilterOk W}.

(** The rules a flush leaves alone. *)
Definition keep (p : bytes -> bool) (rs : list Rule) : list Rule :=
  filter (fun r => p (line r) = false) rs.

(** Handles are unique, and read right on every line the flush looks at. *)
Definition well_listed (p : bytes -> bool) (rs : list Rule) : Prop :=
  NoDup rs.*1 /\ Forall (fun r => line_text (line r)) rs /\
  Forall (fun r => p (line r) = true -> handle_of (line r) = Some (show_handle r.1)) rs.

Definition unchanged_but (t c : bytes) (w w' : W) : Prop :=
  forall t' c', (t', c') <> (t, c) -> rules w' t' c' = rules w t' c'.

Lemma handles_frame p ls : (forall l, frame_line l -> p l = false) -> Forall frame_line ls ->
  List.filter p ls = [].
Proof. intros Hp. induction 1 as [|l ls Hl _ IH]; [done|]. simpl. by rewrite Hp. Qed.

Lemma handles_rules p rs :
  well_listed p rs ->
  omap handle_of (List.filter p (line <$> rs)) =
    show_handle <$> (filter (fun r => p (line r) = true) rs).*1.
Proof.
  intros (_ & _ & Hw). induction Hw as [|r rs Hr _ IH]; [done|]. csimpl. destruct (p (line r)) eqn:E.
  - rewrite filter_cons_True by done. csimpl. by rewrite Hr, IH.
  - rewrite filter_cons_False by (by rewrite E). done.
Qed.

Lemma delete_handles t c hs : forall w : W, exists w',
  for_each (show_handle <$> hs)
    (fun h => ignore (run_cmd (str "nft") (delete_args t c h))) w = (Ok tt, w') /\
  rules w' t c = filter (fun r => r.1 ∉ hs) (rules w t c) /\ unchanged_but t c w w'.
Proof.
  induction hs as [|h hs IH]; intros w.
  - exists w. split; [done|]. split; [|done]. symmetry. apply filter_all.
    apply Forall_forall. set_solver.
  - cbn [for_each fmap list_fmap]. unfold mbind, M_bind, ignore at 1. rewrite run_cmd_snd.
    destruct (delete_handle_law w t c h) as [Hd Ho].
    destruct (IH (spawn (str "nft") (delete_args t c (show_handle h)) w).2) as (w' & -> & Hr & Hu).
    exists w'. split; [done|]. split.
    + rewrite Hr, Hd, list_filter_filter. apply list_filter_iff. set_solver.
    + intros t' c' Hne. by rewrite Hu, Ho.
Qed.

Lemma filter_matched p (rs : list Rule) :
  NoDup rs.*1 ->
  filter (fun r => r.1 ∉ (filter (fun r => p (line r) = true) rs).*1) rs = keep p rs.
Proof.
  intros Hnd. unfold keep. apply filter_agree. apply Forall_forall. intros r Hr.
  destruct (p (line r)) eqn:E.
  - split; [|done]. intros Hn. exfalso. apply Hn. apply list_elem_of_fmap. exists r.
    split; [done|]. by apply list_elem_of_filter.
  - split; [done|]. intros _ (r' & E1 & Hr')%list_elem_of_fmap.
    apply list_elem_of_filter in Hr' as [Hm Hr']. simpl in Hm.
    assert (r = r') as <-; [|congruence]. apply list_elem_of_lookup in Hr as [i Hi].
    apply list_elem_of_lookup in Hr' as [j Hj].
    assert (i = j) as <-; [|rewrite Hi in Hj; by injection Hj]. eapply NoDup_lookup; [exact Hnd|..].
    + rewrite list_lookup_fmap, Hi. done.
    + rewrite list_lookup_fmap, Hj. simpl. by rewrite E1.
Qed.

Lemma flush_chain_spec t c p (w : W) :
  (forall l, frame_line l -> p l = false) -> well_listed p (rules w t c) ->
  exists w', flush_chain t c p w = (Ok tt, w') /\
    rules w' t c = keep p (rules w t c) /\ unchanged_but t c w w'.
Proof.
  intros Hp Hw. destruct (list_law w t c) as (out & top & bot & w1 & Es & El & Hf & Hr); [apply Hw|].
  unfold flush_chain, if_ok, run_cmd_output. rewrite Es. simpl. unfold handles.
  rewrite El, !List.filter_app. apply Forall_app in Hf as [Ht Hb].
  rewrite (handles_frame p top), (handles_frame p bot), app_nil_r by done. simpl.
  rewrite handles_rules by done.
  destruct (delete_handles t c ((filter (fun r => p (line r) = true) (rules w t c)).*1) w1)
    as (w' & -> & Hd & Hu).
  exists w'. split; [done|]. split.
  - rewrite Hd, Hr. apply filter_matched, Hw.
  - intros t' c' Hne. by rewrite Hu, Hr.
Qed.

Lemma keep_keep p rs : keep p (keep p rs) = keep p rs.
Proof. apply list_filter_filter_r. done. Qed.

Lemma keep_app p rs rs' : keep p (rs ++ rs') = keep p rs ++ keep p rs'.
Proof. apply filter_app. Qed.

(** A rule with these arguments is always seen. *)
Definition seen (p : bytes -> bool) (spec : list bytes) : Prop :=
  forall h, p (line (h, spec)) = true /\ handle_of (line (h, spec)) = Some (show_handle h) /\
    line_text (line (h, spec)).

Lemma keep_own p h spec : seen p spec -> keep p [(h, spec)] = [].
Proof. intros Hs. unfold keep. rewrite filter_cons_False; [done|]. by rewrite (proj1 (Hs h)). Qed.

Lemma keep_no_own p spec rs : seen p spec -> spec ∉ (keep p rs).*2.
Proof.
  intros Hs ([h sp] & -> & Hr)%list_elem_of_fmap. simpl in *.
  apply list_elem_of_filter in Hr as [Hr _]. by rewrite (proj1 (Hs h)) in Hr.
Qed.

Lemma remove_first_absent spec rs : spec ∉ rs.*2 -> remove_first spec rs = rs.
Proof.
  induction rs as [|r rs IH]; [done|]. csimpl. intros Hn.
  rewrite decide_False by set_solver. rewrite IH; set_solver.
Qed.

Lemma keep_remove_first p spec rs : seen p spec -> keep p (remove_first spec rs) = keep p rs.
Proof.
  intros Hs. induction rs as [|[h sp] rs IH]; [done|]. simpl. case_decide as Hd.
  - simpl in Hd. subst. change ((h, spec) :: rs) with ([(h, spec)] ++ rs).
    by rewrite keep_app, keep_own.
  - change ((h, sp) :: rs) with ([(h, sp)] ++ rs).
    change ((h, sp) :: remove_first spec rs) with ([(h, sp)] ++ remove_first spec rs).
    by rewrite !keep_app, IH.
Qed.

Lemma well_listed_sub p rs rs' : rs' `sublist_of` rs -> well_listed p rs -> well_listed p rs'.
Proof.
  intros Hs (Hn & Ht & Hw). split; [|split; by eapply Forall_sublist_of].
  eapply sublist_NoDup; [exact Hn|]. by apply fmap_sublist.
Qed.

Lemma well_listed_snoc p rs h spec :
  well_listed p rs -> h ∉ rs.*1 -> seen p spec -> well_listed p (rs ++ [(h, spec)]).
Proof.
  intros (Hn & Ht & Hw) Hf Hs. split; [|split].
  - rewrite fmap_app. apply NoDup_app. split; [done|]. split; [|apply NoDup_singleton].
    intros x Hx ->%list_elem_of_singleton. done.
  - apply Forall_app. split; [done|]. constructor; [|constructor]. apply Hs.
  - apply Forall_app. split; [done|]. constructor; [|constructor]. intros _. apply Hs.
Qed.

Lemma keep_sub p rs : keep p rs `sublist_of` rs.
Proof. apply sublist_filter. Qed.
End flush.

Lemma frame_unquoted l s : frame_line l -> contains (quoted s) l = false.
Proof.
  intros [Hq _]. destruct (contains (quoted s) l) eqn:E; [|done].
  apply contains_spec in E as (a & b & ->). exfalso.
  assert (contains [x22] (a ++ quoted s ++ b) = true) as Hc; [|congruence].
  apply contains_spec. exists a, (s ++ [x22] ++ b). unfold quoted. by rewrite <-!app_assoc.
Qed.

Lemma contains_prefix p q l : contains (p ++ q) l = true -> contains q l = true.
Proof.
  rewrite !contains_spec. intros (a & b & ->). exists (a ++ p), b. by rewrite <-!app_assoc.
Qed.

Lemma nat_line_frame s l : frame_line l -> nat_line s l = false.
Proof. intros [_ Hm]. unfold nat_line. by rewrite Hm, andb_false_r. Qed.
Lemma forward_line_frame wan l : frame_line l -> forward_line wan l = false.
Proof. intros Hf. unfold forward_line. by rewrite !frame_unquoted. Qed.
Lemma mss_line_frame dev l : frame_line l -> mss_line dev l = false.
Proof.
  intros Hf. unfold mss_line.
  assert (Hn : forall k, contains (k ++ quoted dev) l = false).
  { intros k. destruct (contains (k ++ quoted dev) l) eqn:E; [|done].
    apply contains_prefix in E. by rewrite frame_unquoted in E. }
  by rewrite !Hn.
Qed.

(** ** Which rules a flush takes

    Stated on the lines of the listing, without the tests of the code. *)

Definition mentions (text line : bytes) : Prop := exists a b, line = a ++ text ++ b.

#[export] Instance mentions_dec text line : Decision (mentions text line).
Proof. refine (cast_if (decide (contains text line = true))); abstract (unfold mentions; by rewrite <-contains_spec). Defined.

(** A masquerading rule that names the subnet. *)
Definition nat_text (subnet line : bytes) : Prop := mentions subnet line /\ mentions (str "masquerade") line.
(** A rule that accepts, between the tunnels and the interface. *)
Definition forward_text (wan line : bytes) : Prop :=
  (mentions (quoted (str "redpill+")) line \/ mentions (quoted (str "redpill*")) line) /\
  mentions (quoted wan) line /\ mentions (str "accept") line.
(** A rule that clamps what leaves or enters through the device. *)
Definition mss_text (dev line : bytes) : Prop :=
  (mentions (str "oifname " ++ quoted dev) line \/ mentions (str "iifname " ++ quoted dev) line) /\
  mentions (str "maxseg") line.

#[export] Instance nat_text_dec subnet line : Decision (nat_text subnet line) := _.
#[export] Instance forward_text_dec wan line : Decision (forward_text wan line) := _.
#[export] Instance mss_text_dec dev line : Decision (mss_text dev line) := _.

Lemma mentions_contains text line : contains text line = true <-> mentions text line.
Proof. apply contains_spec. Qed.

Lemma nat_line_text subnet l : nat_line subnet l = true <-> nat_text subnet l.
Proof. unfold nat_line, nat_text. by rewrite andb_true_iff, !mentions_contains. Qed.
Lemma forward_line_text wan l : forward_line wan l = true <-> forward_text wan l.
Proof.
  unfold forward_line, forward_text. rewrite !andb_true_iff, orb_true_iff, !mentions_contains. tauto.
Qed.
Lemma mss_line_text dev l : mss_line dev l = true <-> mss_text dev l.
Proof. unfold mss_line, mss_text. by rewrite andb_true_iff, orb_true_iff, !mentions_contains. Qed.

Lemma keep_text {W} `{NetfilterOk W} (p : bytes -> bool) (P : bytes -> Prop) `{forall l, Decision (P l)} rs :
  (forall l, p l = true <-> P l) -> filter (fun r => ~ P (line r)) rs = keep p rs.
Proof. intros Hp. apply list_filter_iff. intros r. rewrite <-Hp. by destruct (p (line r)). Qed.

Section chains.
Context {W : Type} `{NetfilterOk W}.

Lemma iptables_append t c spec (w w' : W) :
  iptables t (str "-A") c spec w = (Ok tt, w') ->
  (exists h, (h ∉ (rules w t c).*1) /\ rules w' t c = rules w t c ++ [(h, spec)]) /\
  unchanged_but t c w w'.
Proof.
  unfold iptables, run_cmd. destruct (spawn _ _ w) as [o w1] eqn:E.
  destruct (append_law _ _ _ _ _ _ E) as [(h & Hf & Hh) Hu]. destruct o as [o|]; [|done].
  simpl in Hh. destruct (success o); simpl; [|done]. intros [= <-]. eauto.
Qed.

Lemma iptables_delete t c spec (w : W) :
  let w' := (iptables t (str "-D") c spec w).2 in
  rules w' t c = remove_first spec (rules w t c) /\ unchanged_but t c w w'.
Proof.
  cbv zeta. unfold iptables. rewrite run_cmd_snd. destruct (spawn _ _ w) as [o w1] eqn:E.
  destruct (delete_law _ _ _ _ _ _ E) as (_ & Hr & Hu). done.
Qed.

Lemma iptables_delete_result t c spec (w : W) :
  is_ok (iptables t (str "-D") c spec w).1 = bool_decide (spec ∈ (rules w t c).*2).
Proof.
  unfold iptables, run_cmd. destruct (spawn _ _ w) as [o w1] eqn:E.
  destruct (delete_law _ _ _ _ _ _ E) as (Hr & _). rewrite <-Hr.
  destruct o as [o|]; [|done]. simpl. by destruct (success o).
Qed.

(** Listings in which the flush of [setup_nat] reads every handle right, and sees the
    three rules it adds. *)
Record nat_listed (subnet wan : bytes) (w : W) : Prop := mkNatListed {
  listed_post : well_listed (nat_line subnet) (rules w NAT POSTROUTING);
  listed_forward : well_listed (forward_line wan) (rules w FILTER FORWARD);
  seen_masquerade : seen (nat_line subnet) (masquerade subnet wan);
  seen_in : seen (forward_line wan) (forward_in wan);
  seen_out : seen (forward_line wan) (forward_out wan)
}.

(** The rules that are neither masquerading rules whose listing names the subnet nor
    accepting ones between [redpill+] and the interface. *)
Definition other_rules (subnet wan : bytes) (w : W) : list Rule * list Rule :=
  (filter (fun r => ~ nat_text subnet (line r)) (rules w NAT POSTROUTING),
   filter (fun r => ~ forward_text wan (line r)) (rules w FILTER FORWARD)).

Lemma other_rules_keep subnet wan (w : W) : other_rules subnet wan w =
  (keep (nat_line subnet) (rules w NAT POSTROUTING), keep (forward_line wan) (rules w FILTER FORWARD)).
Proof.
  unfold other_rules. by rewrite (keep_text (nat_line subnet) (nat_text subnet)), (keep_text (forward_line wan) (forward_text wan))
    by (apply nat_line_text || apply forward_line_text).
Qed.

Lemma flush_nat_spec subnet wan (w : W) :
  nat_listed subnet wan w ->
  exists w', flush_nat_rules subnet wan w = (Ok tt, w') /\
    (rules w' NAT POSTROUTING, rules w' FILTER FORWARD) = other_rules subnet wan w.
Proof.
  intros Hl. unfold flush_nat_rules, mbind, M_bind.
  destruct (flush_chain_spec NAT POSTROUTING (nat_line subnet) w) as (w1 & -> & H1 & U1);
    [apply nat_line_frame|by eapply listed_post|].
  pose proof (U1 FILTER FORWARD ltac:(done)) as HF.
  destruct (flush_chain_spec FILTER FORWARD (forward_line wan) w1) as (w2 & -> & H2 & U2);
    [apply forward_line_frame|rewrite HF; by eapply listed_forward|].
  exists w2. split; [done|]. rewrite other_rules_keep.
  by rewrite H2, HF, (U2 NAT POSTROUTING), H1 by done.
Qed.

Lemma setup_nat_rules subnet wan (w w' : W) :
  nat_listed subnet wan w -> setup_nat subnet wan w = (Ok tt, w') ->
  nat_listed subnet wan w' /\ exists h1 h2 h3,
    rules w' NAT POSTROUTING = (other_rules subnet wan w).1 ++ [(h1, masquerade subnet wan)] /\
    rules w' FILTER FORWARD =
      (other_rules subnet wan w).2 ++ [(h2, forward_in wan); (h3, forward_out wan)].
Proof.
  rewrite other_rules_keep.
  intros Hl. pose proof Hl as [Lp Lf Hm Hi Ho]. unfold setup_nat, mbind, M_bind.
  destruct (flush_nat_spec subnet wan w Hl) as (w0 & -> & E0). rewrite other_rules_keep in E0.
  destruct (iptables NAT (str "-A") POSTROUTING (masquerade subnet wan) w0) as [[[]|e] w1] eqn:E1; [|done].
  destruct (iptables_append _ _ _ _ _ E1) as [(h1 & F1 & R1) U1].
  destruct (iptables FILTER (str "-A") FORWARD (forward_in wan) w1) as [[[]|e] w2] eqn:E2; [|done].
  destruct (iptables_append _ _ _ _ _ E2) as [(h2 & F2 & R2) U2]. intros E3.
  destruct (iptables_append _ _ _ _ _ E3) as [(h3 & F3 & R3) U3].
  assert (K1 : well_listed (nat_line subnet) (rules w0 NAT POSTROUTING)).
  { injection E0 as -> _. by eapply well_listed_sub; [apply keep_sub|]. }
  assert (K2 : well_listed (forward_line wan) (rules w0 FILTER FORWARD)).
  { injection E0 as _ ->. by eapply well_listed_sub; [apply keep_sub|]. }
  assert (RP : rules w' NAT POSTROUTING = rules w0 NAT POSTROUTING ++ [(h1, masquerade subnet wan)]).
  { by rewrite (U3 NAT POSTROUTING), (U2 NAT POSTROUTING), R1. }
  pose proof (U1 FILTER FORWARD ltac:(done)) as RF. split.
  - split; [rewrite RP; by apply well_listed_snoc|rewrite R3|done..].
    apply well_listed_snoc; [rewrite R2|done..]. rewrite RF in *. by apply well_listed_snoc.
  - exists h1, h2, h3. rewrite <-E0. simpl. split; [done|]. by rewrite R3, R2, RF, <-app_assoc.
Qed.

(** Our own rules are what a second flush removes. *)
Lemma setup_nat_other subnet wan (w w' : W) :
  nat_listed subnet wan w -> setup_nat subnet wan w = (Ok tt, w') ->
  other_rules subnet wan w' = other_rules subnet wan w.
Proof.
  intros Hl Hs. pose proof Hl as [_ _ Hm Hi Ho].
  destruct (setup_nat_rules _ _ _ _ Hl Hs) as (_ & h1 & h2 & h3 & R1 & R2).
  rewrite !other_rules_keep in *. rewrite R1, R2. simpl.
  change [(h2, forward_in wan); (h3, forward_out wan)]
    with ([(h2, forward_in wan)] ++ [(h3, forward_out wan)]).
  by rewrite !keep_app, !keep_keep, !keep_own, !app_nil_r by done.
Qed.

Lemma cleanup_nat_rules subnet wan (w : W) :
  nat_listed subnet wan w ->
  let w' := (cleanup_nat subnet wan w).2 in
  (rules w' NAT POSTROUTING, rules w' FILTER FORWARD) = other_rules subnet wan w.
Proof.
  intros Hl. cbv zeta. unfold cleanup_nat, ignore, mbind, M_bind.
  destruct (flush_nat_spec subnet wan w Hl) as (w0 & Ef & E0). rewrite !Ef. cbn [fst snd]. pose proof Hl as [_ _ Hm Hi Ho].
  rewrite other_rules_keep in E0 |- *. injection E0 as RP RF.
  destruct (iptables_delete NAT POSTROUTING (masquerade subnet wan) w0) as [D1 U1].
  set (w1 := (iptables NAT (str "-D") POSTROUTING (masquerade subnet wan) w0).2) in *.
  destruct (iptables_delete FILTER FORWARD (forward_in wan) w1) as [D2 U2].
  set (w2 := (iptables FILTER (str "-D") FORWARD (forward_in wan) w1).2) in *.
  destruct (iptables_delete FILTER FORWARD (forward_out wan) w2) as [D3 U3].
  rewrite (U3 NAT POSTROUTING), (U2 NAT POSTROUTING), D1, RP by done.
  rewrite D3, D2, (U1 FILTER FORWARD), RF by done.
  by rewrite !remove_first_absent by (rewrite ?remove_first_absent by (by apply keep_no_own);
    by apply keep_no_own).
Qed.
End chains.

(** ** MSS clamping *)

Lemma remove_first_length spec rs :
  spec ∈ rs.*2 -> length rs = S (length (remove_first spec rs)).
Proof.
  induction rs as [|r rs IH]; csimpl; [by intros ?%elem_of_nil|]. intros Hin.
  case_decide; [done|]. simpl. f_equal. apply IH. set_solver.
Qed.

Lemma remove_first_sub spec rs : remove_first spec rs `sublist_of` rs.
Proof. induction rs; simpl; [done|]. case_decide; by constructor. Qed.

Section mss.
Context {W : Type} `{NetfilterOk W}.

(** The loop ends once no rule with these arguments is left. *)
Lemma delete_until_err_spec c spec p fuel : forall w : W,
  seen p spec -> (length (rules w MANGLE c) < fuel)%nat ->
  exists w', delete_until_err fuel c spec w = Some w' /\
    keep p (rules w' MANGLE c) = keep p (rules w MANGLE c) /\
    rules w' MANGLE c `sublist_of` rules w MANGLE c /\ unchanged_but MANGLE c w w'.
Proof.
  induction fuel as [|fuel IH]; intros w Hs Hl; [lia|]. simpl.
  pose proof (iptables_delete_result MANGLE c spec w) as Hr.
  destruct (iptables_delete MANGLE c spec w) as [Hd Hu].
  destruct (iptables MANGLE (str "-D") c spec w) as [[[]|e] w1]; simpl in *.
  - symmetry in Hr. apply bool_decide_eq_true in Hr. apply remove_first_length in Hr.
    destruct (IH w1 Hs) as (w' & E & Hk & Hsub & Hu'); [rewrite Hd; lia|].
    exists w'. split; [done|]. split; [by rewrite Hk, Hd, keep_remove_first|]. split.
    + etrans; [exact Hsub|]. rewrite Hd. apply remove_first_sub.
    + intros t' c' Hne. by rewrite Hu', Hu.
  - exists w1. split; [done|]. split; [by rewrite Hd, keep_remove_first|]. split; [|done].
    rewrite Hd. apply remove_first_sub.
Qed.

Record mss_listed (dev mss : bytes) (w : W) : Prop := mkMssListed {
  listed_mss_forward : well_listed (mss_line dev) (rules w MANGLE FORWARD);
  listed_mss_output : well_listed (mss_line dev) (rules w MANGLE OUTPUT);
  seen_clamp_o : seen (mss_line dev) (clamp (str "-o") dev mss);
  seen_clamp_i : seen (mss_line dev) (clamp (str "-i") dev mss)
}.

(** The rules that do not clamp segments of the device. *)
Definition other_mss (dev : bytes) (w : W) : list Rule * list Rule :=
  (filter (fun r => ~ mss_text dev (line r)) (rules w MANGLE FORWARD),
   filter (fun r => ~ mss_text dev (line r)) (rules w MANGLE OUTPUT)).

Lemma other_mss_keep dev (w : W) : other_mss dev w =
  (keep (mss_line dev) (rules w MANGLE FORWARD), keep (mss_line dev) (rules w MANGLE OUTPUT)).
Proof. unfold other_mss. by rewrite !(keep_text (mss_line dev) (mss_text dev)) by apply mss_line_text. Qed.

Lemma flush_mss_spec dev mss (w : W) :
  mss_listed dev mss w ->
  exists w', flush_mss_rules_nft dev w = (Ok tt, w') /\
    (rules w' MANGLE FORWARD, rules w' MANGLE OUTPUT) = other_mss dev w.
Proof.
  intros [Lf Lo _ _]. unfold flush_mss_rules_nft. cbn [for_each]. unfold mbind, M_bind.
  destruct (flush_chain_spec MANGLE FORWARD (mss_line dev) w) as (w1 & -> & H1 & U1);
    [apply mss_line_frame|done|].
  pose proof (U1 MANGLE OUTPUT ltac:(done)) as HO.
  destruct (flush_chain_spec MANGLE OUTPUT (mss_line dev) w1) as (w2 & -> & H2 & U2);
    [apply mss_line_frame|by rewrite HO|].
  exists w2. split; [done|]. rewrite other_mss_keep. by rewrite H2, HO, (U2 MANGLE FORWARD), H1.
Qed.

(** What the three [-D] loops leave for the flush. *)
Lemma delete_loops fuel dev mss (w : W) :
  mss_listed dev mss w -> (length (rules w MANGLE FORWARD) < fuel)%nat ->
  (length (rules w MANGLE OUTPUT) < fuel)%nat ->
  exists w', (w ← delete_until_err fuel FORWARD (clamp (str "-o") dev mss) w;
              w ← delete_until_err fuel FORWARD (clamp (str "-i") dev mss) w;
              delete_until_err fuel OUTPUT (clamp (str "-o") dev mss) w) = Some w' /\
    mss_listed dev mss w' /\ other_mss dev w' = other_mss dev w.
Proof.
  intros [Lf Lo So Si] Hf Ho.
  destruct (delete_until_err_spec FORWARD _ (mss_line dev) fuel w So Hf) as (w1 & -> & K1 & S1 & U1).
  pose proof (sublist_length _ _ S1) as Hl1. simpl.
  destruct (delete_until_err_spec FORWARD _ (mss_line dev) fuel w1 Si) as (w2 & -> & K2 & S2 & U2); [lia|].
  pose proof (U1 MANGLE OUTPUT ltac:(done)) as O1. pose proof (U2 MANGLE OUTPUT ltac:(done)) as O2. simpl.
  destruct (delete_until_err_spec OUTPUT _ (mss_line dev) fuel w2 So) as (w3 & -> & K3 & S3 & U3);
    [by rewrite O2, O1|].
  pose proof (U3 MANGLE FORWARD ltac:(done)) as F3.
  exists w3. split; [done|]. split; [split; [| |done..]|].
  - rewrite F3. eapply well_listed_sub; [|exact Lf]. by etrans.
  - eapply well_listed_sub; [exact S3|]. by rewrite O2, O1.
  - rewrite !other_mss_keep. by rewrite F3, K2, K1, K3, O2, O1.
Qed.

Lemma setup_mss_rules fuel dev mtu (w : W) :
  let mss := show_int (mss_of mtu) in
  mss_listed dev mss w -> (length (rules w MANGLE FORWARD) < fuel)%nat ->
  (length (rules w MANGLE OUTPUT) < fuel)%nat ->
  exists r w', setup_mss_clamping fuel dev mtu w = Some (r, w') /\
    (r = Ok tt -> mss_listed dev mss w' /\ exists h1 h2 h3,
       rules w' MANGLE FORWARD = (other_mss dev w).1 ++
         [(h1, clamp (str "-o") dev mss); (h2, clamp (str "-i") dev mss)] /\
       rules w' MANGLE OUTPUT = (other_mss dev w).2 ++ [(h3, clamp (str "-o") dev mss)]).
Proof.
  cbv zeta. intros Hl Hf Ho. unfold setup_mss_clamping.
  set (mss := show_int (mss_of mtu)) in *.
  destruct (delete_loops fuel dev mss w Hl Hf Ho) as (w0 & E & Hl0 & E0). revert E.
  destruct (delete_until_err fuel FORWARD (clamp (str "-o") dev mss) w) as [wa|]; [|done].
  cbn [mbind option_bind].
  destruct (delete_until_err fuel FORWARD (clamp (str "-i") dev mss) wa) as [wb|]; [|done].
  cbn [mbind option_bind]. intros ->. cbn [mbind option_bind]. unfold mbind, M_bind.
  destruct (flush_mss_spec dev mss w0 Hl0) as (w1 & -> & E1'). destruct Hl0 as [Lf Lo So Si].
  assert (K : well_listed (mss_line dev) (rules w1 MANGLE FORWARD) /\
              well_listed (mss_line dev) (rules w1 MANGLE OUTPUT)).
  { rewrite other_mss_keep in E1'. injection E1' as -> ->. split; (eapply well_listed_sub; [apply keep_sub|done]). }
  destruct K as [Kf Ko]. rewrite <-E0, <-E1'. cbn [fst snd].
  destruct (iptables MANGLE (str "-A") FORWARD (clamp (str "-o") dev mss) w1) as [[[]|e] w2] eqn:E1;
    [|by eexists _, _].
  destruct (iptables_append _ _ _ _ _ E1) as [(h1 & F1 & R1) U1].
  destruct (iptables MANGLE (str "-A") FORWARD (clamp (str "-i") dev mss) w2) as [[[]|e] w3] eqn:E2;
    [|by eexists _, _].
  destruct (iptables_append _ _ _ _ _ E2) as [(h2 & F2 & R2) U2].
  destruct (iptables MANGLE (str "-A") OUTPUT (clamp (str "-o") dev mss) w3) as [[[]|e] w4] eqn:E3;
    [|by eexists _, _].
  destruct (iptables_append _ _ _ _ _ E3) as [(h3 & F3 & R3) U3].
  eexists _, _. split; [done|]. intros _.
  pose proof (U3 MANGLE FORWARD ltac:(done)) as RF. rewrite (U2 MANGLE OUTPUT), (U1 MANGLE OUTPUT) in * by done.
  rewrite R2, R1 in *. split.
  - split; [rewrite RF|rewrite R3|done..]; [|by apply well_listed_snoc].
    apply well_listed_snoc; [by apply well_listed_snoc|done..].
  - exists h1, h2, h3. by rewrite RF, R3, <-app_assoc.
Qed.

Lemma cleanup_mss_rules dev mtu (w : W) :
  mss_listed dev (show_int (mss_of mtu)) w ->
  let w' := (cleanup_mss_clamping dev mtu w).2 in
  (rules w' MANGLE FORWARD, rules w' MANGLE OUTPUT) = other_mss dev w.
Proof.
  intros Hl. cbv zeta. unfold cleanup_mss_clamping, ignore, mbind, M_bind.
  set (mss := show_int (mss_of mtu)) in *.
  destruct (flush_mss_spec dev mss w Hl) as (w0 & Ef & E0). rewrite !Ef. cbn [fst snd].
  destruct Hl as [_ _ So Si]. rewrite other_mss_keep in E0 |- *. injection E0 as RF RO.
  destruct (iptables_delete MANGLE FORWARD (clamp (str "-o") dev mss) w0) as [D1 U1].
  set (w1 := (iptables MANGLE (str "-D") FORWARD (clamp (str "-o") dev mss) w0).2) in *.
  destruct (iptables_delete MANGLE FORWARD (clamp (str "-i") dev mss) w1) as [D2 U2].
  set (w2 := (iptables MANGLE (str "-D") FORWARD (clamp (str "-i") dev mss) w1).2) in *.
  destruct (iptables_delete MANGLE OUTPUT (clamp (str "-o") dev mss) w2) as [D3 U3].
  rewrite (U3 MANGLE FORWARD), D2, D1, RF by done.
  rewrite D3, (U2 MANGLE OUTPUT), (U1 MANGLE OUTPUT), RO by done.
  by rewrite !remove_first_absent by (rewrite ?remove_first_absent by (by apply keep_no_own);
    by apply keep_no_own).
Qed.
End mss.

(** ** A concrete packet filter *)

(** Every command works; [nft] prints the arguments of a rule in its own words. *)
Record Netfilter := mkNf { nf_rules : gmap (bytes * bytes) (list Rule) }.

Fixpoint nft_text (spec : list bytes) : bytes :=
  match spec with
  | [] => []
  | a :: r =>
      match r with
      | b :: r' =>
          if decide (a = str "-o") then str "oifname " ++ quoted b ++ [SP] ++ nft_text r'
          else if decide (a = str "-i") then str "iifname " ++ quoted b ++ [SP] ++ nft_text r'
          else a ++ [SP] ++ nft_text r
      | [] =>
          if decide (a = str "MASQUERADE") then str "masquerade"
          else if decide (a = str "ACCEPT") then str "accept"
          else str "maxseg size set " ++ a
      end
  end.
Definition nf_line (r : Rule) : bytes := nft_text r.2 ++ str " # handle " ++ show_handle r.1.

Definition chain_of (m : Netfilter) (t c : bytes) : list Rule := default [] (nf_rules m !! (t, c)).
Definition set_chain (m : Netfilter) (t c : bytes) (rs : list Rule) : Netfilter :=
  mkNf (<[(t, c) := rs]> (nf_rules m)).

Lemma chain_of_set m t c rs t' c' :
  chain_of (set_chain m t c rs) t' c' = if decide ((t', c') = (t, c)) then rs else chain_of m t' c'.
Proof.
  unfold chain_of, set_chain. simpl. case_decide as Hd.
  - injection Hd as -> ->. by rewrite lookup_insert_eq.
  - by rewrite lookup_insert_ne by congruence.
Qed.

(** [-t table] in front, or the table [filter]. *)
Definition split_table (args : list bytes) : bytes * list bytes :=
  match args with
  | a :: t :: r => if decide (a = str "-t") then (t, r) else (FILTER, args)
  | _ => (FILTER, args)
  end.

Definition nf_iptables (args : list bytes) (m : Netfilter) : option Output * Netfilter :=
  let '(t, args) := split_table args in
  match args with
  | op :: c :: spec =>
      if decide (op = str "-A")
      then (done_ok, set_chain m t c (chain_of m t c ++ [(S (max_list (chain_of m t c).*1), spec)]))
      else if decide (spec ∈ (chain_of m t c).*2)
      then (done_ok, set_chain m t c (remove_first spec (chain_of m t c))) else (done_err, m)
  | _ => (done_err, m)
  end.

Definition nf_nft (args : list bytes) (m : Netfilter) : option Output * Netfilter :=
  match args with
  | [_; _; _; _; t; c] =>
      (Some (mkOutput true (concat ((fun l => l ++ [NL]) <$> (nf_line <$> chain_of m t c))) []), m)
  | [_; _; _; t; c; _; h] =>
      (done_ok, set_chain m t c (filter (fun r => show_handle r.1 <> h) (chain_of m t c)))
  | _ => (done_err, m)
  end.

#[local] Instance nf_shell : Shell Netfilter := fun program args m =>
  if decide (program = str "nft") then nf_nft args m else nf_iptables args m.

Lemma split_table_args t op c spec :
  op <> str "-t" -> split_table (iptables_args t op c spec) = (t, op :: c :: spec).
Proof.
  intros Hop. unfold iptables_args, table_args. case_decide as Ht; simpl.
  - by rewrite decide_False, Ht.
  - done.
Qed.

Lemma max_list_fresh (l : list nat) : S (max_list l) ∉ l.
Proof. intros Hin%max_list_elem_of_le. lia. Qed.

#[local] Instance netfilter_ok : NetfilterOk Netfilter.
Proof.
  refine {| rules := chain_of; line := nf_line |}.
  - intros w t c spec o w'. unfold spawn, nf_shell. rewrite decide_False by done.
    unfold nf_iptables. rewrite split_table_args by done. rewrite decide_True by done.
    intros [= <- <-]. split.
    + eexists. split; [apply max_list_fresh|]. by rewrite chain_of_set, decide_True.
    + intros t' c' Hne. by rewrite chain_of_set, decide_False.
  - intros w t c spec o w'. unfold spawn, nf_shell. rewrite decide_False by done.
    unfold nf_iptables. rewrite split_table_args by done. rewrite decide_False by done.
    case_decide as Hin; intros [= <- <-].
    + split; [by rewrite bool_decide_true|]. split; [by rewrite chain_of_set, decide_True|]. intros t' c' Hne. by rewrite chain_of_set, decide_False.
    + split; [by rewrite bool_decide_false|]. split; [by rewrite remove_first_absent|done].
  - intros w t c Ht. eexists _, [], [], w. split; [unfold spawn, nf_shell; by rewrite decide_True|].
    split; [|done]. rewrite lines_unlines; [by rewrite app_nil_r|]. by apply Forall_fmap.
  - intros w t c h. cbv zeta. unfold spawn, nf_shell. rewrite decide_True by done. simpl. split.
    + rewrite chain_of_set, decide_True by done. apply list_filter_iff. intros [h' sp]. simpl.
      split; intros Hn E; apply Hn; [by subst|]. unfold show_handle in E. apply show_int_inj in E; lia.
    + intros t' c' Hne. by rewrite chain_of_set, decide_False.
Defined.

(** A rule printed from plain words is seen. *)
Definition plain_body (body : bytes) : bool :=
  bool_decide (str "handle" ∉ split_whitespace body) &&
  forallb (fun b => negb (bool_decide (b = NL)) && negb (bool_decide (b = CR))) body.

Lemma printed_words body d :
  d <> [] -> Forall dec_char d ->
  split_whitespace (body ++ str " # handle " ++ d) = split_whitespace body ++ [[x23]; str "handle"; d].
Proof.
  intros Hne Hd.
  change (body ++ str " # handle " ++ d) with (body ++ SP :: ([x23] ++ SP :: (str "handle" ++ SP :: d))).
  rewrite (split_whitespace_mid body), (split_whitespace_mid [x23]), (split_whitespace_mid (str "handle")).
  rewrite (split_whitespace_word d); [done..|]. eapply Forall_impl; [exact Hd|]. apply dec_char_solid.
Qed.

Lemma position_app_skip ws x d :
  str "handle" ∉ ws -> x <> str "handle" ->
  position (str "handle") (ws ++ [x; str "handle"; d]) = Some (S (length ws)).
Proof.
  intros Hn Hx. change (ws ++ [x; str "handle"; d]) with (ws ++ [x] ++ str "handle" :: [d]).
  rewrite app_assoc, position_app; [rewrite length_app; simpl; f_equal; lia|]. set_solver.
Qed.

Lemma seen_printed (p : bytes -> bool) spec :
  plain_body (nft_text spec) = true ->
  (forall tail, p (nft_text spec ++ tail) = true) -> seen p spec.
Proof.
  intros Hb Hp h. unfold plain_body in Hb. apply andb_true_iff in Hb as [Hh Hl].
  apply bool_decide_eq_true in Hh. rewrite forallb_forall in Hl.
  pose proof (show_nat_digits h) as Hd. unfold line, netfilter_ok, nf_line. simpl fst. simpl snd.
  split; [apply Hp|]. split.
  - unfold handle_of. rewrite printed_words by (done || apply show_nat_nonempty).
    rewrite position_app_skip by done. cbn [mbind option_bind].
    rewrite lookup_app_r by lia. by replace (S (S _) - _)%nat with 2%nat by lia.
  - apply Forall_app. split.
    + apply Forall_forall. intros b Hin. apply list_elem_of_In in Hin. specialize (Hl b Hin). boolify. done.
    + apply Forall_app. split; [by repeat constructor|]. eapply Forall_impl; [exact Hd|].
      intros b Hdc. split; intros ->; vm_compute in Hdc; done.
Qed.

(** ** Theorems *)

(** [C10] NAT setup is idempotent and its cleanup removes what it added. Let the other
    rules be those of NAT whose line in the listing does not both name the subnet and say
    [masquerade], and those of the filter whose line does not name [redpill+] or
    [redpill*] and the interface and say [accept] (names are looked for as substrings).
    When the listing can be read back and [setup_nat] succeeds, it leaves exactly the
    other rules, as they were, followed by its three rules, once each; a second setup
    leads to the same rules; and [cleanup_nat] leaves exactly the other rules. *)
Theorem nat_setup_cleanup {W} `{NetfilterOk W} subnet wan (w w' : W) :
  nat_listed subnet wan w -> setup_nat subnet wan w = (Ok tt, w') ->
  (exists h1 h2 h3,
     rules w' NAT POSTROUTING = (other_rules subnet wan w).1 ++ [(h1, masquerade subnet wan)] /\
     rules w' FILTER FORWARD =
       (other_rules subnet wan w).2 ++ [(h2, forward_in wan); (h3, forward_out wan)]) /\
  (forall w2, setup_nat subnet wan w' = (Ok tt, w2) ->
     (rules w2 NAT POSTROUTING).*2 = (rules w' NAT POSTROUTING).*2 /\
     (rules w2 FILTER FORWARD).*2 = (rules w' FILTER FORWARD).*2) /\
  (let w3 := (cleanup_nat subnet wan w').2 in
   (rules w3 NAT POSTROUTING, rules w3 FILTER FORWARD) = other_rules subnet wan w).
Proof.
  intros Hl Hs. destruct (setup_nat_rules _ _ _ _ Hl Hs) as (Hl' & h1 & h2 & h3 & R1 & R2).
  pose proof (setup_nat_other _ _ _ _ Hl Hs) as Ho. split; [eauto 10|]. split.
  - intros w2 Hs2. destruct (setup_nat_rules _ _ _ _ Hl' Hs2) as (_ & g1 & g2 & g3 & Q1 & Q2).
    rewrite Q1, Q2, R1, R2, Ho, !fmap_app. done.
  - cbv zeta. by rewrite cleanup_nat_rules, Ho.
Qed.

(** Two stale rules of an earlier run, and one of somebody else. *)
Definition ex_subnet : bytes := str "10.0.1.0/24".
Definition ex_wan : bytes := str "ens1".
Definition ex_nf : Netfilter :=
  mkNf {[(NAT, POSTROUTING) :=
    [(3%nat, masquerade ex_subnet ex_wan); (4%nat, masquerade (str "192.168.7.0/24") ex_wan);
     (9%nat, masquerade ex_subnet ex_wan)]]}.

Lemma nat_line_tail subnet body tail : nat_line subnet body = true -> nat_line subnet (body ++ tail) = true.
Proof.
  unfold nat_line. rewrite !andb_true_iff. intros [Ha Hb].
  split; by apply (contains_app _ []).
Qed.
Lemma forward_line_tail wan body tail : forward_line wan body = true -> forward_line wan (body ++ tail) = true.
Proof.
  unfold forward_line. rewrite !andb_true_iff, !orb_true_iff. intros [[Ha Hb] Hc].
  repeat split; [destruct Ha as [Ha|Ha]; [left|right]|..]; by apply (contains_app _ []).
Qed.
Lemma mss_line_tail dev body tail : mss_line dev body = true -> mss_line dev (body ++ tail) = true.
Proof.
  unfold mss_line. rewrite !andb_true_iff, !orb_true_iff. intros [Ha Hb].
  split; [destruct Ha as [Ha|Ha]; [left|right]|]; by apply (contains_app _ []).
Qed.

(** Decide [well_listed] by evaluation. *)
Definition well_listed_b (p : bytes -> bool) (rs : list Rule) : bool :=
  bool_decide (NoDup rs.*1) &&
  forallb (fun r => forallb (fun b => negb (bool_decide (b = NL)) && negb (bool_decide (b = CR))) (line r)
             && (negb (p (line r)) || bool_decide (handle_of (line r) = Some (show_handle r.1)))) rs.

Lemma well_listed_b_spec p rs : well_listed_b p rs = true -> well_listed p rs.
Proof.
  unfold well_listed_b, well_listed. intros [Hn Hf]%andb_true_iff. apply bool_decide_eq_true in Hn.
  rewrite forallb_forall in Hf. split; [done|]. split; apply Forall_forall; intros r Hr;
    apply list_elem_of_In, Hf, andb_true_iff in Hr as [Ht Hh].
  - apply Forall_forall. intros b Hb. rewrite forallb_forall in Ht.
    apply list_elem_of_In, Ht in Hb. boolify. done.
  - intros Hp. rewrite Hp in Hh. simpl in Hh. by boolify.
Qed.

Lemma ex_nf_listed : nat_listed ex_subnet ex_wan ex_nf.
Proof.
  split.
  - apply well_listed_b_spec. vm_compute. reflexivity.
  - apply well_listed_b_spec. vm_compute. reflexivity.
  - apply seen_printed; [vm_compute; reflexivity|]. intros tail. apply nat_line_tail. vm_compute. reflexivity.
  - apply seen_printed; [vm_compute; reflexivity|]. intros tail. apply forward_line_tail. vm_compute. reflexivity.
  - apply seen_printed; [vm_compute; reflexivity|]. intros tail. apply forward_line_tail. vm_compute. reflexivity.
Qed.

Lemma ex_setup_nat_ok : is_ok (setup_nat ex_subnet ex_wan ex_nf).1 = true.
Proof. vm_compute. reflexivity. Qed.

Lemma nat_setup_cleanup_witness :
  exists w', setup_nat ex_subnet ex_wan ex_nf = (Ok tt, w') /\
    exists h, rules w' NAT POSTROUTING =
      (other_rules ex_subnet ex_wan ex_nf).1 ++ [(h, masquerade ex_subnet ex_wan)].
Proof.
  pose proof ex_setup_nat_ok as Hok.
  destruct (setup_nat ex_subnet ex_wan ex_nf) as [[[]|e] w'] eqn:E; [|discriminate Hok].
  exists w'. split; [reflexivity|].
  destruct (nat_setup_cleanup ex_subnet ex_wan ex_nf w' ex_nf_listed E) as [(h & _ & _ & Hr & _) _].
  exists h. exact Hr.
Defined.

(** A masquerading rule of somebody else whose subnet ends like the server's is taken for
    one of the server's own, and deleted. *)
Theorem lookalike_subnet_flushed :
  let w := mkNf {[(NAT, POSTROUTING) := [(4%nat, masquerade (str "110.0.1.0/24") ex_wan)]]} in
  exists w', setup_nat ex_subnet ex_wan w = (Ok tt, w') /\
    (rules w' NAT POSTROUTING).*2 = [masquerade ex_subnet ex_wan].
Proof.
  cbv zeta. set (w := mkNf _).
  assert (Hok : (is_ok (setup_nat ex_subnet ex_wan w).1,
    (rules (setup_nat ex_subnet ex_wan w).2 NAT POSTROUTING).*2) = (true, [masquerade ex_subnet ex_wan]))
    by (vm_compute; reflexivity).
  destruct (setup_nat ex_subnet ex_wan w) as [[[]|e] w']; [|discriminate Hok].
  exists w'. split; [reflexivity|]. apply (f_equal snd) in Hok. exact Hok.
Qed.

(** MSS clamping is idempotent, terminates and is undone by its cleanup. For the
    MTU values the configuration allows the clamp is the MTU minus 60; the loops that
    delete duplicates end after at most one turn more than the chain has rules; after
    a setup each rule is there once, after the rules that are not ours; and the
    cleanup leaves exactly those. *)
Theorem mss_setup_cleanup {W} `{NetfilterOk W} fuel dev mtu (w : W) :
  let mss := show_int (mss_of mtu) in
  mss_listed dev mss w -> (length (rules w MANGLE FORWARD) < fuel)%nat ->
  (length (rules w MANGLE OUTPUT) < fuel)%nat ->
  (576 <= mtu <= 1500 -> mss_of mtu = mtu - 60) /\
  exists r w', setup_mss_clamping fuel dev mtu w = Some (r, w') /\
    (r = Ok tt ->
     (exists h1 h2 h3,
        rules w' MANGLE FORWARD = (other_mss dev w).1 ++
          [(h1, clamp (str "-o") dev mss); (h2, clamp (str "-i") dev mss)] /\
        rules w' MANGLE OUTPUT = (other_mss dev w).2 ++ [(h3, clamp (str "-o") dev mss)]) /\
     let w3 := (cleanup_mss_clamping dev mtu w').2 in
     (rules w3 MANGLE FORWARD, rules w3 MANGLE OUTPUT) = other_mss dev w).
Proof.
  cbv zeta. intros Hl Hf Ho. split.
  { intros Hm. unfold mss_of, as_i32. cbv zeta.
    rewrite !(wrap_small 32 mtu), (proj2 (Z.ltb_lt mtu _)) by lia.
    rewrite !(wrap_small 32 (mtu - 60)), (proj2 (Z.ltb_lt (mtu - 60) _)) by lia. lia. }
  destruct (setup_mss_rules fuel dev mtu w Hl Hf Ho) as (r & w' & E & Hr).
  exists r, w'. split; [done|]. intros Hok. destruct (Hr Hok) as (Hl' & h1 & h2 & h3 & R1 & R2).
  split; [eauto 10|]. rewrite cleanup_mss_rules by done. destruct Hl as [_ _ So Si].
  rewrite !other_mss_keep in *. rewrite R1, R2. simpl.
  change [(h1, clamp (str "-o") dev ?m); (h2, ?s)] with ([(h1, clamp (str "-o") dev m)] ++ [(h2, s)]).
  by rewrite !keep_app, !keep_keep, !keep_own, !app_nil_r.
Qed.

(** A machine with a duplicate of the rule, and a stale rule with another size. *)
Definition ex_dev : bytes := str "redpill1".
Definition ex_mss : bytes := show_int (mss_of 1200).
Definition ex_nf_mss : Netfilter :=
  mkNf {[(MANGLE, FORWARD) :=
    [(1%nat, clamp (str "-o") ex_dev ex_mss); (2%nat, clamp (str "-o") ex_dev ex_mss);
     (5%nat, clamp (str "-i") ex_dev (str "1340"))]]}.

Lemma ex_nf_mss_listed : mss_listed ex_dev ex_mss ex_nf_mss.
Proof.
  split.
  - apply well_listed_b_spec. vm_compute. reflexivity.
  - apply well_listed_b_spec. vm_compute. reflexivity.
  - apply seen_printed; [vm_compute; reflexivity|]. intros tail. apply mss_line_tail. vm_compute. reflexivity.
  - apply seen_printed; [vm_compute; reflexivity|]. intros tail. apply mss_line_tail. vm_compute. reflexivity.
Qed.

Lemma mss_setup_cleanup_witness :
  mss_of 1200 = 1140 /\ exists r w', setup_mss_clamping 4 ex_dev 1200 ex_nf_mss = Some (r, w').
Proof.
  destruct (mss_setup_cleanup 4 ex_dev 1200 ex_nf_mss ex_nf_mss_listed) as [Hm (r & w' & E & _)].
  - vm_compute. lia.
  - vm_compute. lia.
  - split; [apply Hm; lia|]. exists r, w'. exact E.
Defined.
