(* ===== verification/Xdp.v ===== *)
(** The conntrack bypass of the server ([xdp.rs], Linux): [iptables] rules in the table
    [raw] that take UDP port 443 out of connection tracking, removed again at shutdown,
    and the options of the socket.

    The rules are those of [Firewall]; [NetfilterOk] says what [iptables] does. *)

From S2P Require Import Prelude Text Route Firewall.

Definition RAW : bytes := str "raw".
Definition PREROUTING : bytes := str "PREROUTING".
Definition notrack_in : list bytes :=
  [str "-p"; str "udp"; str "--dport"; str "443"; str "-j"; str "NOTRACK"].
Definition notrack_out : list bytes :=
  [str "-p"; str "udp"; str "--sport"; str "443"; str "-j"; str "NOTRACK"].

(** [setsockopt] with an [i32]: descriptor, level, option, value; its result is not looked at. *)
Class Setsockopt (W : Type) := sys_setsockopt : Z -> Z -> Z -> Z -> W -> W.

Section ops.
Context {W : Type} `{Shell W}.

(** [.output().map(|o| o.status.success()).unwrap_or(false)] *)
Definition iptables_ok (op c : bytes) (spec : list bytes) (w : W) : bool * W :=
  let '(o, w) := spawn (str "iptables") (iptables_args RAW op c spec) w in (ran o, w).

(** [for _ in 0..turns { if !ok { break } }] *)
Fixpoint delete_up_to (turns : nat) (c : bytes) (spec : list bytes) (w : W) : W :=
  match turns with
  | O => w
  | S turns =>
      let '(ok, w) := iptables_ok (str "-D") c spec w in
      if (ok : bool) then delete_up_to turns c spec w else w
  end.

Definition cleanup_notrack_iptables (w : W) : W :=
  let w := delete_up_to 10 PREROUTING notrack_in w in
  delete_up_to 10 OUTPUT notrack_out w.

Definition setup_notrack_iptables (w : W) : bool * W :=
  let w := cleanup_notrack_iptables w in
  let '(inbound, w) := iptables_ok (str "-A") PREROUTING notrack_in w in
  let '(outbound, w) := iptables_ok (str "-A") OUTPUT notrack_out w in
  (inbound && outbound, w).

Definition attach_bpf_filter (w : W) : result unit bool * W :=
  let '(ok, w) := setup_notrack_iptables w in
  if (ok : bool) then (Ok true, w) else (Ok false, w).

Definition SOL_SOCKET : Z := 1.
Definition SO_SNDBUF : Z := 7.
Definition SO_RCVBUF : Z := 8.
Definition SOL_UDP : Z := 17.
Definition UDP_GRO : Z := 104.

Definition tune_socket `{Setsockopt W} (fd : Z) (w : W) : result unit unit * W :=
  let buf_size := 8 * 1024 * 1024 in
  let w := sys_setsockopt fd SOL_SOCKET SO_RCVBUF buf_size w in
  let w := sys_setsockopt fd SOL_SOCKET SO_SNDBUF buf_size w in
  let w := sys_setsockopt fd SOL_UDP UDP_GRO 0 w in
  (Ok tt, w).
End ops.

(** ** Copies of a rule *)

Definition copies (spec : list bytes) (rs : list Rule) : nat := length (filter (fun r => r.2 = spec) rs).
Definition others (spec : list bytes) (rs : list Rule) : list Rule := filter (fun r => r.2 <> spec) rs.

Lemma remove_first_others spec rs : others spec (remove_first spec rs) = others spec rs.
Proof.
  unfold others. induction rs as [|r rs IH]; [done|]. cbn [remove_first]. case_decide.
  - by rewrite filter_cons_False by naive_solver.
  - by rewrite !filter_cons_True, IH by done.
Qed.
Lemma remove_first_copies spec rs : copies spec (remove_first spec rs) = pred (copies spec rs).
Proof.
  unfold copies. induction rs as [|r rs IH]; [done|]. cbn [remove_first]. case_decide.
  - by rewrite filter_cons_True by done.
  - by rewrite !filter_cons_False by done.
Qed.
Lemma no_copies spec rs : copies spec rs = 0%nat -> others spec rs = rs.
Proof.
  unfold copies, others. induction rs as [|r rs IH]; [done|]. destruct (decide (r.2 = spec)).
  - by rewrite filter_cons_True by done.
  - rewrite filter_cons_False, filter_cons_True by done. intros. by rewrite IH.
Qed.
Lemma copies_elem spec rs : spec ∈ rs.*2 <-> copies spec rs <> 0%nat.
Proof.
  unfold copies. rewrite list_elem_of_fmap. split.
  - intros (r & -> & Hr) Hn%length_zero_iff_nil.
    assert (r ∈ filter (fun x => x.2 = r.2) rs) as Hin by by apply list_elem_of_filter.
    rewrite Hn in Hin. by apply not_elem_of_nil in Hin.
  - intros Hn. destruct (filter _ rs) as [|r l] eqn:E; [done|]. exists r.
    assert (r ∈ filter (fun x => x.2 = spec) rs) as Hin by (rewrite E; left).
    apply list_elem_of_filter in Hin. naive_solver.
Qed.
Lemma others_app spec rs rs' : others spec (rs ++ rs') = others spec rs ++ others spec rs'.
Proof. apply filter_app. Qed.
Lemma copies_app spec rs rs' : copies spec (rs ++ rs') = (copies spec rs + copies spec rs')%nat.
Proof. unfold copies. by rewrite filter_app, length_app. Qed.
Lemma others_own h spec : others spec [(h, spec)] = [].
Proof. unfold others. by rewrite filter_cons_False by naive_solver. Qed.
Lemma copies_own h spec : copies spec [(h, spec)] = 1%nat.
Proof. unfold copies. by rewrite filter_cons_True by done. Qed.
Lemma copies_others spec rs : copies spec (others spec rs) = 0%nat.
Proof.
  unfold copies, others. apply length_zero_iff_nil. induction rs as [|r rs IH]; [done|].
  destruct (decide (r.2 = spec)).
  - by rewrite (filter_cons_False (fun r => r.2 <> spec)) by naive_solver.
  - by rewrite (filter_cons_True (fun r => r.2 <> spec)), filter_cons_False by done.
Qed.

Section rules.
Context {W : Type} `{NetfilterOk W}.

(** A bounded loop removes as many copies as it has turns, and nothing else. *)
Lemma delete_up_to_spec c spec n : forall w : W,
  let rs := rules w RAW c in let rs' := rules (delete_up_to n c spec w) RAW c in
  others spec rs' = others spec rs /\ copies spec rs' = (copies spec rs - n)%nat /\
  unchanged_but RAW c w (delete_up_to n c spec w).
Proof.
  induction n as [|n IH]; intros w; cbn [delete_up_to]; [split_and!; [done|lia|done]|].
  unfold iptables_ok. destruct (spawn _ _ w) as [o w1] eqn:E.
  apply delete_law in E as (Hran & Hr & Hu). rewrite Hran. case_bool_decide as Hin.
  - destruct (IH w1) as (Ho & Hc & Hu1). rewrite Ho, Hc, Hr, remove_first_others, remove_first_copies.
    split_and!; [done|lia|]. intros t' c' Hne. by rewrite Hu1, Hu.
  - assert (copies spec (rules w RAW c) = 0%nat) as Hzero.
    { destruct (decide (copies spec (rules w RAW c) = 0%nat)); [done|].
      exfalso. by apply Hin, copies_elem. }
    rewrite Hr, remove_first_others, remove_first_copies. split_and!; [done|lia|done].
Qed.

Lemma append_spec c spec (w : W) ok w' : iptables_ok (str "-A") c spec w = (ok, w') ->
  (exists h, rules w' RAW c = if ok then rules w RAW c ++ [(h, spec)] else rules w RAW c) /\
  unchanged_but RAW c w w'.
Proof.
  unfold iptables_ok. destruct (spawn _ _ w) as [o w1] eqn:E. intros [= <- <-].
  apply append_law in E as [(h & _ & Hr) Hu]. split; [by exists h|done].
Qed.

Lemma chains_differ : (RAW, OUTPUT) <> (RAW, PREROUTING).
Proof. by vm_compute. Qed.

Lemma cleanup_spec (w : W) :
  let w' := cleanup_notrack_iptables w in
  (others notrack_in (rules w' RAW PREROUTING) = others notrack_in (rules w RAW PREROUTING) /\
   copies notrack_in (rules w' RAW PREROUTING) = (copies notrack_in (rules w RAW PREROUTING) - 10)%nat) /\
  (others notrack_out (rules w' RAW OUTPUT) = others notrack_out (rules w RAW OUTPUT) /\
   copies notrack_out (rules w' RAW OUTPUT) = (copies notrack_out (rules w RAW OUTPUT) - 10)%nat) /\
  forall t c, (t, c) <> (RAW, PREROUTING) -> (t, c) <> (RAW, OUTPUT) -> rules w' t c = rules w t c.
Proof.
  cbv zeta. unfold cleanup_notrack_iptables.
  destruct (delete_up_to_spec PREROUTING notrack_in 10 w) as (Ho & Hc & Hu).
  set (w1 := delete_up_to 10 PREROUTING notrack_in w) in *.
  destruct (delete_up_to_spec OUTPUT notrack_out 10 w1) as (Ho2 & Hc2 & Hu2).
  rewrite (Hu2 RAW PREROUTING), Ho2, Hc2 by (intros ?; by apply chains_differ).
  rewrite (Hu RAW OUTPUT) by apply chains_differ. split_and!; [done..|].
  intros t c H1 H2. by rewrite Hu2, Hu.
Qed.
End rules.

(** ** Theorem *)

Section setup.
Context {W : Type} `{NetfilterOk W}.

Definition both (P : bytes -> list bytes -> Prop) : Prop := P PREROUTING notrack_in /\ P OUTPUT notrack_out.

Lemma setup_spec (w : W) ok w1 : setup_notrack_iptables w = (ok, w1) ->
  both (fun c spec =>
    others spec (rules w1 RAW c) = others spec (rules w RAW c) /\
    (copies spec (rules w1 RAW c) <= S (copies spec (rules w RAW c) - 10))%nat /\
    (ok = true -> copies spec (rules w1 RAW c) = S (copies spec (rules w RAW c) - 10))) /\
  forall t c, (t, c) <> (RAW, PREROUTING) -> (t, c) <> (RAW, OUTPUT) -> rules w1 t c = rules w t c.
Proof.
  unfold setup_notrack_iptables. destruct (cleanup_spec w) as ((Ho1 & Hc1) & (Ho2 & Hc2) & Hu).
  set (w0 := cleanup_notrack_iptables w) in *.
  destruct (iptables_ok _ PREROUTING _ w0) as [i wi] eqn:Ei.
  destruct (iptables_ok _ OUTPUT _ wi) as [o wo] eqn:Eo. intros [= <- <-].
  apply append_spec in Ei as [[hi Hi] Hui]. apply append_spec in Eo as [[ho Hr] Huo].
  rewrite (Hui RAW OUTPUT) in Hr by apply chains_differ.
  assert (rules wo RAW PREROUTING = rules wi RAW PREROUTING) as Hp
    by (apply Huo; intros ?; by apply chains_differ). rewrite Hi in Hp.
  split; [split|].
  - rewrite Hp. destruct i; rewrite ?others_app, ?copies_app, ?others_own, ?copies_own, ?app_nil_r, Ho1, Hc1;
      (split_and!; [done|lia|destruct o; (done || intros; lia)]).
  - rewrite Hr. destruct o; rewrite ?others_app, ?copies_app, ?others_own, ?copies_own, ?app_nil_r, Ho2, Hc2;
      (split_and!; [done|lia|destruct i; (done || intros; lia)]).
  - intros t c H1 H2. by rewrite Huo, Hui, Hu.
Qed.
End setup.

(** [C11] The bypass rules come and go. Whatever was in the two chains, [setup_notrack_iptables]
    and the [cleanup_notrack_iptables] of the shutdown touch no rule but their own. With at
    most ten stale copies in a chain, a setup that reports success leaves exactly one and the
    shutdown leaves none; this also holds when the setup reports failure, which may leave
    one of the two rules behind. The loops give up after ten deletions: of more stale
    copies, all but ten survive the start, and of twenty or more some survive the shutdown
    as well. *)
Theorem notrack_setup_cleanup {W} `{NetfilterOk W} (w : W) ok w1 :
  setup_notrack_iptables w = (ok, w1) ->
  let w2 := cleanup_notrack_iptables w1 in
  both (fun c spec =>
    let n := copies spec (rules w RAW c) in
    others spec (rules w1 RAW c) = others spec (rules w RAW c) /\
    (ok = true -> copies spec (rules w1 RAW c) = S (n - 10)) /\
    (if decide (n <= 19)%nat then rules w2 RAW c = others spec (rules w RAW c)
     else others spec (rules w2 RAW c) = others spec (rules w RAW c)) /\
    (ok = true -> copies spec (rules w2 RAW c) = (n - 19)%nat)) /\
  forall t c, (t, c) <> (RAW, PREROUTING) -> (t, c) <> (RAW, OUTPUT) ->
    rules w1 t c = rules w t c /\ rules w2 t c = rules w t c.
Proof.
  intros Hrun. apply setup_spec in Hrun as ((H1 & H2) & Hu).
  destruct (cleanup_spec w1) as (Hc1 & Hc2 & Hu2). split; [split|].
  - destruct H1 as (Ho & Hle & Heq), Hc1 as [Ho' Hc']. split_and!; [done|done| |].
    + case_decide; [|congruence]. rewrite <-Ho, <-Ho'. symmetry. apply no_copies. lia.
    + intros Hok. rewrite Hc', Heq by done. lia.
  - destruct H2 as (Ho & Hle & Heq), Hc2 as [Ho' Hc']. split_and!; [done|done| |].
    + case_decide; [|congruence]. rewrite <-Ho, <-Ho'. symmetry. apply no_copies. lia.
    + intros Hok. rewrite Hc', Heq by done. lia.
  - intros t c Ht Ho. rewrite Hu2, Hu by done. done.
Qed.

(** Two stale rules and one of somebody else. *)
Section witness.
#[local] Existing Instance nf_shell.
#[local] Existing Instance netfilter_ok.

Definition ex_ntp : Rule := (2%nat, [str "-p"; str "udp"; str "--dport"; str "123"; str "-j"; str "NOTRACK"]).
Definition ex_raw : Netfilter :=
  mkNf {[ (RAW, PREROUTING) := [(1%nat, notrack_in); ex_ntp; (3%nat, notrack_in)] ]}.

Lemma ex_raw_ok : (setup_notrack_iptables ex_raw).1 = true.
Proof. vm_compute. reflexivity. Qed.

Lemma notrack_setup_cleanup_witness :
  let w1 := (setup_notrack_iptables ex_raw).2 in
  copies notrack_in (rules w1 RAW PREROUTING) = 1%nat /\
  rules (cleanup_notrack_iptables w1) RAW PREROUTING = [ex_ntp].
Proof.
  pose proof ex_raw_ok as Hok. destruct (setup_notrack_iptables ex_raw) as [ok w1] eqn:E.
  cbn [fst snd] in *. destruct (notrack_setup_cleanup ex_raw ok w1 E) as ((H1 & _) & _).
  destruct H1 as (_ & Hc & Hr & _). split.
  - rewrite Hc by exact Hok. vm_compute. reflexivity.
  - rewrite decide_True in Hr by (vm_compute; lia). rewrite Hr. vm_compute. reflexivity.
Defined.
End witness.
