(* ===== verification/Startup.v ===== *)
(** Start-up and shutdown of the server ([main] of [server.rs]): which authentication
    table it starts with, the configuration of the host (TUN device, interface,
    forwarding, NAT, MSS clamping) in the order of the source, the initial
    [ServerState], and what is undone when the accept loop has ended.

    This is where [Config], [Users], [Auth], [IpPool], [Route], [Firewall] and [Server]
    meet. The TUN device is used through the class [TunDevices] of [Device]. *)

From S2P Require Import Prelude Datagram Text IpText Auth Users IpPool Demux Server Config Route Device Firewall.

Inductive StartError :=
  | RouteFailed (e : RouteError) | TunFailed | BadAddress (text : bytes) | BadCertificate
  | UsersFailed (e : UserError) | PskFailed (e : LoadError).

(** ** Code that may fail or panic *)

Definition St (W A : Type) : Type := W -> panics (result StartError A * W).

#[export] Instance St_ret {W} : MRet (St W) := fun A a w => Some (Ok a, w).
#[export] Instance St_bind {W} : MBind (St W) := fun A B k m w =>
  '(r, w) ← m w;
  match r with
  | Ok a => k a w
  | Err e => Some (Err e, w)
  end.

Definition lift {W A} (m : M W A) : St W A := fun w =>
  let '(r, w) := m w in
  Some (match r with Ok a => Ok a | Err e => Err (RouteFailed e) end, w).
Definition or_err {W A} (o : option A) (e : StartError) : St W A := fun w =>
  Some (match o with Some a => Ok a | None => Err e end, w).
Definition unwrap {W A} (o : panics A) : St W A := fun w => a ← o; Some (Ok a, w).
Definition when {W} (b : bool) (m : St W unit) : St W unit := if b then m else mret tt.

(** ** The authentication table *)

(** [store] and [psk] are what [UserStore::load] (on the directory, created if missing) and
    [load_psk] give. *)
Definition initial_auth (c : ServerConfig) (store : bytes -> panics (result UserError UserStore))
    (psk : bytes -> panics (result LoadError bytes)) : panics (result StartError AuthMode) :=
  match users_dir c with
  | Some dir =>
      r ← store dir;
      Some match r with Ok s => Ok (MultiUser s) | Err e => Err (UsersFailed e) end
  | None =>
      r ← psk (psk_file c);
      Some match r with Ok k => Ok (SinglePsk (PskAuthenticator_new k)) | Err e => Err (PskFailed e) end
  end.

(** ** Start and stop *)

Record Started := mkStarted { st_tun : bytes; st_subnet : bytes; st_state : ServerState IpPool }.

Section main.
Context {W : Type} `{Shell W, Files W, TunDevices W, Ipv6Text}.

Definition create_tun (name : bytes) : St W bytes := fun w =>
  let '(o, w) := tun_create name w in
  Some (match o with Some tun => Ok tun | None => Err TunFailed end, w).
Definition set_tun_mtu (tun : bytes) (mtu : Z) : St W unit := fun w =>
  let '(ok, w) := tun_set_mtu tun mtu w in
  Some (if (ok : bool) then Ok tt else Err TunFailed, w).
Definition clamp_mss (fuel : Datatypes.nat) (tun : bytes) (mtu : Z) : St W unit := fun w =>
  '(r, w) ← setup_mss_clamping fuel tun mtu w;
  Some (match r with Ok a => Ok a | Err e => Err (RouteFailed e) end, w).
Definition socket_addr (text : bytes) : St W unit :=
  or_err (if is_socket_addr text then Some tt else None) (BadAddress text).
Definition ipv4_addr (text : bytes) : St W Ipv4Addr := or_err (parse_ipv4 text) (BadAddress text).

(** What is checked before the listeners are spawned; [cert_ok]: the certificate for the TLS
    listener loads. *)
Definition start_reality (c : ServerConfig) (cert_ok : bool) : St W unit :=
  when (reality_enabled (reality c))
    (_ ← socket_addr (reality_listen (reality c));
     or_err (if cert_ok then Some tt else None) BadCertificate).
Definition start_ws (c : ServerConfig) : St W unit :=
  when (ws_enabled (websocket c)) (socket_addr (ws_listen (websocket c))).

Definition start_server (fuel : Datatypes.nat) (c : ServerConfig) (auth_mode : AuthMode) (cert_ok : bool)
    : St W Started :=
  tun ← create_tun (tun_name c);
  _ ← set_tun_mtu tun (cfg_mtu c);
  server_ip ← ipv4_addr (tun_address c);
  _ ← lift (configure_interface tun server_ip (tun_prefix_len c));
  _ ← lift enable_ip_forwarding;
  base ← unwrap (subnet_from_config c);
  let subnet := base ++ str "/" ++ show_int (tun_prefix_len c) in
  _ ← when (nat_enabled (nat c)) (lift (setup_nat subnet (nat_interface (nat c))));
  _ ← clamp_mss fuel tun (cfg_mtu c);
  _ ← lift (configure_tun_performance tun 10000);
  base_ip ← ipv4_addr base;
  dns_ip ← ipv4_addr (dns c);
  _ ← socket_addr (metrics_listen c);
  _ ← start_reality c cert_ok;
  _ ← start_ws c;
  mret (mkStarted tun subnet
    (mkServer auth_mode (pool_new base_ip) 0 (cfg_max_connections c) (cfg_mtu c) server_ip dns_ip
       (decoy_on (decoy c)) router_new 0 ∅ 0 0)).

Definition shutdown_server (c : ServerConfig) (tun subnet : bytes) : M W unit :=
  _ ← (if nat_enabled (nat c) then cleanup_nat subnet (nat_interface (nat c)) else mret tt);
  cleanup_mss_clamping tun (cfg_mtu c).
End main.

(** ** What leaves the packet filter alone *)

(** The commands and files that do not touch it, and the chains an [nft] command that
    names one does not touch. *)
Class HostFrame (W : Type) `{NetfilterOk W, Files W, TunDevices W} := {
  ip_keeps args w t c : rules (spawn (str "ip") args w).2 t c = rules w t c;
  tc_keeps args w t c : rules (spawn (str "tc") args w).2 t c = rules w t c;
  file_keeps path d w t c : rules (write_file path d w).2 t c = rules w t c;
  tun_keeps name mtu w t c :
    rules (tun_create name w).2 t c = rules w t c /\ rules (tun_set_mtu name mtu w).2 t c = rules w t c;
  list_keeps t0 c0 w t c : rules (spawn (str "nft") (list_args t0 c0) w).2 t c = rules w t c;
  delete_keeps t0 c0 h w t c : (t, c) <> (t0, c0) ->
    rules (spawn (str "nft") (delete_args t0 c0 h) w).2 t c = rules w t c
}.

(** The device operations of [Device] satisfy the clause of [HostFrame] on devices when system
    calls leave the packet filter alone. *)
Lemma linux_tun_keeps {W} `{NetfilterOk W, Libc W} (Hk : forall t c, LibcKeeps (fun w : W => rules w t c))
    name mtu (w : W) t c :
  rules (tun_create name w).2 t c = rules w t c /\ rules (tun_set_mtu name mtu w).2 t c = rules w t c.
Proof. apply (devices_keep (fun w => rules w t c)). Qed.

Section frames.
Context {W : Type} `{HostFrame W, Ipv6Text}.

(** [m] changes at most the chains [T]. *)
Definition frames (T : list (bytes * bytes)) {A} (m : M W A) : Prop :=
  forall w t c, (t, c) ∉ T -> rules (m w).2 t c = rules w t c.

Lemma frames_bind T {A B} (m : M W A) (k : A -> M W B) :
  frames T m -> (forall a, frames T (k a)) -> frames T (m ≫= k).
Proof.
  intros Hm Hk w t c Ht. unfold mbind, M_bind. specialize (Hm w t c Ht).
  destruct (m w) as [[a|e] w1]; [|done]. by rewrite Hk.
Qed.
Lemma frames_ignore T {A} (m : M W A) : frames T m -> frames T (ignore m).
Proof. intros Hm w t c Ht. apply (Hm w t c Ht). Qed.
Lemma frames_if_ok T {A} (m : M W A) k : frames T m -> (forall a, frames T (k a)) -> frames T (if_ok m k).
Proof.
  intros Hm Hk w t c Ht. unfold if_ok. specialize (Hm w t c Ht).
  destruct (m w) as [[a|e] w1]; [|done]. by rewrite Hk.
Qed.
Lemma frames_for_each T {A} (l : list A) k : (forall a, frames T (k a)) -> frames T (for_each l k).
Proof. intros Hk. induction l as [|a l IH]; [done|]. by apply frames_bind. Qed.
Lemma frames_ret T {A} (a : A) : frames T (mret a).
Proof. done. Qed.

Lemma frames_cmd T program args :
  (forall w t c, (t, c) ∉ T -> rules (spawn program args w).2 t c = rules w t c) ->
  frames T (run_cmd program args).
Proof. intros Hs w t c Ht. rewrite run_cmd_snd. by apply Hs. Qed.

Lemma frames_ip T args : frames T (run_cmd (str "ip") args).
Proof. apply frames_cmd. intros. apply ip_keeps. Qed.
Lemma frames_tc T args : frames T (run_cmd (str "tc") args).
Proof. apply frames_cmd. intros. apply tc_keeps. Qed.

Lemma frames_append T t c spec : (t, c) ∈ T -> frames T (iptables t (str "-A") c spec).
Proof.
  intros HT. apply frames_cmd. intros w t' c' Ht. destruct (spawn _ _ w) as [o w1] eqn:E.
  destruct (append_law _ _ _ _ _ _ E) as [_ Hu]. apply Hu. intros Eq. by rewrite Eq in Ht.
Qed.
Lemma frames_delete T t c spec : (t, c) ∈ T -> frames T (iptables t (str "-D") c spec).
Proof.
  intros HT. apply frames_cmd. intros w t' c' Ht. destruct (spawn _ _ w) as [o w1] eqn:E.
  destruct (delete_law _ _ _ _ _ _ E) as (_ & _ & Hu). apply Hu. intros Eq. by rewrite Eq in Ht.
Qed.
Lemma frames_flush T t c p : (t, c) ∈ T -> frames T (flush_chain t c p).
Proof.
  intros HT. apply frames_if_ok.
  - intros w t' c' _. rewrite <-(list_keeps t c w t' c'). unfold run_cmd_output.
    destruct (spawn _ _ w) as [[o|] w1]; [|done]. simpl. by destruct (success o).
  - intros out. apply frames_for_each. intros h. apply frames_ignore, frames_cmd.
    intros w t' c' Ht. apply delete_keeps. intros E. by rewrite E in Ht.
Qed.
End frames.

(** Decompose a program by its syntax. *)
Ltac frame :=
  repeat match goal with
         | |- frames _ (mbind _ _) => apply frames_bind; [|intros _]
         | |- frames _ (for_each _ _) => apply frames_for_each; intros ?
         | |- frames _ (ignore _) => apply frames_ignore
         | |- frames _ (iptables _ _ _ _) => first [apply frames_append | apply frames_delete]
         | |- frames _ (flush_chain _ _ _) => apply frames_flush
         | |- frames _ (run_cmd _ _) => first [apply frames_ip | apply frames_tc]
         | |- frames _ (mret _) => apply frames_ret
         | |- _ ∈ _ => first [by left | by (right; left)]
         end.

Abbreviation NAT_CHAINS := [(NAT, POSTROUTING); (FILTER, FORWARD)].
Abbreviation MSS_CHAINS := [(MANGLE, FORWARD); (MANGLE, OUTPUT)].

Section lemmas.
Context {W : Type} `{HostFrame W, Ipv6Text}.

Lemma frames_setup_nat subnet wan : frames NAT_CHAINS (setup_nat (W:=W) subnet wan).
Proof. unfold setup_nat, flush_nat_rules. frame. Qed.
Lemma frames_cleanup_nat subnet wan : frames NAT_CHAINS (cleanup_nat (W:=W) subnet wan).
Proof. unfold cleanup_nat, flush_nat_rules. frame. Qed.
Lemma frames_cleanup_mss dev mtu : frames MSS_CHAINS (cleanup_mss_clamping (W:=W) dev mtu).
Proof. unfold cleanup_mss_clamping, flush_mss_rules_nft. cbn [for_each]. frame. Qed.
Lemma frames_interface T dev ip n : frames T (configure_interface (W:=W) dev ip n).
Proof. unfold configure_interface. frame. Qed.
Lemma frames_performance T dev n : frames T (configure_tun_performance (W:=W) dev n).
Proof. unfold configure_tun_performance. frame. Qed.
Lemma frames_forwarding T : frames T (enable_ip_forwarding (W:=W)).
Proof.
  intros w t c _. unfold enable_ip_forwarding, write_or_io.
  rewrite <-(file_keeps (str "/proc/sys/net/ipv4/ip_forward") (str "1") w t c).
  by destruct (write_file _ _ w).
Qed.

Lemma delete_until_err_frames c spec fuel : forall w w' : W,
  delete_until_err fuel c spec w = Some w' -> forall t' c', (t', c') <> (MANGLE, c) ->
  rules w' t' c' = rules w t' c'.
Proof.
  induction fuel as [|fuel IH]; intros w w' E t' c' Hne; [done|]. simpl in E.
  pose proof (frames_delete [(MANGLE, c)] MANGLE c spec ltac:(by left) w t' c') as Hf.
  destruct (iptables MANGLE (str "-D") c spec w) as [[a|e] w1]; simpl in Hf.
  - rewrite (IH _ _ E), Hf; [done| |done]. by rewrite list_elem_of_singleton.
  - injection E as <-. apply Hf. by rewrite list_elem_of_singleton.
Qed.

Lemma setup_mss_frames fuel dev mtu (w w' : W) r :
  setup_mss_clamping fuel dev mtu w = Some (r, w') ->
  forall t c, (t, c) ∉ MSS_CHAINS -> rules w' t c = rules w t c.
Proof.
  unfold setup_mss_clamping. set (mss := show_int (mss_of mtu)). intros E t c Ht.
  destruct (delete_until_err fuel FORWARD (clamp (str "-o") dev mss) w) as [w1|] eqn:E1; [|done].
  cbn [mbind option_bind] in E.
  destruct (delete_until_err fuel FORWARD (clamp (str "-i") dev mss) w1) as [w2|] eqn:E2; [|done].
  cbn [mbind option_bind] in E.
  destruct (delete_until_err fuel OUTPUT (clamp (str "-o") dev mss) w2) as [w3|] eqn:E3; [|done].
  cbn [mbind option_bind] in E. apply (inj Some) in E.
  assert (Hm : (t, c) <> (MANGLE, FORWARD) /\ (t, c) <> (MANGLE, OUTPUT)) by (split; set_solver).
  rewrite <-(delete_until_err_frames _ _ _ _ _ E1), <-(delete_until_err_frames _ _ _ _ _ E2),
    <-(delete_until_err_frames _ _ _ _ _ E3) by apply Hm.
  match type of E with ?m w3 = _ => assert (Hf : frames MSS_CHAINS m) end.
  { unfold flush_mss_rules_nft. cbn [for_each]. frame. }
  specialize (Hf w3 t c Ht). by rewrite E in Hf.
Qed.

Lemma nat_listed_ext subnet wan (w w' : W) :
  (forall c, rules w' NAT c = rules w NAT c /\ rules w' FILTER c = rules w FILTER c) ->
  nat_listed subnet wan w -> nat_listed subnet wan w'.
Proof. intros Hr [Lp Lf Hm Hi Ho]. split; [by rewrite (proj1 (Hr _))|by rewrite (proj2 (Hr _))|done..]. Qed.

Lemma mss_listed_ext dev mss (w w' : W) :
  (forall c, rules w' MANGLE c = rules w MANGLE c) -> mss_listed dev mss w -> mss_listed dev mss w'.
Proof. intros Hr [Lf Lo So Si]. split; by rewrite ?Hr. Qed.

Lemma setup_mss_other fuel dev mtu (w w' : W) :
  mss_listed dev (show_int (mss_of mtu)) w -> (length (rules w MANGLE FORWARD) < fuel)%nat ->
  (length (rules w MANGLE OUTPUT) < fuel)%nat -> setup_mss_clamping fuel dev mtu w = Some (Ok tt, w') ->
  mss_listed dev (show_int (mss_of mtu)) w' /\ other_mss dev w' = other_mss dev w.
Proof.
  intros Hl Hf Ho E. destruct (setup_mss_rules fuel dev mtu w Hl Hf Ho) as (r & w1 & E1 & Hr).
  rewrite E in E1. injection E1 as <- <-. destruct (Hr eq_refl) as (Hl' & h1 & h2 & h3 & R1 & R2).
  split; [done|]. destruct Hl as [_ _ So Si]. set (mss := show_int (mss_of mtu)) in *.
  rewrite !other_mss_keep in *. rewrite R1, R2. simpl.
  change [(h1, clamp (str "-o") dev mss); (h2, clamp (str "-i") dev mss)]
    with ([(h1, clamp (str "-o") dev mss)] ++ [(h2, clamp (str "-i") dev mss)]).
  by rewrite !keep_app, !keep_keep, !keep_own, !app_nil_r.
Qed.

(** *** Inverting a start *)

Lemma bind_ok {A B} (m : St W A) (k : A -> St W B) w b w' :
  (m ≫= k) w = Some (Ok b, w') -> exists a w1, m w = Some (Ok a, w1) /\ k a w1 = Some (Ok b, w').
Proof.
  unfold mbind at 1, St_bind. destruct (m w) as [[[a|e] w1]|]; simpl; [|done..]. by eauto.
Qed.
Lemma bind_step {A B} (m : St W A) (k : A -> St W B) w a w1 :
  m w = Some (Ok a, w1) -> (m ≫= k) w = k a w1.
Proof. unfold mbind at 1, St_bind. by intros ->. Qed.
Lemma lift_ok {A} (m : M W A) w a w' : lift m w = Some (Ok a, w') -> m w = (Ok a, w').
Proof. unfold lift. destruct (m w) as [[a'|e] w1]; by intros [= <- <-]. Qed.
Lemma or_err_ok {A} (o : option A) e (w : W) a w' : or_err o e w = Some (Ok a, w') -> o = Some a /\ w' = w.
Proof. unfold or_err. destruct o; by intros [= <- <-]. Qed.
Lemma unwrap_ok {A} (o : panics A) (w : W) a w' : unwrap o w = Some (Ok a, w') -> o = Some a /\ w' = w.
Proof. unfold unwrap. destruct o; by intros [= <- <-]. Qed.
Lemma when_check_ok b o e (w : W) w' :
  when b (or_err o e) w = Some (Ok tt, w') -> w' = w.
Proof. unfold when. destruct b; [by intros [_ ->]%or_err_ok|by intros [= <-]]. Qed.

Definition same_rules (w w' : W) : Prop := forall t c, rules w' t c = rules w t c.

Lemma create_tun_ok name w tun w' : create_tun name w = Some (Ok tun, w') -> same_rules w w'.
Proof.
  unfold create_tun. intros E t c. destruct (tun_keeps name 0 w t c) as [Hk _].
  destruct (tun_create name w) as [[x|] w1]; [|done]. injection E as _ <-. done.
Qed.
Lemma set_tun_mtu_ok tun mtu w w' : set_tun_mtu tun mtu w = Some (Ok tt, w') -> same_rules w w'.
Proof.
  unfold set_tun_mtu. intros E t c. destruct (tun_keeps tun mtu w t c) as [_ Hk].
  destruct (tun_set_mtu tun mtu w) as [[] w1]; [|done]. injection E as <-. done.
Qed.
Lemma frames_same {A} (m : M W A) w r w' : frames [] m -> m w = (r, w') -> same_rules w w'.
Proof. intros Hf E t c. specialize (Hf w t c ltac:(apply not_elem_of_nil)). by rewrite E in Hf. Qed.

(** The rules pass through the start in three steps. *)
Definition start_trace (fuel : Datatypes.nat) (c : ServerConfig) (s : Started) (w w' : W) : Prop :=
  exists w0 w1 w2, same_rules w w0 /\
    (if nat_enabled (Config.nat c)
     then setup_nat (st_subnet s) (nat_interface (Config.nat c)) w0 = (Ok tt, w1)
     else w1 = w0) /\
    setup_mss_clamping fuel (st_tun s) (cfg_mtu c) w1 = Some (Ok tt, w2) /\
    same_rules w2 w'.

(** The state it starts with. *)
Definition start_state (c : ServerConfig) (a : AuthMode) (s : Started) : Prop :=
  exists ip base base_ip dns_ip, parse_ipv4 (tun_address c) = Some ip /\
    subnet_from_config c = Some base /\ parse_ipv4 base = Some base_ip /\
    parse_ipv4 (dns c) = Some dns_ip /\
    st_subnet s = base ++ str "/" ++ show_int (tun_prefix_len c) /\
    st_state s = mkServer a (pool_new base_ip) 0 (cfg_max_connections c) (cfg_mtu c) ip dns_ip
                   (decoy_on (decoy c)) router_new 0 ∅ 0 0.

Lemma start_server_ok fuel c a cert w s w' :
  start_server fuel c a cert w = Some (Ok s, w') -> start_trace fuel c s w w' /\ start_state c a s.
Proof.
  unfold start_server, start_reality, start_ws, ipv4_addr, socket_addr. intros E.
  apply bind_ok in E as (tun & wa & Ha & E). apply bind_ok in E as ([] & wb & Hb & E).
  apply bind_ok in E as (ip & wc & [Hip ->]%or_err_ok & E).
  apply bind_ok in E as ([] & wd & Hd%lift_ok & E). apply bind_ok in E as ([] & we & He%lift_ok & E).
  apply bind_ok in E as (base & wf & [Hbase ->]%unwrap_ok & E). cbv zeta in E.
  apply bind_ok in E as ([] & wg & Hg & E). apply bind_ok in E as ([] & wh & Hh & E).
  apply bind_ok in E as ([] & wi & Hi%lift_ok & E).
  apply bind_ok in E as (base_ip & wj & [Hbip ->]%or_err_ok & E).
  apply bind_ok in E as (dns_ip & wk & [Hdns ->]%or_err_ok & E).
  apply bind_ok in E as ([] & wl & [_ ->]%or_err_ok & E).
  apply bind_ok in E as ([] & wm & Hm & E). apply bind_ok in E as ([] & wn & ->%when_check_ok & E).
  injection E as <- <-.
  assert (wm = wi) as ->.
  { unfold when in Hm. destruct (reality_enabled _); [|by injection Hm].
    apply bind_ok in Hm as ([] & wx & [_ ->]%or_err_ok & [_ ->]%or_err_ok). done. }
  split; [|by exists ip, base, base_ip, dns_ip].
  exists we, wg, wh. split; [|split; [|split]]; cbn [st_subnet st_tun].
  - intros t ch. rewrite (frames_same _ _ _ _ (frames_forwarding []) He).
    rewrite (frames_same _ _ _ _ (frames_interface [] _ _ _) Hd).
    by rewrite (set_tun_mtu_ok _ _ _ _ Hb), (create_tun_ok _ _ _ _ Ha).
  - unfold when in Hg. destruct (nat_enabled _); [by apply lift_ok|by injection Hg].
  - unfold clamp_mss in Hh. destruct (setup_mss_clamping _ _ _ wg) as [[[[]|e] wx]|]; simpl in Hh; [|done..].
    by injection Hh as <-.
  - apply (frames_same _ _ _ _ (frames_performance [] _ _) Hi).
Qed.

(** *** The rules from start to stop *)

(** The tables of the two groups of chains. *)
Definition same_nat (w w' : W) : Prop :=
  forall ch, rules w' NAT ch = rules w NAT ch /\ rules w' FILTER ch = rules w FILTER ch.
Definition same_mangle (w w' : W) : Prop := forall ch, rules w' MANGLE ch = rules w MANGLE ch.

Lemma same_rules_nat w w' : same_rules w w' -> same_nat w w'.
Proof. intros Hs ch. by split. Qed.
Lemma same_rules_mangle w w' : same_rules w w' -> same_mangle w w'.
Proof. intros Hs ch. done. Qed.

Lemma other_rules_ext subnet wan w w' :
  same_nat w w' -> other_rules subnet wan w' = other_rules subnet wan w.
Proof. intros Hs. unfold other_rules. by rewrite (proj1 (Hs _)), (proj2 (Hs _)). Qed.
Lemma other_mss_ext dev w w' : same_mangle w w' -> other_mss dev w' = other_mss dev w.
Proof. intros Hs. unfold other_mss. by rewrite !Hs. Qed.

Lemma not_nat_chain t ch : t = MANGLE -> (t, ch) ∉ NAT_CHAINS.
Proof. intros -> [E|[E|[]%elem_of_nil]%elem_of_cons]%elem_of_cons; discriminate E. Qed.
Lemma not_mss_chain t ch : t = NAT \/ t = FILTER -> (t, ch) ∉ MSS_CHAINS.
Proof.
  intros Ht [E|[E|[]%elem_of_nil]%elem_of_cons]%elem_of_cons; injection E as -> _;
    destruct Ht; discriminate.
Qed.

Lemma cleanup_nat_ok subnet wan w : nat_listed subnet wan w -> (cleanup_nat subnet wan w).1 = Ok tt.
Proof.
  intros Hl. unfold cleanup_nat, mbind, M_bind, ignore.
  by destruct (flush_nat_spec subnet wan w Hl) as (w' & -> & _).
Qed.

(** What [setup_nat], if it runs, means for both groups. *)
Lemma nat_part c subnet w0 w1 : nat_listed subnet (nat_interface (Config.nat c)) w0 ->
  (if nat_enabled (Config.nat c) then setup_nat subnet (nat_interface (Config.nat c)) w0 = (Ok tt, w1)
   else w1 = w0) ->
  same_mangle w0 w1 /\ nat_listed subnet (nat_interface (Config.nat c)) w1 /\
  (forall t ch, (t, ch) ∉ NAT_CHAINS -> rules w1 t ch = rules w0 t ch) /\
  if nat_enabled (Config.nat c)
  then other_rules subnet (nat_interface (Config.nat c)) w1 = other_rules subnet (nat_interface (Config.nat c)) w0
  else w1 = w0.
Proof.
  intros Hl. destruct (nat_enabled _); [|by intros ->]. intros E.
  assert (Hfr : forall t ch, (t, ch) ∉ NAT_CHAINS -> rules w1 t ch = rules w0 t ch).
  { intros t ch Ht. pose proof (frames_setup_nat subnet (nat_interface (Config.nat c)) w0 t ch Ht) as Hf.
    by rewrite E in Hf. }
  split; [intros ch; apply Hfr; by apply not_nat_chain|].
  split; [by destruct (setup_nat_rules _ _ _ _ Hl E)|]. split; [done|]. by apply setup_nat_other.
Qed.

(** What the shutdown leaves. *)
Lemma shutdown_rules c dev subnet w :
  nat_listed subnet (nat_interface (Config.nat c)) w ->
  mss_listed dev (show_int (mss_of (cfg_mtu c))) w ->
  let w2 := (shutdown_server c dev subnet w).2 in
  (rules w2 MANGLE FORWARD, rules w2 MANGLE OUTPUT) = other_mss dev w /\
  (rules w2 NAT POSTROUTING, rules w2 FILTER FORWARD) =
    (if nat_enabled (Config.nat c) then other_rules subnet (nat_interface (Config.nat c)) w
     else (rules w NAT POSTROUTING, rules w FILTER FORWARD)) /\
  (forall t ch, (t, ch) ∉ NAT_CHAINS ++ MSS_CHAINS -> rules w2 t ch = rules w t ch).
Proof.
  intros Ln Lm. cbv zeta. unfold shutdown_server, mbind, M_bind.
  set (wan := nat_interface (Config.nat c)) in *.
  assert (Hu : exists u, (if nat_enabled (Config.nat c) then cleanup_nat subnet wan else mret tt) w = (Ok tt, u) /\
    same_mangle w u /\ (forall t ch, (t, ch) ∉ NAT_CHAINS -> rules u t ch = rules w t ch) /\
    (rules u NAT POSTROUTING, rules u FILTER FORWARD) =
      (if nat_enabled (Config.nat c) then other_rules subnet wan w
       else (rules w NAT POSTROUTING, rules w FILTER FORWARD))).
  { destruct (nat_enabled _); [|by exists w]. pose proof (cleanup_nat_ok subnet wan w Ln) as Hok.
    pose proof (cleanup_nat_rules subnet wan w Ln) as Hr. cbv zeta in Hr.
    pose proof (frames_cleanup_nat subnet wan w) as Hf.
    destruct (cleanup_nat subnet wan w) as [r u]. simpl in *. subst r. exists u.
    split; [done|]. split; [intros ch; apply Hf; by apply not_nat_chain|]. by split. }
  destruct Hu as (u & -> & Hm & Hfr & Hn).
  pose proof (cleanup_mss_rules dev (cfg_mtu c) u (mss_listed_ext _ _ _ _ Hm Lm)) as Hc. cbv zeta in Hc.
  pose proof (frames_cleanup_mss dev (cfg_mtu c) u) as Hf.
  split; [rewrite Hc; by apply other_mss_ext|].
  rewrite (Hf NAT POSTROUTING), (Hf FILTER FORWARD) by (apply not_mss_chain; auto).
  split; [done|]. intros t ch Ht. rewrite not_elem_of_app in Ht. by rewrite Hf, Hfr by apply Ht.
Qed.
End lemmas.

(** ** Theorems *)

(** The shutdown, when nobody else has changed the chains the server uses. *)
Lemma start_stop_rules {W} `{HostFrame W, Ipv6Text} fuel c a cert (w w' : W) s w1 :
  start_server fuel c a cert w = Some (Ok s, w') ->
  nat_listed (st_subnet s) (nat_interface (Config.nat c)) w ->
  mss_listed (st_tun s) (show_int (mss_of (cfg_mtu c))) w ->
  (length (rules w MANGLE FORWARD) < fuel)%nat -> (length (rules w MANGLE OUTPUT) < fuel)%nat ->
  same_nat w' w1 -> same_mangle w' w1 ->
  let w2 := (shutdown_server c (st_tun s) (st_subnet s) w1).2 in
  initial (st_state s) /\
  (rules w2 MANGLE FORWARD, rules w2 MANGLE OUTPUT) = other_mss (st_tun s) w /\
  (rules w2 NAT POSTROUTING, rules w2 FILTER FORWARD) =
    (if nat_enabled (Config.nat c)
     then other_rules (st_subnet s) (nat_interface (Config.nat c)) w
     else (rules w NAT POSTROUTING, rules w FILTER FORWARD)) /\
  (forall t ch, (t, ch) ∉ NAT_CHAINS ++ MSS_CHAINS -> rules w2 t ch = rules w1 t ch /\ rules w' t ch = rules w t ch).
Proof.
  intros Es Ln Lm Hf Ho Hsn Hsm. cbv zeta.
  destruct (start_server_ok _ _ _ _ _ _ _ Es) as [(v0 & v1 & v2 & S0 & Hnat & Hmss & S2) Hst].
  split.
  { destruct Hst as (ip & base & bip & dip & _ & _ & _ & _ & _ & ->).
    by repeat split. }
  set (wan := nat_interface (Config.nat c)) in *. set (subnet := st_subnet s) in *. set (dev := st_tun s) in *.
  assert (L0 : nat_listed subnet wan v0) by (eapply nat_listed_ext; [by apply same_rules_nat|done]).
  destruct (nat_part c subnet v0 v1 L0 Hnat) as (M1 & L1 & F1 & O1).
  assert (N1 : mss_listed dev (show_int (mss_of (cfg_mtu c))) v1).
  { eapply mss_listed_ext; [exact M1|]. eapply mss_listed_ext; [by apply same_rules_mangle|done]. }
  destruct (setup_mss_other fuel dev (cfg_mtu c) v1 v2 N1) as [N2 O2]; [by rewrite M1, S0..|done|].
  pose proof (setup_mss_frames _ _ _ _ _ _ Hmss) as F2.
  assert (A2 : same_nat v1 v2) by (intros ch; split; apply F2; apply not_mss_chain; auto).
  assert (A3n : same_nat v2 w1) by (intros ch; by rewrite (proj1 (Hsn ch)), (proj2 (Hsn ch)), !S2).
  assert (A3m : same_mangle v2 w1) by (intros ch; by rewrite Hsm, S2).
  assert (L3 : nat_listed subnet wan w1).
  { eapply nat_listed_ext; [exact A3n|]. by eapply nat_listed_ext. }
  assert (N3 : mss_listed dev (show_int (mss_of (cfg_mtu c))) w1) by (by eapply mss_listed_ext).
  destruct (shutdown_rules c dev subnet w1 L3 N3) as (R1 & R2 & R3). rewrite R1, R2.
  assert (K : other_rules subnet wan w1 = other_rules subnet wan v1).
  { rewrite (other_rules_ext _ _ v2) by done. by apply other_rules_ext. }
  split; [|split].
  - rewrite (other_mss_ext dev v2), O2, (other_mss_ext dev v0), (other_mss_ext dev w); try done;
      by apply same_rules_mangle.
  - fold wan. destruct (nat_enabled _).
    + rewrite K. unfold wan. rewrite O1. by apply other_rules_ext, same_rules_nat.
    + subst v1. by rewrite (proj1 (A3n _)), (proj2 (A3n _)), (proj1 (A2 _)), (proj2 (A2 _)), !S0.
  - intros t ch Ht. split; [by apply R3|]. rewrite not_elem_of_app in Ht.
    by rewrite S2, F2, F1, S0 by apply Ht.
Qed.

(** From start to stop. A server that has started is in an initial state for the
    connection handlers, with the pool of its own subnet; and when the accept loop ends
    and nobody else has changed the packet filter meanwhile, its shutdown leaves each of
    the four chains it uses with exactly the rules that are not its own, and every other
    chain as it was before the start. [listed] says that the listings can be read back;
    the loops that delete stale clamp rules have enough turns when they have one more
    than there are rules. *)
Theorem server_start_stop {W} `{HostFrame W, Ipv6Text} fuel c a cert (w w' : W) s w1 :
  start_server fuel c a cert w = Some (Ok s, w') ->
  nat_listed (st_subnet s) (nat_interface (Config.nat c)) w ->
  mss_listed (st_tun s) (show_int (mss_of (cfg_mtu c))) w ->
  (length (rules w MANGLE FORWARD) < fuel)%nat -> (length (rules w MANGLE OUTPUT) < fuel)%nat ->
  same_rules w' w1 ->
  let w2 := (shutdown_server c (st_tun s) (st_subnet s) w1).2 in
  initial (st_state s) /\
  (rules w2 MANGLE FORWARD, rules w2 MANGLE OUTPUT) = other_mss (st_tun s) w /\
  (rules w2 NAT POSTROUTING, rules w2 FILTER FORWARD) =
    (if nat_enabled (Config.nat c)
     then other_rules (st_subnet s) (nat_interface (Config.nat c)) w
     else (rules w NAT POSTROUTING, rules w FILTER FORWARD)) /\
  (forall t ch, (t, ch) ∉ NAT_CHAINS ++ MSS_CHAINS -> rules w2 t ch = rules w t ch).
Proof.
  intros Es Ln Lm Hf Ho Hsame. cbv zeta.
  destruct (start_stop_rules fuel c a cert w w' s w1 Es Ln Lm Hf Ho
    ltac:(by apply same_rules_nat) ltac:(by apply same_rules_mangle)) as (Hi & Hm & Hn & Hr).
  split_and!; [done..|]. intros t ch Ht. destruct (Hr t ch Ht) as [-> <-]. apply Hsame.
Qed.

Definition without_reality (c : ServerConfig) : ServerConfig :=
  let '(mkConfig a b d e f g h i j k l m n o p q r s t u v x) := c in
  mkConfig a b d e f g h i j k l m n o p q r s t
    (mkReality false (reality_listen u) (reality_target u)) v x.

(** Validation does not look at the address of the TCP listener. When it does not parse,
    the server finds out only after it has configured the host: it ends with an error in
    exactly the state in which the same server without that listener would be running,
    NAT and clamp rules in place, and nothing takes them back. *)
Theorem bad_listener_leaves_host_configured {W} `{HostFrame W, Ipv6Text} fuel c a cert (w w' : W) s :
  reality_enabled (reality c) = true -> is_socket_addr (reality_listen (reality c)) = false ->
  start_server fuel (without_reality c) a cert w = Some (Ok s, w') ->
  validate c = validate (without_reality c) /\
  start_server fuel c a cert w = Some (Err (BadAddress (reality_listen (reality c))), w') /\
  start_trace fuel c s w w'.
Proof.
  intros Hon Hbad E. pose proof (start_server_ok _ _ _ _ _ _ _ E) as [Htr _].
  assert (P1 : tun_name (without_reality c) = tun_name c) by (by destruct c).
  assert (P2 : cfg_mtu (without_reality c) = cfg_mtu c) by (by destruct c).
  assert (P3 : tun_address (without_reality c) = tun_address c) by (by destruct c).
  assert (P4 : tun_prefix_len (without_reality c) = tun_prefix_len c) by (by destruct c).
  assert (P5 : Config.nat (without_reality c) = Config.nat c) by (by destruct c).
  assert (P6 : dns (without_reality c) = dns c) by (by destruct c).
  assert (P7 : metrics_listen (without_reality c) = metrics_listen c) by (by destruct c).
  assert (P8 : subnet_from_config (without_reality c) = subnet_from_config c) by (by destruct c).
  assert (P9 : reality_enabled (reality (without_reality c)) = false) by (by destruct c).
  split; [by destruct c|]. split; [|unfold start_trace in *; by rewrite P2, P5 in Htr].
  unfold start_server, start_reality, start_ws, ipv4_addr, socket_addr in E |- *. rewrite P1, P2, P3, P4, P5, P6, P7, P8, P9 in E.
  apply bind_ok in E as (tun & wa & Ha & E). apply bind_ok in E as ([] & wb & Hb & E).
  apply bind_ok in E as (ip & wc & Hc & E). apply bind_ok in E as ([] & wd & Hd & E).
  apply bind_ok in E as ([] & we & He & E). apply bind_ok in E as (base & wf & Hf & E). cbv zeta in E.
  apply bind_ok in E as ([] & wg & Hg & E). apply bind_ok in E as ([] & wh & Hh & E).
  apply bind_ok in E as ([] & wi & Hi & E). apply bind_ok in E as (bip & wj & Hj & E).
  apply bind_ok in E as (dip & wk & Hk & E). apply bind_ok in E as ([] & wl & Hl & E).
  apply bind_ok in E as ([] & wm & Hm & E). apply bind_ok in E as ([] & wn & ->%when_check_ok & E).
  injection E as _ <-. injection Hm as <-.
  rewrite (bind_step _ _ _ _ _ Ha), (bind_step _ _ _ _ _ Hb), (bind_step _ _ _ _ _ Hc),
    (bind_step _ _ _ _ _ Hd), (bind_step _ _ _ _ _ He), (bind_step _ _ _ _ _ Hf). cbv zeta.
  rewrite (bind_step _ _ _ _ _ Hg), (bind_step _ _ _ _ _ Hh), (bind_step _ _ _ _ _ Hi),
    (bind_step _ _ _ _ _ Hj), (bind_step _ _ _ _ _ Hk), (bind_step _ _ _ _ _ Hl).
  unfold when, mbind, St_bind, or_err. by rewrite Hon, Hbad.
Qed.

(** The pool does not know the server's own address: it hands out the hosts 2 to 254 of
    the /24, whatever [tun_address] and the prefix length are. A valid configuration can
    put the server at such an address; with host 2 the first client gets it. *)
Theorem pool_spans_server_address {W} `{HostFrame W, Ipv6Text} fuel c a cert (w w' : W) s ip :
  start_server fuel c a cert w = Some (Ok s, w') -> parse_ipv4 (tun_address c) = Some ip ->
  srv_ip (st_state s) = ip /\
  span (ip_pool (st_state s)) = list_to_set (mkIp (oct0 ip) (oct1 ip) (oct2 ip) <$> hosts) /\
  (oct3 ip ∈ hosts -> srv_ip (st_state s) ∈ span (ip_pool (st_state s))) /\
  (oct3 ip = x02 -> (allocate (ip_pool (st_state s))).1 = Some (srv_ip (st_state s))).
Proof.
  intros E Hip. destruct (start_server_ok _ _ _ _ _ _ _ E) as [_ (ip' & base & bip & dip & Hi & Hb & Hp & _ & _ & ->)].
  rewrite Hip in Hi. injection Hi as <-. unfold subnet_from_config in Hb. rewrite Hip in Hb.
  injection Hb as <-. rewrite parse_show_ipv4 in Hp. injection Hp as <-. cbn [srv_ip ip_pool].
  assert (Hspan : span (pool_new (mkIp (oct0 ip) (oct1 ip) (oct2 ip) x00)) =
    list_to_set (mkIp (oct0 ip) (oct1 ip) (oct2 ip) <$> hosts)) by reflexivity.
  split; [done|]. split; [done|]. split.
  - intros Hh. rewrite Hspan, elem_of_list_to_set. apply list_elem_of_fmap. exists (oct3 ip).
    by destruct ip.
  - intros Hh. destruct ip as [x y z h]. simpl in Hh. by subst h.
Qed.

(** *** A host on which every command works *)

Section host.
#[local] Instance host_shell : Shell Netfilter := fun program args m =>
  if decide (program = str "ip" \/ program = str "tc") then (done_ok, m) else nf_shell program args m.
#[local] Instance host_files : Files Netfilter := {
  read_file _ _ := None; write_file _ _ m := (true, m); remove_file _ m := (true, m)
}.
#[local] Instance host_tun : TunDevices Netfilter := {
  tun_create name m := (Some name, m); tun_set_mtu _ _ m := (true, m)
}.

#[local] Instance host_netfilter : NetfilterOk Netfilter.
Proof.
  refine {| rules := chain_of; line := nf_line |}; unfold spawn, host_shell.
  - intros w t c spec o w'. rewrite decide_False by (by intros [|]).
    apply (@append_law _ nf_shell netfilter_ok).
  - intros w t c spec o w'. rewrite decide_False by (by intros [|]).
    apply (@delete_law _ nf_shell netfilter_ok).
  - intros w t c. rewrite decide_False by (by intros [|]). apply (@list_law _ nf_shell netfilter_ok).
  - intros w t c h. rewrite decide_False by (by intros [|]).
    apply (@delete_handle_law _ nf_shell netfilter_ok).
Defined.

#[local] Instance host_frame : HostFrame Netfilter.
Proof.
  split; unfold spawn, host_shell.
  - intros. by rewrite decide_True by (by left).
  - intros. by rewrite decide_True by (by right).
  - done.
  - done.
  - intros. by rewrite decide_False by (by intros [|]).
  - intros t0 c0 h w t c Hne. rewrite decide_False by (by intros [|]).
    unfold nf_shell. rewrite decide_True by done. simpl. by rewrite chain_of_set, decide_False.
Qed.

#[local] Instance no_ipv6 : Ipv6Text := fun _ => false.

Definition ex_start_psk : AuthMode := SinglePsk (mkPsk (replicate 32 x01)).

(** The rules of [ex_nf], and a stale clamp rule. *)
Definition ex_host : Netfilter :=
  mkNf (<[(MANGLE, FORWARD) := [(5%nat, clamp (str "-i") ex_dev (str "1340"))]]> (nf_rules ex_nf)).

Definition ex_start : panics (result StartError Started * Netfilter) :=
  start_server 3 server_config_default ex_start_psk true ex_host.

Definition started_as (tun subnet : bytes) (r : panics (result StartError Started * Netfilter)) : bool :=
  match r with
  | Some (Ok s, _) => bool_decide (st_tun s = tun) && bool_decide (st_subnet s = subnet)
  | _ => false
  end.

Lemma ex_start_ok : started_as ex_dev ex_subnet ex_start = true.
Proof. vm_compute. reflexivity. Qed.

Lemma ex_host_nat : nat_listed ex_subnet (nat_interface (Config.nat server_config_default)) ex_host.
Proof.
  split.
  - apply well_listed_b_spec. vm_compute. reflexivity.
  - apply well_listed_b_spec. vm_compute. reflexivity.
  - apply (seen_masquerade _ _ _ ex_nf_listed).
  - apply (seen_in _ _ _ ex_nf_listed).
  - apply (seen_out _ _ _ ex_nf_listed).
Qed.

Lemma ex_host_mss : mss_listed ex_dev (show_int (mss_of (cfg_mtu server_config_default))) ex_host.
Proof.
  split.
  - apply well_listed_b_spec. vm_compute. reflexivity.
  - apply well_listed_b_spec. vm_compute. reflexivity.
  - apply (seen_clamp_o _ _ _ ex_nf_mss_listed).
  - apply (seen_clamp_i _ _ _ ex_nf_mss_listed).
Qed.

(** The default configuration on that host: after the stop only the rule of somebody else is
    left in the NAT chain. *)
Lemma server_start_stop_witness :
  exists s w', ex_start = Some (Ok s, w') /\ initial (st_state s) /\
    rules (shutdown_server server_config_default (st_tun s) (st_subnet s) w').2 NAT POSTROUTING =
      [(4%nat, masquerade (str "192.168.7.0/24") ex_wan)].
Proof.
  pose proof ex_start_ok as Hok. unfold started_as, ex_start in *.
  destruct (start_server _ _ _ _ ex_host) as [[[s|e] w']|] eqn:E; [|discriminate Hok..].
  apply andb_true_iff in Hok as [Ht Hs]. apply bool_decide_eq_true in Ht, Hs.
  exists s, w'. split; [reflexivity|].
  destruct (server_start_stop 3 server_config_default ex_start_psk true ex_host w' s w' E)
    as (Hi & _ & Hn & _).
  - rewrite Hs. apply ex_host_nat.
  - rewrite Ht. apply ex_host_mss.
  - vm_compute. lia.
  - vm_compute. lia.
  - intros t c. reflexivity.
  - split; [exact Hi|]. rewrite Hs in Hn |- *. cbv iota beta in Hn.
    change (nat_enabled (Config.nat server_config_default)) with true in Hn. cbv iota in Hn.
    apply (f_equal fst) in Hn. cbn [fst] in Hn. rewrite Hn. vm_compute. reflexivity.
Defined.

Definition ex_bad_config : ServerConfig :=
  let '(mkConfig a b d e f g h i j k l m n o p q r s t u v x) := server_config_default in
  mkConfig a b d e f g h i j k l m n o p q r s t (mkReality true (str "nowhere") []) v x.

Lemma ex_bad_ok : started_as ex_dev ex_subnet
  (start_server 3 (without_reality ex_bad_config) ex_start_psk true ex_host) = true.
Proof. vm_compute. reflexivity. Qed.

Lemma bad_listener_leaves_host_configured_witness :
  validate ex_bad_config = Ok tt /\
  exists w', start_server 3 ex_bad_config ex_start_psk true ex_host =
    Some (Err (BadAddress (str "nowhere")), w').
Proof.
  split; [vm_compute; reflexivity|]. pose proof ex_bad_ok as Hok. unfold started_as in Hok.
  destruct (start_server 3 (without_reality ex_bad_config) ex_start_psk true ex_host)
    as [[[s|e] w']|] eqn:E; [|discriminate Hok..].
  destruct (bad_listener_leaves_host_configured 3 ex_bad_config ex_start_psk true ex_host w' s)
    as (_ & Hs & _); [reflexivity|reflexivity|exact E|].
  exists w'. exact Hs.
Defined.
End host.

