(* ===== verification/KillSwitch.v ===== *)
(** The kill-switch ([killswitch.rs]): the pf rules of macOS and the firewall rules of
    Windows; on Linux all four functions do nothing.

    [pfctl] and [netsh] belong to the environment: class [PfOk] states what loading and
    flushing an anchor does, what [pfctl -E] does and which packets a rule selects; the
    state of pf is whether it is on, whether the main rule set evaluates our anchor (no
    command of the program sees to that) and the rules of the anchor. Class
    [AdvFirewallOk] states what adding and deleting a Windows rule does. *)

From S2P Require Import Prelude Datagram Text IpText Route.

(** ** macOS *)

Section macos.
Context {W : Type} `{Shell W, Files W}.

Definition ANCHOR : bytes := str "com.redpill".

Definition pass_on (i : bytes) : bytes := str "pass out quick on " ++ i ++ str " all".
Definition pass_to (h : bytes) : bytes := str "pass out quick to " ++ h.
Definition pass_to_443 (h : bytes) : bytes := str "pass out quick to " ++ h ++ str " port 443".
Definition block_all : bytes := str "block drop out all".

(** [rules], line by line. *)
Definition pf_rules (tun_name server_ip : bytes) (extra_hosts : list bytes) : list bytes :=
  [pass_on tun_name; pass_to server_ip; pass_on (str "lo0")] ++
  (pass_to_443 <$> extra_hosts) ++ [block_all].

Definition pf_text (rules : list bytes) : bytes := concat ((fun l => l ++ [NL]) <$> rules).

Definition pf_path (process_id : Z) : bytes := str "/tmp/redpill-pf-" ++ show_int process_id ++ str ".conf".

Definition load_rules (path : bytes) : M W unit := fun w =>
  match spawn (str "pfctl") [str "-a"; ANCHOR; str "-f"; path] w with
  | (None, w) => (Err Io, w)
  | (Some output, w) =>
      if negb (success output)
      then (Err (CommandFailed (str "pfctl load rules") (stderr output)), w)
      else (Ok tt, w)
  end.

(** [let _ = std::fs::remove_file(&path)] *)
Definition remove_quietly (path : bytes) : M W unit := fun w => (Ok tt, (remove_file path w).2).

Definition enable_with_extras (process_id : Z) (tun_name server_ip : bytes) (port : Z)
    (extra_hosts : list bytes) : M W unit :=
  let path := pf_path process_id in
  _ ← write_or_io path (pf_text (pf_rules tun_name server_ip extra_hosts));
  _ ← load_rules path;
  _ ← ignore (run_cmd (str "pfctl") [str "-E"]);
  remove_quietly path.

Definition enable (process_id : Z) (tun_name server_ip : bytes) (port : Z) : M W unit :=
  enable_with_extras process_id tun_name server_ip port [].

Definition flush_anchor (w : W) : W :=
  (spawn (str "pfctl") [str "-a"; ANCHOR; str "-F"; str "all"] w).2.
Definition disable : W -> W := flush_anchor.
Definition cleanup_stale : W -> W := flush_anchor.
End macos.

(** *** What pf does *)

(** An outgoing packet: its interface, destination and destination port. *)
Record Packet := mkPacket { p_iface : bytes; p_dst : bytes; p_port : Z }.

(** The state of pf: whether it is on; whether the main rule set names our anchor, as its
    last word, and so evaluates it (pf.conf: the rules of an anchor count only where the
    main rule set refers to it); the rules of the anchor, as lists of words. *)
Record Pf := mkPf { pf_on : bool; hooked : bool; pf_anchor : list (list bytes) }.

Definition with_anchor (rules : list (list bytes)) (f : Pf) : Pf := mkPf (pf_on f) (hooked f) rules.

(** [selects]: whether a rule applies to a packet. *)
Class PfOk (W : Type) `{Shell W, Files W} := {
  pf : W -> Pf;
  selects : list bytes -> Packet -> bool;
  load_anchor path w o w' :
    spawn (str "pfctl") [str "-a"; ANCHOR; str "-f"; path] w = (o, w') ->
    if ran o then exists text, read_file path w = Some text /\
      pf w' = with_anchor (split_whitespace <$> lines text) (pf w)
    else pf w' = pf w;
  flush_empties w : pf (flush_anchor w) = with_anchor [] (pf w);
  turn_on w o w' : spawn (str "pfctl") [str "-E"] w = (o, w') ->
    pf w' = mkPf (pf_on (pf w) || ran o) (hooked (pf w)) (pf_anchor (pf w));
  write_keeps path d w : pf (write_file path d w).2 = pf w;
  remove_keeps path w : pf (remove_file path w).2 = pf w;
  selects_on i p : selects [str "pass"; str "out"; str "quick"; str "on"; i; str "all"] p =
    bool_decide (p_iface p = i);
  selects_to h p : selects [str "pass"; str "out"; str "quick"; str "to"; h] p =
    bool_decide (p_dst p = h);
  selects_to_port h p :
    selects [str "pass"; str "out"; str "quick"; str "to"; h; str "port"; str "443"] p =
    bool_decide (p_dst p = h /\ p_port p = 443);
  selects_block p : selects [str "block"; str "drop"; str "out"; str "all"] p = true
}.

(** The first [quick] rule that applies decides, else the last one that applies; [None]
    when none does. *)
Definition is_pass (r : list bytes) : bool := bool_decide (r !! 0%nat = Some (str "pass")).
Definition is_quick (r : list bytes) : bool := bool_decide (str "quick" ∈ take 3 r).

Fixpoint verdict (sel : list bytes -> Packet -> bool) (rules : list (list bytes)) (p : Packet)
    (last : option bool) : option bool :=
  match rules with
  | [] => last
  | r :: rules =>
      if sel r p then
        if is_quick r then Some (is_pass r) else verdict sel rules p (Some (is_pass r))
      else verdict sel rules p last
  end.

(** The rules of our anchor, and whether a packet leaves the machine: the anchor has a say
    only when pf is on and evaluates it. *)
Definition anchor {W} `{PfOk W} (w : W) : list (list bytes) := pf_anchor (pf w).
Definition passes {W} `{PfOk W} (w : W) (p : Packet) : bool :=
  negb (pf_on (pf w) && hooked (pf w)) || default true (verdict selects (anchor w) p None).

(** With the rights to turn pf on, [pfctl -E] works. *)
Definition pf_enables (W : Type) `{Shell W} : Prop :=
  forall w : W, ran (spawn (str "pfctl") [str "-E"] w).1 = true.

(** ** Windows *)

Section windows.
Context {W : Type} `{Shell W}.

Definition netsh (args : list bytes) : W -> option Output * W :=
  spawn (str "netsh") ([str "advfirewall"; str "firewall"] ++ args).

Definition rule_name (suffix : bytes) : bytes := str "name=Redpill VPN Kill Switch - " ++ suffix.
Definition BLOCK_ALL : bytes := str "Block All".
Definition ALLOW_SERVER : bytes := str "Allow Server".
Definition ALLOW_LOOPBACK : bytes := str "Allow Loopback".

Definition block_spec : list bytes :=
  [str "dir=out"; str "action=block"; str "enable=yes"; str "profile=any"].
Definition allow_spec (remote : bytes) : list bytes :=
  [str "dir=out"; str "action=allow"; str "remoteip=" ++ remote; str "enable=yes"; str "profile=any"].

(** [let _ = Command::new("netsh").args(..).output()?]: the exit status is not looked at. *)
Definition add_rule (suffix : bytes) (spec : list bytes) : M W unit := fun w =>
  match netsh ([str "add"; str "rule"; rule_name suffix] ++ spec) w with
  | (None, w) => (Err Io, w)
  | (Some _, w) => (Ok tt, w)
  end.

Definition delete_rule (suffix : bytes) (w : W) : W :=
  (netsh [str "delete"; str "rule"; rule_name suffix] w).2.

Definition win_cleanup_stale (w : W) : W :=
  foldl (fun w suffix => delete_rule suffix w) w [BLOCK_ALL; ALLOW_SERVER; ALLOW_LOOPBACK].

Definition win_enable_with_extras (tun_name server_ip : bytes) (port : Z) (extra_hosts : list bytes)
    : M W unit := fun w =>
  let w := win_cleanup_stale w in
  (_ ← add_rule BLOCK_ALL block_spec;
   _ ← add_rule ALLOW_SERVER (allow_spec server_ip);
   _ ← add_rule ALLOW_LOOPBACK (allow_spec (str "127.0.0.0/8"));
   for_each extra_hosts (fun host => add_rule (str "Allow " ++ host) (allow_spec host))) w.

Definition win_enable (tun_name server_ip : bytes) (port : Z) : M W unit :=
  win_enable_with_extras tun_name server_ip port [].

Definition win_disable (w : W) : W :=
  delete_rule ALLOW_LOOPBACK (delete_rule ALLOW_SERVER (delete_rule BLOCK_ALL w)).
End windows.

(** *** What the Windows firewall does *)

Abbreviation FwRule := (bytes * list bytes)%type (only parsing).

(** [fw]: the rules, with name and specification. *)
Class AdvFirewallOk (W : Type) `{Shell W} := {
  fw : W -> list FwRule;
  fw_add name spec w o w' : netsh ([str "add"; str "rule"; name] ++ spec) w = (o, w') ->
    fw w' = if ran o then fw w ++ [(name, spec)] else fw w;
  fw_delete name w : fw (netsh [str "delete"; str "rule"; name] w).2 = filter (fun r => r.1 <> name) (fw w)
}.

(** A blocking rule wins over every allowing one. *)
Definition applies (spec : list bytes) (dst : bytes) : Prop :=
  (forall remote, str "remoteip=" ++ remote ∈ spec -> remote = dst).
Definition blocked (rules : list FwRule) (dst : bytes) : Prop :=
  exists name spec, (name, spec) ∈ rules /\ str "action=block" ∈ spec /\ applies spec dst.

(** ** Lemmas *)

(** A name without blanks or line ends. *)
Definition word (w : bytes) : Prop := w <> [] /\ Forall (fun b => ws1 b = false) w.

Lemma split_whitespace_join ws : Forall word ws -> split_whitespace (join_with [SP] ws) = ws.
Proof.
  induction 1 as [|w ws [Hne Hw] Hws IH]; [done|].
  destruct ws as [|w' ws]; [by apply split_whitespace_word|].
  change (join_with [SP] (w :: w' :: ws)) with (w ++ SP :: join_with [SP] (w' :: ws)).
  by rewrite split_whitespace_mid, IH, split_whitespace_word.
Qed.

Lemma word_line w : word w -> line_text w.
Proof.
  intros [_ Hw]. eapply Forall_impl; [exact Hw|]. intros b Hb. split; intros ->; by vm_compute in Hb.
Qed.

Lemma str_word s : forallb (fun b => negb (ws1 b)) (str s) = true -> str s <> [] -> word (str s).
Proof.
  intros Hb Hne. split; [done|]. apply Forall_forall. intros b Hin.
  rewrite forallb_forall in Hb. rewrite list_elem_of_In in Hin. apply Hb in Hin. by destruct (ws1 b).
Qed.

Ltac words :=
  repeat (apply Forall_cons; split); try apply Forall_nil; try done;
  (apply str_word; [vm_compute; reflexivity|discriminate]).

Definition on_words (i : bytes) : list bytes :=
  [str "pass"; str "out"; str "quick"; str "on"; i; str "all"].
Definition to_words (h : bytes) : list bytes := [str "pass"; str "out"; str "quick"; str "to"; h].
Definition port_words (h : bytes) : list bytes := to_words h ++ [str "port"; str "443"].
Definition block_words : list bytes := [str "block"; str "drop"; str "out"; str "all"].

Lemma pass_on_words i : word i -> split_whitespace (pass_on i) = on_words i.
Proof. intros Hi. change (pass_on i) with (join_with [SP] (on_words i)). apply split_whitespace_join. words. Qed.
Lemma pass_to_words h : word h -> split_whitespace (pass_to h) = to_words h.
Proof. intros Hh. change (pass_to h) with (join_with [SP] (to_words h)). apply split_whitespace_join. words. Qed.
Lemma pass_to_443_words h : word h -> split_whitespace (pass_to_443 h) = port_words h.
Proof. intros Hh. change (pass_to_443 h) with (join_with [SP] (port_words h)). apply split_whitespace_join. words. Qed.

Lemma str_line s : forallb (fun b => negb (ws1 b) || bool_decide (b = SP)) (str s) = true ->
  line_text (str s).
Proof.
  intros Hb. apply Forall_forall. intros b Hin. rewrite forallb_forall in Hb.
  rewrite list_elem_of_In in Hin. apply Hb in Hin. split; intros ->; by vm_compute in Hin.
Qed.

Lemma pf_rules_lines tun srv extras : word tun -> word srv -> Forall word extras ->
  lines (pf_text (pf_rules tun srv extras)) = pf_rules tun srv extras.
Proof.
  intros Ht Hs He. apply lines_unlines.
  assert (Hstr : forall s, forallb (fun b => negb (ws1 b) || bool_decide (b = SP)) (str s) = true ->
    line_text (str s)) by apply str_line.
  assert (Hline : forall a w b, line_text a -> word w -> line_text b -> line_text (a ++ w ++ b)).
  { intros a w b Ha Hw Hb. do 2 (apply Forall_app; split; [done || by apply word_line|]). done. }
  unfold pf_rules. apply Forall_app; split; [|apply Forall_app; split].
  - apply Forall_cons; split; [|apply Forall_cons; split; [|apply Forall_singleton]].
    + by apply Hline; try apply Hstr.
    + unfold pass_to. rewrite <-(app_nil_r srv). apply Hline; [by apply Hstr|done|constructor].
    + by apply (Hstr "pass out quick on lo0 all").
  - apply Forall_fmap. eapply Forall_impl; [exact He|]. intros h Hh.
    by apply Hline; try apply Hstr.
  - apply Forall_singleton. by apply Hstr.
Qed.

Lemma pf_rules_words tun srv extras : word tun -> word srv -> Forall word extras ->
  split_whitespace <$> pf_rules tun srv extras =
    [on_words tun; to_words srv; on_words (str "lo0")] ++ (port_words <$> extras) ++ [block_words].
Proof.
  intros Ht Hs He. unfold pf_rules. rewrite !fmap_app, !fmap_cons, !fmap_nil.
  rewrite pass_on_words, pass_to_words, pass_on_words by (done || words).
  f_equal. f_equal. rewrite <-list_fmap_compose. apply list_fmap_ext. intros i h Hh. simpl.
  apply pass_to_443_words. eapply Forall_lookup_1; [exact He|exact Hh].
Qed.

(** The destinations that may be reached without the tunnel. *)
Definition allowed (tun srv : bytes) (extras : list bytes) (p : Packet) : Prop :=
  p_iface p = tun \/ p_dst p = srv \/ p_iface p = str "lo0" \/ (p_dst p ∈ extras /\ p_port p = 443).

#[export] Instance allowed_dec tun srv extras p : Decision (allowed tun srv extras p).
Proof. unfold allowed. apply _. Defined.

Lemma verdict_extras {W} `{PfOk W} extras p :
  verdict selects ((port_words <$> extras) ++ [block_words]) p None =
    Some (bool_decide (p_dst p ∈ extras /\ p_port p = 443)).
Proof.
  induction extras as [|h extras IH]; cbn [fmap list_fmap app verdict].
  - rewrite selects_block. change (is_quick block_words) with false. cbn [verdict].
    rewrite bool_decide_false; [done|]. by intros [?%not_elem_of_nil _].
  - unfold port_words at 1. cbn [to_words app]. rewrite selects_to_port.
    destruct (bool_decide_reflect (p_dst p = h /\ p_port p = 443)) as [Hh|Hh].
    + destruct Hh as [-> Hp]. change (is_quick (port_words h)) with true.
      rewrite bool_decide_true; [done|]. split; [by left|done].
    + change (list_fmap bytes (list bytes) port_words extras) with (port_words <$> extras).
      rewrite IH. f_equal. apply bool_decide_ext. rewrite elem_of_cons. naive_solver.
Qed.

Lemma verdict_rules {W} `{PfOk W} tun srv extras p :
  verdict selects ([on_words tun; to_words srv; on_words (str "lo0")] ++
    (port_words <$> extras) ++ [block_words]) p None = Some (bool_decide (allowed tun srv extras p)).
Proof.
  cbn [app verdict]. unfold on_words, to_words. rewrite selects_on, selects_to, selects_on.
  unfold allowed. repeat case_bool_decide; try tauto; try done.
  all: rewrite verdict_extras; f_equal; case_bool_decide; tauto.
Qed.

(** pf after [enable]: turned on, unless [pfctl -E] fails, with the rules in the anchor; or
    as before. *)
Lemma enable_anchor {W} `{PfOk W, !FilesOk W} pid tun srv port extras (w : W) r w' :
  enable_with_extras pid tun srv port extras w = (r, w') ->
  if is_ok r then exists b, (pf_enables W -> b = true) /\
    pf w' = mkPf (pf_on (pf w) || b) (hooked (pf w)) (split_whitespace <$> lines (pf_text (pf_rules tun srv extras)))
  else pf w' = pf w.
Proof.
  unfold enable_with_extras, mbind, M_bind, write_or_io. set (text := pf_text (pf_rules tun srv extras)).
  destruct (write_file (pf_path pid) text w) as [ok w1] eqn:Ew.
  assert (Ha1 : pf w1 = pf w) by (by rewrite <-(write_keeps (pf_path pid) text w), Ew).
  destruct ok; [|by intros [= <- <-]].
  unfold load_rules. destruct (spawn _ _ w1) as [o w2] eqn:El. apply load_anchor in El.
  destruct o as [o|]; [|intros [= <- <-]; simpl in *; congruence].
  destruct (success o) eqn:Eo; cbn [ran negb] in *; rewrite Eo in El; [|intros [= <- <-]; simpl; congruence].
  intros [= <- <-]. destruct El as (t & Hread & Ha2).
  rewrite (read_written _ _ _ _ _ Ew), decide_True in Hread by done. injection Hread as <-.
  rewrite remove_keeps. unfold ignore. cbn [snd is_ok]. rewrite run_cmd_snd.
  destruct (spawn (str "pfctl") [str "-E"] w2) as [o' w3] eqn:E3. exists (ran o'). split.
  - intros Hen. specialize (Hen w2). by rewrite E3 in Hen.
  - cbn [snd]. by rewrite (turn_on _ _ _ E3), Ha2, Ha1.
Qed.

(** With the rules in the anchor a packet is stopped only when pf is on and evaluates it. *)
Lemma passes_rules {W} `{PfOk W} tun srv extras (w : W) p : word tun -> word srv -> Forall word extras ->
  anchor w = split_whitespace <$> lines (pf_text (pf_rules tun srv extras)) ->
  passes w p = negb (pf_on (pf w) && hooked (pf w)) || bool_decide (allowed tun srv extras p).
Proof.
  intros Ht Hs He Ha. unfold passes. by rewrite Ha, pf_rules_lines, pf_rules_words, verdict_rules.
Qed.

(** *** The Windows commands *)

Section windows_lemmas.
Context {W : Type} `{AdvFirewallOk W}.

Definition not_named (suffixes : list bytes) (r : FwRule) : Prop := r.1 ∉ (rule_name <$> suffixes).

#[local] Instance not_named_dec suffixes r : Decision (not_named suffixes r).
Proof. unfold not_named. apply _. Defined.

Definition OWN : list bytes := [BLOCK_ALL; ALLOW_SERVER; ALLOW_LOOPBACK].

Lemma delete_own w : fw (delete_rule ALLOW_LOOPBACK (delete_rule ALLOW_SERVER (delete_rule BLOCK_ALL w)))
  = filter (not_named OWN) (fw w).
Proof.
  unfold delete_rule. rewrite !fw_delete, !list_filter_filter. apply list_filter_iff. intros r.
  unfold not_named, OWN. rewrite !fmap_cons, fmap_nil, !not_elem_of_cons. pose proof (not_elem_of_nil r.1).
  tauto.
Qed.

Lemma win_cleanup_fw w : fw (win_cleanup_stale w) = filter (not_named OWN) (fw w).
Proof. apply delete_own. Qed.
Lemma win_disable_fw w : fw (win_disable w) = filter (not_named OWN) (fw w).
Proof. apply delete_own. Qed.

(** With the rights to add rules, [add_rule] adds its rule. *)
Definition adds_work : Prop := forall name spec (w : W),
  ran (netsh ([str "add"; str "rule"; name] ++ spec) w).1 = true.

Lemma add_rule_fw suffix spec w : adds_work ->
  exists w', add_rule suffix spec w = (Ok tt, w') /\ fw w' = fw w ++ [(rule_name suffix, spec)].
Proof.
  intros Hw. specialize (Hw (rule_name suffix) spec w). unfold add_rule.
  destruct (netsh _ w) as [[o|] w'] eqn:E; [|done]. apply fw_add in E. simpl in Hw.
  exists w'. split; [done|]. by rewrite E; simpl; rewrite Hw.
Qed.

Definition extra_rule (host : bytes) : FwRule := (rule_name (str "Allow " ++ host), allow_spec host).

Lemma add_extras_fw hosts : forall w, adds_work ->
  exists w', for_each hosts (fun host => add_rule (str "Allow " ++ host) (allow_spec host)) w = (Ok tt, w') /\
    fw w' = fw w ++ (extra_rule <$> hosts).
Proof.
  induction hosts as [|h hosts IH]; intros w Hw; cbn [for_each].
  { exists w. by rewrite app_nil_r. }
  destruct (add_rule_fw (str "Allow " ++ h) (allow_spec h) w Hw) as (w1 & E1 & F1).
  destruct (IH w1 Hw) as (w2 & E2 & F2). exists w2. unfold mbind, M_bind. rewrite E1.
  split; [done|]. by rewrite F2, F1, <-app_assoc.
Qed.

Lemma win_enable_fw tun srv port hosts w : adds_work ->
  exists w', win_enable_with_extras tun srv port hosts w = (Ok tt, w') /\
    fw w' = filter (not_named OWN) (fw w) ++
      [(rule_name BLOCK_ALL, block_spec); (rule_name ALLOW_SERVER, allow_spec srv);
       (rule_name ALLOW_LOOPBACK, allow_spec (str "127.0.0.0/8"))] ++ (extra_rule <$> hosts).
Proof.
  intros Hw. unfold win_enable_with_extras, mbind, M_bind.
  destruct (add_rule_fw BLOCK_ALL block_spec (win_cleanup_stale w) Hw) as (w1 & -> & F1).
  destruct (add_rule_fw ALLOW_SERVER (allow_spec srv) w1 Hw) as (w2 & -> & F2).
  destruct (add_rule_fw ALLOW_LOOPBACK (allow_spec (str "127.0.0.0/8")) w2 Hw) as (w3 & -> & F3).
  destruct (add_extras_fw hosts w3 Hw) as (w4 & -> & F4).
  exists w4. split; [done|]. by rewrite F4, F3, F2, F1, win_cleanup_fw, <-!app_assoc.
Qed.

Lemma rule_name_inj a b : rule_name a = rule_name b -> a = b.
Proof. apply app_inv_head. Qed.

Lemma extra_not_own h : h <> str "Server" -> h <> str "Loopback" -> not_named OWN (extra_rule h).
Proof.
  intros Hs Hl. unfold not_named, OWN, extra_rule. cbn [fst]. rewrite !fmap_cons, fmap_nil, !not_elem_of_cons.
  repeat split; [intros E%rule_name_inj..|apply not_elem_of_nil].
  - discriminate E.
  - apply (app_inv_head (str "Allow ")) in E. done.
  - apply (app_inv_head (str "Allow ")) in E. done.
Qed.

Lemma filter_own srv :
  filter (not_named OWN) [(rule_name BLOCK_ALL, block_spec); (rule_name ALLOW_SERVER, allow_spec srv);
    (rule_name ALLOW_LOOPBACK, allow_spec (str "127.0.0.0/8"))] = [].
Proof.
  rewrite !filter_cons_False; [done|..]; intros Hn; apply Hn; unfold OWN; rewrite !fmap_cons; set_solver.
Qed.
End windows_lemmas.

(** ** Theorems *)

(** The kill-switch of macOS. When [enable] succeeds, [pfctl -E] works and the main rule
    set evaluates the anchor, then whatever rules the anchor held before, a packet leaves
    the machine if and only if it goes into the tunnel, to the VPN server, over the
    loopback interface, or to port 443 of an extra host. When the main rule set does not
    evaluate the anchor every packet leaves. When [enable] fails, pf is as before;
    [disable] and [cleanup_stale] leave no rule. Names of interfaces and hosts are taken to
    be single words. *)
Theorem pf_killswitch_exact {W} `{PfOk W, !FilesOk W} pid tun srv port extras (w : W) r w' :
  word tun -> word srv -> Forall word extras ->
  enable_with_extras pid tun srv port extras w = (r, w') ->
  (r = Ok tt -> hooked (pf w) = true -> pf_enables W ->
     forall p, passes w' p = bool_decide (allowed tun srv extras p)) /\
  (r = Ok tt -> hooked (pf w) = false -> forall p, passes w' p = true) /\
  (r <> Ok tt -> pf w' = pf w) /\
  (forall p, passes (disable w') p = true) /\ (forall p, passes (cleanup_stale w') p = true).
Proof.
  intros Ht Hs He E. pose proof (enable_anchor _ _ _ _ _ _ _ _ E) as Ha.
  assert (Hfl : forall p, passes (flush_anchor w') p = true).
  { intros p. unfold passes, anchor. rewrite flush_empties. cbn. apply orb_true_r. }
  split; [|split; [|split; [|by split]]].
  - intros -> Hh Hen p. destruct Ha as (b & Hb & Hpf). rewrite (passes_rules tun srv extras) by (done || by unfold anchor; rewrite Hpf).
    rewrite Hpf. cbn. by rewrite Hb, Hh, orb_true_r.
  - intros -> Hh p. destruct Ha as (b & _ & Hpf). rewrite (passes_rules tun srv extras) by (done || by unfold anchor; rewrite Hpf).
    rewrite Hpf. cbn. by rewrite Hh, andb_false_r.
  - destruct r as [[]|]; [done|]. intros _. exact Ha.
Qed.

(** [C30] The kill-switch of Windows blocks its own tunnel and outlives [disable]. With the
    rights to add rules [enable] succeeds and leaves exactly one rule of each kind,
    whatever stale rules there were; but since a blocking rule wins over every allowing
    one, every destination is blocked, the VPN server included. [disable] removes the
    three rules with a fixed name, and leaves those of the extra hosts behind. *)
Theorem win_killswitch_overblocks {W} `{AdvFirewallOk W} tun srv port extras (w : W) :
  adds_work (W:=W) -> Forall (fun h => h <> str "Server" /\ h <> str "Loopback") extras ->
  exists w', win_enable_with_extras tun srv port extras w = (Ok tt, w') /\
    fw w' = filter (not_named OWN) (fw w) ++
      [(rule_name BLOCK_ALL, block_spec); (rule_name ALLOW_SERVER, allow_spec srv);
       (rule_name ALLOW_LOOPBACK, allow_spec (str "127.0.0.0/8"))] ++ (extra_rule <$> extras) /\
    (forall dst, blocked (fw w') dst) /\
    fw (win_disable w') = filter (not_named OWN) (fw w) ++ (extra_rule <$> extras).
Proof.
  intros Hw Hex. destruct (win_enable_fw tun srv port extras w Hw) as (w' & E & F).
  exists w'. split; [done|]. split; [done|]. rewrite win_disable_fw, F. split.
  - intros dst. exists (rule_name BLOCK_ALL), block_spec.
    split; [apply elem_of_app; right; apply elem_of_app; left; by left|].
    split; [by right; left|]. intros remote Hr. exfalso. revert Hr. unfold block_spec.
    rewrite !elem_of_cons. intros Hr. destruct_or! Hr; try discriminate. by apply not_elem_of_nil in Hr.
  - rewrite !filter_app, list_filter_filter, (list_filter_iff _ (not_named OWN)) by tauto.
    f_equal. rewrite filter_own. apply filter_all. apply Forall_fmap.
    eapply Forall_impl; [exact Hex|]. intros h [Hs Hl]. by apply extra_not_own.
Qed.

(** A machine on which every command works. *)
Record MacWin := mkMacWin { mw_pf : Pf; mw_files : gmap bytes bytes; mw_fw : list FwRule }.

Definition pf_select (r : list bytes) (p : Packet) : bool :=
  match drop 3 r with
  | [a; i; b] => bool_decide (p_iface p = i)
  | [a; h] => bool_decide (p_dst p = h)
  | [a; h; b; c] => bool_decide (p_dst p = h /\ p_port p = 443)
  | _ => true
  end.

#[local] Instance macwin_shell : Shell MacWin := fun program args m =>
  match args with
  | [a; b; op; path] =>
      if decide (op = str "-f") then
        match mw_files m !! path with
        | Some t => (done_ok, mkMacWin (with_anchor (split_whitespace <$> lines t) (mw_pf m)) (mw_files m) (mw_fw m))
        | None => (done_err, m)
        end
      else (done_ok, mkMacWin (with_anchor [] (mw_pf m)) (mw_files m) (mw_fw m))
  | a :: b :: op :: c :: name :: spec =>
      (done_ok, mkMacWin (mw_pf m) (mw_files m)
         (if decide (op = str "add") then mw_fw m ++ [(name, spec)]
          else filter (fun r => r.1 <> name) (mw_fw m)))
  | [op] =>
      (done_ok, mkMacWin (mkPf true (hooked (mw_pf m)) (pf_anchor (mw_pf m))) (mw_files m) (mw_fw m))
  | _ => (done_ok, m)
  end.

#[local] Instance macwin_files : Files MacWin := {
  read_file p m := mw_files m !! p;
  write_file p d m := (true, mkMacWin (mw_pf m) (<[p:=d]> (mw_files m)) (mw_fw m));
  remove_file p m := (true, mkMacWin (mw_pf m) (delete p (mw_files m)) (mw_fw m))
}.

#[local] Instance macwin_pf : PfOk MacWin.
Proof.
  refine {| pf := mw_pf; selects := pf_select |}; try done.
  - intros path w o w'. unfold spawn, macwin_shell. rewrite decide_True by done.
    destruct (mw_files w !! path) as [t|] eqn:E; intros [= <- <-]; simpl; [|done]. by exists t.
  - intros w o w' [= <- <-]. cbn. by rewrite orb_true_r.
Defined.

#[local] Instance macwin_files_ok : FilesOk MacWin.
Proof.
  split.
  - intros w p d q w' [= <-]. simpl. case_decide; subst; [by rewrite lookup_insert_eq|by rewrite lookup_insert_ne].
  - done.
  - intros w p q ok w' [= _ <-] Hq. simpl. by rewrite lookup_delete_ne.
Qed.

#[local] Instance macwin_fw : AdvFirewallOk MacWin.
Proof.
  refine {| fw := mw_fw |}; [|done].
  intros name spec w o w'. unfold netsh, spawn, macwin_shell. cbn [app].
  rewrite decide_True by done. by intros [= <- <-].
Defined.

Definition ex_macwin : MacWin := mkMacWin (mkPf false true [[str "pass"; str "out"; str "all"]]) ∅ [(str "name=other", [])].
Definition ex_extras : list bytes := [str "104.16.0.1"].
Definition ex_enable : result RouteError unit * MacWin :=
  enable_with_extras 4711 (str "utun7") (str "203.0.113.7") 443 ex_extras ex_macwin.

Lemma ex_enable_ok : is_ok ex_enable.1 = true.
Proof. vm_compute. reflexivity. Qed.

Lemma ex_extras_words : Forall word ex_extras.
Proof. words. Qed.

(** A packet past the tunnel is blocked, one to the server is not. *)
Lemma pf_killswitch_exact_witness :
  exists w', ex_enable = (Ok tt, w') /\
    passes w' (mkPacket (str "en0") (str "8.8.8.8") 53) = false /\
    passes w' (mkPacket (str "en0") (str "203.0.113.7") 8443) = true.
Proof.
  pose proof ex_enable_ok as Hok. unfold ex_enable in *.
  destruct (enable_with_extras _ _ _ _ _ ex_macwin) as [[[]|e] w'] eqn:E; [|discriminate Hok].
  exists w'. split; [reflexivity|].
  destruct (pf_killswitch_exact 4711 (str "utun7") (str "203.0.113.7") 443 ex_extras ex_macwin (Ok tt) w')
    as (Hv & _); [| |apply ex_extras_words|exact E|].
  1, 2: apply str_word; [vm_compute; reflexivity|discriminate].
  assert (Hen : pf_enables MacWin) by (intros w; reflexivity).
  split; rewrite Hv by (reflexivity || exact Hen); vm_compute; reflexivity.
Defined.

Lemma win_killswitch_overblocks_witness :
  exists w', win_enable_with_extras (str "Redpill") (str "203.0.113.7") 443 ex_extras ex_macwin = (Ok tt, w') /\
    blocked (fw w') (str "203.0.113.7").
Proof.
  destruct (win_killswitch_overblocks (str "Redpill") (str "203.0.113.7") 443 ex_extras ex_macwin)
    as (w' & E & _ & Hb & _).
  - intros name spec w. reflexivity.
  - apply Forall_singleton. split; intros E; vm_compute in E; discriminate E.
  - exists w'. split; [exact E|apply Hb].
Defined.
