(* ===== verification/Daemon.v ===== *)
(** Daemon mode of the client ([daemon.rs], [ipc.rs], [main] of [client.rs]): the PID
    file, the checks on the process it names, stopping it, and the status query.

    Processes and time belong to the environment: class [Processes] has [kill], which
    takes the [i32] the code passes and answers with an error number or success, and
    [sleep], during which anything may happen. *)

From S2P Require Import Prelude Datagram Text IpText Stats Route.

Inductive Signal := Probe | TERM.
Inductive Errno := ESRCH | EPERM | EINVAL.
#[export] Instance errno_eq_dec : EqDecision Errno.
Proof. solve_decision. Defined.

Class Processes (W : Type) := {
  kill : Z -> Signal -> W -> option Errno * W;
  sleep : Z -> W -> W;
  create_dir_all : bytes -> W -> bool * W
}.

Inductive DaemonError :=
  | NoPidFile | NotRunning | KillFailed (e : Errno) | DirFailed | WriteFailed | AlreadyRunning (pid : Z)
  | ForkFailed | SetsidFailed | LogFailed | ClientFailed.

(** ** The PID file *)

(** [home]: the variable [HOME]. *)
Definition pid_path (macos : bool) (home : option bytes) : bytes :=
  match macos, home with
  | true, Some h => h ++ str "/Library/Application Support/redpill/redpill.pid"
  | _, _ => str "/var/run/redpill.pid"
  end.
Definition socket_path (macos : bool) (home : option bytes) : bytes :=
  match macos, home with
  | true, Some h => h ++ str "/Library/Application Support/redpill/redpill.sock"
  | _, _ => str "/var/run/redpill.sock"
  end.
Definition log_path (macos : bool) (home : option bytes) : bytes :=
  match macos, home with
  | true, Some h => h ++ str "/Library/Logs/redpill.log"
  | _, _ => str "/var/log/redpill/client.log"
  end.

Section daemon.
Context {W : Type} `{Files W, Processes W}.

(** [parent]: the directory of [path]. *)
Definition write_pid (process_id : Z) (parent path : bytes) (w : W) : result DaemonError unit * W :=
  let '(ok, w) := create_dir_all parent w in
  if negb ok then (Err DirFailed, w)
  else
    let '(ok, w) := write_file path (show_int process_id) w in
    (if (ok : bool) then Ok tt else Err WriteFailed, w).

Definition read_pid (path : bytes) (w : W) : option Z :=
  text ← read_file path w;
  if utf8_valid text then parse_u32 (trim text) else None.

Definition remove_pid (path : bytes) (w : W) : W := (remove_file path w).2.

Definition is_running (path : bytes) (w : W) : option Z * W :=
  match read_pid path w with
  | None => (None, w)
  | Some pid =>
      match kill (as_i32 pid) Probe w with
      | (None, w) => (Some pid, w)
      | (Some _, w) => (None, remove_pid path w)
      end
  end.

(** The loop of [stop_daemon]: 20 looks, 100 ms apart. [true]: the process is gone. *)
Fixpoint wait_gone (n : nat) (path : bytes) (pid : Z) (w : W) : bool * W :=
  match n with
  | O => (false, w)
  | S n =>
      match kill (as_i32 pid) Probe (sleep 100 w) with
      | (Some _, w) => (true, remove_pid path w)
      | (None, w) => wait_gone n path pid w
      end
  end.

(** Both outcomes after the signal are [Ok(())]; they differ in the message. *)
Definition stop_daemon (path : bytes) (w : W) : result DaemonError bool * W :=
  match read_pid path w with
  | None => (Err NoPidFile, w)
  | Some pid =>
      match kill (as_i32 pid) TERM w with
      | (None, w) => let '(gone, w) := wait_gone 20 path pid w in (Ok gone, w)
      | (Some e, w) =>
          if decide (e = ESRCH) then (Err NotRunning, remove_pid path w)
          else (Err (KillFailed e), w)
      end
  end.

(** ** The commands *)

(** [up]: the check, [daemonize] as [child], the PID file, the client, and the removal of
    both files. *)
Definition up (process_id : Z) (parent path sock : bytes) (child : W -> result DaemonError unit * W)
    (run_client : W -> result DaemonError unit * W) (w : W) : result DaemonError unit * W :=
  match is_running path w with
  | (Some pid, w) => (Err (AlreadyRunning pid), w)
  | (None, w) =>
      match child w with
      | (Err e, w) => (Err e, w)
      | (Ok _, w) =>
          match write_pid process_id parent path w with
          | (Err e, w) => (Err e, w)
          | (Ok _, w) =>
              let '(result, w) := run_client w in
              (result, (remove_file sock (remove_pid path w)).2)
          end
      end
  end.

Definition down (path : bytes) (w : W) : result DaemonError bool * W := stop_daemon path w.

Inductive StatusReport (S : Type) := Running (s : S) | IpcUnavailable (pid : Z) | NoDaemon.

(** [status], given the outcome of the query. *)
Definition status_command {S} (query : option S) (path : bytes) (w : W) : StatusReport S * W :=
  match query with
  | Some s => (Running S s, w)
  | None =>
      match is_running path w with
      | (Some pid, w) => (IpcUnavailable S pid, w)
      | (None, w) => (NoDaemon S, w)
      end
  end.
End daemon.

(** ** The status socket *)

Record DaemonStatus := mkStatus {
  ds_connected : bool; ds_server : bytes; ds_transport : bytes; ds_client_ip : option bytes;
  uptime_secs : Z; ds_bytes_sent : Z; ds_bytes_recv : Z; ds_datagrams_sent : Z; ds_datagrams_recv : Z
}.

(** [start]: milliseconds on the monotonic clock. *)
Record DaemonState := mkDaemonState {
  connected : bool; ds_server_addr : bytes; transport : bytes; client_ip : option bytes;
  start : Z; ds_stats : Stats
}.

Definition to_status (now : Z) (s : DaemonState) : DaemonStatus :=
  mkStatus (connected s) (ds_server_addr s) (transport s) (client_ip s)
    (sat_sub now (start s) / 1000)
    (bytes_sent (ds_stats s)) (bytes_recv (ds_stats s))
    (datagrams_sent (ds_stats s)) (datagrams_recv (ds_stats s)).

(** serde_json, which is not part of this repository. *)
Class Json (A : Type) := {
  to_json : A -> option bytes;
  from_json : bytes -> option A
}.

Section ipc.
Context `{Json DaemonStatus}.

(** [read_line]: up to and with the first newline, or the rest. *)
Fixpoint read_line (s : bytes) : bytes :=
  match s with
  | [] => []
  | b :: s => if decide (b = NL) then [b] else b :: read_line s
  end.

(** What the server writes to a connection on which [request] arrived. *)
Definition ipc_reply (now : Z) (s : DaemonState) (request : bytes) : bytes :=
  let line := read_line request in
  if decide (line = []) then []
  else if negb (utf8_valid line) then []
  else if decide (trim line = str "status") then default [] (to_json (to_status now s)) ++ [NL]
  else str "unknown command: " ++ trim line ++ [NL].

Definition status_request : bytes := str "status" ++ [NL].

(** [query_status], given what comes back on the socket. *)
Definition query_status (reply : bytes) : option DaemonStatus :=
  let line := read_line reply in if utf8_valid line then from_json line else None.
End ipc.

(** ** What processes and files do *)

(** [kill] on the number of a process: [alive] and [permitted] say what it reports. A probe
    changes nothing, and removing or writing a file (or trying to) stops no process and
    changes nobody's rights. *)
Class ProcessesOk (W : Type) `{Files W, Processes W} := {
  alive : Z -> W -> bool;
  permitted : Z -> W -> bool;
  kill_reports pid sig w : 0 < pid ->
    (kill pid sig w).1 = if alive pid w then if permitted pid w then None else Some EPERM
                         else Some ESRCH;
  probe_keeps pid w : (kill pid Probe w).2 = w;
  files_keep_processes path d w pid :
    alive pid (write_file path d w).2 = alive pid w /\
    permitted pid (write_file path d w).2 = permitted pid w /\
    alive pid (remove_file path w).2 = alive pid w /\
    permitted pid (remove_file path w).2 = permitted pid w
}.

Section lemmas.
Context {W : Type} `{ProcessesOk W}.
Implicit Types w : W.

(** A number of a process: positive and in the range of [pid_t]. *)
Definition pid_number (pid : Z) : Prop := 0 < pid < 2 ^ 31.

Lemma as_i32_pid pid : pid_number pid -> as_i32 pid = pid.
Proof.
  intros Hp. unfold pid_number in Hp. unfold as_i32, wrap. rewrite Z.mod_small by lia.
  rewrite (proj2 (Z.ltb_lt _ _)) by lia. done.
Qed.

Lemma probe_alive pid w : 0 < pid ->
  kill pid Probe w =
    (if alive pid w then if permitted pid w then None else Some EPERM else Some ESRCH, w).
Proof.
  intros Hp. rewrite <-(kill_reports pid Probe w Hp), <-(probe_keeps pid w) at 1.
  rewrite probe_keeps. by destruct (kill pid Probe w) eqn:E; rewrite <-(probe_keeps pid w), E.
Qed.

(** The world after [k] sleeps. *)
Definition later (k : nat) (w : W) : W := Nat.iter k (sleep 100) w.

Lemma later_S k w : later (S k) w = later k (sleep 100 w).
Proof. unfold later. by rewrite Nat.iter_succ_r. Qed.

(** The process cannot be seen any more. *)
Definition unseen (pid : Z) (w : W) : bool := negb (alive pid w && permitted pid w).

Lemma wait_gone_spec path pid : pid_number pid -> forall n w gone w',
  wait_gone n path pid w = (gone, w') ->
  (gone = true /\ exists k, (1 <= k <= n)%nat /\ unseen pid (later k w) = true /\
     w' = remove_pid path (later k w)) \/
  (gone = false /\ (forall k, (1 <= k <= n)%nat -> unseen pid (later k w) = false) /\ w' = later n w).
Proof.
  intros Hp. induction n as [|n IH]; intros w gone w' E; cbn [wait_gone] in E.
  { injection E as <- <-. right. split; [done|]. split; [lia|done]. }
  rewrite as_i32_pid, probe_alive in E by (done || apply Hp).
  assert (Hu : unseen pid (later 1 w) =
    match (if alive pid (sleep 100 w) then if permitted pid (sleep 100 w) then None else Some EPERM
           else Some ESRCH) with Some _ => true | None => false end).
  { unfold unseen, later. simpl. by destruct (alive _ _), (permitted _ _). }
  destruct (if alive _ _ then _ else _) as [e|].
  { injection E as <- <-. left. split; [done|]. exists 1%nat. split; [lia|]. by split. }
  apply IH in E as [(-> & k & Hk & Hg & ->)|(-> & Hno & ->)].
  - left. split; [done|]. exists (S k). rewrite later_S. split; [lia|]. by split.
  - right. split; [done|]. rewrite later_S. split; [|done]. intros [|[|k]] Hk; [lia|done|].
    rewrite later_S. apply Hno. lia.
Qed.

Lemma read_pid_written `{!FilesOk W} pid parent path w w' :
  0 <= pid < 2 ^ 32 -> write_pid pid parent path w = (Ok tt, w') -> read_pid path w' = Some pid.
Proof.
  intros Hp E. unfold write_pid in E. destruct (create_dir_all parent w) as [[] w1]; [|done].
  simpl in E. destruct (write_file path (show_int pid) w1) as [[] w2] eqn:Ew; [|done].
  injection E as <-. unfold read_pid. rewrite (read_written _ _ _ _ _ Ew), decide_True by done.
  cbn [mbind option_bind].
  pose proof (show_u32_solid pid ltac:(lia)) as Hs.
  rewrite utf8_solid by done.
  rewrite <-(app_nil_r (show_int pid)), <-(app_nil_l (show_int pid ++ [])).
  rewrite trim_solid; [by apply parse_show_u32|constructor|constructor|done|].
  pose proof (show_nat_nonempty (Z.to_nat pid)) as Hne. by rewrite Z2Nat.id in Hne by lia.
Qed.
End lemmas.

(** ** Theorems *)

(** [down] always ends, after at most 20 looks 100 ms apart. If the process of the PID
    file does not exist, it says so and removes the file; if it may not be signalled,
    nothing happens. Otherwise the process gets its SIGTERM, and [down] reports it gone
    exactly when one of the looks in the next two seconds does not find it; then the PID
    file is removed, else it stays. *)
Theorem down_spec {W} `{ProcessesOk W} path pid (w : W) r w' :
  read_pid path w = Some pid -> pid_number pid -> down path w = (r, w') ->
  let signalled := (kill pid TERM w).2 in
  (alive pid w = false -> r = Err NotRunning /\ w' = remove_pid path signalled) /\
  (alive pid w = true -> permitted pid w = false -> r = Err (KillFailed EPERM) /\ w' = signalled) /\
  (alive pid w = true -> permitted pid w = true ->
     (exists k, (1 <= k <= 20)%nat /\ unseen pid (later k signalled) = true /\
        r = Ok true /\ w' = remove_pid path (later k signalled)) \/
     ((forall k, (1 <= k <= 20)%nat -> unseen pid (later k signalled) = false) /\
        r = Ok false /\ w' = later 20 signalled)).
Proof.
  intros Hr Hp E. unfold down, stop_daemon in E. rewrite Hr, as_i32_pid in E by done.
  pose proof (kill_reports pid TERM w ltac:(apply Hp)) as Hk.
  destruct (kill pid TERM w) as [o w1]. cbn [fst snd] in *. cbv zeta.
  split; [|split]; intros Ha; [|intros Hperm..]; rewrite Ha in Hk; try rewrite Hperm in Hk; subst o.
  - rewrite decide_True in E by done. by injection E as <- <-.
  - rewrite decide_False in E by done. by injection E as <- <-.
  - destruct (wait_gone 20 path pid w1) as [gone w2] eqn:Eg. injection E as <- <-.
    apply (wait_gone_spec path pid Hp) in Eg as [(-> & k & Hk & Hu & ->)|(-> & Hno & ->)].
    + left. exists k. do 3 (split; [done|]). done.
    + right. do 2 (split; [done|]). done.
Qed.

(** [C31] The PID file keeps a second daemon away, but only from those who may signal the
    first. After the file was written, [up] refuses to start while the process lives
    and may be signalled. Run by somebody who may not signal it, [status] (with the
    socket out of reach) and [up] take it for dead and try to remove the file, and [up]
    starts a second client once it can write the PID file. If the file could be removed,
    [down] finds no daemon afterwards, although it is running; if it could not (the error is
    ignored), the file still names the running process, [down] reports that it may not
    signal it, and the next check takes it for dead again. *)
Theorem pid_file_guards_up {W} `{ProcessesOk W, !FilesOk W} pid parent path (w w1 : W) :
  pid_number pid -> write_pid pid parent path w = (Ok tt, w1) -> alive pid w1 = true ->
  (permitted pid w1 = true ->
     forall pid' parent' sock child run, up pid' parent' path sock child run w1 = (Err (AlreadyRunning pid), w1)) /\
  (permitted pid w1 = false ->
     let w2 := (remove_file path w1).2 in
     status_command (S:=DaemonStatus) None path w1 = (NoDaemon DaemonStatus, w2) /\ alive pid w2 = true /\
     (forall pid' parent' sock child run w3 w4 r w5,
        child w2 = (Ok tt, w3) -> write_pid pid' parent' path w3 = (Ok tt, w4) -> run w4 = (r, w5) ->
        up pid' parent' path sock child run w1 = (r, (remove_file sock (remove_file path w5).2).2)) /\
     (read_file path w2 = None -> down path w2 = (Err NoPidFile, w2)) /\
     (read_file path w2 = read_file path w1 ->
        (down path w2).1 = Err (KillFailed EPERM) /\ is_running path w2 = (None, (remove_file path w2).2))).
Proof.
  intros Hp Ew Ha. pose proof (read_pid_written pid parent path w w1 ltac:(unfold pid_number in Hp; lia) Ew) as Hr.
  assert (Hrun : forall v, read_pid path v = Some pid -> alive pid v = true -> is_running path v =
    if permitted pid v then (Some pid, v) else (None, remove_pid path v)).
  { intros v Hv Hav. unfold is_running. rewrite Hv, as_i32_pid, probe_alive, Hav by (done || apply Hp).
    by destruct (permitted pid v). }
  pose proof (Hrun w1 Hr Ha) as Hw1. destruct (files_keep_processes path [] w1 pid) as (_ & _ & Ha2 & Hp2).
  split; intros Hperm; rewrite Hperm in Hw1, Hp2; [intros; unfold up; by rewrite Hw1|].
  set (w2 := (remove_file path w1).2). split_and!.
  - unfold status_command. by rewrite Hw1.
  - unfold w2. by rewrite Ha2.
  - intros ????? w3 w4 r w5 Ec Ewr Er. unfold up. by rewrite Hw1; cbn; unfold remove_pid; fold w2; rewrite Ec, Ewr, Er.
  - intros Hgone. unfold down, stop_daemon, read_pid. by rewrite Hgone.
  - intros Hstay. assert (Hr2 : read_pid path w2 = Some pid) by (unfold read_pid; rewrite Hstay; exact Hr).
    assert (Ha' : alive pid w2 = true) by (unfold w2; by rewrite Ha2).
    rewrite (Hrun w2 Hr2 Ha'). unfold w2 at 2. rewrite Hp2. split; [|done].
    unfold down, stop_daemon. rewrite Hr2, as_i32_pid by done.
    pose proof (kill_reports pid TERM w2 ltac:(apply Hp)) as Hk. unfold w2 in Hk. rewrite Ha2, Ha, Hp2 in Hk. fold w2 in Hk.
    destruct (kill pid TERM w2) as [o w3]. simpl in Hk. subst o. by rewrite decide_False.
Qed.

(** The status query: what [status] prints is the state of the daemon, when serde_json
    reads back what it wrote (one line of text, here followed by its newline). *)
Theorem status_query_roundtrip `{Json DaemonStatus} now s text :
  to_json (to_status now s) = Some text -> Forall (fun b => b <> NL) text ->
  utf8_valid (text ++ [NL]) = true -> from_json (text ++ [NL]) = Some (to_status now s) ->
  query_status (ipc_reply now s status_request) = Some (to_status now s).
Proof.
  intros Ht Hnl Hu Hj. unfold ipc_reply. change (read_line status_request) with status_request.
  rewrite decide_False by done. change (utf8_valid status_request) with true. cbn [negb].
  rewrite decide_True by (vm_compute; reflexivity). rewrite Ht. change (default [] (Some text)) with text.
  assert (Hl : read_line (text ++ [NL]) = text ++ [NL]).
  { clear -Hnl. induction Hnl as [|b text Hb _ IH]; [done|]. simpl. rewrite decide_False by done. by rewrite IH. }
  unfold query_status. cbv zeta. by rewrite Hl, Hu.
Qed.

(** A machine: the processes that live, the one that ends at the next sleep, the user's
    rights, and the files. *)
Record Box := mkBox { b_alive : list Z; b_dying : option Z; b_root : bool; b_files : gmap bytes bytes }.

#[local] Instance box_files : Files Box := {
  read_file p m := b_files m !! p;
  write_file p d m := (true, mkBox (b_alive m) (b_dying m) (b_root m) (<[p:=d]> (b_files m)));
  remove_file p m := (true, mkBox (b_alive m) (b_dying m) (b_root m) (delete p (b_files m)))
}.

Definition box_kill (pid : Z) (sig : Signal) (m : Box) : option Errno * Box :=
  if decide (pid ∈ b_alive m) then
    if b_root m then
      (None, match sig with
             | Probe => m
             | TERM => mkBox (b_alive m) (Some pid) (b_root m) (b_files m)
             end)
    else (Some EPERM, m)
  else (Some ESRCH, m).

#[local] Instance box_processes : Processes Box := {
  kill := box_kill;
  sleep _ m := mkBox (match b_dying m with Some p => filter (fun q => q <> p) (b_alive m) | None => b_alive m end)
                 None (b_root m) (b_files m);
  create_dir_all _ m := (true, m)
}.

#[local] Instance box_ok : ProcessesOk Box.
Proof.
  refine {| alive pid m := bool_decide (pid ∈ b_alive m); permitted _ m := b_root m |}; simpl.
  - intros pid sig m _. unfold box_kill. case_decide; case_bool_decide; try done. by destruct (b_root m).
  - intros pid m. unfold box_kill. case_decide; [|done]. by destruct (b_root m).
  - done.
Defined.

#[local] Instance box_files_ok : FilesOk Box.
Proof.
  split.
  - intros w p d q w' [= <-]. simpl. case_decide; subst; [by rewrite lookup_insert_eq|by rewrite lookup_insert_ne].
  - done.
  - intros w p q ok w' [= _ <-] Hq. simpl. by rewrite lookup_delete_ne.
Qed.

Definition ex_pid_path : bytes := pid_path false None.
Definition ex_box (root : bool) : Box := mkBox [4711] None root {[ex_pid_path := str "4711"]}.

(** The daemon is gone at the first look. *)
Lemma down_spec_witness :
  (down ex_pid_path (ex_box true)).1 = Ok true /\
  exists k, (1 <= k <= 20)%nat /\ unseen 4711 (later k (kill 4711 TERM (ex_box true)).2) = true.
Proof.
  assert (Hr : (down ex_pid_path (ex_box true)).1 = Ok true) by (vm_compute; reflexivity).
  split; [exact Hr|].
  destruct (down ex_pid_path (ex_box true)) as [r w'] eqn:E.
  destruct (down_spec ex_pid_path 4711 (ex_box true) r w') as (_ & _ & Hd);
    [vm_compute; reflexivity|split; lia|exact E|].
  destruct Hd as [(k & Hk & Hu & _)|(_ & Hf & _)]; [vm_compute; reflexivity|reflexivity|by exists k|].
  simpl in Hr. congruence.
Defined.

Definition ex_written : result DaemonError unit * Box := write_pid 4711 (str "/var/run") ex_pid_path (ex_box false).

Lemma ex_written_ok : ex_written = (Ok tt, ex_written.2).
Proof. reflexivity. Qed.

(** The daemon's user may not be signalled; the file is removed all the same. *)
Lemma pid_file_guards_up_witness :
  let w2 := (remove_file ex_pid_path ex_written.2).2 in
  alive 4711 w2 = true /\ down ex_pid_path w2 = (Err NoPidFile, w2).
Proof.
  destruct (pid_file_guards_up 4711 (str "/var/run") ex_pid_path (ex_box false) ex_written.2)
    as (_ & Hf); [split; lia|exact ex_written_ok|reflexivity|].
  destruct Hf as (_ & Ha & _ & Hd & _); [reflexivity|]. split; [exact Ha|]. apply Hd. vm_compute. reflexivity.
Defined.
