(* ===== verification/Certs.v ===== *)
(** Certificates: the pinned pair of the server ([cert.rs]) and the resolver with its cache
    and renewal task ([acme.rs]).

    Making certificates and reading PEM is the work of rcgen, rustls-pemfile and rustls:
    class [Pki], with the laws [PkiOk]; a draw of randomness is an argument. Times are in
    nanoseconds. *)

From S2P Require Import Prelude Text Route.

(** ** The environment *)

Class Pki := {
  (** draw and subject names; certificate and key in DER *)
  self_signed : Z -> list bytes -> option (bytes * bytes);
  cert_to_pem : bytes -> bytes;
  key_to_pem : bytes -> bytes;
  (** [rustls_pemfile::certs], [private_key] *)
  pem_certs : bytes -> option (list bytes);
  pem_private_key : bytes -> option (option bytes);
  any_supported_type : bytes -> bool
}.

(** Different names are different files. *)
Class Paths (W : Type) := {
  exists_path : bytes -> W -> bool;
  mkdir_all : bytes -> W -> bool * W;
  modified : bytes -> W -> option Z;
  now : W -> Z
}.

Inductive CertError :=
  | CertIo | BadPem | NoCertificate | NoPrivateKey | BadKey | GenerateFailed.

Definition C (W A : Type) : Type := W -> result CertError A * W.

#[export] Instance C_ret {W} : MRet (C W) := fun A a w => (Ok a, w).
#[export] Instance C_bind {W} : MBind (C W) := fun A B k m w =>
  match m w with
  | (Ok a, w) => k a w
  | (Err e, w) => (Err e, w)
  end.
Definition of_option {W A} (e : CertError) (o : option A) : C W A := fun w => (ok_or e o, w).

(** ** Paths *)

Definition PATH_SEP : byte := x2f.
Definition path_absolute (p : bytes) : bool := match p with b :: _ => bool_decide (b = PATH_SEP) | [] => false end.

(** [Path::components], without the root: empty pieces vanish, and "." unless it comes first. *)
Definition path_components (p : bytes) : list bytes :=
  let ps := filter (fun c => c <> []) (split_on (fun b => bool_decide (b = PATH_SEP)) p) in
  match ps with
  | [] => []
  | c :: cs =>
      let cs := filter (fun c => c <> str ".") cs in
      if path_absolute p && bool_decide (c = str ".") then cs else c :: cs
  end.

(** [Path::parent], by its components. *)
Definition parent (p : bytes) : option bytes :=
  match rev (path_components p) with
  | [] => None
  | _ :: cs => Some ((if path_absolute p then [PATH_SEP] else []) ++ join_with [PATH_SEP] (rev cs))
  end.

(** [Path::join] of a plain file name *)
Definition path_join (dir file : bytes) : bytes :=
  match rev dir with
  | [] => file
  | b :: _ => if bool_decide (b = PATH_SEP) then dir ++ file else dir ++ [PATH_SEP] ++ file
  end.

Record CertPair := mkPair { cert_der : bytes; key_der : bytes; cert_pem : bytes; key_pem : bytes }.

(** ** [cert.rs] *)

Section pem.
Context `{Pki}.

Definition pem_to_cert_der (pem : bytes) : result CertError bytes :=
  match pem_certs pem with
  | None => Err BadPem
  | Some certs => ok_or NoCertificate (head certs)
  end.
Definition pem_to_key_der (pem : bytes) : result CertError bytes :=
  match pem_private_key pem with
  | None => Err BadPem
  | Some key => ok_or NoPrivateKey key
  end.

(** Every step is unwrapped. *)
Definition generate_self_signed (draw : Z) : panics CertPair :=
  '(cert, key) ← self_signed draw [str "redpill-quic"];
  Some (mkPair cert key (cert_to_pem cert) (key_to_pem key)).
End pem.

Section files.
Context {W : Type} `{Pki, Files W, Paths W}.

Definition read_bytes (path : bytes) : C W bytes := fun w => (ok_or CertIo (read_file path w), w).
(** [read_to_string] *)
Definition read_text (path : bytes) : C W bytes := fun w =>
  (match read_file path w with
   | Some d => if utf8_valid d then Ok d else Err CertIo
   | None => Err CertIo
   end, w).
Definition write_or_fail (path data : bytes) : C W unit := fun w =>
  let '(ok, w) := write_file path data w in (if (ok : bool) then Ok tt else Err CertIo, w).
Definition mkdir_or_fail (path : bytes) : C W unit := fun w =>
  let '(ok, w) := mkdir_all path w in (if (ok : bool) then Ok tt else Err CertIo, w).
Definition lift_result {A} (r : result CertError A) : C W A := fun w => (r, w).

Definition load_from_files (cert_path key_path : bytes) : C W CertPair :=
  cert_pem ← read_text cert_path;
  key_pem ← read_text key_path;
  cert_der ← lift_result (pem_to_cert_der cert_pem);
  key_der ← lift_result (pem_to_key_der key_pem);
  mret (mkPair cert_der key_der cert_pem key_pem).

Definition make_parent (cert_path : bytes) : C W unit :=
  match parent cert_path with Some dir => mkdir_or_fail dir | None => mret tt end.
Definition save_pair (cert_path key_path : bytes) (pair : CertPair) : C W CertPair :=
  _ ← make_parent cert_path;
  _ ← write_or_fail cert_path (cert_pem pair);
  _ ← write_or_fail key_path (key_pem pair);
  mret pair.

Definition load_or_generate (draw : Z) (cert_path key_path : bytes) (w : W)
    : panics (result CertError CertPair * W) :=
  if exists_path cert_path w && exists_path key_path w then
    Some (load_from_files cert_path key_path w)
  else
    pair ← generate_self_signed draw;
    Some (save_pair cert_path key_path pair w).

(** ** [acme.rs] *)

Record CertifiedKey := mkCertified { ck_certs : list bytes; ck_key : bytes }.

Definition load_certified_key (cert_path key_path : bytes) : C W CertifiedKey :=
  cert_pem ← read_bytes cert_path;
  key_pem ← read_bytes key_path;
  certs ← of_option BadPem (pem_certs cert_pem);
  key_der ← lift_result (pem_to_key_der key_pem);
  _ ← of_option BadKey (if any_supported_type key_der then Some tt else None);
  mret (mkCertified certs key_der).

Definition generate_placeholder_key (draw : Z) (domain : bytes) : C W CertifiedKey :=
  '(cert, key) ← of_option GenerateFailed (self_signed draw [domain]);
  _ ← of_option BadKey (if any_supported_type key then Some tt else None);
  mret (mkCertified [cert] key).

Definition request_certificate (draw : Z) (domain cache_dir : bytes) : C W CertifiedKey :=
  '(cert, key) ← of_option GenerateFailed (self_signed draw [domain]);
  _ ← write_or_fail (path_join cache_dir (str "cert.pem")) (cert_to_pem cert);
  _ ← write_or_fail (path_join cache_dir (str "key.pem")) (key_to_pem key);
  _ ← of_option BadKey (if any_supported_type key then Some tt else None);
  mret (mkCertified [cert] key).

(** The cached key, or a placeholder. *)
Definition initial_key (draw : Z) (domain cert_path key_path : bytes) : C W CertifiedKey := fun w =>
  if exists_path cert_path w && exists_path key_path w then
    match load_certified_key cert_path key_path w with
    | (Ok key, w) => (Ok key, w)
    | (Err _, w) => generate_placeholder_key draw domain w
    end
  else generate_placeholder_key draw domain w.

(** The key the resolver starts with. *)
Definition AcmeCertResolver_new (draw : Z) (domain acme_dir : bytes) : C W CertifiedKey :=
  _ ← mkdir_or_fail acme_dir;
  initial_key draw domain (path_join acme_dir (str "cert.pem")) (path_join acme_dir (str "key.pem")).

Definition SIXTY_DAYS : Z := 60 * 24 * 3600 * 10 ^ 9.
Definition TWELVE_HOURS : Z := 12 * 3600 * 10 ^ 9.

Definition needs_renewal (cert_path key_path : bytes) (w : W) : bool :=
  match (load_certified_key cert_path key_path w).1 with
  | Ok _ =>
      match modified cert_path w with
      | Some m => SIXTY_DAYS <? sat_sub (now w) m
      | None => false
      end
  | Err _ => true
  end.

(** Request, and swap the key in when that succeeds. *)
Definition renew (draw : Z) (domain cache_dir : bytes) (key : CertifiedKey) (w : W) : CertifiedKey * W :=
  match request_certificate draw domain cache_dir w with
  | (Ok certified_key, w) => (certified_key, w)
  | (Err _, w) => (key, w)
  end.

(** [run_acme_renewal] up to its loop, and one turn of the loop. *)
Definition renewal_start (draw : Z) (domain cache_dir : bytes) (key : CertifiedKey) (w : W)
    : CertifiedKey * W :=
  if negb (exists_path (path_join cache_dir (str "cert.pem")) w)
  then renew draw domain cache_dir key w else (key, w).
Definition renewal_tick (draw : Z) (domain cache_dir : bytes) (key : CertifiedKey) (w : W)
    : CertifiedKey * W :=
  if needs_renewal (path_join cache_dir (str "cert.pem")) (path_join cache_dir (str "key.pem")) w
  then renew draw domain cache_dir key w else (key, w).
End files.

(** ** What the libraries and the file system do *)

(** What is written as PEM is read back; [of_key]: the certificate is for this key. *)
Class PkiOk `{Pki} := {
  of_key : bytes -> bytes -> Prop;
  self_signed_law draw names cert key : self_signed draw names = Some (cert, key) ->
    of_key cert key /\ any_supported_type key = true;
  one_key cert key key' : of_key cert key -> of_key cert key' -> key = key';
  cert_pem_law cert : pem_certs (cert_to_pem cert) = Some [cert] /\ utf8_valid (cert_to_pem cert) = true;
  key_pem_law key : pem_private_key (key_to_pem key) = Some (Some key) /\ utf8_valid (key_to_pem key) = true
}.

(** A write that succeeds makes the file exist with these contents, modified meanwhile;
    no write touches other files, and no operation goes back in time. *)
Class PathsOk (W : Type) `{Files W, Paths W} := {
  write_law p d (w w' : W) : write_file p d w = (true, w') ->
    read_file p w' = Some d /\ exists_path p w' = true /\
    exists m, modified p w' = Some m /\ now w <= m <= now w';
  write_other p d (w : W) ok w' q : write_file p d w = (ok, w') -> q <> p ->
    read_file q w' = read_file q w /\ exists_path q w' = exists_path q w /\
    modified q w' = modified q w;
  write_now p d (w : W) : now w <= now (write_file p d w).2;
  mkdir_law p (w : W) q : read_file q (mkdir_all p w).2 = read_file q w;
  mkdir_exists p (w : W) q : exists_path q w = true -> exists_path q (mkdir_all p w).2 = true
}.

Section pair.
Context {W : Type} `{PkiOk, PathsOk W}.

Lemma load_written cp kp cert key (w : W) :
  read_file cp w = Some (cert_to_pem cert) -> read_file kp w = Some (key_to_pem key) ->
  load_from_files cp kp w = (Ok (mkPair cert key (cert_to_pem cert) (key_to_pem key)), w).
Proof.
  intros Hc Hk. destruct (cert_pem_law cert) as [Hpc Hvc], (key_pem_law key) as [Hpk Hvk].
  unfold load_from_files, read_text, mbind, C_bind. rewrite Hc, Hvc, Hk, Hvk.
  unfold lift_result, pem_to_cert_der, pem_to_key_der. by rewrite Hpc, Hpk.
Qed.

Lemma load_certified_written cp kp cert key (w : W) : any_supported_type key = true ->
  read_file cp w = Some (cert_to_pem cert) -> read_file kp w = Some (key_to_pem key) ->
  load_certified_key cp kp w = (Ok (mkCertified [cert] key), w).
Proof.
  intros Hs Hc Hk. destruct (cert_pem_law cert) as [Hpc _], (key_pem_law key) as [Hpk _].
  unfold load_certified_key, read_bytes, mbind, C_bind. rewrite Hc, Hk. simpl.
  rewrite Hpc. simpl. unfold pem_to_key_der. rewrite Hpk. simpl. by rewrite Hs.
Qed.

(** Two writes one after the other. *)
Lemma write_pair cp kp c k (w : W) (r : result CertError unit) w' : cp <> kp ->
  (write_or_fail cp c ≫= fun _ => write_or_fail kp k) w = (r, w') ->
  now w <= now w' /\
  (r = Ok tt -> read_file cp w' = Some c /\ read_file kp w' = Some k /\
     exists_path cp w' = true /\ exists_path kp w' = true /\
     exists m, modified cp w' = Some m /\ now w <= m <= now w').
Proof.
  intros Hne. unfold mbind, C_bind, write_or_fail.
  pose proof (write_now cp c w) as Hn1. destruct (write_file cp c w) as [ok1 w1] eqn:E1. cbn [snd] in Hn1.
  destruct ok1; [|by intros [= <- <-]]. pose proof (write_now kp k w1) as Hn2.
  destruct (write_file kp k w1) as [ok2 w2] eqn:E2. cbn [snd] in Hn2.
  destruct (write_other _ _ _ _ _ cp E2) as (Hr & He & Hm); [done|].
  destruct (write_law _ _ _ _ E1) as (Hr1 & He1 & m & Hm1 & Hle).
  destruct ok2; intros [= <- <-]; (split; [lia|]); [|done]. intros _.
  destruct (write_law _ _ _ _ E2) as (Hr2 & He2 & _). rewrite Hr, He, Hm.
  split_and!; [done..|]. exists m. split; [done|lia].
Qed.

Lemma save_pair_written cp kp pair (w w' : W) p : cp <> kp ->
  save_pair cp kp pair w = (Ok p, w') ->
  p = pair /\ read_file cp w' = Some (cert_pem pair) /\ read_file kp w' = Some (key_pem pair) /\
  exists_path cp w' = true /\ exists_path kp w' = true.
Proof.
  intros Hne. unfold save_pair. unfold mbind, C_bind at 1.
  destruct (make_parent cp w) as [[[]|e] w0]; [|done].
  intros Hrun. pose proof (write_pair cp kp (cert_pem pair) (key_pem pair) w0) as Hw.
  unfold mbind, C_bind in Hrun, Hw. destruct (write_or_fail cp _ w0) as [[[]|] w1]; [|done].
  destruct (write_or_fail kp _ w1) as [[[]|] w2]; [|done].
  unfold mret, C_ret in Hrun. simplify_eq.
  destruct (Hw _ _ Hne eq_refl) as [_ Hok]. destruct Hok as (? & ? & ? & ? & _); done.
Qed.
End pair.

(** ** The cache of the resolver *)

Section cache.
Context {W : Type} `{PkiOk, PathsOk W} (domain dir : bytes).

Definition cache_cert : bytes := path_join dir (str "cert.pem").
Definition cache_key : bytes := path_join dir (str "key.pem").

(** A restart would load the key the resolver serves. *)
Definition coherent (key : CertifiedKey) (w : W) : Prop :=
  load_certified_key cache_cert cache_key w = (Ok key, w).

Lemma path_join_inj f g : path_join dir f = path_join dir g -> f = g.
Proof.
  unfold path_join. destruct (rev dir) as [|b r]; [done|]. case_bool_decide.
  - apply app_inv_head.
  - intros Heq%app_inv_head. by injection Heq.
Qed.
Lemma cache_names : cache_cert <> cache_key.
Proof. intros Heq%path_join_inj. by vm_compute in Heq. Qed.

Lemma load_certified_frame cp kp (w w' : W) :
  read_file cp w' = read_file cp w -> read_file kp w' = read_file kp w ->
  (load_certified_key cp kp w').1 = (load_certified_key cp kp w).1 /\
  (load_certified_key cp kp w').2 = w'.
Proof.
  intros Hc Hk. unfold load_certified_key, read_bytes, mbind, C_bind. rewrite Hc, Hk.
  destruct (read_file cp w); [|done]. simpl. destruct (read_file kp w); [|done]. simpl.
  destruct (pem_certs _); [|done]. simpl. destruct (pem_to_key_der _) as [k|]; [|done]. simpl.
  by destruct (any_supported_type k).
Qed.
Lemma coherent_frame key (w w' : W) :
  read_file cache_cert w' = read_file cache_cert w -> read_file cache_key w' = read_file cache_key w ->
  coherent key w -> coherent key w'.
Proof.
  unfold coherent. intros Hc Hk Hw. destruct (load_certified_frame _ _ _ _ Hc Hk) as [H1' H2'].
  destruct (load_certified_key cache_cert cache_key w') as [r v]. cbn [fst snd] in *. subst.
  by rewrite Hw.
Qed.

(** A request that succeeds brings resolver and cache into agreement. *)
Lemma request_coherent draw (w w' : W) key :
  request_certificate draw domain dir w = (Ok key, w') ->
  coherent key w' /\ exists m, modified cache_cert w' = Some m /\ now w <= m <= now w'.
Proof.
  unfold request_certificate, of_option. unfold mbind at 1, C_bind at 1.
  destruct (self_signed draw [domain]) as [[c k]|] eqn:Es; [|done]. simpl ok_or. cbv beta iota.
  pose proof (write_pair (path_join dir (str "cert.pem")) (path_join dir (str "key.pem"))
    (cert_to_pem c) (key_to_pem k) w) as Hw.
  unfold mbind, C_bind in Hw |- *. destruct (write_or_fail _ (cert_to_pem c) w) as [[[]|] w1]; [|done].
  destruct (write_or_fail _ (key_to_pem k) w1) as [[[]|] w2]; [|done].
  destruct (self_signed_law _ _ _ _ Es) as [_ Hs]. rewrite Hs. unfold mret, C_ret. intros [= <- <-].
  destruct (Hw _ _ cache_names eq_refl) as [_ Hok]. destruct Hok as (Hc & Hk & _ & _ & Hm); [done|].
  split; [by apply load_certified_written|exact Hm].
Qed.

Lemma renewal_needed key (w : W) : coherent key w ->
  needs_renewal cache_cert cache_key w =
    match modified cache_cert w with Some m => SIXTY_DAYS <? sat_sub (now w) m | None => false end.
Proof. unfold coherent, needs_renewal. by intros ->. Qed.

(** Key, world, and the time of the last tick. A wait lets time pass, at most to the next
    tick; a tick makes the request it finds necessary, and the request succeeds. *)
Inductive renewal_step : CertifiedKey * W * Z -> CertifiedKey * W * Z -> Prop :=
  | step_wait key w last w' :
      read_file cache_cert w' = read_file cache_cert w -> read_file cache_key w' = read_file cache_key w ->
      modified cache_cert w' = modified cache_cert w -> now w <= now w' <= last + TWELVE_HOURS ->
      renewal_step (key, w, last) (key, w', last)
  | step_tick draw key w last :
      (needs_renewal cache_cert cache_key w = true ->
       is_ok (request_certificate draw domain dir w).1 = true) ->
      renewal_step (key, w, last) (renewal_tick draw domain dir key w, now w).

Definition fresh_cache (s : CertifiedKey * W * Z) : Prop :=
  let '(key, w, last) := s in
  coherent key w /\ exists m, modified cache_cert w = Some m /\ last - m <= SIXTY_DAYS.

Lemma fresh_cache_step s s' : renewal_step s s' -> fresh_cache s -> fresh_cache s'.
Proof.
  intros [key w last w' Hc Hk Hm Hn|draw key w last Hreq] [Hco (m & Em & Hle)].
  - split; [by eapply coherent_frame|]. exists m. by rewrite Hm.
  - unfold renewal_tick. fold cache_cert cache_key. destruct (needs_renewal _ _ w) eqn:En.
    + specialize (Hreq eq_refl). unfold renew.
      destruct (request_certificate draw domain dir w) as [[key'|e] w'] eqn:Er; [|done].
      destruct (request_coherent _ _ _ _ Er) as [Hco' (m' & Em' & Hle')].
      split; [done|]. exists m'. split; [done|]. unfold SIXTY_DAYS. lia.
    + split; [done|]. exists m. split; [done|]. rewrite (renewal_needed _ _ Hco), Em in En. boolify.
      unfold sat_sub in En. lia.
Qed.
End cache.

(** ** Theorems *)

(** The key cannot be replaced: what the next start finds. *)
Lemma half_written {W} `{PkiOk, PathsOk W} draw cp kp old k cert key (w w0 w1 w' : W) :
  cp <> kp -> exists_path cp w = false -> utf8_valid old = true -> pem_private_key old = Some (Some k) ->
  self_signed draw [str "redpill-quic"] = Some (cert, key) -> key <> k ->
  make_parent cp w = (Ok tt, w0) -> write_file cp (cert_to_pem cert) w0 = (true, w1) ->
  write_file kp (key_to_pem key) w1 = (false, w') ->
  read_file kp w' = Some old -> exists_path kp w' = true ->
  load_or_generate draw cp kp w = Some (Err CertIo, w') /\
  (forall draw', load_or_generate draw' cp kp w' = Some (Ok (mkPair cert k (cert_to_pem cert) old), w')) /\
  ~ of_key cert k.
Proof.
  intros Hne Hec Hv Hp Es Hnk Hmk Hw1 Hw2 Hr' He'.
  destruct (write_law _ _ _ _ Hw1) as (Hrc & Hecc & _).
  destruct (write_other _ _ _ _ _ cp Hw2) as (Hrc' & Hecc' & _); [done|]. split_and!.
  - unfold load_or_generate, generate_self_signed. rewrite Hec, Es. cbn [mbind option_bind andb].
    unfold save_pair, mbind, C_bind. rewrite Hmk. unfold write_or_fail. simpl. by rewrite Hw1, Hw2.
  - intros draw'. unfold load_or_generate. rewrite Hecc', Hecc, He'. simpl. f_equal.
    unfold load_from_files, read_text, mbind, C_bind. rewrite Hrc', Hrc, Hr', Hv.
    destruct (cert_pem_law cert) as [Hpc ->].
    unfold lift_result, pem_to_cert_der, pem_to_key_der. by rewrite Hpc, Hp.
  - intros Hk. apply Hnk. eapply one_key; [|exact Hk]. by eapply self_signed_law.
Qed.

(** [C16] A certificate survives restarts. When [load_or_generate] has given a pair, every later
    start gives the same one and writes nothing, and a generated certificate belongs to its
    key. The two files are not written together, though: when only the certificate was missing and the
    key cannot be replaced, the start fails and leaves a new certificate beside the old key,
    and every later start loads this pair, which does not belong together. *)
Theorem certificate_survives_restart {W} `{PkiOk, PathsOk W} draw cp kp (w w' : W) :
  cp <> kp ->
  (forall pair, load_or_generate draw cp kp w = Some (Ok pair, w') ->
     (forall draw', load_or_generate draw' cp kp w' = Some (Ok pair, w')) /\
     (if exists_path cp w && exists_path kp w then w' = w
      else of_key (cert_der pair) (key_der pair))) /\
  (forall old k w0 w1, exists_path cp w = false -> read_file kp w = Some old ->
     exists_path kp w = true -> utf8_valid old = true -> pem_private_key old = Some (Some k) ->
     (forall cert key, self_signed draw [str "redpill-quic"] = Some (cert, key) -> key <> k ->
        make_parent cp w = (Ok tt, w0) ->
        write_file cp (cert_to_pem cert) w0 = (true, w1) ->
        write_file kp (key_to_pem key) w1 = (false, w') ->
        read_file kp w' = Some old -> exists_path kp w' = true ->
        load_or_generate draw cp kp w = Some (Err CertIo, w') /\
        (forall draw', load_or_generate draw' cp kp w' =
           Some (Ok (mkPair cert k (cert_to_pem cert) old), w')) /\ ~ of_key cert k)).
Proof.
  intros Hne. split.
  - intros pair. unfold load_or_generate at 1. destruct (exists_path cp w && exists_path kp w) eqn:Ee.
    + intros [= Hl]. assert (w' = w) as ->.
      { revert Hl. unfold load_from_files, read_text, lift_result, mbind, C_bind, mret, C_ret.
        repeat case_match; intros; simplify_eq; done. }
      split; [|done]. intros draw'. unfold load_or_generate. by rewrite Ee, Hl.
    + unfold generate_self_signed. destruct (self_signed _ _) as [[c k]|] eqn:Es; [|done].
      cbn [mbind option_bind]. intros [= Hs%save_pair_written]; [|done].
      destruct Hs as (-> & Hc & Hk & Hec & Hek). simpl in *. split.
      * intros draw'. unfold load_or_generate. rewrite Hec, Hek. simpl. by rewrite (load_written _ _ c k).
      * by eapply self_signed_law.
  - intros old k w0 w1 Hec Hr He Hv Hp cert key Es Hnk Hmk Hw1 Hw2 Hr' He'. by eapply half_written.
Qed.

(** [C17] The renewal task keeps resolver and cache together. From a start that loaded the cached
    pair or obtained one, in every sequence of waits and ticks whose requests succeed, the
    key served is the one a restart would load, and when the last tick came the certificate
    was at most 60 days old; so between ticks it is never older than 60 days and 12 hours. *)
Theorem acme_cache_coherent {W} `{PkiOk, PathsOk W} domain dir (s s' : CertifiedKey * W * Z) :
  fresh_cache dir s -> rtc (renewal_step domain dir) s s' ->
  let '(key, w, last) := s' in
  coherent dir key w /\
  exists m, modified (cache_cert dir) w = Some m /\ last - m <= SIXTY_DAYS /\
    (now w <= last + TWELVE_HOURS -> now w - m <= SIXTY_DAYS + TWELVE_HOURS).
Proof.
  intros Hf Hr. assert (fresh_cache dir s') as Hf'.
  { induction Hr as [|x y z Hs _ IH]; [done|]. by eapply IH, fresh_cache_step. }
  destruct s' as [[key w] last]. destruct Hf' as [Hc (m & Em & Hm)]. split; [done|].
  exists m. split_and!; [done..|]. lia.
Qed.

(** How the resolver starts. With no certificate in the cache a request is made at once,
    and when it succeeds its result is served and cached. A cached pair that loads is served; a
    file with no certificate at all loads, as an empty chain. But a certificate file that is there and does
    not load (damaged, or its key missing) gets a self-signed placeholder and no request: the
    task sees only that the file exists, and the first tick is 12 hours away. *)
Theorem acme_start_spec {W} `{PkiOk, PathsOk W} draw draw' domain dir (w w1 : W) key :
  AcmeCertResolver_new draw domain dir w = (Ok key, w1) ->
  let loads := (load_certified_key (cache_cert dir) (cache_key dir) w1).1 in
  (exists_path (cache_cert dir) w1 = false -> forall key' w', 
     request_certificate draw' domain dir w1 = (Ok key', w') ->
     renewal_start draw' domain dir key w1 = (key', w') /\ coherent dir key' w') /\
  (exists_path (cache_cert dir) w1 = true -> renewal_start draw' domain dir key w1 = (key, w1) /\
   match loads with
   | Ok k => exists_path (cache_key dir) w1 = true -> key = k /\ coherent dir key w1
   | Err _ => generate_placeholder_key draw domain w1 = (Ok key, w1) /\
              needs_renewal (cache_cert dir) (cache_key dir) w1 = true
   end) /\
  (forall c p k, read_file (cache_cert dir) w1 = Some c -> pem_certs c = Some [] ->
     read_file (cache_key dir) w1 = Some p -> pem_private_key p = Some (Some k) ->
     any_supported_type k = true -> loads = Ok (mkCertified [] k)).
Proof.
  unfold AcmeCertResolver_new, mbind, C_bind. destruct (mkdir_or_fail dir w) as [[[]|] w0]; [|done].
  unfold initial_key. fold (cache_cert dir) (cache_key dir). intros Hrun.
  assert (forall r v, generate_placeholder_key draw domain w0 = (r, v) -> v = w0) as Hpl.
  { intros r v. unfold generate_placeholder_key, of_option, mbind, C_bind, mret, C_ret.
    repeat case_match; intros; simplify_eq; done. }
  destruct (load_certified_frame (cache_cert dir) (cache_key dir) w0 w0) as [_ Hl]; [done..|].
  destruct (load_certified_key (cache_cert dir) (cache_key dir) w0) as [r v] eqn:El. simpl in Hl. subst v.
  assert (w1 = w0) as ->.
  { destruct (_ && _); [destruct r|]; [by simplify_eq|by eapply Hpl..]. }
  unfold renewal_start. fold (cache_cert dir). cbv zeta. split_and!; [|rewrite El; cbn [fst]|].
  - intros -> key' w' Hreq. simpl. unfold renew. rewrite Hreq. split; [done|].
    by eapply request_coherent.
  - intros He. rewrite He. split; [done|]. rewrite He in Hrun. destruct r as [k|e].
    + intros Hek. rewrite Hek in Hrun. simpl in Hrun. simplify_eq. done.
    + unfold needs_renewal. rewrite El. split; [|done]. by destruct (true && _).
  - intros c p k Hc Hpc Hk Hpk Hs. unfold load_certified_key, read_bytes, mbind, C_bind.
    rewrite Hc, Hk. simpl. rewrite Hpc. simpl. unfold pem_to_key_der. rewrite Hpk. simpl. by rewrite Hs.
Qed.

(** *** A small authority and disk for the witnesses *)

Section witnesses.

Definition two_letters (b : byte) : bytes := [z2b (65 + b2z b / 16); z2b (65 + b2z b mod 16)].
Fixpoint from_letters (s : bytes) : option bytes :=
  match s with
  | [] => Some []
  | [_] => None
  | a :: b :: r => t ← from_letters r; Some (z2b ((b2z a - 65) * 16 + (b2z b - 65)) :: t)
  end.

Lemma two_letters_ok b :
  z2b ((b2z (z2b (65 + b2z b / 16)) - 65) * 16 + (b2z (z2b (65 + b2z b mod 16)) - 65)) = b /\
  utf8_valid (two_letters b) = true.
Proof. destruct b; vm_compute; done. Qed.

Lemma from_to_letters s : from_letters (s ≫= two_letters) = Some s.
Proof.
  induction s as [|b s IH]; [done|].
  change ((b :: s) ≫= two_letters) with (two_letters b ++ (s ≫= two_letters)).
  cbn [two_letters app from_letters]. rewrite IH. cbn [mbind option_bind].
  by rewrite (proj1 (two_letters_ok b)).
Qed.

Lemma letters_valid s : utf8_valid (s ≫= two_letters) = true.
Proof.
  induction s as [|b s IH]; [done|].
  change ((b :: s) ≫= two_letters) with (two_letters b ++ (s ≫= two_letters)).
  destruct b; exact IH.
Qed.

#[local] Instance toy_pki : Pki := {
  self_signed draw names := Some ([z2b draw], [z2b draw]);
  cert_to_pem c := x21 :: (c ≫= two_letters);
  key_to_pem k := k ≫= two_letters;
  pem_certs p := match p with [] => Some [] | _ :: r => c ← from_letters r; Some [c] end;
  pem_private_key p := k ← from_letters p; Some (Some k);
  any_supported_type k := true
}.
#[local] Instance toy_pki_ok : PkiOk.
Proof.
  refine {| of_key cert key := cert = key |}.
  - intros draw names cert key [= <- <-]. done.
  - intros. congruence.
  - intros cert. split; [|apply letters_valid]. unfold pem_certs, cert_to_pem, toy_pki.
    by rewrite from_to_letters.
  - intros key. split; [|apply letters_valid]. unfold pem_private_key, key_to_pem, toy_pki.
    by rewrite from_to_letters.
Defined.

(** Files with their modification time; some cannot be written. *)
Record Disk := mkDisk { disk_files : gmap bytes (bytes * Z); disk_locked : list bytes; disk_now : Z }.

#[local] Instance disk_io : Files Disk := {
  read_file p w := fst <$> disk_files w !! p;
  write_file p d w :=
    if decide (p ∈ disk_locked w) then (false, w)
    else (true, mkDisk (<[p := (d, disk_now w)]> (disk_files w)) (disk_locked w) (disk_now w));
  remove_file p w := (true, mkDisk (delete p (disk_files w)) (disk_locked w) (disk_now w))
}.
#[local] Instance disk_paths : Paths Disk := {
  exists_path p w := bool_decide (is_Some (disk_files w !! p));
  mkdir_all _ w := (true, w);
  modified p w := snd <$> disk_files w !! p;
  now := disk_now
}.
#[local] Instance disk_ok : PathsOk Disk.
Proof.
  split; unfold write_file, disk_io.
  - intros p d w w'. case_decide; [done|]. intros [= <-]. simpl. rewrite lookup_insert_eq. simpl.
    split_and!; [done|done|]. exists (disk_now w). split; [done|lia].
  - intros p d w ok w' q. case_decide; intros [= <- <-]; [done|]. intros Hne. simpl.
    by rewrite lookup_insert_ne.
  - intros p d w. case_decide; simpl; lia.
  - done.
  - done.
Qed.

Definition ex_cert_path : bytes := str "/etc/redpill/quic-cert.pem".
Definition ex_key_path : bytes := str "/etc/redpill/quic-key.pem".
Definition ex_disk : Disk := mkDisk {[ex_key_path := ([x41; x48], 0)]} [] 5.
Definition ex_locked : Disk := mkDisk {[ex_key_path := ([x41; x48], 0)]} [ex_key_path] 5.
Definition ex_pair : CertPair := mkPair [x09] [x09] [x21; x41; x4a] [x41; x4a].

Definition ex_generated : panics (result CertError CertPair * Disk) :=
  load_or_generate 9 ex_cert_path ex_key_path ex_disk.
Definition ex_half : Disk := mkDisk
  (<[ex_cert_path := ([x21; x41; x4a], 5)]> (disk_files ex_locked)) [ex_key_path] 5.


(** The key alone was there: a new pair, which the next start loads; and with a key file that
    cannot be replaced, the new certificate beside the old key. *)
Lemma certificate_survives_restart_witness :
  (exists w', ex_generated = Some (Ok ex_pair, w') /\
     load_or_generate 1 ex_cert_path ex_key_path w' = Some (Ok ex_pair, w')) /\
  load_or_generate 1 ex_cert_path ex_key_path ex_half =
    Some (Ok (mkPair [x09] [x07] [x21; x41; x4a] [x41; x48]), ex_half) /\ ~ of_key [x09] [x07].
Proof.
  assert (Hne : ex_cert_path <> ex_key_path) by discriminate. split.
  - destruct ex_generated as [[r w']|] eqn:E; [|discriminate E].
    destruct (certificate_survives_restart 9 ex_cert_path ex_key_path ex_disk w' Hne) as [Hl _].
    assert (r = Ok ex_pair) as ->.
    { apply (f_equal (option_map fst)) in E. vm_compute in E. injection E as <-. reflexivity. }
    exists w'. split; [reflexivity|]. destruct (Hl ex_pair E) as [Hd _]. apply Hd.
  - destruct (certificate_survives_restart 9 ex_cert_path ex_key_path ex_locked ex_half Hne) as [_ Hh].
    destruct (Hh [x41; x48] [x07] ex_locked ex_half) with (cert := [x09]) (key := [x09]) as (_ & Hd & Hk);
      try (vm_compute; reflexivity); [discriminate|].
    exact (conj (Hd 1) Hk).
Defined.

Definition ex_dir : bytes := str "/acme".
Definition ex_now : Z := 100 * 24 * 3600 * 10 ^ 9.
(** A pair from the beginning of time, loaded and then renewed. *)
Definition ex_acme (t : Z) : Disk :=
  mkDisk {[cache_cert ex_dir := ([x21; x41; x48], 0); cache_key ex_dir := ([x41; x48], 0)]} [] t.

Lemma acme_cache_coherent_witness :
  let '(key, w) := renewal_tick 9 (str "vpn") ex_dir (mkCertified [[x07]] [x07]) (ex_acme ex_now) in
  key = mkCertified [[x09]] [x09] /\ coherent ex_dir key w.
Proof.
  assert (Hf : fresh_cache ex_dir (mkCertified [[x07]] [x07], ex_acme ex_now, SIXTY_DAYS)).
  { split; [vm_compute; reflexivity|]. exists 0. split; [vm_compute; reflexivity|vm_compute; discriminate]. }
  pose proof (step_tick (str "vpn") ex_dir 9 (mkCertified [[x07]] [x07]) (ex_acme ex_now) SIXTY_DAYS) as Hs.
  destruct (renewal_tick 9 (str "vpn") ex_dir (mkCertified [[x07]] [x07]) (ex_acme ex_now)) as [key w] eqn:E.
  pose proof (acme_cache_coherent (str "vpn") ex_dir _ (key, w, now (ex_acme ex_now)) Hf) as [Hc _].
  { apply rtc_once. apply Hs. intros _. vm_compute. reflexivity. }
  split; [|exact Hc]. apply (f_equal fst) in E. vm_compute in E. exact (eq_sym E).
Defined.

(** A certificate whose key is missing. *)
Definition ex_torn : Disk := mkDisk {[cache_cert ex_dir := ([x21; x41; x48], 0)]} [] 5.

Lemma acme_start_spec_witness :
  renewal_start 9 (str "vpn") ex_dir (mkCertified [[x03]] [x03]) ex_torn =
    (mkCertified [[x03]] [x03], ex_torn).
Proof.
  destruct (acme_start_spec 3 9 (str "vpn") ex_dir ex_torn ex_torn (mkCertified [[x03]] [x03])) as (_ & Hp & _).
  - vm_compute. reflexivity.
  - apply Hp. vm_compute. reflexivity.
Defined.
End witnesses.
