(* ===== verification/Profile.v ===== *)
(** What an observer sees of a camouflaged client: browser profiles ([browser_profile.rs]),
    the TLS configuration built from them ([fingerprint.rs]), the verifier that pins the
    server's certificate ([camouflage.rs]), the QUIC transport parameters
    ([quic_camouflaged.rs], [quic_raw.rs]) and the constant congestion window
    ([noop_cc.rs]).

    rustls and quinn are the environment's: [Tls] is what the sources call. Code that draws
    random numbers is in the monad [Draws] over what the generator gives, one number for
    every draw. *)

From S2P Require Import Prelude Text Route Server Config Certs Manager.

(** ** Random numbers *)

(** What [rand::random] will give, in order. *)
Abbreviation Rng := (Datatypes.nat -> Z).

(** Code that may draw, and may panic. *)
Definition Draws (A : Type) : Type := Rng -> panics (A * Rng).
#[export] Instance draws_ret : MRet Draws := fun A a g => Some (a, g).
#[export] Instance draws_bind : MBind Draws := fun A B f m g => '(a, g) ← m g; f a g.

Definition random : Draws Z := fun g => Some (g 0%nat, fun n => g (S n)).
Definition no_draw {A} (m : panics A) : Draws A := fun g => a ← m; Some (a, g).

(** ** Profiles *)

Inductive BrowserProfile := Chrome | Firefox | Safari | Random.
#[export] Instance profile_eq_dec : EqDecision BrowserProfile.
Proof. solve_decision. Defined.

(** [rustls::SupportedCipherSuite], [SupportedKxGroup]: those named here, and others. *)
Inductive CipherSuite :=
  | TLS13_AES_128_GCM_SHA256 | TLS13_AES_256_GCM_SHA384 | TLS13_CHACHA20_POLY1305_SHA256
  | TLS12_SUITE (id : Z).
Inductive KxGroup := X25519 | SECP256R1 | SECP384R1 | OTHER_GROUP (id : Z).
#[export] Instance suite_eq_dec : EqDecision CipherSuite.
Proof. solve_decision. Defined.
#[export] Instance group_eq_dec : EqDecision KxGroup.
Proof. solve_decision. Defined.

(** [to_lowercase] on ASCII letters. The names compared with have no letter that is the lower
    case of a character outside ASCII. *)
Definition ascii_lower (b : byte) : byte :=
  let z := b2z b in if (65 <=? z) && (z <=? 90) then z2b (z + 32) else b.

Definition parse_profile (s : bytes) : BrowserProfile :=
  let l := ascii_lower <$> s in
  if decide (l = str "chrome") then Chrome
  else if decide (l = str "firefox") then Firefox
  else if decide (l = str "safari") then Safari
  else if decide (l = str "random") then Random
  else Chrome.

Definition resolve (p : BrowserProfile) : Draws BrowserProfile :=
  if decide (p = Random) then
    let profiles := [Chrome; Firefox; Safari] in
    draw ← random;
    let idx := draw mod zlen profiles in
    no_draw (profiles !! Z.to_nat idx)
  else mret p.

(** A [Random] profile resolves again, with a draw of its own, at every call; what [resolve]
    gives is not [Random]. *)
Definition on_resolved {A} (f : BrowserProfile -> panics A) (p : BrowserProfile) : Draws A :=
  if decide (p = Random) then p ← resolve p; no_draw (f p) else no_draw (f p).

Definition cipher_suites (p : BrowserProfile) : Draws (list CipherSuite) :=
  on_resolved (fun p => match p with
    | Chrome => Some [TLS13_AES_128_GCM_SHA256; TLS13_AES_256_GCM_SHA384; TLS13_CHACHA20_POLY1305_SHA256]
    | Firefox => Some [TLS13_AES_128_GCM_SHA256; TLS13_CHACHA20_POLY1305_SHA256; TLS13_AES_256_GCM_SHA384]
    | Safari => Some [TLS13_AES_128_GCM_SHA256; TLS13_AES_256_GCM_SHA384; TLS13_CHACHA20_POLY1305_SHA256]
    | Random => None
    end) p.

Definition kx_groups (p : BrowserProfile) : Draws (list KxGroup) :=
  on_resolved (fun p => match p with
    | Chrome => Some [X25519; SECP256R1; SECP384R1]
    | Firefox => Some [X25519; SECP256R1; SECP384R1]
    | Safari => Some [SECP256R1; X25519; SECP384R1]
    | Random => None
    end) p.

Record QuicTransportParams := mkParams {
  initial_max_data : Z;
  initial_max_stream_data_bidi_local : Z; initial_max_stream_data_bidi_remote : Z;
  initial_max_stream_data_uni : Z;
  initial_max_streams_bidi : Z; initial_max_streams_uni : Z;
  (** milliseconds *)
  p_max_idle_timeout : Z;
  max_udp_payload_size : Z
}.

Definition MB : Z := 1024 * 1024.

Definition quic_transport_params (p : BrowserProfile) : Draws QuicTransportParams :=
  on_resolved (fun p => match p with
    | Chrome => Some (mkParams (10 * MB) (6 * MB) (6 * MB) (6 * MB) 100 100 30000 1350)
    | Firefox => Some (mkParams (16 * MB) (8 * MB) (8 * MB) (8 * MB) 128 128 30000 1472)
    | Safari => Some (mkParams (8 * MB) (4 * MB) (4 * MB) (4 * MB) 100 100 30000 1250)
    | Random => None
    end) p.

(** *** GREASE values ([u16]) *)

(** [draw]: a [u8] *)
Definition grease_value (draw : Z) : Z :=
  let nibble := draw mod 16 in
  Z.lor (Z.lor (Z.lor (wrap16 (Z.shiftl nibble 12)) (Z.shiftl 0x0A 8)) (Z.shiftl nibble 4)) 0x0A.

Definition GREASE_VALUES : list Z := [0x0A0A; 0x1A1A; 0x2A2A; 0x3A3A; 0x4A4A; 0x5A5A; 0x6A6A; 0x7A7A].
Definition grease_cipher_suite (draw : Z) : panics Z :=
  GREASE_VALUES !! Z.to_nat (draw mod zlen GREASE_VALUES).

(** ** Congestion control *)

Record NoopCc := mkNoop { window : Z }.
Inductive CcEvent := CongestionEvent (persistent : bool) (lost_bytes : Z) | MtuUpdate (new_mtu : Z).

Definition cc_build (w : Z) : NoopCc := mkNoop w.
Definition cc_event (c : NoopCc) (e : CcEvent) : NoopCc :=
  match e with CongestionEvent _ _ => c | MtuUpdate _ => c end.
Definition initial_window (c : NoopCc) : Z := window c.

(** ** QUIC transport configuration *)

(** [quinn::TransportConfig], the fields the sources set. Times in milliseconds. *)
Record TransportConfig := mkTransport {
  cc_window : Z; send_window : Z; datagram_receive_buffer_size : option Z;
  datagram_send_buffer_size : Z; receive_window : Z; stream_receive_window : Z;
  max_concurrent_bidi_streams : Z; max_concurrent_uni_streams : Z;
  initial_mtu : Z; min_mtu : Z; mtu_discovery : bool;
  keep_alive_interval : option Z; max_idle_timeout : option Z
}.

Definition VARINT_MAX : Z := 2 ^ 62 - 1.
(** [VarInt::from_u64(x).unwrap_or(VarInt::MAX)] *)
Definition varint (x : Z) : Z := if x <=? VARINT_MAX then x else VARINT_MAX.
(** [d.try_into().unwrap()]: an [IdleTimeout] is a [VarInt] of milliseconds. *)
Definition idle_timeout (ms : Z) : panics Z := if ms <=? VARINT_MAX then Some ms else None.

(** [d]: [TransportConfig::default()] *)
Definition build_transport_config (d : TransportConfig) : panics TransportConfig :=
  idle ← idle_timeout 30000;
  Some (mkTransport (16 * MB) (16 * MB) (Some (16 * MB)) (2 * MB) (receive_window d)
    (stream_receive_window d) (max_concurrent_bidi_streams d) (max_concurrent_uni_streams d)
    1400 1280 true (Some 10000) (Some idle)).

Definition build_camouflaged_transport_config (profile : BrowserProfile) : Draws TransportConfig :=
  params ← quic_transport_params profile;
  idle ← no_draw (idle_timeout (p_max_idle_timeout params));
  mret (mkTransport (16 * MB) (16 * MB) (Some (16 * MB)) (2 * MB)
    (varint (initial_max_data params)) (varint (initial_max_stream_data_bidi_local params))
    (varint (initial_max_streams_bidi params)) (varint (initial_max_streams_uni params))
    (max_udp_payload_size params) 1280 true (Some 10000) (Some idle)).

(** ** TLS *)

Record CryptoProvider := mkProvider { kx : list KxGroup; suites : list CipherSuite }.

Class Tls := {
  default_provider : CryptoProvider;
  sha256 : bytes -> bytes;
  (** [RootCertStore::add]: the certificate can be a trust anchor *)
  trust_anchor : bytes -> bool
}.

(** [CamouflageCertVerifier] *)
Record Verifier := mkVerifier { pinned_fingerprint : bytes; verifier_roots : list bytes }.

Record ClientConfig := mkClientConfig {
  provider : CryptoProvider; verifier : Verifier; alpn_protocols : list bytes; resumption : Z
}.

Inductive TlsError := NoUsableSuites | NoKxGroups | NoInitialSuite | BadRoot | BadCert (e : CertError).

Definition is_tls13 (s : CipherSuite) : bool := match s with TLS12_SUITE _ => false | _ => true end.

(** [builder_with_provider(..).with_protocol_versions(&[&TLS13])] *)
Definition with_tls13 (p : CryptoProvider) : result TlsError CryptoProvider :=
  if negb (existsb is_tls13 (suites p)) then Err NoUsableSuites
  else if decide (kx p = []) then Err NoKxGroups
  else Ok p.

(** [QuicClientConfig::try_from] *)
Definition quic_client_config (c : ClientConfig) : result TlsError ClientConfig :=
  if decide (TLS13_AES_128_GCM_SHA256 ∈ suites (provider c)) then Ok c else Err NoInitialSuite.

Section tls.
Context `{Tls}.

Definition build_crypto_provider (profile : BrowserProfile) : Draws CryptoProvider :=
  resolved ← resolve profile;
  groups ← kx_groups resolved;
  suites ← cipher_suites resolved;
  mret (mkProvider groups suites).
Definition chrome_crypto_provider : Draws CryptoProvider := build_crypto_provider Chrome.

Definition build_camouflaged_rustls_config_with_profile (v : Verifier)
    (profile : BrowserProfile) (enabled : bool) : Draws (result TlsError ClientConfig) :=
  provider ← (if enabled then build_crypto_provider profile else mret default_provider);
  mret (p ← with_tls13 provider; Ok (mkClientConfig p v [ALPN_H3] 256)).

Definition build_camouflaged_rustls_config (v : Verifier) (chrome_fingerprint : bool)
    : Draws (result TlsError ClientConfig) :=
  build_camouflaged_rustls_config_with_profile v Chrome chrome_fingerprint.

(** [CamouflageCertVerifier::new]; the inner verifier needs a root. *)
Definition CamouflageCertVerifier_new (pinned_cert : bytes) (roots : list bytes) : panics Verifier :=
  if decide (roots = []) then None else Some (mkVerifier (sha256 pinned_cert) roots).

(** [verify_server_cert]: the server name, the intermediates and the time are not looked at. *)
Definition verify_server_cert (v : Verifier) (end_entity : bytes) (intermediates : list bytes)
    (server_name : bytes) (now : Z) : bool :=
  bool_decide (sha256 end_entity = pinned_fingerprint v).

(** ** The connector *)

Context {W : Type} `{Pki, Files W}.

(** The pinned certificate, and the verifier made from it: the beginning of both connectors. *)
Definition load_verifier (cert_path : bytes) (w : W) : panics (result TlsError Verifier) :=
  match (read_text cert_path w).1 with
  | Err e => Some (Err (BadCert e))
  | Ok cert_pem =>
      match pem_to_cert_der cert_pem with
      | Err e => Some (Err (BadCert e))
      | Ok cert_der =>
          if negb (trust_anchor cert_der) then Some (Err BadRoot)
          else v ← CamouflageCertVerifier_new cert_der [cert_der]; Some (Ok v)
      end
  end.

(** [QuicCamouflagedConnector::build_client_config]: TLS, transport, SNI. *)
Definition build_client_config (g : Rng) (cert_path : bytes) (c : ClientCamouflageSection)
    (sni : SniCamouflage) (w : W)
    : panics (result TlsError (ClientConfig * TransportConfig * bytes) * SniCamouflage) :=
  v ← load_verifier cert_path w;
  match v with
  | Err e => Some (Err e, sni)
  | Ok v =>
      '(profile, g) ← resolve (parse_profile (browser_profile c)) g;
      '(rustls_config, g) ← build_camouflaged_rustls_config_with_profile v profile (chrome_fingerprint c) g;
      match rustls_config ≫= quic_client_config with
      | Err e => Some (Err e, sni)
      | Ok client_config =>
          '(transport, _) ← build_camouflaged_transport_config profile g;
          '(fake_sni, sni) ← next_sni sni;
          Some (Ok (client_config, transport, fake_sni), sni)
      end
  end.

(** The TLS configuration of [TcpRealityConnector::connect], and its server name. *)
Definition reality_tls (g : Rng) (cert_path : bytes) (camouflage : ClientCamouflageSection) (target : bytes) (w : W)
    : panics (result TlsError (ClientConfig * bytes)) :=
  v ← load_verifier cert_path w;
  match v with
  | Err e => Some (Err e)
  | Ok v =>
      '(rustls_config, _) ← build_camouflaged_rustls_config v (chrome_fingerprint camouflage) g;
      let sni_domain := default (str "www.google.com") (head (split_on (fun b => bool_decide (b = x3a)) target)) in
      Some (c ← rustls_config;
            Ok (mkClientConfig (provider c) (verifier c) [str "h2"; str "http/1.1"] (resumption c), sni_domain))
  end.
End tls.

(** ** Lemmas *)

Definition BROWSERS : list BrowserProfile := [Chrome; Firefox; Safari].
Definition SUITES : list CipherSuite :=
  [TLS13_AES_128_GCM_SHA256; TLS13_AES_256_GCM_SHA384; TLS13_CHACHA20_POLY1305_SHA256].
Definition GROUPS : list KxGroup := [X25519; SECP256R1; SECP384R1].

(** Numbers as the generator gives them. *)
Definition unsigned (g : Rng) : Prop := forall n, 0 <= g n.

Lemma resolve_browser (g : Rng) p : unsigned g ->
  exists b g', resolve p g = Some (b, g') /\ unsigned g' /\ b ∈ BROWSERS /\ (p <> Random -> b = p).
Proof.
  intros Hg. unfold resolve. case_decide as Hp.
  - pose proof (Z.mod_pos_bound (g 0%nat) 3 ltac:(lia)) as Hm.
    unfold mbind, draws_bind, random, no_draw. cbn [mbind option_bind].
    change (zlen [Chrome; Firefox; Safari]) with 3.
    destruct (lookup_total_panics BROWSERS (Z.to_nat (g 0%nat mod 3))) as [b Hb]; [simpl; lia|].
    exists b, (fun n => g (S n)). change [Chrome; Firefox; Safari] with BROWSERS. rewrite Hb.
    split; [done|]. split; [intros n; apply Hg|]. split; [by eapply list_elem_of_lookup_2|done].
  - exists p, g. split; [done|]. split; [done|]. split; [|done]. destruct p; [set_solver..|done].
Qed.

Lemma browser_cases b (P : BrowserProfile -> Prop) : b ∈ BROWSERS -> P Chrome -> P Firefox -> P Safari -> P b.
Proof. unfold BROWSERS. intros Hb. set_unfold in Hb. destruct Hb as [->|[->|[->|[]]]]; done. Qed.

(** What a profile says, on a resolved one. *)
Definition row {A} (d : A) (m : Draws A) : A := default d (fst <$> m (fun _ => 0)).
Definition suites_of (b : BrowserProfile) : list CipherSuite := row [] (cipher_suites b).
Definition groups_of (b : BrowserProfile) : list KxGroup := row [] (kx_groups b).
Definition params_of (b : BrowserProfile) : QuicTransportParams :=
  row (mkParams 0 0 0 0 0 0 0 0) (quic_transport_params b).

(** A browser is what it is, and nothing is drawn for it. *)
Lemma browser_tables (g : Rng) b : b ∈ BROWSERS ->
  resolve b g = Some (b, g) /\ cipher_suites b g = Some (suites_of b, g) /\
  kx_groups b g = Some (groups_of b, g) /\ quic_transport_params b g = Some (params_of b, g).
Proof. intros Hb. by eapply (browser_cases b); [done|..]. Qed.

Lemma browser_provider b : b ∈ BROWSERS ->
  suites_of b ≡ₚ SUITES /\ groups_of b ≡ₚ GROUPS /\
  with_tls13 (mkProvider (groups_of b) (suites_of b)) = Ok (mkProvider (groups_of b) (suites_of b)) /\
  TLS13_AES_128_GCM_SHA256 ∈ suites_of b.
Proof.
  intros Hb. eapply (browser_cases b); [done|..];
    (split_and!; [| |reflexivity|by left]; cbv; (reflexivity || apply perm_swap || apply perm_skip, perm_swap)).
Qed.

Lemma browser_transport (g : Rng) b : b ∈ BROWSERS ->
  exists t, build_camouflaged_transport_config b g = Some (t, g) /\
    receive_window t = initial_max_data (params_of b) /\
    stream_receive_window t = initial_max_stream_data_bidi_local (params_of b) /\
    stream_receive_window t = initial_max_stream_data_bidi_remote (params_of b) /\
    stream_receive_window t = initial_max_stream_data_uni (params_of b) /\
    max_concurrent_bidi_streams t = initial_max_streams_bidi (params_of b) /\
    max_concurrent_uni_streams t = initial_max_streams_uni (params_of b) /\
    max_idle_timeout t = Some (p_max_idle_timeout (params_of b)) /\
    initial_mtu t = max_udp_payload_size (params_of b) /\
    (min_mtu t <= initial_mtu t <-> b <> Safari).
Proof.
  intros Hb. eapply (browser_cases b); [done|..];
    (eexists; split; [reflexivity|]; split_and!; try reflexivity; simpl; split; (done || lia)).
Qed.

Lemma build_browser_config `{Tls} v b (g : Rng) : b ∈ BROWSERS ->
  build_camouflaged_rustls_config_with_profile v b true g =
    Some (Ok (mkClientConfig (mkProvider (groups_of b) (suites_of b)) v [ALPN_H3] 256), g).
Proof.
  intros Hb. by eapply (browser_cases b); [done|..].
Qed.

Lemma build_default_config `{Tls} v b (g : Rng) :
  build_camouflaged_rustls_config_with_profile v b false g =
    Some (p ← with_tls13 default_provider; Ok (mkClientConfig p v [ALPN_H3] 256), g).
Proof. done. Qed.

Lemma next_sni_domain s : domains s <> [] -> 0 <= index s ->
  exists d s', next_sni s = Some (d, s') /\ d ∈ domains s /\ domains s' = domains s /\ 0 <= index s'.
Proof.
  intros Hd Hi. unfold next_sni. assert (0 < zlen (domains s)) by (destruct (domains s); [done|len]).
  pose proof (Z.mod_pos_bound (index s) _ H) as Hm.
  destruct (lookup_total_panics (domains s) (Z.to_nat (index s mod zlen (domains s)))) as [d Ed];
    [unfold zlen in *; lia|].
  rewrite Ed. exists d, (mkSni (domains s) (wrap64 (index s + 1))). cbn [mbind option_bind].
  split_and!; [done|by eapply list_elem_of_lookup_2|done|]. apply wrap_range. lia.
Qed.

Lemma load_verifier_ok {W} `{Tls, Pki, Files W} cert_path (w : W) :
  exists r, load_verifier cert_path w = Some r /\
    match r with
    | Ok v => exists pem cert, read_file cert_path w = Some pem /\ pem_to_cert_der pem = Ok cert /\
                trust_anchor cert = true /\ v = mkVerifier (sha256 cert) [cert]
    | Err e => e = BadRoot \/ exists c, e = BadCert c
    end.
Proof.
  unfold load_verifier, read_text. destruct (read_file cert_path w) as [pem|] eqn:Er; simpl;
    [|eexists; split; [done|right; by eexists]].
  destruct (utf8_valid pem); simpl; [|eexists; split; [done|right; by eexists]].
  destruct (pem_to_cert_der pem) as [cert|e] eqn:Ec; [|eexists; split; [done|right; by eexists]].
  destruct (trust_anchor cert) eqn:Et; simpl; [|eexists; split; [done|by left]].
  eexists. split; [done|]. by exists pem, cert.
Qed.

(** ** Theorems *)

(** [C18] What a camouflaged client shows is well formed and of one browser. Whatever
    numbers are drawn, one for every resolution of a random profile, building its
    configuration never panics. It fails only because of the certificate file, or, with the
    fingerprint switched off, because of the default provider. Otherwise there is one
    browser, the one configured when a browser is configured, such that all QUIC parameters
    are that browser's, and, with the fingerprint switched on, the cipher suites (a
    permutation of the three of TLS 1.3) and the key exchange groups are too; switched
    off, suites and groups are the default provider's, whatever the browser. The
    ALPN is [h3], the server name comes from the pool, and the certificate of the server
    is accepted exactly if it hashes like the one in the file. For Safari the initial MTU
    is below the minimal one, which the documentation of quinn rules out. *)
Theorem camouflaged_client_hello {W} `{Tls, Pki, Files W} (g : Rng) cert_path c sni (w : W) :
  unsigned g -> domains sni <> [] -> 0 <= index sni ->
  exists r sni', build_client_config g cert_path c sni w = Some (r, sni') /\
  match r with
  | Err e => e = BadRoot \/ (exists ce, e = BadCert ce) \/
             (chrome_fingerprint c = false /\
              (with_tls13 default_provider = Err e \/ TLS13_AES_128_GCM_SHA256 ∉ suites default_provider))
  | Ok (cfg, t, name) =>
      exists b pem cert, b ∈ BROWSERS /\
        (parse_profile (browser_profile c) <> Random -> b = parse_profile (browser_profile c)) /\
        (if chrome_fingerprint c
         then suites (provider cfg) = suites_of b /\ suites_of b ≡ₚ SUITES /\
              kx (provider cfg) = groups_of b /\ groups_of b ≡ₚ GROUPS
         else provider cfg = default_provider) /\
        receive_window t = initial_max_data (params_of b) /\
        stream_receive_window t = initial_max_stream_data_bidi_local (params_of b) /\
        stream_receive_window t = initial_max_stream_data_bidi_remote (params_of b) /\
        stream_receive_window t = initial_max_stream_data_uni (params_of b) /\
        max_concurrent_bidi_streams t = initial_max_streams_bidi (params_of b) /\
        max_concurrent_uni_streams t = initial_max_streams_uni (params_of b) /\
        max_idle_timeout t = Some (p_max_idle_timeout (params_of b)) /\
        initial_mtu t = max_udp_payload_size (params_of b) /\
        (min_mtu t <= initial_mtu t <-> b <> Safari) /\
        alpn_protocols cfg = [ALPN_H3] /\ name ∈ domains sni /\ domains sni' = domains sni /\
        read_file cert_path w = Some pem /\ pem_to_cert_der pem = Ok cert /\
        forall peer chain server_name now,
          verify_server_cert (verifier cfg) peer chain server_name now = true <-> sha256 peer = sha256 cert
  end.
Proof.
  intros Hd Hs Hi. unfold build_client_config.
  destruct (load_verifier_ok cert_path w) as (r & -> & Hr). cbn [mbind option_bind].
  destruct r as [v|e]; [|exists (Err e), sni; naive_solver].
  destruct Hr as (pem & cert & Hpem & Hcert & _ & ->).
  destruct (resolve_browser g (parse_profile (browser_profile c)) Hd) as (b & g' & -> & _ & Hb & Hbp).
  cbn [mbind option_bind].
  destruct (browser_transport g' b Hb) as (t & Ht & Hrw & Hbl & Hbr & Hsu & Hbi & Hun & Hid & Him & Hmtu).
  destruct (next_sni_domain sni Hs Hi) as (name & sni' & Hn & Hin & Hds & _).
  destruct (browser_provider b Hb) as (Hps & Hpg & _ & Haes).
  assert (forall cfg, verifier cfg = mkVerifier (sha256 cert) [cert] ->
    forall peer chain server_name now,
      verify_server_cert (verifier cfg) peer chain server_name now = true <-> sha256 peer = sha256 cert) as Hv.
  { intros cfg -> peer chain sn now. unfold verify_server_cert. simpl. by rewrite bool_decide_eq_true. }
  destruct (chrome_fingerprint c) eqn:Ec.
  - rewrite build_browser_config by done. cbn [mbind option_bind result_bind].
    unfold quic_client_config. simpl. rewrite decide_True by done. rewrite Ht. cbn [mbind option_bind].
    rewrite Hn. cbn [mbind option_bind]. eexists _, sni'. split; [done|]. exists b, pem, cert.
    split_and!; try done. by apply Hv.
  - rewrite build_default_config. cbn [mbind option_bind].
    destruct (with_tls13 default_provider) as [p|e] eqn:Ew; cbn [mbind result_bind].
    2: { exists (Err e), sni. split; [done|]. right. right. auto. }
    assert (p = default_provider) as -> by (revert Ew; unfold with_tls13; repeat case_match; intros; by simplify_eq).
    unfold quic_client_config. simpl. case_decide as Ha.
    2: { exists (Err NoInitialSuite), sni. split; [done|]. right. right. auto. }
    rewrite Ht. cbn [mbind option_bind]. rewrite Hn. cbn [mbind option_bind].
    eexists _, sni'. split; [done|]. exists b, pem, cert. split_and!; try done. by apply Hv.
Qed.

(** GREASE values are the sixteen of RFC 8701, those for cipher suites the first eight. *)
Theorem grease_spec draw : 0 <= draw < 256 ->
  grease_value draw = 0x0A0A + 0x1010 * (draw mod 16) /\
  exists v, grease_cipher_suite draw = Some v /\ v = 0x0A0A + 0x1010 * (draw mod 8).
Proof.
  intros Hd. pose proof (Z.mod_pos_bound draw 16 ltac:(lia)). pose proof (Z.mod_pos_bound draw 8 ltac:(lia)).
  unfold grease_value, grease_cipher_suite. change (zlen GREASE_VALUES) with 8.
  generalize dependent (draw mod 16). generalize dependent (draw mod 8). intros m Hm k Hk. split.
  - assert (k ∈ seqZ 0 16) as Hin by (apply elem_of_seqZ; lia). clear Hk. revert k Hin.
    apply Forall_forall. repeat (apply Forall_cons; split; [vm_compute; reflexivity|]). constructor.
  - assert (m ∈ seqZ 0 8) as Hin by (apply elem_of_seqZ; lia). clear Hm. revert m Hin.
    apply Forall_forall. repeat (apply Forall_cons; split; [eexists; split; vm_compute; reflexivity|]). constructor.
Qed.

(** The window stays what it was built with, whatever is lost. *)
Theorem noop_cc_constant w (es : list CcEvent) :
  window (foldl cc_event (cc_build w) es) = w /\ initial_window (foldl cc_event (cc_build w) es) = w.
Proof.
  assert (foldl cc_event (cc_build w) es = cc_build w) as ->; [|done].
  induction es as [|[] es IH]; done.
Qed.

Section witness.
#[local] Existing Instance toy_pki.
#[local] Existing Instance disk_io.
#[local] Instance toy_tls : Tls := {
  default_provider := mkProvider [X25519] [TLS13_AES_128_GCM_SHA256]; sha256 b := b; trust_anchor _ := true
}.

Definition ex_camo : ClientCamouflageSection := mkClientCamo [str "dl.google.com"] true true (str "RanDom").
Definition ex_pin : Disk := mkDisk {[str "cert.pem" := ([x21; x41; x48], 0)]} [] 0.
Definition ex_sni : SniCamouflage := mkSni [str "dl.google.com"] 0.
(** Draws that give another browser every time. *)
Definition ex_draws : Rng := fun n => 5 + Z.of_nat n.
Definition ex_hello : panics (result TlsError (ClientConfig * TransportConfig * bytes) * SniCamouflage) :=
  build_client_config ex_draws (str "cert.pem") ex_camo ex_sni ex_pin.

(** The third browser is drawn. *)
Lemma camouflaged_client_hello_witness :
  exists cfg t name sni', ex_hello = Some (Ok (cfg, t, name), sni') /\
    kx (provider cfg) = [SECP256R1; X25519; SECP384R1] /\ name ∈ domains ex_sni /\ initial_mtu t < min_mtu t.
Proof.
  destruct (camouflaged_client_hello ex_draws (str "cert.pem") ex_camo ex_sni ex_pin) as (r & sni' & E & Hr);
    [intros n; unfold ex_draws; lia|discriminate|vm_compute; discriminate|].
  fold ex_hello in E. pose proof E as E'. vm_compute in E'. injection E' as <- _.
  eexists _, _, _, sni'. split; [exact E|].
  destruct Hr as (b & _ & _ & _ & _ & _ & _ & _ & _ & _ & _ & _ & _ & _ & _ & _ & Hin & _).
  split; [reflexivity|]. split; [exact Hin|]. simpl. lia.
Defined.
End witness.
