(* ===== verification/Connectors.v ===== *)
(** The connectors as the manager holds them ([transport/manager.rs] with the builders of
    [tcp_reality.rs], [websocket_cdn.rs] and [quic_camouflaged.rs]): what each is made of, its
    TLS configuration, the dialogue with the server ([Manager]), and the probing of them in
    order. The trait [TransportConnector] is a class, the boxed connectors a sum.

    The peer that answers is the environment's: the certificate it shows, whether it can be
    reached, and what it says. A TLS handshake completes only when the client's verifier
    accepts that certificate. *)

From S2P Require Import Prelude Text Datagram Control Auth Transport Server Config Route Certs Manager Profile.

(** rustls and webpki-roots, where no verifier of this program is installed: the public
    roots, the check of a chain for a name, and which names are valid. *)
Class WebPki := {
  tls_server_roots : list bytes;
  webpki_verify : list bytes -> bytes -> list bytes -> bytes -> bool;
  server_name_ok : bytes -> bool
}.

(** Whoever answers an attempt, and the draws of the client during it. [late]: the probe
    timed out. *)
Record Attempt := mkAttempt {
  peer_cert : bytes; peer_chain : list bytes; reached : bool; stream_ok : bool; sent_ok : bool;
  answer : bytes; message : option Message;
  late : bool; nonce_drawn : bytes; draws : Rng; clock : Z
}.

(** What the dialogue of [Manager] sees of it, once the certificate is accepted or not. *)
Definition remote (accepted : bool) (a : Attempt) : Remote :=
  mkRemote (reached a && accepted) (stream_ok a) (sent_ok a) (answer a).

Record QuicDirectConnector := mkDirect {
  qd_server_addr : bytes; qd_cert_path : bytes; qd_auth : PskAuthenticator; qd_domain : option bytes
}.
Record QuicCamouflagedConnector := mkCamo {
  qc_sni : SniCamouflage; qc_cert_path : bytes; qc_config : ClientCamouflageSection
}.
Record QuicCamouflagedConnectorAdapter := mkCamoAdapter {
  qa_inner : QuicCamouflagedConnector; qa_server_addr : bytes; qa_auth : PskAuthenticator
}.
Record TcpRealityConnector := mkReality {
  tr_cert_path : bytes; tr_reality_config : ClientRealitySection; tr_camouflage_config : ClientCamouflageSection
}.
Record TcpRealityConnectorAdapter := mkRealityAdapter {
  ta_inner : TcpRealityConnector; ta_server_addr : bytes; ta_auth : PskAuthenticator
}.
Record WebSocketConnectorAdapter := mkWsAdapter { wa_config : ClientWebSocketSection; wa_auth : PskAuthenticator }.

Definition QuicCamouflagedConnector_new (cert_path : bytes) (config : ClientCamouflageSection)
    : panics QuicCamouflagedConnector :=
  sni ← sni_new (sni_pool config); Some (mkCamo sni cert_path config).

(** [Box<dyn TransportConnector>] *)
Inductive Connector :=
  | Direct (c : QuicDirectConnector) | Camouflaged (c : QuicCamouflagedConnectorAdapter)
  | Reality (c : TcpRealityConnectorAdapter) | WebSocket (c : WebSocketConnectorAdapter).

(** [mode] of each *)
Definition mode_of (c : Connector) : TransportMode :=
  match c with
  | Direct _ => QuicRaw | Camouflaged _ => QuicCamouflaged | Reality _ => TcpReality | WebSocket _ => WebSocketCdn
  end.

(** [TransportConnector]; connecting may change the connector (the SNI index). *)
Class TransportConnector (W C : Type) := {
  connect : C -> Attempt -> W -> panics (result ConnectError ConnectResult * C);
  connector_mode : C -> TransportMode
}.

Section connectors.
Context {W : Type} `{Hmac, Ipv6Text, WebPki, Tls, Pki, Files W}.

(** [ClientConfig::builder()]: the default versions, unwrapped. *)
Definition default_versions (p : CryptoProvider) : panics CryptoProvider :=
  if decide (suites p = [] \/ kx p = []) then None else Some p.

(** Roots and server name of a direct connection. *)
Definition direct_roots (cert_path : bytes) (domain : option bytes) (w : W)
    : result TlsError (list bytes * bytes) :=
  match domain with
  | Some domain => Ok (tls_server_roots, domain)
  | None =>
      match (read_text cert_path w).1 with
      | Err e => Err (BadCert e)
      | Ok cert_pem =>
          match pem_to_cert_der cert_pem with
          | Err e => Err (BadCert e)
          | Ok cert_der => if trust_anchor cert_der then Ok ([cert_der], str "redpill-quic") else Err BadRoot
          end
      end
  end.

Definition direct_connect (c : QuicDirectConnector) (a : Attempt) (w : W)
    : panics (result ConnectError ConnectResult * QuicDirectConnector) :=
  match direct_roots (qd_cert_path c) (qd_domain c) w with
  | Err _ => Some (Err SetupFailed, c)
  | Ok (roots, sni) =>
      p ← default_versions default_provider;
      if negb (bool_decide (TLS13_AES_128_GCM_SHA256 ∈ suites p)) then Some (Err SetupFailed, c)
      else if negb (server_name_ok sni) then Some (Err SetupFailed, c)
      else
        r ← connect_quic (qd_auth c) (nonce_drawn a)
              (remote (webpki_verify roots (peer_cert a) (peer_chain a) sni) a);
        Some (r, c)
  end.
#[export] Instance direct_connector : TransportConnector W QuicDirectConnector :=
  {| connect := direct_connect; connector_mode _ := QuicRaw |}.

Definition camouflaged_connect (c : QuicCamouflagedConnectorAdapter) (a : Attempt) (w : W)
    : panics (result ConnectError ConnectResult * QuicCamouflagedConnectorAdapter) :=
  let inner := qa_inner c in
  '(r, sni) ← build_client_config (draws a) (qc_cert_path inner) (qc_config inner) (qc_sni inner) w;
  let c' := mkCamoAdapter (mkCamo sni (qc_cert_path inner) (qc_config inner)) (qa_server_addr c) (qa_auth c) in
  match r with
  | Err _ => Some (Err SetupFailed, c')
  | Ok (client_config, _, fake_sni) =>
      if negb (server_name_ok fake_sni) then Some (Err SetupFailed, c')
      else
        r ← connect_camouflaged (padding (qc_config inner)) (qa_auth c) (nonce_drawn a)
              (remote (verify_server_cert (verifier client_config) (peer_cert a) (peer_chain a) fake_sni (clock a)) a);
        Some (r, c')
  end.
#[export] Instance camouflaged_connector : TransportConnector W QuicCamouflagedConnectorAdapter :=
  {| connect := camouflaged_connect; connector_mode _ := QuicCamouflaged |}.

Definition reality_connect (c : TcpRealityConnectorAdapter) (a : Attempt) (w : W)
    : panics (result ConnectError ConnectResult * TcpRealityConnectorAdapter) :=
  let inner := ta_inner c in
  r ← reality_tls (draws a) (tr_cert_path inner) (tr_camouflage_config inner) (cr_target (tr_reality_config inner)) w;
  match r with
  | Err _ => Some (Err SetupFailed, c)
  | Ok (rustls_config, sni_domain) =>
      if negb (server_name_ok sni_domain) then Some (Err SetupFailed, c)
      else if negb (is_socket_addr (ta_server_addr c)) then Some (Err SetupFailed, c)
      else
        r ← connect_tcp (ta_auth c) (nonce_drawn a)
              (remote (verify_server_cert (verifier rustls_config) (peer_cert a) (peer_chain a) sni_domain (clock a)) a);
        Some (r, c)
  end.
#[export] Instance reality_connector : TransportConnector W TcpRealityConnectorAdapter :=
  {| connect := reality_connect; connector_mode _ := TcpReality |}.

(** [connect_async] does the TLS of a [wss] address by itself. *)
Definition websocket_connect (c : WebSocketConnectorAdapter) (a : Attempt) (w : W)
    : panics (result ConnectError ConnectResult * WebSocketConnectorAdapter) :=
  r ← connect_ws (cw_url (wa_config c)) (wa_auth c) (nonce_drawn a) (remote true a) (message a);
  Some (r, c).
#[export] Instance websocket_connector : TransportConnector W WebSocketConnectorAdapter :=
  {| connect := websocket_connect; connector_mode _ := WebSocketCdn |}.

Definition boxed {C} (box : C -> Connector) (m : panics (result ConnectError ConnectResult * C))
    : panics (result ConnectError ConnectResult * Connector) :=
  '(r, c) ← m; Some (r, box c).
#[export] Instance dyn_connector : TransportConnector W Connector := {|
  connect c a w :=
    match c with
    | Direct c => boxed Direct (connect c a w)
    | Camouflaged c => boxed Camouflaged (connect c a w)
    | Reality c => boxed Reality (connect c a w)
    | WebSocket c => boxed WebSocket (connect c a w)
    end;
  connector_mode := mode_of
|}.

(** ** The manager *)

Record TransportManager := mkManager { connectors : list Connector }.

Definition available_modes (m : TransportManager) : list TransportMode := mode_of <$> connectors m.

(** The loop of [probe_and_connect]; [att i] is the attempt with the connector at [i]. A
    connector that was given up keeps what it has changed. *)
Fixpoint probe_connectors (i : Datatypes.nat) (cs : list Connector) (att : Datatypes.nat -> Attempt)
    (last_error : option ConnectError) (w : W) : panics (result ConnectError ConnectResult * list Connector) :=
  match cs with
  | [] => Some (Err (default NoConnectors last_error), [])
  | c :: cs =>
      '(r, c') ← connect c (att i) w;
      match (if late (att i) then Err (TimedOut (mode_of c)) else r) with
      | Ok result => Some (Ok result, c' :: cs)
      | Err e => '(r, cs') ← probe_connectors (S i) cs att (Some e) w; Some (r, c' :: cs')
      end
  end.
Definition manager_connect (m : TransportManager) (att : Datatypes.nat -> Attempt) (w : W)
    : panics (result ConnectError ConnectResult * TransportManager) :=
  '(r, cs) ← probe_connectors 0 (connectors m) att None w; Some (r, mkManager cs).

Record TransportBuildConfig := mkBuild {
  b_mode : bytes; b_server_addr : bytes; b_cert_path : bytes; b_auth : PskAuthenticator;
  b_camouflage : ClientCamouflageSection; b_reality : ClientRealitySection; b_ws : ClientWebSocketSection;
  b_domain : option bytes
}.

Definition add_quic (b : TransportBuildConfig) : Connector :=
  Direct (mkDirect (b_server_addr b) (b_cert_path b) (b_auth b) (b_domain b)).
Definition add_quic_camouflaged (b : TransportBuildConfig) : panics Connector :=
  c ← QuicCamouflagedConnector_new (b_cert_path b) (b_camouflage b);
  Some (Camouflaged (mkCamoAdapter c (b_server_addr b) (b_auth b))).
Definition add_tcp_reality (b : TransportBuildConfig) : Connector :=
  Reality (mkRealityAdapter (mkReality (b_cert_path b) (b_reality b) (b_camouflage b))
             (default (b_server_addr b) (cr_address (b_reality b))) (b_auth b)).
Definition add_websocket (b : TransportBuildConfig) : list Connector :=
  match cw_url (b_ws b) with Some _ => [WebSocket (mkWsAdapter (b_ws b) (b_auth b))] | None => [] end.

Definition build_manager (b : TransportBuildConfig) : panics TransportManager :=
  if decide (b_mode b = str "quic") then Some (mkManager [add_quic b])
  else if decide (b_mode b = str "quic-camouflaged") then
    c ← add_quic_camouflaged b; Some (mkManager [c])
  else if decide (b_mode b = str "tcp-reality") then Some (mkManager [add_tcp_reality b])
  else if decide (b_mode b = str "websocket") then Some (mkManager (add_websocket b))
  else
    c ← add_quic_camouflaged b;
    Some (mkManager ([add_quic b; c; add_tcp_reality b] ++ add_websocket b)).
End connectors.

(** ** Lemmas *)

Lemma auth_frame_total `{HmacOk} auth nonce : length nonce = 32%nat -> is_Some (auth_frame auth nonce).
Proof.
  intros Hn. unfold auth_frame, compute_mac, copy_into.
  rewrite decide_True by (rewrite hmac_length, length_replicate; lia). cbn [mbind option_bind].
  destruct auth as [k]. simpl. rewrite app_nil_r.
  destruct (ClientAuth_roundtrip (mkClientAuth nonce (hmac_sha256 k nonce) PROTOCOL_VERSION) [])
    as (w & -> & _); [split; [done|apply hmac_length]|]. by eexists.
Qed.

Lemma stream_handshake_total `{HmacOk} auth nonce r : length nonce = 32%nat ->
  exists f c, stream_handshake auth nonce r = Some (f, c) /\ (is_ok c = true -> setup_ok r = true).
Proof.
  intros Hn. unfold stream_handshake. destruct (setup_ok r); simpl; [|by eexists _, _].
  destruct (open_ok r); simpl; [|by eexists _, _].
  destruct (auth_frame_total auth nonce Hn) as [f ->]. cbn [mbind option_bind].
  destruct (write_ok r); simpl; [|by eexists _, _].
  unfold read_config. case_decide; [by eexists _, _|].
  destruct (SessionConfig_decode_no_panic (take SESSION_CONFIG_LEN (reply r))) as [c ->].
  by eexists _, _.
Qed.

Lemma connect_ws_total `{HmacOk} url auth nonce r msg : length nonce = 32%nat ->
  exists x, connect_ws url auth nonce r msg = Some x /\
    forall res, x = Ok res -> is_Some url /\ cr_mode res = WebSocketCdn.
Proof.
  intros Hn. unfold connect_ws. destruct url as [u|]; [|by eexists].
  destruct (setup_ok r); simpl; [|by eexists].
  destruct (auth_frame_total auth nonce Hn) as [f ->]. cbn [mbind option_bind].
  destruct (write_ok r); simpl; [|by eexists].
  destruct msg as [[data| | | | |]|]; try by eexists.
  case_decide as Hl; [by eexists|]. unfold slice. rewrite decide_True by lia. cbn [mbind option_bind].
  destruct (SessionConfig_decode_no_panic (take (SESSION_CONFIG_LEN - 0) (drop 0 data))) as [c ->].
  cbn [mbind option_bind]. eexists. split; [done|]. intros res. unfold with_mode, ok_or.
  destruct c; [|done]. intros [= <-]. split; [by eexists|done].
Qed.

Section trust.
Context {W : Type} `{HmacOk, Ipv6Text, WebPki, Tls, Pki, Files W}.

(** The certificate in the file. *)
Definition pinned (path : bytes) (w : W) (cert : bytes) : Prop :=
  exists pem, read_file path w = Some pem /\ pem_to_cert_der pem = Ok cert.

(** The peer is one the configuration allows on this transport. *)
Definition trusted (b : TransportBuildConfig) (a : Attempt) (w : W) (m : TransportMode) : Prop :=
  match m with
  | QuicRaw =>
      match b_domain b with
      | Some d => webpki_verify tls_server_roots (peer_cert a) (peer_chain a) d = true
      | None => exists cert, pinned (b_cert_path b) w cert /\
                  webpki_verify [cert] (peer_cert a) (peer_chain a) (str "redpill-quic") = true
      end
  | QuicCamouflaged | TcpReality =>
      exists cert, pinned (b_cert_path b) w cert /\ sha256 (peer_cert a) = sha256 cert
  | WebSocketCdn => is_Some (cw_url (b_ws b))
  end.

(** A connector made for [b], whose SNI index may have moved. *)
Definition made_for (b : TransportBuildConfig) (c : Connector) : Prop :=
  match c with
  | Direct c => qd_cert_path c = b_cert_path b /\ qd_domain c = b_domain b
  | Camouflaged c =>
      qc_cert_path (qa_inner c) = b_cert_path b /\ domains (qc_sni (qa_inner c)) <> [] /\
      0 <= index (qc_sni (qa_inner c))
  | Reality c => tr_cert_path (ta_inner c) = b_cert_path b
  | WebSocket c => wa_config c = b_ws b
  end.

(** What an attempt with a connector of [b] gives. *)
Definition outcome (b : TransportBuildConfig) (a : Attempt) (w : W) (c : Connector)
    (x : result ConnectError ConnectResult * Connector) : Prop :=
  made_for b x.2 /\ mode_of x.2 = mode_of c /\
  forall res, x.1 = Ok res -> cr_mode res = mode_of c /\ trusted b a w (mode_of c).

(** Draws as the generators make them, and a provider that has something to offer. *)
Definition drawn (a : Attempt) : Prop := unsigned (draws a) /\ length (nonce_drawn a) = 32%nat.
Definition provider_ok : Prop := suites default_provider <> [] /\ kx default_provider <> [].

Lemma verifier_pinned path (w : W) v : load_verifier path w = Some (Ok v) ->
  exists cert, pinned path w cert /\ v = mkVerifier (sha256 cert) [cert].
Proof.
  destruct (load_verifier_ok path w) as (r & -> & Hr). intros [= ->].
  destruct Hr as (pem & cert & Hp & Hc & _ & ->). exists cert. split; [by exists pem|done].
Qed.

Lemma pinned_accepts v cert peer chain name now :
  v = mkVerifier (sha256 cert) [cert] -> verify_server_cert v peer chain name now = true ->
  sha256 peer = sha256 cert.
Proof. intros ->. unfold verify_server_cert. apply bool_decide_eq_true. Qed.

(** The verifier survives the building of the configuration. *)
Lemma rustls_verifier (g g' : Rng) v p e cfg :
  build_camouflaged_rustls_config_with_profile v p e g = Some (Ok cfg, g') -> verifier cfg = v.
Proof.
  destruct e.
  - unfold build_camouflaged_rustls_config_with_profile, mbind at 1, draws_bind at 1.
    destruct (build_crypto_provider p g) as [[pr g1]|]; cbn [mbind option_bind]; [|done].
    unfold mret, draws_ret. destruct (with_tls13 pr); cbn [mbind result_bind]; [|done]. by intros [= <- _].
  - rewrite build_default_config. destruct (with_tls13 _); cbn [mbind result_bind]; [|done]. by intros [= <- _].
Qed.

Lemma rustls_total (g : Rng) v p e : p ∈ BROWSERS ->
  exists r, build_camouflaged_rustls_config_with_profile v p e g = Some (r, g).
Proof.
  intros Hp. destruct e; [rewrite build_browser_config by done; by eexists|].
  rewrite build_default_config. by eexists.
Qed.

(** [build_client_config] never panics, and what it gives pins the file's certificate. *)
Lemma client_config_pins d path c sni (w : W) : unsigned d -> domains sni <> [] -> 0 <= index sni ->
  exists r sni', build_client_config d path c sni w = Some (r, sni') /\
    domains sni' <> [] /\ 0 <= index sni' /\
    forall cfg t name, r = Ok (cfg, t, name) ->
      exists cert, pinned path w cert /\ verifier cfg = mkVerifier (sha256 cert) [cert].
Proof.
  intros Hd Hs Hi. unfold build_client_config.
  destruct (load_verifier_ok path w) as (v & Ev & _). rewrite Ev. cbn [mbind option_bind].
  destruct v as [v|e]; [|exists (Err e), sni; by split_and!].
  apply verifier_pinned in Ev as (cert & Hp & Hv).
  destruct (resolve_browser d (parse_profile (browser_profile c)) Hd) as (b & g & -> & _ & Hb & _).
  cbn [mbind option_bind]. destruct (rustls_total g v b (chrome_fingerprint c) Hb) as [cfg Ec].
  rewrite Ec. cbn [mbind option_bind]. destruct cfg as [cfg|e]; cbn [mbind result_bind];
    [|exists (Err e), sni; by split_and!].
  apply rustls_verifier in Ec. unfold quic_client_config. case_decide; [|eexists (Err _), sni; by split_and!].
  destruct (browser_transport g b Hb) as (t & -> & _). cbn [mbind option_bind].
  destruct (next_sni_domain sni Hs Hi) as (name & sni' & -> & _ & Hds & Hi'). cbn [mbind option_bind].
  eexists _, sni'. split; [done|]. rewrite Hds. split_and!; [done..|].
  intros cfg' t' name' [= <- _ _]. exists cert. split; [done|]. congruence.
Qed.

Lemma reality_pins g path c target (w : W) :
  exists r, reality_tls g path c target w = Some r /\
    forall cfg name, r = Ok (cfg, name) ->
      exists cert, pinned path w cert /\ verifier cfg = mkVerifier (sha256 cert) [cert].
Proof.
  unfold reality_tls. destruct (load_verifier_ok path w) as (v & Ev & _). rewrite Ev.
  cbn [mbind option_bind]. destruct v as [v|e]; [|by eexists].
  apply verifier_pinned in Ev as (cert & Hp & Hv).
  destruct (rustls_total g v Chrome (chrome_fingerprint c) ltac:(by left)) as [cfg Ec].
  unfold build_camouflaged_rustls_config. rewrite Ec. cbn [mbind option_bind]. eexists. split; [done|].
  destruct cfg as [cfg|e]; cbn [mbind result_bind]; [|done]. intros cfg' name [= <- _].
  apply rustls_verifier in Ec. exists cert. split; [done|]. simpl. congruence.
Qed.

Lemma direct_roots_ok b (w : W) roots name :
  direct_roots (b_cert_path b) (b_domain b) w = Ok (roots, name) ->
  forall a, webpki_verify roots (peer_cert a) (peer_chain a) name = true -> trusted b a w QuicRaw.
Proof.
  unfold direct_roots, trusted. destruct (b_domain b) as [d|]; [by intros [= <- <-]|].
  unfold read_text. destruct (read_file (b_cert_path b) w) as [pem|] eqn:Er; simpl; [|done].
  destruct (utf8_valid pem); simpl; [|done]. destruct (pem_to_cert_der pem) as [cert|] eqn:Ec; [|done].
  destruct (trust_anchor cert); [|done]. intros [= <- <-] a Ha. exists cert. split; [|done]. by exists pem.
Qed.

Lemma remote_accepted v a : setup_ok (remote v a) = true -> v = true.
Proof. unfold remote. simpl. by intros [_ ?]%andb_true_iff. Qed.

Lemma with_mode_ok m q r p x res : with_mode m q r p x = Ok res -> cr_mode res = m /\ is_ok x = true.
Proof. destruct x; [|done]. by intros [= <-]. Qed.

Lemma direct_outcome b a w c : provider_ok -> drawn a -> made_for b (Direct c) ->
  exists x, connect (Direct c) a w = Some x /\ outcome b a w (Direct c) x.
Proof.
  intros [Hs Hk] [_ Hn] [Hc Hd]. simpl. unfold direct_connect. rewrite Hc, Hd.
  destruct (direct_roots (b_cert_path b) (b_domain b) w) as [[roots name]|e] eqn:Er; [|by eexists].
  unfold default_versions. rewrite decide_False by tauto. cbn [mbind option_bind].
  case_bool_decide; [|by eexists]. cbn [negb]. destruct (server_name_ok name); [|by eexists]. cbn [negb].
  set (r := remote _ a). unfold connect_quic.
  destruct (stream_handshake_total (qd_auth c) (nonce_drawn a) r Hn) as (f & x & -> & Hx).
  cbn [mbind option_bind]. eexists. split; [done|]. split; [by split|]. split; [done|].
  intros res [Hm Ho]%with_mode_ok. split; [done|]. eapply direct_roots_ok; [done|].
  by apply (remote_accepted _ a), Hx.
Qed.

Lemma camouflaged_outcome b a w c : drawn a -> made_for b (Camouflaged c) ->
  exists x, connect (Camouflaged c) a w = Some x /\ outcome b a w (Camouflaged c) x.
Proof.
  intros [Hd Hn] (Hc & Hs & Hi). simpl. unfold camouflaged_connect. rewrite Hc.
  destruct (client_config_pins (draws a) (b_cert_path b) (qc_config (qa_inner c)) (qc_sni (qa_inner c)) w Hd Hs Hi)
    as (r & sni' & -> & Hs' & Hi' & Hpin). cbn [mbind option_bind].
  destruct r as [[[cfg t] name]|e]; [|by eexists]. destruct (server_name_ok name); [|by eexists]. cbn [negb].
  destruct (Hpin cfg t name eq_refl) as (cert & Hp & Hv). set (r := remote _ a). unfold connect_camouflaged.
  destruct (stream_handshake_total (qa_auth c) (nonce_drawn a) r Hn) as (f & x & -> & Hx).
  cbn [mbind option_bind]. eexists. split; [done|]. split; [by split|]. split; [done|].
  intros res [Hm Ho]%with_mode_ok. split; [done|]. exists cert. split; [done|].
  by eapply pinned_accepts, (remote_accepted _ a), Hx.
Qed.

Lemma reality_outcome b a w c : drawn a -> made_for b (Reality c) ->
  exists x, connect (Reality c) a w = Some x /\ outcome b a w (Reality c) x.
Proof.
  intros [_ Hn] Hc. simpl in *. unfold reality_connect. rewrite Hc.
  destruct (reality_pins (draws a) (b_cert_path b) (tr_camouflage_config (ta_inner c)) (cr_target (tr_reality_config (ta_inner c))) w)
    as (r & -> & Hpin). cbn [mbind option_bind].
  destruct r as [[cfg name]|e]; [|by eexists]. destruct (server_name_ok name); [|by eexists]. cbn [negb].
  destruct (is_socket_addr _); [|by eexists]. cbn [negb].
  destruct (Hpin cfg name eq_refl) as (cert & Hp & Hv). set (r := remote _ a). unfold connect_tcp.
  destruct (stream_handshake_total (ta_auth c) (nonce_drawn a)
    (mkRemote (setup_ok r) true (write_ok r) (reply r)) Hn) as (f & x & -> & Hx).
  cbn [mbind option_bind]. eexists. split; [done|]. split; [done|]. split; [done|].
  intros res [Hm Ho]%with_mode_ok. split; [done|]. exists cert. split; [done|].
  by eapply pinned_accepts, (remote_accepted _ a), Hx.
Qed.

Lemma websocket_outcome b a w c : drawn a -> made_for b (WebSocket c) ->
  exists x, connect (WebSocket c) a w = Some x /\ outcome b a w (WebSocket c) x.
Proof.
  intros [_ Hn] Hc. simpl in *. unfold websocket_connect. rewrite Hc.
  destruct (connect_ws_total (cw_url (b_ws b)) (wa_auth c) (nonce_drawn a) (remote true a) (message a) Hn)
    as (x & -> & Hx). cbn [mbind option_bind]. eexists. split; [done|]. split; [done|]. split; [done|].
  intros res Hr. apply Hx in Hr as [Hu Hm]. by split.
Qed.

Lemma connect_outcome b a w c : provider_ok -> drawn a -> made_for b c ->
  exists x, connect c a w = Some x /\ outcome b a w c x.
Proof.
  destruct c; intros; [by apply direct_outcome|by apply camouflaged_outcome|by apply reality_outcome|
    by apply websocket_outcome].
Qed.

Lemma probe_outcome b att w : provider_ok -> (forall i, drawn (att i)) ->
  forall cs i last, Forall (made_for b) cs ->
  exists r cs', probe_connectors i cs att last w = Some (r, cs') /\
    Forall (made_for b) cs' /\ mode_of <$> cs' = mode_of <$> cs /\
    forall res, r = Ok res -> exists j, late (att (i + j)%nat) = false /\
      (mode_of <$> cs) !! j = Some (cr_mode res) /\ trusted b (att (i + j)%nat) w (cr_mode res).
Proof.
  intros Hp Hd. induction cs as [|c cs IH]; intros i last Hcs; cbn [probe_connectors].
  { eexists _, []. by split_and!. }
  apply Forall_cons in Hcs as [Hc Hcs].
  destruct (connect_outcome b (att i) w c Hp (Hd i) Hc) as ([r c'] & -> & Hc' & Hm & Hr).
  cbn [mbind option_bind fst snd] in *.
  destruct (if late (att i) then Err (TimedOut (mode_of c)) else r) as [res|e] eqn:El.
  - destruct (late (att i)) eqn:Hlate; [done|]. subst r. destruct (Hr res eq_refl) as [Hmode Ht].
    eexists _, _. split; [done|]. split; [by constructor|]. rewrite !fmap_cons, Hm. split; [done|].
    intros res' [= <-]. exists 0%nat. rewrite Nat.add_0_r, Hmode. by split_and!.
  - destruct (IH (S i) (Some e) Hcs) as (r' & cs' & -> & Hf & Hms & Hok). cbn [mbind option_bind].
    eexists _, _. split; [done|]. split; [by constructor|]. rewrite !fmap_cons, Hm, Hms. split; [done|].
    intros res Hres. destruct (Hok res Hres) as (j & Hl & Hj & Ht). exists (S j).
    by rewrite <-Nat.add_succ_comm.
Qed.

Lemma build_made b m : build_manager b = Some m ->
  Forall (made_for b) (connectors m) /\
  build_transport_manager (b_mode b) (sni_pool (b_camouflage b)) (cw_url (b_ws b)) = Some (available_modes m).
Proof.
  assert (Forall (made_for b) (add_websocket b) /\
    mode_of <$> add_websocket b = match cw_url (b_ws b) with Some _ => [WebSocketCdn] | None => [] end) as [Hw Hwm].
  { unfold add_websocket. destruct (cw_url (b_ws b)); split; try done. by repeat constructor. }
  unfold build_manager, build_transport_manager, available_modes, add_quic_camouflaged,
    QuicCamouflagedConnector_new, sni_new.
  assert (made_for b (add_quic b) /\ made_for b (add_tcp_reality b)) as [Hq Ht] by done.
  repeat case_decide; cbn [mbind option_bind]; intros [= <-]; cbn [connectors];
    cbn [app]; rewrite ?fmap_cons, ?Hwm; (split; [by repeat constructor|done]).
Qed.
End trust.

(** ** Theorem *)

(** An earlier call of [probe_and_connect], in whatever world and with whatever peers. *)
Definition attempted {W} `{HmacOk, Ipv6Text, WebPki, Tls, Pki, Files W} (m m' : TransportManager) : Prop :=
  exists att (w : W) r, (forall i, drawn (att i)) /\ manager_connect m att w = Some (r, m').

(** [C19] A client talks only to servers its configuration allows. A manager holds the connectors
    of its mode in their order, through any number of earlier attempts. Probing never panics,
    and a connection that comes out of it was made within its time by the connector of its
    transport, with a peer that showed, for plain QUIC, a certificate valid for the domain
    under the public roots, or, without a domain, one that the certificate in the file
    vouches for; for camouflaged QUIC and TCP Reality, a certificate that hashes like the one
    in the file; over WebSocket, whatever the configured address leads to. So without a
    readable certificate file only plain QUIC to a domain and WebSocket can ever connect. *)
Theorem connects_only_to_trusted {W} `{HmacOk, Ipv6Text, WebPki, Tls, Pki, Files W} b m0 m att (w : W) :
  provider_ok -> build_manager b = Some m0 -> rtc (attempted (W:=W)) m0 m -> (forall i, drawn (att i)) ->
  build_transport_manager (b_mode b) (sni_pool (b_camouflage b)) (cw_url (b_ws b)) = Some (available_modes m) /\
  exists r m', manager_connect m att w = Some (r, m') /\
    forall res, r = Ok res ->
      (exists i, late (att i) = false /\ available_modes m !! i = Some (cr_mode res) /\
         trusted b (att i) w (cr_mode res)) /\
      (read_file (b_cert_path b) w = None ->
         (cr_mode res = QuicRaw /\ is_Some (b_domain b)) \/ cr_mode res = WebSocketCdn).
Proof.
  intros Hp [Hf0 Hm0]%build_made Hr Hd.
  assert (Forall (made_for b) (connectors m) /\ available_modes m = available_modes m0) as [Hf Hm].
  { induction Hr as [|m0 m1 m (att' & w' & r & Hd' & Hc) _ IH]; [done|].
    unfold manager_connect in Hc.
    destruct (probe_outcome b att' w' Hp Hd' (connectors m0) 0 None Hf0) as (r' & cs & E & Hcs & Hms & _).
    rewrite E in Hc. cbn [mbind option_bind] in Hc. injection Hc as _ <-.
    assert (available_modes (mkManager cs) = available_modes m0) as Ha by done.
    rewrite Ha in IH. by apply IH. }
  rewrite Hm. split; [done|]. unfold manager_connect.
  destruct (probe_outcome b att w Hp Hd (connectors m) 0 None Hf) as (r & cs & -> & _ & _ & Hok).
  cbn [mbind option_bind]. eexists _, _. split; [done|]. intros res Hres.
  destruct (Hok res Hres) as (j & Hl & Hj & Ht). simpl in Hl, Ht. split.
  { exists j. rewrite <-Hm. by split_and!. }
  intros Hno. destruct (cr_mode res); simpl in Ht.
  - left. split; [done|]. destruct (b_domain b); [by eexists|].
    destruct Ht as (cert & (pem & Hpem & _) & _). congruence.
  - destruct Ht as (cert & (pem & Hpem & _) & _). congruence.
  - destruct Ht as (cert & (pem & Hpem & _) & _). congruence.
  - by right.
Qed.

Section witness.
#[local] Existing Instance toy_pki.
#[local] Existing Instance disk_io.
#[local] Existing Instance toy_tls.
#[local] Existing Instance mg_hmac.
#[local] Existing Instance mg_hmac_ok.
#[local] Instance no_v6 : Ipv6Text := fun _ => false.
#[local] Instance toy_webpki : WebPki := {
  tls_server_roots := []; webpki_verify roots cert _ _ := bool_decide (cert ∈ roots); server_name_ok _ := true
}.

Definition ex_build : TransportBuildConfig :=
  mkBuild (str "auto") (str "192.0.2.1:443") (str "cert.pem") (mkPsk [x05]) ex_camo
    client_reality_default (mkClientWs None None) None.
Definition ex_manager : TransportManager := default (mkManager []) (build_manager ex_build).

(** The first probe meets somebody else's certificate, the second times out, the third
    meets the server. *)
Definition ex_att (i : Datatypes.nat) : Attempt :=
  mkAttempt (if decide (i = 0%nat) then [x99] else [x07]) [] true true true
    (wire_config (session_config ex_consts (ip4 10 0 1 7) 1)) None (bool_decide (i = 1%nat))
    (replicate 32 x01) (fun _ => 4) 0.

Lemma connects_only_to_trusted_witness :
  exists res m', manager_connect ex_manager ex_att ex_pin = Some (Ok res, m') /\
    cr_mode res = TcpReality /\ trusted ex_build (ex_att 2) ex_pin TcpReality.
Proof.
  destruct (connects_only_to_trusted ex_build ex_manager ex_manager ex_att ex_pin) as (_ & r & m' & E & Hok).
  - split; discriminate.
  - vm_compute. reflexivity.
  - apply rtc_refl.
  - intros i. split; [intros n; simpl; lia|reflexivity].
  - pose proof E as E'. vm_compute in E'. injection E' as <- _.
    destruct (Hok _ eq_refl) as [(i & Hl & Hi & Ht) _]. eexists _, m'. split; [exact E|]. split; [reflexivity|].
    vm_compute in Hi. destruct i as [|[|[|i]]]; try discriminate Hi. exact Ht.
Defined.
End witness.
