(* ===== verification/Http.v ===== *)
(** What answers HTTP: the decoy page for browsers and probes on the QUIC port
    ([decoy.rs]) and the metrics endpoint with the registry behind it ([metrics.rs]).

    The HTTP/3 and HTTP/1 libraries are the environment's: a connection is the sequence of
    what [accept] and the calls on a request stream answer, with the time each answer comes. *)

From S2P Require Import Prelude Text Route Stats.

(** ** The decoy *)

Definition DEFAULT_HTML : bytes := str
"<!DOCTYPE html>
<html>
<head><title>Welcome to nginx!</title>
<style>
body { width: 35em; margin: 0 auto; font-family: Tahoma, Verdana, Arial, sans-serif; }
</style>
</head>
<body>
<h1>Welcome to nginx!</h1>
<p>If you see this page, the nginx web server is successfully installed and working.</p>
<p><em>Thank you for using nginx.</em></p>
</body>
</html>".

(** Milliseconds. *)
Definition DECOY_TIMEOUT : Z := 30000.

(** When a call on a request stream ([resolve_request], [send_response], [send_data], [finish])
    returned, and whether it succeeded. *)
Abbreviation Call := (Z * bool)%type.
Record Exchange := mkExchange { resolved : Call; head_sent : Call; data_sent : Call; finished : Call }.
(** What [accept] answers. *)
Inductive Accepted := AcceptRequest (x : Exchange) | AcceptClosed | AcceptError.

Record ResponseHead := mkHead { rs_status : Z; rs_headers : list (bytes * bytes) }.

(** What goes out: the whole of it when the call succeeded; when it failed or was dropped,
    an unknown part of it. *)
Inductive Sent := SendHead (h : ResponseHead) | SendData (body : bytes) | FinishStream.
Inductive Put := Whole (s : Sent) | Partly (s : Sent).

Definition response_head (html : bytes) : ResponseHead :=
  mkHead 200 [(str "server", str "nginx/1.24.0"); (str "content-type", str "text/html");
              (str "content-length", show_int (zlen html))].

(** [std::fs::read_to_string(page_path)], or the default page. *)
Definition decoy_page {W} `{Files W} (page_path : bytes) (w : W) : bytes :=
  match read_file page_path w with
  | Some content => if utf8_valid content then content else DEFAULT_HTML
  | None => DEFAULT_HTML
  end.

(** How a connection ended. *)
Inductive DecoyEnd := EndedBy (t : Z) | TimedOutAt (t : Z).

Abbreviation Served := (list (Z * Put) * DecoyEnd)%type.

(** A call under the timeout: the loop is dropped when it has not returned in time, left
    when it failed. *)
Definition call (c : Call) (k : Served) : Served :=
  if DECOY_TIMEOUT <=? c.1 then ([], TimedOutAt DECOY_TIMEOUT)
  else if negb c.2 then ([], EndedBy c.1)
  else k.
(** A call that sends [s]. *)
Definition emit (c : Call) (s : Sent) (k : Served) : Served :=
  if DECOY_TIMEOUT <=? c.1 then ([(DECOY_TIMEOUT, Partly s)], TimedOutAt DECOY_TIMEOUT)
  else if negb c.2 then ([(c.1, Partly s)], EndedBy c.1)
  else let '(outs, e) := k in ((c.1, Whole s) :: outs, e).

(** The accept loop; a connection that stays silent runs into the timeout. *)
Fixpoint accept_loop (html : bytes) (evs : list (Z * Accepted)) : Served :=
  match evs with
  | [] => ([], TimedOutAt DECOY_TIMEOUT)
  | (t, AcceptRequest x) :: evs =>
      call (t, true) (call (resolved x)
        (emit (head_sent x) (SendHead (response_head html))
          (emit (data_sent x) (SendData html)
            (emit (finished x) FinishStream (accept_loop html evs)))))
  | (t, _) :: _ => call (t, true) ([], EndedBy t)
  end.

(** [handle_http3]: what is sent, the end, and whether the connection is closed with
    [timeout]. [built]: the call that sets up the HTTP/3 connection. *)
Definition handle_http3 {W} `{Files W} (page_path : bytes) (built : Call) (evs : list (Z * Accepted)) (w : W)
    : list (Z * Put) * DecoyEnd * bool :=
  let html := decoy_page page_path w in
  let '(outs, e) := call built (accept_loop html evs) in
  (outs, e, match e with TimedOutAt _ => true | EndedBy _ => false end).

(** ** Metrics *)

Inductive MetricKind := IntGauge | IntCounter | Histogram (buckets : list Z) | IntGaugeVec (labels : list bytes).
Record Metric := mkMetric { metric_name : bytes; metric_help : bytes; metric_kind : MetricKind }.

(** What [Metrics::new] creates and registers, in order. Bucket bounds are whole numbers. *)
Definition METRICS : list Metric := [
  mkMetric (str "redpill_active_sessions") (str "Active VPN sessions") IntGauge;
  mkMetric (str "redpill_handshakes_total") (str "Total handshake attempts") IntCounter;
  mkMetric (str "redpill_handshakes_failed") (str "Failed handshakes") IntCounter;
  mkMetric (str "redpill_bytes_in") (str "Bytes received from clients") IntCounter;
  mkMetric (str "redpill_bytes_out") (str "Bytes sent to clients") IntCounter;
  mkMetric (str "redpill_datagrams_in") (str "Datagrams received from clients") IntCounter;
  mkMetric (str "redpill_datagrams_out") (str "Datagrams sent to clients") IntCounter;
  mkMetric (str "redpill_drops_rate_limit") (str "Packets dropped by rate limiter") IntCounter;
  mkMetric (str "redpill_drops_backpressure") (str "Packets dropped by backpressure") IntCounter;
  mkMetric (str "redpill_drops_stale") (str "Stale realtime packets dropped") IntCounter;
  mkMetric (str "redpill_spoofed") (str "Spoofed packets dropped") IntCounter;
  mkMetric (str "redpill_bp_wait_count") (str "Bulk packets that entered send_datagram_wait") IntCounter;
  mkMetric (str "redpill_bp_wait_timeouts") (str "Bulk packets dropped by wait timeout") IntCounter;
  mkMetric (str "redpill_bp_rt_drops_congested") (str "Realtime packets dropped due to congested buffer") IntCounter;
  mkMetric (str "redpill_rtt_ms") (str "RTT in milliseconds") (Histogram [5; 10; 25; 50; 100; 250]);
  mkMetric (str "redpill_sessions_by_user") (str "Active sessions per user") (IntGaugeVec [str "user"])
].

(** prometheus: names are [[a-zA-Z_:][a-zA-Z0-9_:]*], labels likewise without colons, the help
    is not empty, and bucket bounds increase. *)
Definition name_start (colon : bool) (b : byte) : bool :=
  let z := b2z b in
  (65 <=? z) && (z <=? 90) || (97 <=? z) && (z <=? 122) || (z =? 95) || colon && (z =? 58).
Definition name_char (colon : bool) (b : byte) : bool :=
  name_start colon b || (48 <=? b2z b) && (b2z b <=? 57).
Definition valid_name (colon : bool) (n : bytes) : bool :=
  match n with [] => false | b :: r => name_start colon b && forallb (name_char colon) r end.
Fixpoint increasing (l : list Z) : bool :=
  match l with
  | a :: (b :: _) as r => (a <? b) && increasing r
  | _ => true
  end.
Definition valid_metric (m : Metric) : bool :=
  valid_name true (metric_name m) && negb (bool_decide (metric_help m = [])) &&
  match metric_kind m with
  | Histogram b => increasing b
  | IntGaugeVec ls => forallb (valid_name false) ls
  | _ => true
  end.

(** [.unwrap()] of each constructor, and of each [register], which refuses a name that is
    taken. *)
Fixpoint register_all (registry : list bytes) (ms : list Metric) : panics (list bytes) :=
  match ms with
  | [] => Some registry
  | m :: ms =>
      if negb (valid_metric m) then None
      else if decide (metric_name m ∈ registry) then None
      else register_all (registry ++ [metric_name m]) ms
  end.
Definition Metrics_new : panics (list bytes) := register_all [] METRICS.

(** The service of [spawn_metrics_server]; [render] is what the encoder prints. *)
Definition serve_metrics (render : bytes) (path : bytes) : Z * bytes :=
  if decide (path = str "/metrics") then (200, render) else (404, str "Not Found").

(** [spawn_metrics_server]: [None] is an accept error, which is logged; each connection is a
    list of requested paths. *)
Fixpoint metrics_conns (render : bytes) (conns : list (option (list bytes))) : list (list (Z * bytes)) :=
  match conns with
  | [] => []
  | None :: conns => metrics_conns render conns
  | Some paths :: conns => (serve_metrics render <$> paths) :: metrics_conns render conns
  end.
Definition metrics_server (bound : bool) (render : bytes) (conns : list (option (list bytes)))
    : list (list (Z * bytes)) :=
  if negb bound then [] else metrics_conns render conns.

(** ** Theorems *)

(** What one request is answered with. *)
Definition full_answer (html : bytes) : list Sent :=
  [SendHead {| rs_status := 200;
               rs_headers := [(str "server", str "nginx/1.24.0"); (str "content-type", str "text/html");
                              (str "content-length", show_int (zlen html))] |};
   SendData html; FinishStream].

Definition answers (n : nat) (html : bytes) : list Put := concat (replicate n (Whole <$> full_answer html)).

(** The last answer, when it was not completed: a call failed or ran into the timeout. *)
Definition cut_short (html : bytes) (l : list Put) : Prop :=
  exists k s, full_answer html !! k = Some s /\ l = (Whole <$> take k (full_answer html)) ++ [Partly s].

Definition end_time (e : DecoyEnd) : Z := match e with EndedBy t => t | TimedOutAt t => t end.

Definition in_time (x : Z * Put) : Prop :=
  match x.2 with Whole _ => x.1 < DECOY_TIMEOUT | Partly _ => x.1 <= DECOY_TIMEOUT end.

Definition served_ok (html : bytes) (r : Served) : Prop :=
  Forall in_time r.1 /\ end_time r.2 <= DECOY_TIMEOUT /\
  exists n last, r.1.*2 = answers n html ++ last /\ (last = [] \/ cut_short html last).

Lemma silent_ok html e : end_time e <= DECOY_TIMEOUT -> served_ok html ([], e).
Proof. intros He. split_and!; [constructor|done|]. exists 0%nat, []. by split; [|left]. Qed.

Lemma call_ok html c k : served_ok html k -> served_ok html (call c k).
Proof.
  intros Hk. unfold call. destruct (_ <=? _) eqn:Et; boolify; [by apply silent_ok|].
  destruct (negb c.2); [|done]. apply silent_ok. simpl. lia.
Qed.

(** [k] calls of the answer have succeeded. *)
Definition rest_ok (html : bytes) (k : nat) (r : Served) : Prop :=
  Forall in_time r.1 /\ end_time r.2 <= DECOY_TIMEOUT /\
  exists n last, (Whole <$> take k (full_answer html)) ++ r.1.*2 = answers n html ++ last /\
    (last = [] \/ cut_short html last).

Lemma emit_ok html k c s r : full_answer html !! k = Some s -> rest_ok html (S k) r -> rest_ok html k (emit c s r).
Proof.
  intros Hk (Hf & He & n & last & Hr & Hl).
  assert (Hcut : exists n l, (Whole <$> take k (full_answer html)) ++ [Partly s] = answers n html ++ l /\
    (l = [] \/ cut_short html l)) by (eexists 0%nat, _; split; [done|right; by exists k, s]).
  unfold emit. destruct (_ <=? _) eqn:Et; boolify.
  { split_and!; [by apply Forall_singleton|done|exact Hcut]. }
  destruct (negb c.2); [split_and!; [apply Forall_singleton; unfold in_time; simpl; lia|simpl; lia|exact Hcut]|].
  destruct r as [outs e]. cbn [fst snd] in *. split_and!; [by apply Forall_cons|done|].
  exists n, last. split; [|done]. rewrite <-Hr, (take_S_r _ _ _ Hk), fmap_app, <-app_assoc. done.
Qed.

Lemma accept_loop_ok html evs : served_ok html (accept_loop html evs).
Proof.
  induction evs as [|[t [x| |]] evs IH]; cbn [accept_loop]; [by apply silent_ok| |..].
  - do 2 apply call_ok. change (served_ok html) with (rest_ok html 0).
    apply emit_ok; [done|]. apply emit_ok; [done|]. apply emit_ok; [done|].
    destruct IH as (Hf & He & n & last & Hr & Hl). split_and!; [done..|].
    exists (S n), last. split; [|done]. by rewrite Hr.
  - unfold call. destruct (_ <=? _) eqn:Et; boolify; apply silent_ok; simpl in *; lia.
  - unfold call. destruct (_ <=? _) eqn:Et; boolify; apply silent_ok; simpl in *; lia.
Qed.

(** A request whose four calls succeed in time. *)
Definition good_request (e : Z * Accepted) : Prop :=
  e.1 < DECOY_TIMEOUT /\
  match e.2 with
  | AcceptRequest x => Forall (fun c : Call => c.1 < DECOY_TIMEOUT /\ c.2 = true)
                         [resolved x; head_sent x; data_sent x; finished x]
  | _ => False
  end.

Lemma call_good c k : c.1 < DECOY_TIMEOUT -> c.2 = true -> call c k = k.
Proof. intros Ht Hok. unfold call. by rewrite (proj2 (Z.leb_gt _ _)), Hok by done. Qed.

Lemma accept_loop_good html evs rest : Forall good_request evs ->
  (accept_loop html (evs ++ rest)).1.*2 = answers (length evs) html ++ (accept_loop html rest).1.*2 /\
  (accept_loop html (evs ++ rest)).2 = (accept_loop html rest).2.
Proof.
  intros Hg. induction Hg as [|[u a] evs [Hu Ha] _ [IH1 IH2]]; [done|].
  simpl in Hu, Ha. destruct a as [x| |]; [|done..]. rewrite !Forall_cons in Ha.
  destruct Ha as ((H1 & O1) & (H2 & O2) & (H3 & O3) & (H4 & O4) & _).
  cbn [accept_loop app]. rewrite (call_good (u, true)), call_good by done.
  unfold emit. rewrite !(proj2 (Z.leb_gt _ _)), O2, O3, O4 by done. cbn [negb].
  destruct (accept_loop html (evs ++ rest)) as [outs e]. cbn [fst snd] in *. csimpl. by rewrite IH1, IH2.
Qed.

(** [C33] The decoy looks like a web server and lets go. Whatever the peer does, the handler
    ends within 30 seconds of its start, closing the connection itself exactly when time ran
    out, and sends nothing after that. What it sends is a number of complete answers, each
    of them a head with status 200, server [nginx/1.24.0], type [text/html] and the length
    of the body, then that body (the page file when it can be read and is UTF-8, else the
    built-in page), then the end of the stream; and possibly one more answer, cut short by a call that failed or ran out of
    time. When every request completes in time and the peer closes, all of them have been
    answered and the handler ends with the peer. The 30 seconds are counted from the start
    and not from the last request: a peer that was active throughout, with every request
    answered, is cut off all the same at 30 seconds. *)
Theorem decoy_spec {W} `{Files W} page_path built evs (w : W) :
  let html := decoy_page page_path w in
  let '(outs, e, closed) := handle_http3 page_path built evs w in
  html = default DEFAULT_HTML (text ← read_file page_path w; guard (utf8_valid text = true);; Some text) /\
  Forall in_time outs /\ end_time e <= DECOY_TIMEOUT /\
  (closed = true <-> exists t, e = TimedOutAt t) /\
  (exists n last, outs.*2 = answers n html ++ last /\ (last = [] \/ cut_short html last)) /\
  (forall reqs t a, evs = reqs ++ [(t, a)] -> Forall good_request reqs ->
     built.1 < DECOY_TIMEOUT -> built.2 = true ->
     (a = AcceptClosed -> t < DECOY_TIMEOUT ->
        outs.*2 = answers (length reqs) html /\ e = EndedBy t /\ closed = false) /\
     (DECOY_TIMEOUT <= t ->
        outs.*2 = answers (length reqs) html /\ e = TimedOutAt 30000 /\ closed = true)).
Proof.
  cbv zeta. set (html := decoy_page page_path w). unfold handle_http3. fold html.
  destruct (call_ok html built _ (accept_loop_ok html evs)) as (Hf & He & Hn).
  destruct (call built (accept_loop html evs)) as [outs e] eqn:Ec. cbn [fst snd] in *. split_and!; try done.
  - unfold html, decoy_page. destruct (read_file page_path w) as [text|]; [|done]. simpl.
    case_guard as Hu; simpl; [by rewrite Hu|by destruct (utf8_valid text)].
  - destruct e; split; (done || eauto || by intros []).
  - intros reqs t a -> Hg Hb1 Hb2. rewrite call_good in Ec by done.
    destruct (accept_loop_good html reqs [(t, a)] Hg) as [H1 H2]. rewrite Ec in H1, H2. cbn [fst snd] in H1, H2.
    split; [intros -> Ht|intros Ht]; rewrite H1, H2; cbn [accept_loop].
    + rewrite call_good by done. cbn. by rewrite app_nil_r.
    + destruct a; unfold call; rewrite (proj2 (Z.leb_le _ _)) by done; cbn; by rewrite app_nil_r.
Qed.

Section witness.
#[local] Instance no_files : Files unit := {
  read_file _ _ := None; write_file _ _ w := (false, w); remove_file _ w := (false, w)
}.

(** One request, then the peer closes. *)
Definition ex_request : Z * Accepted :=
  (10, AcceptRequest (mkExchange (11, true) (12, true) (13, true) (14, true))).

Lemma decoy_spec_witness :
  let '(outs, e, closed) := handle_http3 (str "none") (1, true) [ex_request; (20, AcceptClosed)] () in
  outs.*2 = Whole <$> full_answer DEFAULT_HTML /\ e = EndedBy 20.
Proof.
  pose proof (decoy_spec (str "none") (1, true) [ex_request; (20, AcceptClosed)] ()) as Hd. cbv zeta in Hd.
  destruct (handle_http3 _ _ _ _) as [[outs e] closed]. destruct Hd as (_ & _ & _ & _ & _ & Hd).
  destruct (Hd [ex_request] 20 AcceptClosed) as [[Ho [He _]] _]; try reflexivity.
  - apply Forall_singleton. split; [reflexivity|].
    repeat (apply Forall_cons; split; [split; reflexivity|]). constructor.
  - split; [|exact He]. rewrite Ho. reflexivity.
Defined.
End witness.

Lemma register_all_names ms : forall reg l, register_all reg ms = Some l ->
  l = reg ++ (metric_name <$> ms) /\ (NoDup reg -> NoDup l).
Proof.
  induction ms as [|m ms IH]; intros reg l; cbn [register_all].
  - intros [= <-]. by rewrite app_nil_r.
  - destruct (negb (valid_metric m)); [done|]. case_decide as Hin; [done|]. intros Hr.
    apply IH in Hr as [-> Hnd]. rewrite <-app_assoc. split; [done|]. intros Hreg.
    rewrite <-app_assoc in Hnd. apply Hnd. apply NoDup_app. split_and!; [done|set_solver|apply NoDup_singleton].
Qed.

(** Creating the metrics never panics: the names are valid and different, and these are what is registered.
    The endpoint answers [/metrics] with the rendered registry and every other path with
    404, and an accept error costs no other connection. *)
Theorem metrics_endpoint_spec (render : bytes) (conns : list (option (list bytes))) :
  Metrics_new = Some (metric_name <$> METRICS) /\ NoDup (metric_name <$> METRICS) /\
  length METRICS = 16%nat /\
  metrics_server true render conns =
    List.map (List.map (fun p => if decide (p = str "/metrics") then (200, render) else (404, str "Not Found")))
      (omap id conns).
Proof.
  assert (Metrics_new = Some (metric_name <$> METRICS)) as Hn by (vm_compute; reflexivity).
  destruct (register_all_names METRICS [] _ Hn) as [_ Hnd].
  split_and!; [done|apply Hnd; constructor|done|].
  unfold metrics_server. simpl. induction conns as [|[paths|] conns IH]; simpl; [done|by rewrite IH|done].
Qed.
