(* ===== verification/Supervise.v ===== *)
(** Who watches the tasks of a tunnel: [run_tunnel] of the client with its background tasks
    ([client.rs]), [run_vpn_tunnel] of the server ([server.rs]), the Windows variant of the
    client's uplink with its reader thread, the WebSocket accept loop, and the receive loop
    of the direct TCP tunnel ([tcp_reality.rs]).

    A spawned task runs until it ends or is aborted; dropping its handle does not stop it.
    What the tasks do is in [Tunnel], [Streams] and [Stats]; here it matters which of them
    run, and whose end is noticed. *)

From S2P Require Import Prelude Datagram Stats Shaper Transport Tunnel Streams Manager Device.

Inductive Task := StatsTask | RttTask | QueueTask | UplinkTask | IdleTask.
#[export] Instance task_eq_dec : EqDecision Task.
Proof. solve_decision. Defined.

(** The tasks that are running. *)
Abbreviation Tasks := (list Task).
Definition start (t : Task) (ts : Tasks) : Tasks := t :: ts.
(** [abort], and the end of a task *)
Definition stop (t : Task) (ts : Tasks) : Tasks := filter (fun u => u <> t) ts.

(** ** The client's tunnel *)

Inductive TunnelExit := ExitError | HealthReconnect (r : ReconnectReason).

(** What happens while the tunnel runs: the uplink task returns, [recv] gives a packet or
    fails, the health monitor fires. *)
Inductive TunnelEvent := UplinkEnds | Received | RecvFails | HealthFires (r : ReconnectReason).

(** The [select!]; [None]: still running. *)
Fixpoint tunnel_select (evs : list TunnelEvent) (ts : Tasks) : option TunnelExit * Tasks :=
  match evs with
  | [] => (None, ts)
  | UplinkEnds :: evs => tunnel_select evs (stop UplinkTask ts)
  | Received :: evs => tunnel_select evs ts
  | RecvFails :: _ => (Some ExitError, ts)
  | HealthFires r :: _ => (Some (HealthReconnect r), ts)
  end.

(** [dup_ok], [async_ok]: the descriptor can be duplicated and registered. *)
Definition run_tunnel (quiet : bool) (mode : TransportMode) (dup_ok async_ok : bool)
    (evs : list TunnelEvent) (ts : Tasks) : option TunnelExit * Tasks :=
  let ts := if negb quiet then start StatsTask ts else ts in
  if negb dup_ok then (Some ExitError, ts)
  else if negb async_ok then (Some ExitError, ts)
  else
    let ts := start UplinkTask ts in
    let ts := if decide (mode = QuicCamouflaged) then start IdleTask ts else ts in
    match tunnel_select evs ts with
    | (None, ts) => (None, ts)
    | (Some tunnel_exit, ts) =>
        let ts := stop UplinkTask ts in
        let ts := if decide (mode = QuicCamouflaged) then stop IdleTask ts else ts in
        let ts := if negb quiet then stop StatsTask ts else ts in
        (Some tunnel_exit, ts)
    end.

(** ** The server's tunnel *)

Inductive ServerEvent := QueueEnds | DatagramRead | DatagramFails | Cancelled.

Fixpoint server_select (evs : list ServerEvent) (ts : Tasks) : option bool * Tasks :=
  match evs with
  | [] => (None, ts)
  | QueueEnds :: evs => server_select evs (stop QueueTask ts)
  | DatagramRead :: evs => server_select evs ts
  | DatagramFails :: _ => (Some false, ts)
  | Cancelled :: _ => (Some true, ts)
  end.

Definition run_vpn_tunnel (evs : list ServerEvent) (ts : Tasks) : option bool * Tasks :=
  let ts := start QueueTask (start RttTask (start StatsTask ts)) in
  match server_select evs ts with
  | (None, ts) => (None, ts)
  | (Some dg2tun_result, ts) => (Some dg2tun_result, stop RttTask (stop StatsTask (stop QueueTask ts)))
  end.

(** ** The uplink on Windows *)

Definition WIN_BUF : nat := Z.to_nat (TUN_MTU + 64).

(** What [read_packet] gives the reader thread, with whether the channel is open then. *)
Inductive WinRead := WinData (p : bytes) | WinError.

Record WinReader := mkWinReader { win_sent : list bytes; win_lost : list bytes; win_unread : list (WinRead * bool); win_ended : bool }.

Fixpoint win_reader (reads : list (WinRead * bool)) : WinReader :=
  match reads with
  | [] => mkWinReader [] [] [] false
  | (WinError, _) :: reads => mkWinReader [] [] reads true
  | (WinData p, open) :: reads =>
      let pkt := take WIN_BUF p in
      if decide (pkt = []) then win_reader reads
      else if (open : bool) then
        let r := win_reader reads in
        mkWinReader (pkt :: win_sent r) (win_lost r) (win_unread r) (win_ended r)
      else mkWinReader [] [pkt] reads true
  end.

(** The task that empties the channel: no call flushes the transport. *)
Fixpoint win_tun2dg `{Transport T} (pkts : list bytes) (st : Stats) (t : T)
    : panics (result TransportError unit * Stats * T) :=
  match pkts with
  | [] => Some (Ok tt, st, t)
  | pkt :: pkts =>
      let st := count_tun_read st in
      '(res, t) ← send pkt t;
      match res with
      | Ok o => win_tun2dg pkts (count_sent (zlen pkt) o st) t
      | Err e => Some (Err e, st, t)
      end
  end.

(** ** The WebSocket listener *)

(** What its [select!] sees: a connection, a failed accept, the shutdown. *)
Inductive AcceptEvent (A : Type) := Conn (a : A) | AcceptFails | Shutdown.
Arguments Conn {A} a.
Arguments AcceptFails {A}.
Arguments Shutdown {A}.

(** The connections handed to [handle_ws_connection], and whether the loop has ended. *)
Fixpoint ws_accept_loop {A} (evs : list (AcceptEvent A)) : list A * bool :=
  match evs with
  | [] => ([], false)
  | Shutdown :: _ => ([], true)
  | AcceptFails :: evs => ws_accept_loop evs
  | Conn a :: evs => let '(cs, e) := ws_accept_loop evs in (a :: cs, e)
  end.
Definition run_ws_listener {A} (bound : bool) (evs : list (AcceptEvent A)) : list A * bool :=
  if negb bound then ([], true) else ws_accept_loop evs.

(** ** The direct TCP tunnel *)

(** The receive loop of [run_tcp_vpn_tunnel], which has no shaper; see [Tunnel.tls2tun_loop]
    for the fuel. *)
Fixpoint vpn2tun_loop (fuel : nat) (client_ip : Ipv4Addr) (tun_ok : bytes -> bool) (os : Platform)
    (inp : bytes) (eof : bool) (pkt_buf : bytes) (out : list bytes)
    : panics (option TransportError * list bytes) :=
  match fuel with
  | O => None
  | S fuel =>
      f ← read_frame inp eof pkt_buf;
      match f with
      | None => Some (None, out)
      | Some (Err e) => Some (Some e, out)
      | Some (Ok (pkt, rest, pkt_buf)) =>
          valid ← validate_source_ip pkt client_ip;
          if negb valid then vpn2tun_loop fuel client_ip tun_ok os rest eof pkt_buf out
          else
            w ← write_to_tun os pkt;
            vpn2tun_loop fuel client_ip tun_ok os rest eof pkt_buf
              match w with Some call => if tun_ok call then out ++ [pkt] else out | None => out end
      end
  end.
Definition run_vpn2tun (client_ip : Ipv4Addr) (tun_ok : bytes -> bool) (os : Platform)
    (inp : bytes) (eof : bool) (out : list bytes) : panics (option TransportError * list bytes) :=
  vpn2tun_loop (S (length inp)) client_ip tun_ok os inp eof (replicate 1500 x00) out.

(** ** Lemmas *)

Lemma vpn2tun_loop_eq client_ip now tun_ok os sh : (forall n, shaper_check now n sh = (true, sh)) ->
  forall fuel inp eof pkt_buf r, r_shaper r = sh ->
  vpn2tun_loop fuel client_ip tun_ok os inp eof pkt_buf (tun r) =
    prod_map id tun <$> tls2tun_loop fuel client_ip now tun_ok os inp eof pkt_buf r.
Proof.
  intros Hsh. induction fuel as [|fuel IH]; intros inp eof pkt_buf r Hr; [done|].
  cbn [vpn2tun_loop tls2tun_loop]. destruct (read_frame inp eof pkt_buf) as [[[[[pkt rest] buf]|e]|]|];
    cbn [mbind option_bind]; [|done..].
  unfold tls2tun. destruct (validate_source_ip pkt client_ip) as [[]|]; cbn [mbind option_bind negb]; [|by apply IH|done].
  rewrite Hr, Hsh. cbn [negb]. destruct (write_to_tun os pkt) as [[call|]|]; cbn [mbind option_bind]; [| |done].
  - rewrite <-(IH rest eof buf (mkReceiver (if tun_ok call then tun r ++ [pkt] else tun r) _ _ sh)) by done. done.
  - rewrite <-(IH rest eof buf (mkReceiver (tun r) _ _ sh)) by done. done.
Qed.

Definition is_uplink (e : TunnelEvent) : bool := match e with UplinkEnds => true | _ => false end.

Lemma stop_in t u ts : u ∈ stop t ts <-> u ∈ ts /\ u <> t.
Proof. unfold stop. rewrite list_elem_of_filter. naive_solver. Qed.

Lemma tunnel_select_tasks evs : forall ts x ts', tunnel_select evs ts = (x, ts') ->
  forall u, u ∈ ts' -> u ∈ ts.
Proof.
  induction evs as [|[] evs IH]; intros ts x ts'; cbn [tunnel_select]; try by intros [= <- <-].
  - intros Hs u Hu. eapply IH in Hs; [|exact Hu]. by apply stop_in in Hs as [].
  - apply IH.
Qed.

Lemma tunnel_select_exit evs : forall ts ts',
  (tunnel_select evs ts).1 = (tunnel_select (List.filter (fun e => negb (is_uplink e)) evs) ts').1.
Proof. induction evs as [|[] evs IH]; intros ts ts'; simpl; auto. Qed.

Lemma tunnel_select_none evs : forall ts,
  (tunnel_select evs ts).1 = None <-> Forall (fun e => e = UplinkEnds \/ e = Received) evs.
Proof.
  induction evs as [|e evs IH]; intros ts; [by split|]. rewrite Forall_cons.
  destruct e; cbn [tunnel_select].
  - rewrite IH. split; [intros; split; [by left|done]|by intros []].
  - rewrite IH. split; [intros; split; [by right|done]|by intros []].
  - split; [done|]. by intros [[]].
  - split; [done|]. by intros [[]].
Qed.

Lemma server_select_tasks evs : forall ts x ts', server_select evs ts = (x, ts') ->
  forall u, u ∈ ts' -> u ∈ ts.
Proof.
  induction evs as [|[] evs IH]; intros ts x ts'; cbn [server_select]; try by intros [= <- <-].
  - intros Hs u Hu. eapply IH in Hs; [|exact Hu]. by apply stop_in in Hs as [].
  - apply IH.
Qed.

Lemma nothing_left (ts : Tasks) : (forall u, u ∉ ts) -> ts = [].
Proof. destruct ts as [|u ts]; [done|]. intros Hts. exfalso. apply (Hts u). left. Qed.

(** *** The buffered writer *)

(** tokio's [BufWriter] passes nothing on while its buffer has room. *)
Class HoldsBack (B : Type) `{Writer B} := {
  capacity : B -> nat;
  held_back d (w : B) : (length (buffered w) + length d <= capacity w)%nat -> (length d < capacity w)%nat ->
    exists w', write_all d w = (true, w') /\ written w' = written w /\
      buffered w' = buffered w ++ d /\ capacity w' = capacity w
}.

Definition framed (pkts : list bytes) : bytes := concat (frame <$> pkts).

Lemma win_tun2dg_held `{HoldsBack B} pkts : forall st (c : TcpConn B),
  Forall (fun p => zlen p <= MAX_FRAME_SIZE) pkts ->
  (length (buffered (writer c)) + length (framed pkts) < capacity (writer c))%nat ->
  exists st' c', win_tun2dg pkts st c = Some (Ok tt, st', c') /\
    st' = foldl (fun st p => record_send (zlen p) (count_tun_read st)) st pkts /\
    written (writer c') = written (writer c) /\
    buffered (writer c') = buffered (writer c) ++ framed pkts.
Proof.
  induction pkts as [|p pkts IH]; intros st c Hf Hl.
  - exists st, c. split_and!; [done..|]. by rewrite app_nil_r.
  - apply Forall_cons in Hf as [Hp Hf]. unfold framed in *. rewrite fmap_cons, concat_cons, length_app in Hl.
    destruct (held_back (frame p) (writer c)) as (w' & Hw & Hwr & Hb & Hc); [lia|lia|].
    cbn [win_tun2dg]. change (send p c) with (Some (tcp_send p c)). unfold tcp_send.
    rewrite (proj2 (Z.ltb_ge _ _)) by done. rewrite Hw. cbn [mbind option_bind].
    destruct (IH (count_sent (zlen p) Sent (count_tun_read st)) (with_writer w' c) Hf) as (st' & c' & E & Hst & Hw' & Hb').
    { simpl. rewrite Hb, Hc, length_app. lia. }
    exists st', c'. rewrite E. split_and!; [done|by rewrite Hst|by rewrite Hw'|].
    rewrite Hb'. cbn [with_writer writer]. rewrite Hb, fmap_cons, concat_cons. by rewrite app_assoc.
Qed.

(** ** Theorems *)

(** The direct TCP tunnel treats what arrives exactly as the server's Reality tunnel does
    with a shaper that lets everything through: the same packets reach the TUN device, and
    the same error ends it. *)
Theorem direct_tunnel_is_unshaped client_ip now tun_ok os inp eof r :
  (forall n, shaper_check now n (r_shaper r) = (true, r_shaper r)) ->
  run_vpn2tun client_ip tun_ok os inp eof (tun r) =
    prod_map id tun <$> run_tls2tun client_ip now tun_ok os inp eof r.
Proof. intros Hsh. by apply (vpn2tun_loop_eq client_ip now tun_ok os (r_shaper r)). Qed.

(** [C27] The tasks of a tunnel. When [run_tunnel] or [run_vpn_tunnel] returns after its tasks
    were set up, none of them is left running. But when the TUN descriptor cannot be duplicated or
    registered, the client's statistics task, if there is one, is left behind for ever. And
    the end of the uplink task is never looked at: the tunnel goes on exactly as if it
    had not ended, until something fails in the other direction or the monitor fires. *)
Theorem tunnel_tasks quiet mode dup_ok async_ok evs x ts :
  run_tunnel quiet mode dup_ok async_ok evs [] = (x, ts) ->
  (if dup_ok && async_ok
   then (is_Some x -> ts = []) /\
        x = (run_tunnel quiet mode true true (List.filter (fun e => negb (is_uplink e)) evs) []).1 /\
        (x = None <-> Forall (fun e => e = UplinkEnds \/ e = Received) evs)
   else x = Some ExitError /\ ts = if quiet then [] else [StatsTask]) /\
  (forall sevs r sts, run_vpn_tunnel sevs [] = (Some r, sts) -> sts = []).
Proof.
  intros Hrun. split.
  - unfold run_tunnel in Hrun.
    destruct dup_ok; [destruct async_ok|]; cbn [andb negb] in *; [|by destruct quiet; simplify_eq..].
    set (ts0 := if decide (mode = QuicCamouflaged) then _ else _) in Hrun.
    destruct (tunnel_select evs ts0) as [y ts1] eqn:Es.
    pose proof (tunnel_select_tasks _ _ _ _ Es) as Hin.
    assert (y = x) as -> by (destruct y; by simplify_eq). split_and!.
    + intros [e He]. subst x. injection Hrun as <-. apply nothing_left. intros u Hu.
      subst ts0. destruct quiet, (decide (mode = QuicCamouflaged)); cbn [negb] in *;
        repeat match goal with Hu : u ∈ stop _ _ |- _ => apply stop_in in Hu as [Hu ?] end;
        apply Hin in Hu; unfold start in Hu;
        repeat (apply elem_of_cons in Hu as [->|Hu]; [done|]); by apply not_elem_of_nil in Hu.
    + unfold run_tunnel. cbn [negb]. fold ts0.
      pose proof (tunnel_select_exit evs ts0 ts0) as Hx. rewrite Es in Hx. cbn [fst] in Hx. rewrite Hx.
      by destruct (tunnel_select (List.filter _ evs) ts0) as [[?|] ?].
    + assert (x = (tunnel_select evs ts0).1) as -> by by rewrite Es. apply tunnel_select_none.
  - intros sevs r sts. unfold run_vpn_tunnel. destruct (server_select _ _) as [[b|] ts1] eqn:Es; [|done].
    intros [= <- <-]. apply nothing_left. intros u Hu.
    apply stop_in in Hu as [Hu ?]. apply stop_in in Hu as [Hu ?]. apply stop_in in Hu as [Hu ?].
    eapply server_select_tasks in Hu; [|exact Es]. unfold start in Hu.
    repeat (apply elem_of_cons in Hu as [->|Hu]; [done|]). by apply not_elem_of_nil in Hu.
Qed.

Lemma tunnel_tasks_witness :
  run_tunnel false TcpReality false true [] [] = (Some ExitError, [StatsTask]) /\
  (run_tunnel true TcpReality true true [UplinkEnds; Received] []).1 = None.
Proof.
  split.
  - destruct (run_tunnel false TcpReality false true [] []) as [x ts] eqn:E.
    destruct (tunnel_tasks false TcpReality false true [] x ts E) as [[-> ->] _]. reflexivity.
  - destruct (run_tunnel true TcpReality true true [UplinkEnds; Received] []) as [x ts] eqn:E.
    destruct (tunnel_tasks true TcpReality true true _ x ts E) as [(_ & _ & Hx) _]. apply Hx.
    apply Forall_cons. split; [by left|]. apply Forall_singleton. by right.
Defined.

(** Reads while the channel is open, and after it was closed. *)
Definition at_open (rs : list WinRead) : list (WinRead * bool) := (fun r => (r, true)) <$> rs.
Definition at_closed (rs : list WinRead) : list (WinRead * bool) := (fun r => (r, false)) <$> rs.

Lemma win_cut (p : bytes) : p <> [] -> take WIN_BUF p <> [].
Proof.
  intros Hp Hc. apply (f_equal length) in Hc. rewrite length_take in Hc.
  destruct p; [done|]. unfold WIN_BUF, TUN_MTU in Hc. simpl in Hc. lia.
Qed.

Lemma win_reader_open ps rs : Forall (fun p => p <> []) ps ->
  win_reader (at_open (WinData <$> ps) ++ rs) =
    let r := win_reader rs in
    mkWinReader ((take WIN_BUF <$> ps) ++ win_sent r) (win_lost r) (win_unread r) (win_ended r).
Proof.
  induction 1 as [|p ps Hp _ IH]; [simpl; by destruct (win_reader rs)|].
  unfold at_open in *. cbn [fmap list_fmap app win_reader]. rewrite decide_False by by apply win_cut.
  by rewrite IH.
Qed.

(** The uplink of the Windows client stalls. Its task sends but never flushes: over TCP
    everything it is given counts as sent and stays in the write buffer as long as it fits,
    where the Unix task, which flushes after each batch, would have delivered it. And its reader
    thread is not stopped with the tunnel: it reads one more packet, loses it because the
    channel is closed, and only then ends. *)
Theorem windows_uplink_stalls `{HoldsBack B} pkts st (c : TcpConn B) :
  Forall (fun p => zlen p <= MAX_FRAME_SIZE) pkts ->
  (length (buffered (writer c)) + length (framed pkts) < capacity (writer c))%nat ->
  (exists c', win_tun2dg pkts st c =
       Some (Ok tt, foldl (fun st p => record_send (zlen p) (count_tun_read st)) st pkts, c') /\
     written (writer c') = written (writer c) /\
     buffered (writer c') = buffered (writer c) ++ framed pkts) /\
  (forall ps p rest, Forall (fun p => p <> []) ps -> p <> [] ->
     win_reader (at_open (WinData <$> ps) ++ at_closed (WinData p :: rest)) =
       mkWinReader (take WIN_BUF <$> ps) [take WIN_BUF p] (at_closed rest) true).
Proof.
  intros Hf Hl. split.
  - destruct (win_tun2dg_held pkts st c Hf Hl) as (st' & c' & E & -> & Hw & Hb). by exists c'.
  - intros ps p rest Hps Hp. rewrite win_reader_open by done. unfold at_closed. cbn [fmap list_fmap win_reader].
    rewrite decide_False by by apply win_cut. by rewrite app_nil_r.
Qed.

#[local] Instance capped_holds_back : HoldsBack CappedWriter.
Proof.
  refine {| capacity := cw_cap |}. intros d w Hl Hd. simpl in *.
  exists (mkCapped (cw_cap w) (cw_room w) (cw_out w) (cw_buf w ++ d)).
  rewrite decide_False by (rewrite length_app; lia). simpl. by rewrite decide_False by lia.
Defined.

(** Two packets into an empty buffer of 64 KiB. *)
Definition ex_win_conn : TcpConn CappedWriter := mkTcp (mkCapped (Z.to_nat 65536) (Z.to_nat 65536) [] []) [] false [].

Lemma windows_uplink_stalls_witness :
  exists c' st', win_tun2dg [[x45; x00]; [x45; x01]] stats_new ex_win_conn = Some (Ok tt, st', c') /\
    cw_out (writer c') = [] /\ cw_buf (writer c') = [x00; x02; x45; x00; x00; x02; x45; x01].
Proof.
  destruct (windows_uplink_stalls [[x45; x00]; [x45; x01]] stats_new ex_win_conn) as [(c' & E & Hw & Hb) _].
  - repeat (apply Forall_cons; split; [vm_compute; discriminate|]). constructor.
  - apply (proj1 (Nat.ltb_lt _ _)). vm_compute. reflexivity.
  - exists c', (foldl (fun st p => record_send (zlen p) (count_tun_read st)) stats_new [[x45; x00]; [x45; x01]]).
    split; [exact E|]. split; [exact Hw|]. etransitivity; [exact Hb|]. vm_compute. reflexivity.
Defined.
