(* ===== verification/Setup.v ===== *)
(** Before anything runs: the server's user commands and choice of certificate ([main] of
    [server.rs]), the client's settings from command line and file, and its TUN device
    ([run_client] of [client.rs]).

    This is where [Users], [Certs], [Profile], [Device], [Auth] and [Config] are put to
    use; argument parsing (clap) and printing are left out. *)

From stdpp Require Import sorting.
From S2P Require Import Prelude Text Datagram Auth Users Config Route Certs Manager Profile Connectors Device.

(** ** User commands of the server *)

Inductive Command := AddUser (name : bytes) | RemoveUser (name : bytes) | ListUsers.
Inductive AdminError :=
  | ConfigNotFound (path : bytes) | ConfigInvalid | NotMultiUser | CreateDirFailed
  | StoreFailed (e : UserError).

(** [loaded]: what [ServerConfig::load] gives. *)
Definition main_config (path : bytes) (exists_ : bool) (loaded : option ServerConfig)
    (cmd : option Command) : result AdminError ServerConfig :=
  if exists_ then ok_or ConfigInvalid loaded
  else match cmd with
       | Some _ => Err (ConfigNotFound path)
       | None => Ok server_config_default
       end.

(** [Ord] on strings: octet by octet. *)
Fixpoint bytes_le (a b : bytes) : bool :=
  match a, b with
  | [], _ => true
  | _ :: _, [] => false
  | x :: a, y :: b => (b2z x <? b2z y) || (b2z x =? b2z y) && bytes_le a b
  end.
Definition before (a b : bytes) : Prop := bytes_le a b = true.
#[export] Instance before_dec a b : Decision (before a b) := decide (bytes_le a b = true).

Definition usernames `{HashIter} (s : UserStore) : list bytes := (hash_iter (users s)).*2.

(** What [ListUsers] prints, line by line. *)
Definition list_users `{HashIter} (s : UserStore) : list bytes :=
  let names := merge_sort before (usernames s) in
  if decide (names = []) then [str "No users configured."]
  else (show_int (zlen names) ++ str " user(s):") :: ((fun n => str "  " ++ n) <$> names).

(** The directory as it is found (created when missing), the key drawn for a new user, and
    whether the file operation succeeds. *)
Record AdminEnv := mkAdminEnv {
  dir_there : bool; mkdir_works : bool; dir_entries : option (list DirEntry);
  new_psk : bytes; file_op_works : bool
}.

(** What is printed, and the directory afterwards. *)
Definition run_command `{HashIter} (c : ServerConfig) (cmd : Command) (env : AdminEnv) (fs : FS)
    : panics (result AdminError (list bytes) * FS) :=
  match users_dir c with
  | None => Some (Err NotMultiUser, fs)
  | Some dir =>
      if negb (dir_there env) && negb (mkdir_works env) then Some (Err CreateDirFailed, fs)
      else
        r ← load dir true (dir_entries env);
        match r with
        | Err e => Some (Err (StoreFailed e), fs)
        | Ok store =>
            match cmd with
            | AddUser name =>
                let '(r, _, fs) := add_user name (new_psk env) (file_op_works env) store fs in
                Some (match r with
                      | Ok hex => Ok [str "User '" ++ name ++ str "' added. PSK: " ++ hex]
                      | Err e => Err (StoreFailed e)
                      end, fs)
            | RemoveUser name =>
                let '(r, _, fs) := remove_user name (file_op_works env) store fs in
                Some (match r with
                      | Ok _ => Ok [str "User '" ++ name ++ str "' removed."]
                      | Err e => Err (StoreFailed e)
                      end, fs)
            | ListUsers => Some (Ok (list_users store), fs)
            end
        end
  end.

(** ** The server's certificate *)

Inductive TlsSource := FromResolver (key : CertifiedKey) | FromPair (pair : CertPair).
Inductive TlsSetupError := NeedsAcmeFeature | CertFailed (e : CertError) | KeysDontMatch.

Definition lift_cert {W A} (f : A -> TlsSource) (r : result CertError A * W)
    : result TlsSetupError TlsSource * W :=
  let '(r, w) := r in (match r with Ok a => Ok (f a) | Err e => Err (CertFailed e) end, w).

(** [acme]: the feature is compiled in; [keys_match]: [with_single_cert] accepts the pair. *)
Definition server_tls {W} `{Pki, Files W, Paths W} (acme : bool) (keys_match : bytes -> bytes -> bool)
    (draw : Z) (c : ServerConfig) (w : W) : panics (result TlsSetupError TlsSource * W) :=
  match Config.domain c with
  | Some d =>
      if acme then Some (lift_cert FromResolver (AcmeCertResolver_new draw d (acme_dir c) w))
      else Some (Err NeedsAcmeFeature, w)
  | None =>
      r ← load_or_generate draw (cert_file c) (Config.key_file c) w;
      Some match r with
           | (Ok cp, w) => if keys_match (cert_der cp) (key_der cp) then (Ok (FromPair cp), w)
                             else (Err KeysDontMatch, w)
           | (Err e, w) => (Err (CertFailed e), w)
           end
  end.

(** ** The client's settings *)

Record Cli := mkCli {
  cli_server : option bytes; cli_cert : option bytes; cli_psk : option bytes;
  cli_config : option bytes; cli_test_mode : bool; cli_quiet : bool
}.

Inductive SettingsError :=
  | ConfigUnreadable | ServerRequired | CertRequired | PskRequired | BadPsk (e : HexError)
  | BadServer (text : bytes).

Record Settings := mkSettings {
  set_addr : bytes; set_cert : bytes; set_auth : PskAuthenticator; set_domain : option bytes;
  set_mode : bytes
}.

Definition client_toml_default : ClientTomlConfig :=
  mkClientToml (mkClientServer None None None None) client_transport_default
    client_camouflage_default client_reality_default (mkClientWs None None).

(** [a.or(b)] *)
Definition or_else {A} (a b : option A) : option A := match a with Some x => Some x | None => b end.

Definition QUIC_PORT : Z := 443.

(** The address with the default port; [None] when it does not parse. *)
Definition server_address `{Ipv6Text} (s : bytes) : option bytes :=
  let s := if contains (str ":") s then s else s ++ str ":" ++ show_int QUIC_PORT in
  if is_socket_addr s then Some s else None.

(** [toml]: what [ClientTomlConfig::load] gives for a path. *)
Definition client_settings `{Ipv6Text} (toml : bytes -> option ClientTomlConfig) (cli : Cli)
    : panics (result SettingsError Settings) :=
  match (match cli_config cli with Some path => toml path | None => Some client_toml_default end) with
  | None => Some (Err ConfigUnreadable)
  | Some t =>
      match or_else (cli_server cli) (cs_address (cfg_server t)) with
      | None => Some (Err ServerRequired)
      | Some server_str =>
          let domain := cs_domain (cfg_server t) in
          let cert := or_else (cli_cert cli) (cs_cert (cfg_server t)) in
          match (match domain with Some _ => Some (default [] cert) | None => cert end) with
          | None => Some (Err CertRequired)
          | Some cert_path =>
              match or_else (cli_psk cli) (cs_psk (cfg_server t)) with
              | None => Some (Err PskRequired)
              | Some psk_hex =>
                  r ← parse_psk_hex psk_hex;
                  match r with
                  | Err e => Some (Err (BadPsk e))
                  | Ok psk =>
                      match server_address server_str with
                      | None => Some (Err (BadServer server_str))
                      | Some addr =>
                          Some (Ok (mkSettings addr cert_path (PskAuthenticator_new psk) domain
                                      (ct_mode (cfg_transport t))))
                      end
                  end
              end
          end
      end
  end.

(** What the transport manager is built from. *)
Definition build_config (s : Settings) (t : ClientTomlConfig) : TransportBuildConfig :=
  mkBuild (set_mode s) (set_addr s) (set_cert s) (set_auth s) (cfg_camouflage t) (cfg_reality t)
    (cfg_websocket t) (set_domain s).

(** ** The client's device *)

Definition tun_request (os : Platform) : bytes := match os with Linux => str "tun" | MacOS => str "utun" end.

Section device.
Context {W : Type} `{Shell W, Libc W}.

Definition set_mtu (os : Platform) (d : TunDevice) (mtu : Z) : D W unit :=
  match os with Linux => set_mtu_linux (dev_name d) mtu | MacOS => set_mtu_macos d mtu end.

(** [TunDevice::create(..)?], then [tun.set_mtu(TUN_MTU)?], which drops the device when it
    fails. *)
Definition open_tun (os : Platform) : D W TunDevice := fun w =>
  match create os (tun_request os) w with
  | (Err e, w) => (Err e, w)
  | (Ok tun, w) =>
      match set_mtu os tun 1200 w with
      | (Ok _, w) => (Ok tun, w)
      | (Err e, w) => (Err e, drop_tun tun w)
      end
  end.
End device.

(** ** Lemmas *)

#[export] Instance before_total : Total before.
Proof.
  intros a. unfold before. induction a as [|x a IH]; intros [|y b]; simpl; auto.
  destruct (Z.lt_trichotomy (b2z x) (b2z y)) as [Hl|[He|Hg]].
  - left. by rewrite (proj2 (Z.ltb_lt _ _) Hl).
  - rewrite He, Z.ltb_irrefl, Z.eqb_refl. simpl. apply IH.
  - right. by rewrite (proj2 (Z.ltb_lt _ _) Hg).
Qed.
#[export] Instance before_trans : Transitive before.
Proof.
  intros a. unfold before. induction a as [|x a IH]; intros [|y b] [|z d]; simpl; try done.
  rewrite !orb_true_iff, !andb_true_iff, !Z.ltb_lt, !Z.eqb_eq.
  intros [Hxy|[Hxy Hab]] [Hyz|[Hyz Hbd]]; [left; lia..|right].
  split; [lia|by eapply IH].
Qed.

Section admin.
Context `{HashIterOk} (c : ServerConfig) (dir : bytes).
Hypothesis Hdir : users_dir c = Some dir.

Definition names_of (s : UserStore) : list bytes := (map_to_list (users s)).*2.

(** What a later [ListUsers] of anybody prints: these names, in order. *)
Definition lists_as (fs : FS) (names : list bytes) : Prop :=
  forall env entries, dir_there env = true -> dir_entries env = Some entries -> lists fs dir entries ->
  exists sorted, StronglySorted before sorted /\ sorted ≡ₚ names /\
    run_command c ListUsers env fs =
      Some (Ok (if decide (sorted = []) then [str "No users configured."]
                else (show_int (zlen sorted) ++ str " user(s):") :: ((fun n => str "  " ++ n) <$> sorted)), fs).

Lemma run_command_loaded cmd env entries s fs : in_sync s fs -> udir s = dir ->
  dir_there env = true -> dir_entries env = Some entries -> lists fs dir entries ->
  run_command c cmd env fs =
    match cmd with
    | AddUser name =>
        let '(r, _, fs) := add_user name (new_psk env) (file_op_works env) s fs in
        Some (match r with
              | Ok hex => Ok [str "User '" ++ name ++ str "' added. PSK: " ++ hex]
              | Err e => Err (StoreFailed e)
              end, fs)
    | RemoveUser name =>
        let '(r, _, fs) := remove_user name (file_op_works env) s fs in
        Some (match r with
              | Ok _ => Ok [str "User '" ++ name ++ str "' removed."]
              | Err e => Err (StoreFailed e)
              end, fs)
    | ListUsers => Some (Ok (list_users s), fs)
    end.
Proof.
  intros Hs Hu Ht He Hl. unfold run_command. rewrite Hdir, Ht, He. cbn [negb andb].
  rewrite <-Hu in Hl |- *. rewrite (load_in_sync s fs entries Hs Hl). done.
Qed.

Lemma lists_as_sync s fs : in_sync s fs -> udir s = dir -> lists_as fs (names_of s).
Proof.
  intros Hs Hu env entries Ht He Hl. exists (merge_sort before (usernames s)). split_and!.
  - apply StronglySorted_merge_sort; apply _.
  - rewrite merge_sort_Permutation. unfold usernames, names_of. by rewrite hash_iter_perm.
  - by rewrite (run_command_loaded ListUsers env entries s fs).
Qed.

Lemma lists_as_perm fs names names' : names ≡ₚ names' -> lists_as fs names -> lists_as fs names'.
Proof.
  intros Hp Hn env entries Ht He Hl. destruct (Hn env entries Ht He Hl) as (sorted & Hs & Hps & Hr).
  exists sorted. split_and!; [done|by rewrite Hps|done].
Qed.

Lemma names_taken s name : existsb (fun e => bool_decide (e.2 = name)) (hash_iter (users s)) = true <->
  name ∈ names_of s.
Proof.
  unfold names_of. rewrite list_elem_of_fmap. split.
  - intros ([psk n] & Hin & Hn)%existsb_exists. simpl in Hn. boolify. subst n.
    apply list_elem_of_In, iter_in in Hin. exists (psk, name). split; [done|]. by apply elem_of_map_to_list.
  - intros ([psk n] & -> & Hin%elem_of_map_to_list). apply existsb_exists. exists (psk, n).
    split; [apply list_elem_of_In; by apply iter_in|by apply bool_decide_true].
Qed.
End admin.

(** ** Theorems *)

(** [C28] The user commands work across processes. They meet only in the key directory; let it
    agree with a table ([in_sync]: every key file has a UTF-8 name and holds a key, and no
    two hold the same one), be there and be readable, and let the command's own write or
    removal succeed. Then a listing prints the users of the table in order. [AddUser], with
    a name that is there, is refused and changes nothing; with a new name that is not empty,
    has no slash and is UTF-8, and a drawn key that nobody has, it makes every later listing
    exactly one user longer. With the empty name it reports success too, and no later listing
    shows the user. [RemoveUser] makes every later listing exactly this user shorter; for
    a name that is not there it is refused and changes nothing. Of names with a slash, which
    lead out of the directory, nothing is said. *)
Theorem user_commands_spec `{HashIterOk} c dir s fs env entries :
  users_dir c = Some dir -> in_sync s fs -> udir s = dir ->
  dir_there env = true -> dir_entries env = Some entries -> lists fs dir entries ->
  file_op_works env = true ->
  lists_as c dir fs (names_of s) /\
  (forall name, plain_name name -> length (new_psk env) = 32%nat -> users s !! new_psk env = None ->
     if decide (name ∈ names_of s)
     then run_command c (AddUser name) env fs = Some (Err (StoreFailed (UserExists name)), fs)
     else exists out fs', run_command c (AddUser name) env fs = Some (Ok out, fs') /\
            lists_as c dir fs' (name :: names_of s)) /\
  (exists out fs', run_command c (AddUser []) env fs = Some (Ok out, fs') /\ lists_as c dir fs' (names_of s)) /\
  (forall name,
     if decide (name ∈ names_of s)
     then exists out fs' rest, run_command c (RemoveUser name) env fs = Some (Ok out, fs') /\
            names_of s ≡ₚ name :: rest /\ (name ∉ rest) /\ lists_as c dir fs' rest
     else run_command c (RemoveUser name) env fs = Some (Err (StoreFailed (UserNotFound name)), fs)).
Proof.
  intros Hd Hs Hu Ht He Hl Hok. split; [by apply lists_as_sync|]. split; [|split].
  - intros name Hpl Hlen Hnew. rewrite (run_command_loaded c dir Hd _ _ entries s) by done.
    pose proof (names_taken s name) as Hn. rewrite Hok. unfold add_user.
    destruct (existsb _ _) eqn:Ee; [by rewrite decide_True by by apply Hn|].
    rewrite decide_False by (intros ?%Hn; done). cbn [negb]. eexists _, _. split; [reflexivity|].
    destruct (add_user_sync name (new_psk env) s fs (to_hex (new_psk env))
      (mkStore (<[new_psk env:=name]> (users s)) (udir s)) (<[key_path s name:=to_hex (new_psk env)]> fs))
      as (Hsync & _ & _); [done..|unfold add_user; by rewrite Ee|].
    eapply lists_as_perm; [|by apply lists_as_sync]. unfold names_of. simpl.
    by rewrite map_to_list_insert by done.
  - rewrite (run_command_loaded c dir Hd _ _ entries s) by done.
    pose proof (names_taken s []) as Hn. rewrite Hok. unfold add_user.
    destruct (existsb _ _) eqn:Ee.
    { exfalso. apply proj1 in Hn. specialize (Hn eq_refl). unfold names_of in Hn.
      apply list_elem_of_fmap in Hn as ([psk n] & Hn & Hin%elem_of_map_to_list). simpl in Hn. subst n.
      by destruct (sync_user _ _ Hs _ _ Hin) as ((Hne & _) & _). }
    cbn [negb]. eexists _, _. split; [reflexivity|]. apply lists_as_sync; [done| |done].
    unfold key_path, join. cbn [app str]. by apply nameless_key_sync.
  - intros name. rewrite (run_command_loaded c dir Hd _ _ entries s) by done. rewrite Hok.
    pose proof (names_taken s name) as Hn. pose proof (user_found (users s) name) as Hf.
    destruct (remove_user name true s fs) as [[r s'] fs'] eqn:Er.
    pose proof (remove_user_sync name s fs s' fs' Hs) as Hsync. unfold remove_user in Er.
    destruct (List.find _ _) as [[psk n]|] eqn:Ef.
    + destruct Hf as [-> Hp]. destruct (sync_user _ _ Hs _ _ Hp) as (Hpl & k & Hk & _).
      rewrite (key_path_plain (mkStore _ _)) in Er by done. simpl in Er. rewrite decide_True in Er by (by eexists).
      injection Er as <- <- <-. rewrite decide_True.
      2: { apply Hn. apply existsb_exists. exists (psk, name). split; [|by apply bool_decide_true].
           apply list_elem_of_In. by apply iter_in. }
      destruct Hsync as [Hsync Habs].
      { unfold remove_user. rewrite Ef. rewrite (key_path_plain (mkStore _ _)) by done. simpl.
        by rewrite decide_True by (by eexists). }
      eexists _, _, (names_of (mkStore (delete psk (users s)) (udir s))). split_and!; [done| | |].
      * unfold names_of. simpl. by rewrite <-(map_to_list_delete _ _ _ Hp).
      * unfold names_of. intros ([psk' ?] & -> & Hin%elem_of_map_to_list)%list_elem_of_fmap. by eapply Habs.
      * by apply lists_as_sync.
    + injection Er as <- <- <-. rewrite decide_False; [done|].
      unfold names_of. intros ([psk' ?] & -> & Hin%elem_of_map_to_list)%list_elem_of_fmap. by eapply Hf.
Qed.

(** The settings: never a panic; the command line wins over the file; and exactly what is
    missing or malformed first, in the order server, certificate, key, address, is an error. *)
Theorem client_settings_spec `{Ipv6Text} toml cli t :
  (match cli_config cli with Some path => toml path | None => Some client_toml_default end) = Some t ->
  let server := or_else (cli_server cli) (cs_address (cfg_server t)) in
  let cert := or_else (cli_cert cli) (cs_cert (cfg_server t)) in
  let psk := or_else (cli_psk cli) (cs_psk (cfg_server t)) in
  exists r, client_settings toml cli = Some r /\
  match r with
  | Ok s => exists addr hex key, server = Some addr /\ server_address addr = Some (set_addr s) /\
      psk = Some hex /\ parse_psk_hex hex = Some (Ok key) /\ set_auth s = PskAuthenticator_new key /\
      set_domain s = cs_domain (cfg_server t) /\ set_cert s = default [] cert /\
      (set_domain s = None -> is_Some cert)
  | Err ServerRequired => server = None
  | Err CertRequired => cert = None /\ cs_domain (cfg_server t) = None
  | Err PskRequired => psk = None
  | Err (BadPsk e) => exists hex, psk = Some hex /\ parse_psk_hex hex = Some (Err e)
  | Err (BadServer a) => server = Some a /\ server_address a = None
  | Err ConfigUnreadable => False
  end.
Proof.
  intros Ht. cbv zeta. unfold client_settings. rewrite Ht.
  destruct (or_else (cli_server cli) _) as [addr|]; [|by eexists].
  set (cert := or_else (cli_cert cli) _). set (dom := cs_domain (cfg_server t)).
  destruct (match dom with Some _ => Some (default [] cert) | None => cert end) as [path|] eqn:Ec.
  2: { eexists. split; [done|]. simpl. destruct dom; by simplify_eq. }
  assert (path = default [] cert /\ (dom = None -> is_Some cert)) as [-> Hc].
  { destruct dom; simplify_eq; [done|]. rewrite Ec. split; [done|by eexists]. }
  destruct (or_else (cli_psk cli) _) as [hex|]; [|by eexists].
  destruct (parse_hex_total hex) as (r & Hr & _). unfold parse_psk_hex. rewrite Hr. cbn [mbind option_bind].
  destruct r as [key|e]; [|eexists; split; [done|]; simpl; by exists hex].
  destruct (server_address addr) as [a|] eqn:Ea; [|by eexists].
  eexists. split; [done|]. simpl. exists addr, hex, key. done.
Qed.

(** In WebPKI mode only plain QUIC works. With a domain configured no certificate is
    required and the settings are accepted with an empty path; but the camouflaged and the
    Reality connector always read the certificate to pin, so that both of them fail at
    every attempt, without a name being taken from the pool. *)
Theorem webpki_mode_only_plain_quic `{Ipv6Text} {W} `{Tls, Pki, Files W} toml cli t d s
    g camo sni target (w : W) :
  (match cli_config cli with Some path => toml path | None => Some client_toml_default end) = Some t ->
  cs_domain (cfg_server t) = Some d -> cs_cert (cfg_server t) = None -> cli_cert cli = None ->
  client_settings toml cli = Some (Ok s) -> read_file [] w = None ->
  b_domain (build_config s t) = Some d /\ b_cert_path (build_config s t) = [] /\
  build_client_config g (set_cert s) camo sni w = Some (Err (BadCert CertIo), sni) /\
  reality_tls g (set_cert s) camo target w = Some (Err (BadCert CertIo)).
Proof.
  intros Ht Hd Hc Hcc Hs Hr.
  unfold build_config. cbn [b_domain b_cert_path].
  assert (set_domain s = Some d /\ set_cert s = []) as [-> ->].
  { revert Hs. unfold client_settings. rewrite Ht, Hd, Hc, Hcc. simpl.
    destruct (or_else _ _) as [a|]; [|done]. destruct (or_else _ _) as [h|]; [|done].
    destruct (parse_psk_hex h) as [[k|e]|]; cbn [mbind option_bind]; [|done..].
    destruct (server_address a); [|done]. by intros [= <-]. }
  unfold build_client_config, reality_tls, load_verifier, read_text. rewrite Hr. done.
Qed.

(** The half-written pair keeps the server down: once the key could not be replaced, every later start
    loads a certificate and a key that do not match, and ends there. *)
Theorem half_written_pair_blocks_server {W} `{PkiOk, PathsOk W} acme km draw c old k cert key (w w0 w1 w' : W) :
  (forall c k, km c k = true -> of_key c k) -> Config.domain c = None ->
  cert_file c <> Config.key_file c -> exists_path (cert_file c) w = false -> utf8_valid old = true ->
  pem_private_key old = Some (Some k) ->
  self_signed draw [str "redpill-quic"] = Some (cert, key) -> key <> k ->
  make_parent (cert_file c) w = (Ok tt, w0) -> write_file (cert_file c) (cert_to_pem cert) w0 = (true, w1) ->
  write_file (Config.key_file c) (key_to_pem key) w1 = (false, w') ->
  read_file (Config.key_file c) w' = Some old -> exists_path (Config.key_file c) w' = true ->
  server_tls acme km draw c w = Some (Err (CertFailed CertIo), w') /\
  forall draw', server_tls acme km draw' c w' = Some (Err KeysDontMatch, w').
Proof.
  intros Hkm Hd Hne Hec Hv Hp Es Hnk Hmk Hw1 Hw2 Hr' He'.
  destruct (half_written draw _ _ old k cert key w w0 w1 w' Hne Hec Hv Hp Es Hnk Hmk Hw1 Hw2 Hr' He')
    as (H1' & H2' & Hno).
  unfold server_tls. rewrite Hd, H1'. split; [done|]. intros draw'. rewrite H2'. cbn [mbind option_bind].
  simpl. destruct (km cert k) eqn:Ek; [|done]. by apply Hkm in Ek.
Qed.

(** The client's device: whatever fails, no descriptor stays open; when all is well one is, and its MTU was set.
    [spawn] (for [ifconfig] on macOS) opens none. *)
Theorem open_tun_descriptors {W} `{Shell W, LibcOk W} os (w : W) r w' :
  (forall p a (w : W), open_fds (spawn p a w).2 = open_fds w) ->
  open_tun os w = (r, w') ->
  match r with
  | Ok d => (dev_fd d ∉ open_fds w) /\ open_fds w' = {[dev_fd d]} ∪ open_fds w
  | Err _ => open_fds w' = open_fds w
  end.
Proof.
  intros Hsp. unfold open_tun. destruct (create os (tun_request os) w) as [[d|e] w1] eqn:Ec.
  - assert ((dev_fd d ∉ open_fds w) /\ open_fds w1 = {[dev_fd d]} ∪ open_fds w) as [Hf Ho].
    { destruct os; [apply (create_linux_fds _ _ _ _ Ec)|apply (create_macos_fds _ _ _ _ Ec)]. }
    destruct (set_mtu os d 1200 w1) as [r2 w2] eqn:Em.
    assert (open_fds w2 = open_fds w1) as Hm.
    { destruct os; [by eapply set_mtu_linux_fds|]. revert Em. simpl. unfold set_mtu_macos, set_mtu_by.
      intros Em. rewrite <-(Hsp (str "ifconfig") [dev_name d; str "mtu"; show_int 1200] w1).
      destruct (spawn _ _ w1) as [[o|] w3]; simpl; [|by simplify_eq]. by destruct (negb (success o)); simplify_eq. }
    destruct r2; intros [= <- <-].
    + by rewrite Hm.
    + unfold drop_tun. by rewrite close_law, Hm, Ho, closed_again.
  - intros [= <- <-]. destruct os.
    + apply create_linux_fds in Ec. rewrite bool_decide_eq_false_2 in Ec; [done|]. simpl. vm_compute. set_solver.
    + apply (create_macos_fds _ _ _ _ Ec).
Qed.

Section witnesses.
#[local] Existing Instance list_iter.
#[local] Existing Instance list_iter_ok.

Definition ex_multi : ServerConfig :=
  let '(mkConfig a b d e f g h i j k l m n o p q r s t u v x) := server_config_default in
  mkConfig a b d e f g h i j (Some (str "/u")) l m n o p q r s t u v x.
Definition ex_env : AdminEnv := mkAdminEnv true true (Some []) (replicate 32 x07) true.

(** The first user of an empty directory. *)
Lemma user_commands_spec_witness :
  exists out fs', run_command ex_multi (AddUser (str "bob")) ex_env ∅ = Some (Ok out, fs') /\
    lists_as ex_multi (str "/u") fs' [str "bob"].
Proof.
  destruct (user_commands_spec ex_multi (str "/u") (mkStore ∅ (str "/u")) ∅ ex_env []) as (_ & Ha & _);
    try (vm_compute; reflexivity).
  - apply empty_in_sync.
  - exists []. split; [reflexivity|]. intros n c. split; [by intros ?%not_elem_of_nil|]. by intros [? _].
  - specialize (Ha (str "bob")). rewrite decide_False in Ha.
    + apply Ha; [|reflexivity|reflexivity]. split; [discriminate|]. split; [|reflexivity].
      apply (bool_decide_eq_false_1 (Users.SLASH ∈ str "bob")). vm_compute. reflexivity.
    + apply (bool_decide_eq_false_1 (str "bob" ∈ names_of (mkStore ∅ (str "/u")))). vm_compute. reflexivity.
Defined.

#[local] Existing Instance toy_pki.
#[local] Existing Instance disk_io.
#[local] Existing Instance toy_tls.
#[local] Instance no_v6 : Ipv6Text := fun _ => false.

Definition ex_toml : ClientTomlConfig :=
  mkClientToml (mkClientServer None None (Some (to_hex (replicate 32 x07))) (Some (str "vpn.example.com")))
    client_transport_default client_camouflage_default client_reality_default (mkClientWs None None).
Definition ex_cli : Cli := mkCli (Some (str "192.0.2.1")) None None (Some (str "c.toml")) false false.
Definition ex_settings : panics (result SettingsError Settings) := client_settings (fun _ => Some ex_toml) ex_cli.

Lemma webpki_mode_only_plain_quic_witness :
  exists s, ex_settings = Some (Ok s) /\ set_addr s = str "192.0.2.1:443" /\
    build_client_config (fun _ => 0) (set_cert s) ex_camo ex_sni ex_pin = Some (Err (BadCert CertIo), ex_sni).
Proof.
  destruct ex_settings as [[s|e]|] eqn:E; [|discriminate E..]. exists s. split; [reflexivity|].
  destruct (webpki_mode_only_plain_quic (fun _ => Some ex_toml) ex_cli ex_toml (str "vpn.example.com") s
    (fun _ => 0) ex_camo ex_sni (str "x:1") ex_pin) as (_ & _ & Hb & _); try reflexivity; [exact E|].
  split; [|exact Hb]. vm_compute in E. injection E as <-. vm_compute. reflexivity.
Defined.
End witnesses.
