(* ===== verification/Background.v ===== *)
(** The client in the background ([daemonize] of [daemon.rs], the socket of [ipc.rs], the
    [up] command of [client.rs]): which process goes on, which ones end and with what
    status, where the standard descriptors lead, and how the status socket is served.

    [fork] is seen from the process that goes on: the world after it is the child's. What
    the other process does is its exit, which is recorded. *)

From S2P Require Import Prelude Text Datagram Stats Route Daemon Certs.

Definition STDIN : Z := 0.
Definition STDOUT : Z := 1.
Definition STDERR : Z := 2.

Class Unix (W : Type) := {
  fork : W -> bool * W;
  setsid : W -> bool * W;
  (** [OpenOptions::new().create(true).append(true).open] *)
  open_append : bytes -> W -> option Z * W;
  (** [open] with [O_RDONLY]: a descriptor, or a negative number *)
  open_rdonly : bytes -> W -> Z * W;
  dup2 : Z -> Z -> W -> W;
  close_fd : Z -> W -> W
}.

(** Sockets in the file system. *)
Class UnixSockets (W : Type) := {
  unix_bind : bytes -> W -> bool * W;
  set_mode : bytes -> Z -> W -> bool * W;
  listener_nonblocking : W -> bool * W
}.

Section background.
Context {W : Type} `{Files W, Processes W, Unix W}.

Definition DEV_NULL : bytes := str "/dev/null".

(** The redirections; [log_file] is closed when it is dropped. *)
Definition redirect (log_fd : Z) (w : W) : W :=
  let w := dup2 log_fd STDERR (dup2 log_fd STDOUT w) in
  let '(devnull, w) := open_rdonly DEV_NULL w in
  let w := if 0 <=? devnull then close_fd devnull (dup2 devnull STDIN w) else w in
  close_fd log_fd w.

(** The exit statuses of the processes that end inside, in order, then the outcome in the
    one that goes on. *)
Definition daemonize (log : bytes) (w : W) : list Z * result DaemonError unit * W :=
  let '(forked, w) := fork w in
  if negb forked then ([], Err ForkFailed, w)
  else
    let '(session, w) := setsid w in
    if negb session then ([0], Err SetsidFailed, w)
    else
      let '(forked, w) := fork w in
      if negb forked then ([0], Err ForkFailed, w)
      else
        let w := match parent log with Some dir => (create_dir_all dir w).2 | None => w end in
        match open_append log w with
        | (None, w) => ([0; 0], Err LogFailed, w)
        | (Some log_fd, w) => ([0; 0], Ok tt, redirect log_fd w)
        end.

(** [main] with the command [up]: what is left for [Daemon.up] is the process that goes on. *)
Definition up_daemon (process_id : Z) (dir path sock log : bytes)
    (run_client : W -> result DaemonError unit * W) : W -> result DaemonError unit * W :=
  up process_id dir path sock (fun w => let '(_, r, w) := daemonize log w in (r, w)) run_client.

(** The status of the process the user started: its own exit inside [daemonize], or what
    [main] returned to it. *)
Definition launcher_status (process_id : Z) (dir path sock log : bytes)
    (run_client : W -> result DaemonError unit * W) (w : W) : Z :=
  let ended := match is_running path w with (Some _, _) => [] | (None, w) => (daemonize log w).1.1 end in
  match ended with
  | code :: _ => code
  | [] => if is_ok (up_daemon process_id dir path sock log run_client w).1 then 0 else 1
  end.

(** ** The status socket *)

(** [0o600] *)
Definition OWNER_ONLY : Z := 6 * 8 * 8.

Inductive IpcError := BindFailed | NonblockingFailed.

Definition bind_ipc_socket `{UnixSockets W} (path : bytes) (w : W) : result IpcError unit * W :=
  let w := (remove_file path w).2 in
  let '(bound, w) := unix_bind path w in
  if negb bound then (Err BindFailed, w)
  else
    let w := (set_mode path OWNER_ONLY w).2 in
    let '(ok, w) := listener_nonblocking w in
    (if ok : bool then Ok tt else Err NonblockingFailed, w).

(** Whether the client has a status socket: only in daemon mode, and not when it could not
    be bound. *)
Definition start_ipc `{UnixSockets W} (daemon_mode : bool) (path : bytes) (w : W) : bool * W :=
  if daemon_mode then let '(r, w) := bind_ipc_socket path w in (is_ok r, w) else (false, w).
End background.

(** What [accept] gives: an error, or a connection with the moment it is served, the
    state then, and what arrives on it ([None]: a read error). *)
Abbreviation IpcAccept := (option (Z * DaemonState * option bytes)).

(** [spawn_ipc_server]: what is written on each accepted connection, in their order. *)
Fixpoint ipc_accept_loop `{Json DaemonStatus} (evs : list IpcAccept) : list bytes :=
  match evs with
  | [] => []
  | None :: evs => ipc_accept_loop evs
  | Some (now, s, request) :: evs =>
      match request with Some r => ipc_reply now s r | None => [] end :: ipc_accept_loop evs
  end.
Definition spawn_ipc_server `{Json DaemonStatus} (converted : bool) (evs : list IpcAccept) : list bytes :=
  if converted then ipc_accept_loop evs else [].

(** ** What descriptors and sockets do *)

(** [fd_table]: the file each open descriptor leads to. *)
Class UnixOk (W : Type) `{Processes W, Unix W} := {
  fd_table : W -> gmap Z bytes;
  fork_fds w : fd_table (fork w).2 = fd_table w;
  setsid_fds w : fd_table (setsid w).2 = fd_table w;
  mkdir_fds p w : fd_table (create_dir_all p w).2 = fd_table w;
  open_append_fds p w : match open_append p w with
    | (Some fd, w') => fd_table w !! fd = None /\ fd_table w' = <[fd := p]> (fd_table w)
    | (None, w') => fd_table w' = fd_table w
    end;
  open_rdonly_fds p w : let '(fd, w') := open_rdonly p w in
    if fd <? 0 then fd_table w' = fd_table w
    else fd_table w !! fd = None /\ fd_table w' = <[fd := p]> (fd_table w);
  dup2_fds a b p w : fd_table w !! a = Some p -> fd_table (dup2 a b w) = <[b := p]> (fd_table w);
  close_fds fd w : fd_table (close_fd fd w) = delete fd (fd_table w)
}.

(** [socket_mode]: who may connect. A path that is free can be bound. *)
Class UnixSocketsOk (W : Type) `{Files W, UnixSockets W} := {
  occupied : bytes -> W -> bool;
  socket_mode : bytes -> W -> Z;
  bind_free p w : (unix_bind p w).1 = true -> occupied p w = false;
  bind_creates p w : (unix_bind p w).1 = true -> occupied p (unix_bind p w).2 = true;
  set_mode_law p m w : (set_mode p m w).1 = true -> socket_mode p (set_mode p m w).2 = m;
  set_mode_keeps p m w q : occupied q (set_mode p m w).2 = occupied q w;
  nonblocking_keeps w q : occupied q (listener_nonblocking w).2 = occupied q w /\
    socket_mode q (listener_nonblocking w).2 = socket_mode q w
}.

(** The standard descriptors are open, as the runtime of the language sees to. *)
Definition std_open {W} `{UnixOk W} (w : W) : Prop :=
  is_Some (fd_table w !! STDIN) /\ is_Some (fd_table w !! STDOUT) /\ is_Some (fd_table w !! STDERR).

Section lemmas.
Context {W : Type} `{UnixOk W}.

Lemma redirect_fds fd log (t : gmap Z bytes) (w : W) :
  t !! fd = None -> is_Some (t !! STDIN) -> is_Some (t !! STDOUT) -> is_Some (t !! STDERR) ->
  fd_table w = <[fd := log]> t ->
  let t' := <[STDERR := log]> (<[STDOUT := log]> t) in
  fd_table (redirect fd w) = t' \/ fd_table (redirect fd w) = <[STDIN := DEV_NULL]> t'.
Proof.
  intros Hfd [p0 T0] [p1 T1] [p2 T2] Ht t'.
  assert (fd <> STDIN /\ fd <> STDOUT /\ fd <> STDERR) as (N0 & N1 & N2) by (repeat split; congruence).
  assert (E1 : fd_table (dup2 fd STDOUT w) = <[STDOUT := log]> (<[fd := log]> t)).
  { rewrite (dup2_fds _ _ log), Ht; [done|]. by rewrite Ht, lookup_insert_eq. }
  assert (E2 : fd_table (dup2 fd STDERR (dup2 fd STDOUT w)) = <[fd := log]> t').
  { rewrite (dup2_fds _ _ log), E1 by (by rewrite E1, lookup_insert_ne, lookup_insert_eq).
    subst t'. by rewrite (insert_insert_ne t), (insert_insert_ne (<[STDOUT:=log]> t)). }
  assert (Hfree : t' !! fd = None) by (subst t'; by rewrite !lookup_insert_ne).
  assert (Hin : t' !! STDIN = Some p0) by (subst t'; by rewrite !lookup_insert_ne).
  clearbody t'. unfold redirect.
  pose proof (open_rdonly_fds DEV_NULL (dup2 fd STDERR (dup2 fd STDOUT w))) as Ho.
  destruct (open_rdonly DEV_NULL _) as [null w1]. rewrite E2 in Ho. rewrite close_fds.
  destruct (Z.ltb_spec null 0) as [Hn|Hn].
  - rewrite (proj2 (Z.leb_gt _ _)) by done. left. rewrite Ho. by rewrite delete_insert_id.
  - destruct Ho as [Hnew Ho]. rewrite (proj2 (Z.leb_le _ _)) by done. right.
    apply lookup_insert_None in Hnew as [Hnew M1]. assert (null <> STDIN) by congruence.
    rewrite close_fds, (dup2_fds _ _ DEV_NULL), Ho by (by rewrite Ho, lookup_insert_eq).
    rewrite (insert_insert_ne _ STDIN null), delete_insert_id by (done || by rewrite !lookup_insert_ne).
    rewrite (insert_insert_ne _ STDIN fd), delete_insert_id by (done || by rewrite lookup_insert_ne).
    done.
Qed.
End lemmas.

(** ** Theorems *)

(** Going to the background. Every process that ends on the way ends with status 0. When
    [daemonize] succeeds, the process that goes on writes its output and its errors to the
    log, reads from [/dev/null] if that could be opened, and has every other descriptor it
    had before and no new one; when it fails, no descriptor has changed. And the process
    the user started reports success as soon as the first [fork] succeeded: not even a log
    that cannot be opened, a PID file that cannot be written, or a client that fails at
    once, shows in its status. *)
Theorem daemonize_spec {W} `{Files W, UnixOk W} log (w : W) ended r w' :
  std_open w -> daemonize log w = (ended, r, w') ->
  (ended = [] <-> (fork w).1 = false) /\ Forall (fun code => code = 0) ended /\
  match r with
  | Ok _ =>
      fd_table w' !! STDOUT = Some log /\ fd_table w' !! STDERR = Some log /\
      (fd_table w' !! STDIN = Some DEV_NULL \/ fd_table w' !! STDIN = fd_table w !! STDIN) /\
      (forall fd, fd <> STDIN -> fd <> STDOUT -> fd <> STDERR -> fd_table w' !! fd = fd_table w !! fd)
  | Err _ => fd_table w' = fd_table w
  end /\
  (forall pid dir path sock run w0, is_running path w0 = (None, w) -> (fork w).1 = true ->
     launcher_status pid dir path sock log run w0 = 0).
Proof.
  intros (T0 & T1 & T2) E.
  assert (Hst : forall pid dir path sock run w0, is_running path w0 = (None, w) -> (fork w).1 = true ->
     launcher_status pid dir path sock log run w0 = 0).
  { intros pid dir path sock run w0 Hrun Hf. unfold launcher_status. rewrite Hrun. unfold daemonize.
    destruct (fork w) as [f w1]. simpl in Hf. subst f. cbn [negb]. destruct (setsid w1) as [[] w2]; [|done].
    cbn [negb]. destruct (fork w2) as [[] w3]; [|done]. cbn [negb]. by destruct (open_append log _) as [[]]. }
  unfold daemonize in E. pose proof (fork_fds w) as F1. destruct (fork w) as [[] w1]; cbn [negb fst snd] in *.
  2: { injection E as <- <- <-. by split; [|split; [constructor|split]]. }
  pose proof (setsid_fds w1) as F2. destruct (setsid w1) as [[] w2]; cbn [negb fst snd] in *.
  2: { injection E as <- <- <-. split; [done|]. split; [by repeat constructor|]. split; [congruence|done]. }
  pose proof (fork_fds w2) as F3. destruct (fork w2) as [[] w3]; cbn [negb fst snd] in *.
  2: { injection E as <- <- <-. split; [done|]. split; [by repeat constructor|]. split; [congruence|done]. }
  set (w4 := match parent log with Some d => _ | None => w3 end) in E.
  assert (F4 : fd_table w4 = fd_table w).
  { subst w4. destruct (parent log) as [d|]; [rewrite mkdir_fds|]; congruence. }
  clearbody w4. pose proof (open_append_fds log w4) as Ho.
  destruct (open_append log w4) as [[fd|] w5]; injection E as <- <- <-.
  2: { split; [done|]. split; [by repeat constructor|]. split; [congruence|done]. }
  split; [done|]. split; [by repeat constructor|]. split; [|done]. rewrite F4 in Ho. destruct Ho as [Hfree Ho].
  destruct (redirect_fds fd log _ w5 Hfree T0 T1 T2 Ho) as [->| ->]; simplify_map_eq.
  - split; [done|]. split; [done|]. split; [by right|]. intros. by simplify_map_eq.
  - split; [done|]. split; [done|]. split; [by left|]. intros. by simplify_map_eq.
Qed.

(** The socket is bound only where nothing was left, and then only its owner may connect,
    unless its mode could not be set; a client without a socket goes on all the same. *)
Theorem bind_ipc_socket_spec {W} `{UnixSocketsOk W} path (w w' : W) :
  bind_ipc_socket path w = (Ok tt, w') ->
  occupied path (remove_file path w).2 = false /\ occupied path w' = true /\
  ((set_mode path OWNER_ONLY (unix_bind path (remove_file path w).2).2).1 = true ->
     socket_mode path w' = OWNER_ONLY).
Proof.
  unfold bind_ipc_socket. set (w0 := (remove_file path w).2). intros E.
  pose proof (bind_free path w0) as Hf. pose proof (bind_creates path w0) as Hc.
  destruct (unix_bind path w0) as [[] w1]; [|done]. cbn [negb fst snd] in *.
  pose proof (nonblocking_keeps (set_mode path OWNER_ONLY w1).2 path) as [Hk Hm].
  destruct (listener_nonblocking _) as [[] w2]; [|done]. injection E as <-. cbn [fst snd] in *.
  split; [by apply Hf|]. rewrite Hk, Hm, set_mode_keeps. split; [by apply Hc|]. apply set_mode_law.
Qed.

(** Every connection is answered from its own request, whatever comes between: failed
    accepts, requests that are not understood, connections that say nothing. *)
Theorem ipc_server_spec `{Json DaemonStatus} (before after : list IpcAccept) now s request :
  spawn_ipc_server true (before ++ Some (now, s, Some request) :: after) =
    spawn_ipc_server true before ++ ipc_reply now s request :: spawn_ipc_server true after /\
  spawn_ipc_server true (before ++ None :: after) = spawn_ipc_server true (before ++ after).
Proof.
  cbn [spawn_ipc_server]. split.
  - induction before as [|[[[? ?] ?]|] before IH]; cbn [ipc_accept_loop app]; [done|by rewrite IH|done].
  - induction before as [|[[[? ?] ?]|] before IH]; cbn [ipc_accept_loop app]; [done|by rewrite IH|done].
Qed.

(** A machine with 64 descriptors, whose log is writable or not. *)
Record Proc := mkProc { pr_fds : gmap Z bytes; pr_log : bool }.

#[local] Instance proc_files : Files Proc := {
  read_file _ _ := None; write_file _ _ p := (false, p); remove_file _ p := (false, p)
}.
#[local] Instance proc_processes : Processes Proc := {
  kill _ _ p := (Some ESRCH, p); sleep _ p := p; create_dir_all _ p := (true, p)
}.

(** The first free number. *)
Definition proc_open (path : bytes) (p : Proc) : option Z * Proc :=
  match filter (fun fd => pr_fds p !! fd = None) (seqZ 0 64) with
  | fd :: _ => (Some fd, mkProc (<[fd := path]> (pr_fds p)) (pr_log p))
  | [] => (None, p)
  end.

#[local] Instance proc_unix : Unix Proc := {
  fork p := (true, p);
  setsid p := (true, p);
  open_append path p := if pr_log p then proc_open path p else (None, p);
  open_rdonly path p := let '(fd, p) := proc_open path p in (default (-1) fd, p);
  dup2 a b p := match pr_fds p !! a with
                | Some f => mkProc (<[b := f]> (pr_fds p)) (pr_log p)
                | None => p
                end;
  close_fd fd p := mkProc (delete fd (pr_fds p)) (pr_log p)
}.

Lemma proc_open_law path p : match proc_open path p with
  | (Some fd, p') => 0 <= fd /\ pr_fds p !! fd = None /\ pr_fds p' = <[fd := path]> (pr_fds p)
  | (None, p') => pr_fds p' = pr_fds p
  end.
Proof.
  unfold proc_open. destruct (filter _ _) as [|fd l] eqn:E; [done|].
  assert (Hin : fd ∈ filter (fun fd => pr_fds p !! fd = None) (seqZ 0 64)) by (rewrite E; left).
  apply list_elem_of_filter in Hin as [Hfree Hr%elem_of_seqZ]. simpl. split; [lia|done].
Qed.

#[local] Instance proc_ok : UnixOk Proc.
Proof.
  refine {| fd_table := pr_fds |}; try done.
  - intros path p. simpl. destruct (pr_log p); [|done]. pose proof (proc_open_law path p) as Hl.
    destruct (proc_open path p) as [[fd|] p']; [|done]. apply Hl.
  - intros path p. simpl. pose proof (proc_open_law path p) as Hl.
    destruct (proc_open path p) as [[fd|] p']; cbn [default]; [|done].
    destruct Hl as [Hnn Hl]. by rewrite (proj2 (Z.ltb_ge _ _)).
  - intros a b f p Hf. simpl. by rewrite Hf.
Defined.

Definition ex_tty : bytes := str "/dev/pts/0".
Definition ex_shell (log : bool) : Proc :=
  mkProc {[STDIN := ex_tty; STDOUT := ex_tty; STDERR := ex_tty; 5 := str "lock"]} log.
Definition ex_log : bytes := log_path false None.

Definition ex_background (log : bool) : list Z * result DaemonError unit * Proc :=
  daemonize ex_log (ex_shell log).
Definition ex_client (w : Proc) : result DaemonError unit * Proc := (Err ClientFailed, w).

Lemma ex_shell_std log : std_open (ex_shell log).
Proof. repeat split; eexists; vm_compute; reflexivity. Qed.

(** With a log, the daemon's output goes there; without, the launcher still reports success
    although the client never ran. *)
Lemma daemonize_spec_witness :
  fd_table (ex_background true).2 !! STDOUT = Some ex_log /\
  launcher_status 7 [] ex_log [] ex_log ex_client (ex_shell false) = 0 /\
  (up_daemon 7 [] ex_log [] ex_log ex_client (ex_shell false)).1 = Err LogFailed.
Proof.
  split; [|split; [|vm_compute; reflexivity]].
  - destruct (daemonize_spec ex_log (ex_shell true) [0; 0] (Ok tt) (ex_background true).2)
      as (_ & _ & (Ho & _) & _); [apply ex_shell_std|vm_compute; reflexivity|exact Ho].
  - destruct (daemonize_spec ex_log (ex_shell false) [0; 0] (Err LogFailed) (ex_shell false))
      as (_ & _ & _ & Hl); [apply ex_shell_std|vm_compute; reflexivity|].
    apply Hl; reflexivity.
Defined.
