(* ===== verification/ClientRun.v ===== *)
(** The whole client ([run_client] and [main] of [client.rs]): settings, the cleanup of
    stale state, the device, the transport manager and the loop that connects, configures
    the machine, runs the tunnel and reconnects, down to the commands it runs.

    The functions that exist once per operating system are a class, [Host], with an instance
    for Linux, macOS and Windows. [Client] has the same loop with the machine reduced to
    three switches: the lemmas here show that this one implements it. Class [HostOk] says
    what a host promises to the loop; [ClientHost] has its instances and what follows from
    them. Here are the theorems that need no promise: the refinement and the absence of
    panics. *)

From S2P Require Import Prelude Text Datagram IpText Batch Control Stats Auth Transport Server Config Client Route.
From S2P Require Import RoutePorts KillSwitch Device Tunnel Manager Certs Profile Connectors Supervise Setup Daemon Background.

(** ** Addresses and configuration files *)

(** [SocketAddr]: [to_string], [ip().to_string()], [ip().is_loopback()], [port()]. *)
Record SocketAddr := mkAddr { sa_text : bytes; sa_ip : bytes; sa_loopback : bool; sa_port : Z }.

(** The IPv6 form, of the standard library. *)
Class SocketV6 := parse_v6 : bytes -> option SocketAddr.
#[export] Instance v6_text `{SocketV6} : Ipv6Text := fun s => is_some_b (parse_v6 s).

Definition v4_addr (ip : Ipv4Addr) (port : Z) : SocketAddr :=
  mkAddr (show_ipv4 ip ++ str ":" ++ show_int port) (show_ipv4 ip) (bool_decide (b2z (oct0 ip) = 127)) port.

Definition parse_socket_addr `{SocketV6} (s : bytes) : option SocketAddr :=
  match ('(ip, s) ← read_ipv4 s; s ← expect x3a s; port ← read_port s; Some (v4_addr ip port)) with
  | Some a => Some a
  | None => parse_v6 s
  end.

(** [ClientTomlConfig::load] *)
Definition client_toml_load {W} `{Files W, Toml ClientTomlConfig} (w : W) (path : bytes) : option ClientTomlConfig :=
  content ← read_to_string path w; from_toml content.

(** [Display] of [TransportMode] *)
Definition show_mode (m : TransportMode) : bytes :=
  match m with
  | QuicRaw => str "QUIC" | QuicCamouflaged => str "QUIC+Camo"
  | TcpReality => str "TCP+Reality" | WebSocketCdn => str "WS+CDN"
  end.

(** ** What depends on the operating system *)

(** [h_open_tun] gives the name of the device; [h_update_mtu] is the command of a
    [SessionUpdate]. *)
Class Host (W : Type) := {
  h_open_tun : W -> result TunError TunDevice * W;
  h_drop_tun : TunDevice -> W -> W;
  h_configure : bytes -> Ipv4Addr -> Ipv4Addr -> Z -> M W unit;
  h_gateway : M W bytes;
  h_setup_routes : bytes -> Ipv4Addr -> bytes -> M W SavedRoutes;
  h_cleanup_routes : SavedRoutes -> M W unit;
  h_setup_dns : M W unit;
  h_cleanup_dns : M W unit;
  h_cleanup_stale : M W unit;
  h_update_mtu : bytes -> Z -> W -> W;
  ks_enable : bytes -> bytes -> Z -> M W unit;
  ks_disable : W -> W;
  ks_cleanup_stale : W -> W
}.

Section hosts.
Context {W : Type} `{Shell W, Files W}.

Definition ifconfig_mtu (tun_name : bytes) (mtu : Z) (w : W) : W :=
  (spawn (str "ifconfig") [tun_name; str "mtu"; show_int mtu] w).2.

(** Linux has no kill-switch. *)
Definition linux_ks_enable (tun_name server_ip : bytes) (port : Z) : M W unit := mret tt.
Definition linux_ks_nothing (w : W) : W := w.

Definition linux_host `{Libc W} : Host W := {|
  h_open_tun := open_tun Linux;
  h_drop_tun := drop_tun;
  h_configure := configure_client_interface;
  h_gateway := get_default_gateway;
  h_setup_routes := setup_client_routes;
  h_cleanup_routes := cleanup_client_routes;
  h_setup_dns := setup_client_dns;
  h_cleanup_dns := cleanup_client_dns;
  h_cleanup_stale := cleanup_stale_client;
  h_update_mtu tun_name mtu w :=
    (spawn (str "ip") [str "link"; str "set"; tun_name; str "mtu"; show_int mtu] w).2;
  ks_enable := linux_ks_enable;
  ks_disable := linux_ks_nothing;
  ks_cleanup_stale := linux_ks_nothing
|}.

Definition macos_host `{Libc W, Scutil W} (process_id : Z) : Host W := {|
  h_open_tun := open_tun MacOS;
  h_drop_tun := drop_tun;
  h_configure := mac_configure_client_interface;
  h_gateway := mac_get_default_gateway;
  h_setup_routes := mac_setup_client_routes;
  h_cleanup_routes := mac_cleanup_client_routes;
  h_setup_dns := mac_setup_client_dns;
  h_cleanup_dns := mac_cleanup_client_dns;
  h_cleanup_stale := mac_cleanup_stale_client;
  h_update_mtu := ifconfig_mtu;
  ks_enable := enable process_id;
  ks_disable := disable;
  ks_cleanup_stale := cleanup_stale
|}.

(** The device of Windows has a session instead of a descriptor ([Device.WinDevice]); the
    loop uses its name only. *)
Definition win_open_tun (Session : Type) `{Libc W, Wintun W Session} (w : W) : result TunError TunDevice * W :=
  match create_windows (Session:=Session) (str "Redpill VPN") w with
  | (Err e, w) => (Err e, w)
  | (Ok tun, w) =>
      match set_mtu_windows (win_name tun) TUN_MTU w with
      | (Err e, w) => (Err e, w)
      | (Ok _, w) => (Ok (mkTun 0 (win_name tun)), w)
      end
  end.

Definition windows_host (Session : Type) `{Libc W, Wintun W Session} : Host W := {|
  h_open_tun := win_open_tun Session;
  h_drop_tun _ w := w;
  h_configure := win_configure_client_interface;
  h_gateway := win_get_default_gateway;
  h_setup_routes := win_setup_client_routes;
  h_cleanup_routes := win_cleanup_client_routes;
  h_setup_dns := win_setup_client_dns;
  h_cleanup_dns := win_cleanup_client_dns;
  h_cleanup_stale := win_cleanup_stale_client;
  h_update_mtu := ifconfig_mtu;
  ks_enable := win_enable;
  ks_disable := win_disable;
  ks_cleanup_stale := win_cleanup_stale
|}.
End hosts.

(** ** The state of the loop *)

(** The variables of [run_client]; [tunnel]: the connection whose tunnel runs. *)
Record RunState (W : Type) := mkRun {
  host : W;
  manager : TransportManager;
  routes_configured : bool;
  saved_routes : option SavedRoutes;
  killswitch_enabled : bool;
  attempt : Z;
  signal_task : bool;
  daemon_state : DaemonState;
  tunnel : option ConnectResult
}.
Arguments mkRun {W} _ _ _ _ _ _ _ _ _.
Arguments host {W} _.
Arguments manager {W} _.
Arguments routes_configured {W} _.
Arguments saved_routes {W} _.
Arguments killswitch_enabled {W} _.
Arguments attempt {W} _.
Arguments signal_task {W} _.
Arguments daemon_state {W} _.
Arguments tunnel {W} _.

(** What the loop waits for: a signal; the end of [probe_and_connect], with the peers it
    met; a [SessionUpdate] on the control stream; what happens to the tunnel until it ends;
    the end of a backoff. *)
Inductive Event :=
  | Signalled (s : Client.Signal)
  | Probed (att : Datatypes.nat -> Attempt)
  | Updated (buf : bytes)
  | Tunnelled (dup_ok async_ok : bool) (evs : list TunnelEvent)
  | DelayElapsed.

(** The fields of the command line and the address the loop uses. *)
Record Params := mkLoopParams { pa_tun : bytes; pa_server : SocketAddr; pa_test_mode : bool; pa_quiet : bool }.

Section loop.
Context {W : Type} `{Host W, Shell W, Files W, SocketV6, Hmac, WebPki, Tls, Pki} (pa : Params).
Implicit Types (st : RunState W) (w : W).

Definition with_host w st : RunState W :=
  mkRun w (manager st) (routes_configured st) (saved_routes st) (killswitch_enabled st) (attempt st)
    (signal_task st) (daemon_state st) (tunnel st).
Definition with_manager (m : TransportManager) st : RunState W :=
  mkRun (host st) m (routes_configured st) (saved_routes st) (killswitch_enabled st) (attempt st)
    (signal_task st) (daemon_state st) (tunnel st).
Definition with_attempt (n : Z) (d : DaemonState) (t : option ConnectResult) st : RunState W :=
  mkRun (host st) (manager st) (routes_configured st) (saved_routes st) (killswitch_enabled st) n
    (signal_task st) d t.
Definition keep_routes (saved : SavedRoutes) st : RunState W :=
  mkRun (host st) (manager st) true (Some saved) (killswitch_enabled st) (attempt st)
    (signal_task st) (daemon_state st) (tunnel st).
Definition killswitch_on st : RunState W :=
  mkRun (host st) (manager st) (routes_configured st) (saved_routes st) true (attempt st)
    (signal_task st) (daemon_state st) (tunnel st).
Definition signal_taken st : RunState W :=
  mkRun (host st) (manager st) (routes_configured st) (saved_routes st) (killswitch_enabled st) (attempt st)
    false (daemon_state st) (tunnel st).

(** A command of the host; an assignment. *)
Definition lift {A} (m : M W A) : M (RunState W) A := fun st =>
  let '(r, w) := m (host st) in (r, with_host w st).
Definition modify (f : RunState W -> RunState W) : M (RunState W) unit := fun st => (Ok tt, f st).

Definition set_connected (b : bool) (d : DaemonState) : DaemonState :=
  mkDaemonState b (ds_server_addr d) (Daemon.transport d) (Daemon.client_ip d) (Daemon.start d) (ds_stats d).

(** [attempt = 0] and the daemon's state *)
Definition announce (res : ConnectResult) st : RunState W :=
  let d := daemon_state st in
  with_attempt 0
    (mkDaemonState true (ds_server_addr d) (show_mode (cr_mode res))
       (Some (show_ipv4 (Control.client_ip (cr_config res)))) (Daemon.start d) (ds_stats d))
    (tunnel st) st.

(** [ifconfig] and [netstat], run for the log *)
Definition log_host : M W unit := fun w =>
  let '(_, w) := spawn (str "ifconfig") [pa_tun pa] w in
  let '(_, w) := spawn (str "netstat") [str "-rn"; str "-f"; str "inet"] w in
  (Ok tt, w).

(** Routes, DNS and kill-switch, each with [?]. *)
Definition install (server_tunnel_ip : Ipv4Addr) : M (RunState W) unit :=
  let srv := pa_server pa in
  gw ← lift h_gateway;
  saved ← lift (h_setup_routes (sa_ip srv) server_tunnel_ip gw);
  _ ← lift h_setup_dns;
  _ ← modify (keep_routes saved);
  _ ← lift (ks_enable (pa_tun pa) (sa_ip srv) (sa_port srv));
  _ ← modify killswitch_on;
  lift log_host.

(** Only once, never in test mode, and not for a server on this machine. *)
Definition install_once (server_tunnel_ip : Ipv4Addr) : M (RunState W) unit := fun st =>
  if negb (pa_test_mode pa) && negb (routes_configured st) then
    if sa_loopback (pa_server pa) then (Ok tt, st) else install server_tunnel_ip st
  else (Ok tt, st).

(** The body of the [Ok] branch. *)
Definition on_connected (res : ConnectResult) : M (RunState W) unit :=
  let cfg := cr_config res in
  _ ← modify (announce res);
  _ ← lift (h_configure (pa_tun pa) (Control.client_ip cfg) (Control.server_ip cfg) (Control.mtu cfg));
  install_once (Control.server_ip cfg).

(** After the loop. *)
Definition finish st : RunState W :=
  let w := host st in
  let w := if killswitch_enabled st then ks_disable w else w in
  let w := match saved_routes st with
           | Some saved => (h_cleanup_routes saved (h_cleanup_dns w).2).2
           | None => w
           end in
  with_host w st.

(** As [Client.on_signal]. *)
Definition on_signal (p : Phase) (s : Client.Signal) st : Phase * RunState W :=
  let fired := signal_task st in
  let st' := signal_taken st in
  match p with
  | Connecting | InTunnel | TunnelBackoff => if fired then (Exited, finish st') else (p, st')
  | ConnectBackoff =>
      match s with
      | SIGINT => (Exited, finish st')
      | SIGTERM | SIGHUP => (ConnectBackoff, st')
      end
  | Exited | Failed => (p, st)
  end.

(** [connected = false], and the number of the attempt *)
Definition disconnected (n : Z) st : RunState W :=
  with_attempt n (set_connected false (daemon_state st)) None st.

(** One event of [read_session_updates], which runs when there is a control stream. *)
Definition session_update (buf : bytes) st : panics (RunState W) :=
  match tunnel st with
  | Some res =>
      if cr_control_recv res then
        u ← SessionUpdate_decode buf;
        Some match u with
             | Some u => with_host (h_update_mtu (pa_tun pa) (new_mtu u) (host st)) st
             | None => st
             end
      else Some st
  | None => Some st
  end.

Definition tunnel_exit (dup_ok async_ok : bool) (evs : list TunnelEvent) st : option TunnelExit :=
  res ← tunnel st; (run_tunnel (pa_quiet pa) (cr_mode res) dup_ok async_ok evs []).1.

(** One event of the loop; [None] is a panic. *)
Definition client_step (e : Event) (ps : Phase * RunState W) : panics (Phase * RunState W) :=
  let '(p, st) := ps in
  match p, e with
  | Exited, _ | Failed, _ => Some (p, st)
  | _, Signalled s => Some (on_signal p s st)
  | Connecting, Probed att =>
      '(r, m) ← manager_connect (manager st) att (host st);
      let st := with_manager m st in
      match r with
      | Ok res =>
          match on_connected res st with
          | (Ok _, st) => Some (InTunnel, with_attempt (attempt st) (daemon_state st) (Some res) st)
          | (Err _, st) => Some (Failed, st)
          end
      | Err _ => Some (ConnectBackoff, disconnected (wrap32 (attempt st + 1)) st)
      end
  | InTunnel, Updated buf => st ← session_update buf st; Some (InTunnel, st)
  | InTunnel, Tunnelled dup_ok async_ok evs =>
      match tunnel_exit dup_ok async_ok evs st with
      | Some (Supervise.HealthReconnect _) => Some (Connecting, disconnected 0 st)
      | Some ExitError => Some (TunnelBackoff, disconnected (wrap32 (attempt st + 1)) st)
      | None => Some (InTunnel, st)
      end
  | ConnectBackoff, DelayElapsed | TunnelBackoff, DelayElapsed => Some (Connecting, st)
  | _, _ => Some (p, st)
  end.

Fixpoint client_loop (evs : list Event) (ps : Phase * RunState W) : panics (Phase * RunState W) :=
  match evs with
  | [] => Some ps
  | e :: evs => ps ← client_step e ps; client_loop evs ps
  end.
End loop.

(** ** [run_client] and [main] *)

Inductive ClientError :=
  | SettingsFailed (e : SettingsError) | SocketFailed | DeviceFailed (e : TunError) | HostFailed.

(** The UDP socket with its buffers, the endpoint, and the clock at the start. *)
Record StartEnv := mkStart {
  udp_bound : bool; recv_buffer_ok : bool; send_buffer_ok : bool; endpoint_ok : bool; now : Z
}.

(** What [run_client] has come to after the events. *)
Inductive Outcome := StillRunning (p : Phase) | Finished (r : result ClientError unit).

Section client.
Context {W : Type} `{Host W, Shell W, Files W, UnixSockets W, SocketV6, Hmac, WebPki, Tls, Pki, Toml ClientTomlConfig}.

(** [killswitch::cleanup_stale] and [route::cleanup_stale_client] *)
Definition start_cleanup (test_mode : bool) (w : W) : W :=
  if negb test_mode then (h_cleanup_stale (ks_cleanup_stale w)).2 else w.

Definition fresh_state (addr : SocketAddr) (now : Z) (m : TransportManager) (w : W) : RunState W :=
  mkRun w m false None false 0 true
    (mkDaemonState false (sa_text addr) (str "connecting") None now stats_new) None.

(** The loop, and the device that is dropped when it is left. *)
Definition run_loop (pa : Params) (tun : TunDevice) (evs : list Event) (st : RunState W) : panics (Outcome * W) :=
  '(p, st) ← client_loop pa evs (Connecting, st);
  Some match p with
       | Exited => (Finished (Ok tt), h_drop_tun tun (host st))
       | Failed => (Finished (Err HostFailed), h_drop_tun tun (host st))
       | _ => (StillRunning p, host st)
       end.

(** [sock]: the path of the status socket. *)
Definition run_client (cli : Setup.Cli) (daemon_mode : bool) (sock : bytes) (env : StartEnv)
    (evs : list Event) (w : W) : panics (Outcome * W) :=
  let load := client_toml_load w in
  r ← client_settings load cli;
  match r with
  | Err e => Some (Finished (Err (SettingsFailed e)), w)
  | Ok s =>
      addr ← parse_socket_addr (set_addr s);
      let toml := default client_toml_default (path ← cli_config cli; load path) in
      let w := start_cleanup (cli_test_mode cli) w in
      if negb (udp_bound env && recv_buffer_ok env && send_buffer_ok env && endpoint_ok env)
      then Some (Finished (Err SocketFailed), w)
      else
        m ← build_manager (build_config s toml);
        match h_open_tun w with
        | (Err e, w) => Some (Finished (Err (DeviceFailed e)), w)
        | (Ok tun, w) =>
            let '(_, w) := start_ipc daemon_mode sock w in
            run_loop (mkLoopParams (dev_name tun) addr (cli_test_mode cli) (cli_quiet cli)) tun evs
              (fresh_state addr (now env) m w)
        end
  end.
End client.

Inductive ClientCommand := Connect | Up | Down | Status.

(** What [main] does with the command: refuse it, stop the daemon, ask for its status, or
    run the client, in the background or not. *)
Inductive Action := Unsupported | StopDaemon | QueryStatus | Run (daemon_mode : bool).

Definition main_action (windows : bool) (command : option ClientCommand) : Action :=
  if windows then
    match command with
    | Some Up | Some Down | Some Status => Unsupported
    | _ => Run false
    end
  else
    match command with
    | Some Down => StopDaemon
    | Some Status => QueryStatus
    | Some Up => Run true
    | _ => Run false
    end.

(** ** The loop of [Client] *)

Section refinement.
Context {W : Type} `{Host W, Shell W, Files W, SocketV6, Hmac, WebPki, Tls, Pki} (pa : Params).
Implicit Types (st : RunState W) (c : ClientState).

Definition loop_cli : Client.Cli := Client.mkCli (pa_test_mode pa) (sa_loopback (pa_server pa)).

(** The variables the two loops share. *)
Definition agrees st c : Prop :=
  Client.routes_configured c = routes_configured st /\
  Client.saved_routes c = is_some_b (saved_routes st) /\
  Client.killswitch_enabled c = killswitch_enabled st /\
  Client.attempt c = attempt st /\
  Client.connected c = Daemon.connected (daemon_state st) /\
  Client.signal_task c = signal_task st.

(** What the commands that follow a successful connection would answer, one after the
    other; a command that has no gateway to work with counts as answered. *)
Definition setup_of (res : ConnectResult) (w : W) : Setup :=
  let cfg := cr_config res in
  let srv := pa_server pa in
  let '(r0, w) := h_configure (pa_tun pa) (Control.client_ip cfg) (Control.server_ip cfg) (Control.mtu cfg) w in
  let '(r1, w) := h_gateway w in
  let '(r2, w) := match r1 with
                  | Ok gw => let '(r, w) := h_setup_routes (sa_ip srv) (Control.server_ip cfg) gw w in (is_ok r, w)
                  | Err _ => (true, w)
                  end in
  let '(r3, w) := h_setup_dns w in
  let '(r4, w) := ks_enable (pa_tun pa) (sa_ip srv) (sa_port srv) w in
  mkSetup (is_ok r0) (is_ok r1) r2 false (is_ok r3) (is_ok r4).

(** The input of [Client] an event stands for in a state: a signal that signal; an attempt
    its outcome, with the answers of the commands that follow it; the end of a tunnel its
    cause; the end of a delay itself. [None]: it does not show there. *)
Definition input_of (e : Event) st : option Input :=
  match e with
  | Signalled s => Some (Client.Signalled s)
  | Probed att =>
      match manager_connect (manager st) att (host st) with
      | Some (Ok res, _) => Some (ConnectOk (setup_of res (host st)))
      | Some (Err _, _) => Some ConnectFailed
      | None => None
      end
  | Updated _ => None
  | Tunnelled dup_ok async_ok evs =>
      match tunnel_exit pa dup_ok async_ok evs st with
      | Some (Supervise.HealthReconnect _) => Some Client.HealthReconnect
      | Some ExitError => Some TunnelLost
      | None => None
      end
  | DelayElapsed => Some Client.DelayElapsed
  end.

(** The inputs a run stands for. *)
Fixpoint inputs_of (evs : list Event) (ps : Phase * RunState W) : list Input :=
  match evs with
  | [] => []
  | e :: evs =>
      option_list (input_of e ps.2) ++
      match client_step pa e ps with Some ps => inputs_of evs ps | None => [] end
  end.

Definition step_opt (i : option Input) (pc : Phase * ClientState) : Phase * ClientState :=
  match i with Some i => Client.client_step loop_cli i pc | None => pc end.

Lemma finish_agrees st c : agrees st c -> agrees (finish st) (cleanup c).
Proof. done. Qed.

Lemma with_host_agrees w st c : agrees (with_host w st) c <-> agrees st c.
Proof. done. Qed.

Lemma on_signal_agrees p s st c p' st' : agrees st c -> on_signal p s st = (p', st') ->
  exists c', Client.on_signal p s c = (p', c') /\ agrees st' c'.
Proof.
  intros Ha. assert (Hs : Client.signal_task c = signal_task st) by apply Ha.
  assert (Ht : agrees (signal_taken st) (mkClient (Client.routes_configured c) (Client.saved_routes c)
    (Client.killswitch_enabled c) (Client.attempt c) (Client.connected c) false (os c))).
  { destruct Ha as (? & ? & ? & ? & ? & ?). by split_and!. }
  unfold on_signal, Client.on_signal. rewrite Hs. destruct p, s, (signal_task st); intros [= <- <-];
    (eexists; split; [reflexivity|]); first [exact Ha|exact Ht|exact (finish_agrees _ _ Ht)].
Qed.

Ltac agree := split_and!; simpl; congruence.

(** After the answer of a command; at the end of a way through the branch. *)
Ltac next := cbn [is_ok negb andb with_host host routes_configured announce with_attempt keep_routes killswitch_on].
Ltac stop := intros [= <- <-]; eexists; split; [reflexivity|agree].

(** The [Ok] branch is [Client.on_connected] on the answers of the commands. *)
Lemma on_connected_agrees res st c r st' : agrees st c -> on_connected pa res st = (r, st') ->
  exists c', Client.on_connected loop_cli (setup_of res (host st)) c = (is_ok r, c') /\ agrees st' c'.
Proof.
  intros Ha. destruct Ha as (H1' & H2' & H3' & H4' & H5' & H6').
  unfold on_connected, install_once, install, mbind, M_bind, modify, lift, setup_of, Client.on_connected, loop_cli.
  cbn [announce with_attempt with_host host routes_configured test_mode server_loopback set_attempt
       Client.routes_configured keep_routes killswitch_on].
  destruct (h_configure _ _ _ _ (host st)) as [r0 w0].
  destruct (h_gateway w0) as [r1 w1] eqn:E1.
  destruct (match r1 with Ok gw => _ | Err _ => _ end) as [b2 w2] eqn:E2.
  destruct (h_setup_dns w2) as [r3 w3] eqn:E3.
  destruct (ks_enable _ _ _ w3) as [r4 w4] eqn:E4.
  cbn [interface_ok gateway_ok routes_ok routes_partial dns_ok killswitch_ok].
  destruct r0 as [[]|e0]; next; [|stop].
  rewrite H1'. destruct (pa_test_mode pa), (routes_configured st) eqn:Er; next; try stop.
  destruct (sa_loopback (pa_server pa)); [stop|].
  rewrite E1. destruct r1 as [gw|e1]; next; [|stop].
  destruct (h_setup_routes _ _ _ w1) as [[saved|e2] w2'] eqn:E2'; injection E2 as <- <-; next; [|stop].
  rewrite E3. destruct r3 as [[]|e3]; next; [|stop].
  rewrite E4. destruct r4 as [[]|e4]; next; [|stop].
  destruct (log_host pa w4) as [r5 w5] eqn:E5. unfold log_host in E5.
  destruct (spawn _ _ _) as [o6 w6]. destruct (spawn _ _ w6) as [o7 w7]. injection E5 as <- <-. stop.
Qed.

Lemma disconnected_agrees n st c : agrees st c ->
  agrees (disconnected n st) (Client.set_attempt n false c).
Proof. intros (? & ? & ? & ? & ? & ?). agree. Qed.

Lemma client_step_agrees e p st c p' st' : agrees st c -> client_step pa e (p, st) = Some (p', st') ->
  exists c', step_opt (input_of e st) (p, c) = (p', c') /\ agrees st' c'.
Proof.
  intros Ha. assert (Hat : Client.attempt c = attempt st) by apply Ha.
  destruct e as [s|att|buf|d a evs|]; cbn [client_step input_of step_opt].
  - intros E. assert (E' : Some (on_signal p s st) = Some (p', st')) by (by destruct p).
    apply (inj Some) in E'.
    destruct (on_signal_agrees _ _ _ _ _ _ Ha E') as (c' & Hc & Ha'). exists c'.
    split; [|done]. destruct p; exact Hc.
  - destruct p; try (intros [= <- <-]; exists c; split; [|done];
      destruct (manager_connect _ _ _) as [[[]]|]; done).
    destruct (manager_connect _ _ _) as [[r m]|]; [|done]. cbn [mbind option_bind].
    destruct r as [res|err].
    + destruct (on_connected pa res (with_manager m st)) as [r st1] eqn:E.
      destruct (on_connected_agrees res (with_manager m st) c r st1 Ha E) as (c1 & Hc & Ha1).
      destruct r as [[]|]; intros [= <- <-]; exists c1; simpl in Hc; simpl; rewrite Hc; done.
    + intros [= <- <-]. exists (Client.set_attempt (wrap32 (attempt st + 1)) false c).
      simpl. rewrite Hat. split; [done|]. by apply (disconnected_agrees _ (with_manager m st)).
  - assert (Hu : forall st1, session_update pa buf st = Some st1 -> agrees st1 c).
    { unfold session_update. intros st1. destruct (tunnel st) as [res|]; [|by intros [= <-]].
      destruct (cr_control_recv res); [|by intros [= <-]].
      destruct (SessionUpdate_decode buf) as [u|]; [|done]. cbn [mbind option_bind].
      intros [= <-]. by destruct u. }
    intros E. exists c. destruct p; try (by injection E as <- <-).
    destruct (session_update pa buf st) as [st1|] eqn:Es; [|done]. injection E as <- <-. split; [done|]. by apply Hu.
  - destruct (tunnel_exit pa d a evs st) as [[|r]|] eqn:Ex; destruct p; intros [= <- <-];
      (eexists; split; [reflexivity|]); try done; rewrite ?Hat; by apply disconnected_agrees.
  - intros E. exists c. destruct p; injection E as <- <-; done.
Qed.

Lemma client_loop_agrees evs : forall p st c p' st', agrees st c -> client_loop pa evs (p, st) = Some (p', st') ->
  exists c', foldl (fun pc i => Client.client_step loop_cli i pc) (p, c) (inputs_of evs (p, st)) = (p', c') /\
    agrees st' c'.
Proof.
  induction evs as [|e evs IH]; intros p st c p' st' Ha; cbn [client_loop inputs_of].
  { intros [= <- <-]. by exists c. }
  destruct (client_step pa e (p, st)) as [[p1 st1]|] eqn:E; [|done]. cbn [mbind option_bind snd]. intros E'.
  destruct (client_step_agrees _ _ _ _ _ _ Ha E) as (c1 & Hs & Ha1).
  destruct (IH _ _ _ _ _ Ha1 E') as (c' & Hf & Ha'). exists c'. split; [|done].
  rewrite foldl_app. destruct (input_of e st) as [i|]; simpl in Hs |- *; [by rewrite Hs|].
  by injection Hs as -> ->.
Qed.

(** Routes that are configured stay in the client's variables. *)
Definition holds_routes (saved : SavedRoutes) st : Prop :=
  saved_routes st = Some saved /\ routes_configured st = true.

Lemma on_connected_holds saved res st r st' : holds_routes saved st -> on_connected pa res st = (r, st') ->
  holds_routes saved st'.
Proof.
  intros [Hs Hr]. unfold on_connected, install_once, mbind, M_bind, modify, lift.
  cbn [announce with_attempt host]. destruct (h_configure _ _ _ _ _) as [[[]|] w1]; [|by intros [= <- <-]].
  cbn [with_host routes_configured announce with_attempt]. rewrite Hr, andb_false_r. by intros [= <- <-].
Qed.

Lemma client_step_holds saved e p st p' st' : holds_routes saved st ->
  client_step pa e (p, st) = Some (p', st') -> holds_routes saved st'.
Proof.
  intros Hh E. destruct e as [s|att|buf|d a evs|]; cbn [client_step] in E.
  - assert (E' : Some (on_signal p s st) = Some (p', st')) by (by destruct p).
    apply (inj Some) in E'. unfold on_signal in E'.
    destruct p, s, (signal_task st); injection E' as <- <-; exact Hh.
  - destruct p; try (by injection E as <- <-).
    destruct (manager_connect _ _ _) as [[r m]|]; [|done]. cbn [mbind option_bind] in E.
    destruct r as [res|]; [|by injection E as <- <-].
    destruct (on_connected pa res (with_manager m st)) as [r st1] eqn:Ec.
    assert (holds_routes saved st1) by (by eapply on_connected_holds; [|exact Ec]).
    by destruct r as [[]|]; injection E as <- <-.
  - destruct p; try (by injection E as <- <-). unfold session_update in E.
    destruct (tunnel st) as [res|]; [|by injection E as <- <-].
    destruct (cr_control_recv res); [|by injection E as <- <-].
    by destruct (SessionUpdate_decode buf) as [[u|]|]; [injection E as <- <-..|].
  - destruct p; try (by injection E as <- <-).
    by destruct (tunnel_exit pa d a evs st) as [[|r]|]; injection E as <- <-.
  - by destruct p; injection E as <- <-.
Qed.

Lemma client_loop_holds saved evs : forall p st p' st', holds_routes saved st ->
  client_loop pa evs (p, st) = Some (p', st') -> holds_routes saved st'.
Proof.
  induction evs as [|e evs IH]; intros p st p' st' Hh; cbn [client_loop]; [by intros [= <- <-]|].
  destruct (client_step pa e (p, st)) as [[p1 st1]|] eqn:E; [|done]. cbn [mbind option_bind].
  intros E'. eapply IH; [|exact E']. by eapply client_step_holds.
Qed.
End refinement.

(** ** What a host promises *)

(** [shape None]: nothing of the client's is in place; [shape (Some saved)]: the tunnel's
    routes, DNS settings and kill-switch are. Configuring the interface, looking for the
    gateway, logging and a new MTU change neither. *)
Class HostOk (W : Type) `{Host W, Shell W} (pa : Params) := {
  shape : option SavedRoutes -> W -> Prop;
  configure_keeps o ip sip mtu w : shape o w -> shape o (h_configure (pa_tun pa) ip sip mtu w).2;
  update_keeps o mtu w : shape o w -> shape o (h_update_mtu (pa_tun pa) mtu w);
  log_keeps o w : shape o w -> shape o (log_host pa w).2;
  gateway_keeps w : shape None w -> shape None (h_gateway w).2;
  installs sip gw w saved w1 w2 w3 : shape None w ->
    h_setup_routes (sa_ip (pa_server pa)) sip gw w = (Ok saved, w1) -> h_setup_dns w1 = (Ok tt, w2) ->
    ks_enable (pa_tun pa) (sa_ip (pa_server pa)) (sa_port (pa_server pa)) w2 = (Ok tt, w3) ->
    shape (Some saved) w3;
  undoes saved w : shape (Some saved) w ->
    shape None (h_cleanup_routes saved (h_cleanup_dns (ks_disable w)).2).2
}.

Section invariant.
Context {W : Type} `{HostOk W, Files W, SocketV6, Hmac, WebPki, Tls, Pki}.
Implicit Types (st : RunState W).

Definition settled st : Prop :=
  shape (saved_routes st) (host st) /\
  routes_configured st = is_some_b (saved_routes st) /\ killswitch_enabled st = is_some_b (saved_routes st).

Definition host_inv (ps : Phase * RunState W) : Prop :=
  let '(p, st) := ps in
  match p with
  | Failed => True
  | Exited => shape None (host st)
  | InTunnel => settled st /\
      (pa_test_mode pa = false -> sa_loopback (pa_server pa) = false -> is_Some (saved_routes st))
  | _ => settled st
  end.

Lemma finish_clean st : settled st -> shape None (host (finish st)).
Proof.
  unfold settled, finish. intros (Hs & _ & ->). cbn [with_host host].
  destruct (saved_routes st) as [saved|]; [by apply undoes|done].
Qed.

Lemma on_signal_inv p s st : host_inv (p, st) -> host_inv (on_signal p s st).
Proof.
  intros Hi. assert (Hf : settled (signal_taken st) -> host_inv (Exited, finish (signal_taken st)))
    by apply finish_clean.
  unfold on_signal. destruct p, s, (signal_task st); try exact Hi; apply Hf; apply Hi || exact Hi.
Qed.

Lemma install_inv sip st st' : settled st -> saved_routes st = None ->
  install pa sip st = (Ok tt, st') -> settled st' /\ is_Some (saved_routes st').
Proof.
  unfold settled. intros (Hs & _ & _) Hn. rewrite Hn in Hs.
  unfold install, mbind, M_bind, modify, lift.
  pose proof (gateway_keeps (host st) Hs) as Hg. destruct (h_gateway (host st)) as [[gw|] w1]; [|done].
  cbn [snd with_host host keep_routes killswitch_on] in *.
  destruct (h_setup_routes _ _ _ w1) as [[saved|] w2] eqn:E2; [|done]. cbn [with_host host].
  destruct (h_setup_dns w2) as [[[]|] w3] eqn:E3; [|done]. cbn [with_host host keep_routes].
  destruct (ks_enable _ _ _ w3) as [[[]|] w4] eqn:E4; [|done]. cbn [with_host host killswitch_on].
  pose proof (log_keeps (Some saved) w4 (installs _ _ _ _ _ _ _ Hg E2 E3 E4)) as Hl.
  destruct (log_host pa w4) as [r w5]. intros [= -> <-]. cbn. eauto.
Qed.

Lemma on_connected_inv res st st' : settled st -> on_connected pa res st = (Ok tt, st') ->
  settled st' /\ (pa_test_mode pa = false -> sa_loopback (pa_server pa) = false -> is_Some (saved_routes st')).
Proof.
  intros Hi. unfold on_connected, mbind, M_bind, modify, lift. cbn [announce with_attempt host].
  pose proof Hi as (Hs & Hr & Hk).
  pose proof (configure_keeps _ (Control.client_ip (cr_config res)) (server_ip (cr_config res))
    (mtu (cr_config res)) _ Hs) as Hc.
  destruct (h_configure _ _ _ _ _) as [[[]|] w1]; [|done]. cbn [snd] in Hc.
  set (st1 := with_host w1 _). assert (Hs1 : settled st1) by done.
  assert (Hr1 : routes_configured st1 = is_some_b (saved_routes st1)) by apply Hs1.
  unfold install_once. destruct (pa_test_mode pa); cbn [negb andb].
  { intros [= <-]. done. }
  destruct (routes_configured st1) eqn:Er; cbn [negb].
  { intros [= <-]. split; [done|]. intros _ _. destruct (saved_routes st1); [by eexists|done]. }
  destruct (sa_loopback (pa_server pa)).
  { intros [= <-]. done. }
  intros E. destruct (install_inv _ _ _ Hs1 ltac:(by destruct (saved_routes st1)) E). done.
Qed.

Lemma client_step_host e ps ps' : host_inv ps -> client_step pa e ps = Some ps' -> host_inv ps'.
Proof.
  destruct ps as [p st]. intros Hi. destruct e as [s|att|buf|d a evs|]; cbn [client_step].
  - intros E. assert (E' : Some (on_signal p s st) = Some ps') by (by destruct p).
    injection E' as <-. by apply on_signal_inv.
  - destruct p; try (by intros [= <-]).
    destruct (manager_connect _ _ _) as [[r m]|]; [|done]. cbn [mbind option_bind].
    destruct r as [res|]; [|by intros [= <-]].
    destruct (on_connected pa res (with_manager m st)) as [[[]|] st1] eqn:E; intros [= <-]; [|done].
    exact (on_connected_inv res (with_manager m st) st1 Hi E).
  - destruct p; try (by intros [= <-]). unfold session_update.
    destruct Hi as [(Hs & Hr & Hk) Ht].
    destruct (tunnel st) as [res|]; [|by intros [= <-]].
    destruct (cr_control_recv res); [|by intros [= <-]].
    destruct (SessionUpdate_decode buf) as [[u|]|]; [|by intros [= <-]|done]. cbn [mbind option_bind].
    intros [= <-]. split; [|done]. split; [by apply update_keeps|done].
  - destruct p; try (by intros [= <-]).
    destruct (tunnel_exit pa d a evs st) as [[|r]|]; intros [= <-]; [apply Hi..|exact Hi].
  - destruct p; intros [= <-]; exact Hi.
Qed.

Lemma client_loop_host evs : forall ps ps', host_inv ps -> client_loop pa evs ps = Some ps' -> host_inv ps'.
Proof.
  induction evs as [|e evs IH]; intros ps ps' Hi; cbn [client_loop]; [by intros [= <-]|].
  destruct (client_step pa e ps) as [ps1|] eqn:E; [|done]. cbn [mbind option_bind].
  apply IH. by eapply client_step_host.
Qed.
End invariant.

(** ** No panic *)

Lemma parse_socket_addr_some `{SocketV6} s : is_socket_addr s = true -> is_Some (parse_socket_addr s).
Proof.
  unfold is_socket_addr, parse_socket_addr, is_socket_v6, v6_text.
  destruct (read_ipv4 s) as [[ip s1]|]; cbn [mbind option_bind]; [|by destruct (parse_v6 s)].
  destruct (expect x3a s1) as [s2|]; cbn [mbind option_bind]; [|by destruct (parse_v6 s)].
  destruct (read_port s2); cbn [mbind option_bind]; [by eexists|by destruct (parse_v6 s)].
Qed.

Lemma client_settings_total `{Ipv6Text} toml cli : exists r, client_settings toml cli = Some r /\
  forall s, r = Ok s -> is_socket_addr (set_addr s) = true.
Proof.
  unfold client_settings. destruct (match cli_config cli with Some path => toml path | None => _ end) as [t|];
    [|by eexists].
  destruct (or_else _ (cs_address _)) as [srv|]; [|by eexists].
  destruct (match cs_domain (cfg_server t) with Some _ => _ | None => _ end) as [cert|]; [|by eexists].
  destruct (or_else _ (cs_psk _)) as [hex|]; [|by eexists].
  destruct (parse_hex_total hex) as (r & Hr & _). unfold parse_psk_hex. rewrite Hr. cbn [mbind option_bind].
  destruct r as [psk|]; [|by eexists]. unfold server_address.
  set (text := if contains _ srv then _ else _).
  destruct (is_socket_addr text) eqn:Ea; [|by eexists]. eexists. split; [done|]. by intros s [= <-].
Qed.

Lemma build_manager_total b : sni_pool (b_camouflage b) <> [] -> is_Some (build_manager b).
Proof.
  intros Hp. unfold build_manager, add_quic_camouflaged, QuicCamouflagedConnector_new, sni_new.
  rewrite (decide_False (P:=sni_pool (b_camouflage b) = [])) by done. cbn [mbind option_bind].
  repeat case_decide; by eexists.
Qed.

(** The draws of the attempts are as the generators make them. *)
Definition event_ok (e : Event) : Prop := match e with Probed att => forall i, drawn (att i) | _ => True end.

Section total.
Context {W : Type} `{Host W, Shell W, Files W, SocketV6, HmacOk, WebPki, Tls, Pki} (pa : Params) (b : TransportBuildConfig).
Hypothesis Hp : provider_ok.
Implicit Types (st : RunState W).

Lemma client_step_total e p st : event_ok e -> Forall (made_for b) (connectors (manager st)) ->
  exists p' st', client_step pa e (p, st) = Some (p', st') /\ Forall (made_for b) (connectors (manager st')).
Proof.
  intros He Hm.
  assert (Hc : forall res st1 r st2, on_connected pa res st1 = (r, st2) -> manager st2 = manager st1).
  { intros res st1 r st2. unfold on_connected, install_once, install, mbind, M_bind, modify, lift.
    destruct (h_configure _ _ _ _ _) as [[[]|] ?]; [|by intros [= <- <-]].
    destruct (_ && _); [|by intros [= <- <-]]. destruct (sa_loopback _); [by intros [= <- <-]|].
    destruct (h_gateway _) as [[?|] ?]; [|by intros [= <- <-]].
    destruct (h_setup_routes _ _ _ _) as [[?|] ?]; [|by intros [= <- <-]].
    destruct (h_setup_dns _) as [[?|] ?]; [|by intros [= <- <-]].
    destruct (ks_enable _ _ _ _) as [[?|] ?]; [|by intros [= <- <-]].
    destruct (log_host pa _) as [? ?]. by intros [= <- <-]. }
  destruct e as [s|att|buf|d a evs|]; cbn [client_step].
  - assert (Hs : exists p' st', on_signal p s st = (p', st') /\ manager st' = manager st).
    { unfold on_signal. destruct p, s, (signal_task st); by eexists _, _. }
    destruct Hs as (p' & st' & Es & Em). exists p', st'. rewrite Em. split; [|done].
    destruct p; exact (f_equal Some Es).
  - destruct p; try (by eexists _, _).
    destruct (probe_outcome b att (host st) Hp He (connectors (manager st)) 0 None Hm) as (r & cs & E & Hcs & _).
    unfold manager_connect. rewrite E. cbn [mbind option_bind].
    destruct r as [res|]; [|by eexists _, _].
    destruct (on_connected pa res (with_manager (mkManager cs) st)) as [r st1] eqn:Ec. apply Hc in Ec.
    destruct r; eexists _, _; (split; [done|]); simpl; by rewrite Ec.
  - destruct p; try (by eexists _, _). unfold session_update.
    destruct (tunnel st) as [res|]; [|by eexists _, _]. destruct (cr_control_recv res); [|by eexists _, _].
    destruct (SessionUpdate_decode_no_panic buf) as [[u|] ->]; by eexists _, _.
  - destruct p; try (by eexists _, _). destruct (tunnel_exit pa d a evs st) as [[|]|]; by eexists _, _.
  - destruct p; by eexists _, _.
Qed.

Lemma client_loop_total evs : Forall event_ok evs -> forall p st, Forall (made_for b) (connectors (manager st)) ->
  is_Some (client_loop pa evs (p, st)).
Proof.
  induction 1 as [|e evs He _ IH]; intros p st Hm; [by eexists|]. cbn [client_loop].
  destruct (client_step_total e p st He Hm) as (p' & st' & -> & Hm'). by apply IH.
Qed.
End total.

(** ** Theorems *)

(** [C25] The client as it is written implements the loop of [Client]: for every sequence of
    events (signals, attempts with whatever peers, updates of the MTU, ends of the tunnel)
    on every operating system, the phase reached and the client's variables are those
    [Client.client_run] reaches on the inputs the events stand for. These are determined by
    what happened: an attempt stands for [ConnectOk] exactly if the manager connected, with
    the answers of the host's commands, and for [ConnectFailed] if it did not; the end of
    a tunnel stands for [HealthReconnect] exactly if the monitor asked for it, and for
    [TunnelLost] on an error. *)
Theorem client_loop_refines {W} `{Host W, Shell W, Files W, SocketV6, Hmac, WebPki, Tls, Pki}
    pa addr t m (w : W) evs p st :
  let start := (Connecting, fresh_state addr t m w) in
  client_loop pa evs start = Some (p, st) ->
  exists c, client_run (loop_cli pa) (inputs_of pa evs start) = (p, c) /\ agrees st c.
Proof. apply client_loop_agrees. by split_and!. Qed.

(** [C38] The client never panics. Whatever the command line, the configuration file, the
    peers it meets and the events of the loop, with a pool of server names that is not
    empty and draws as the generators make them, [run_client] comes to an outcome; an
    error in the settings leaves the machine untouched, and a socket that cannot be opened
    leaves it as the cleanup of stale state did. *)
Theorem run_client_no_panic {W} `{Host W, Shell W, Files W, UnixSockets W, SocketV6, HmacOk, WebPki, Tls, Pki,
    Toml ClientTomlConfig} cli daemon_mode sock env evs (w : W) :
  provider_ok -> Forall event_ok evs ->
  (forall t, t = client_toml_default \/ (exists path, client_toml_load w path = Some t) ->
     sni_pool (cfg_camouflage t) <> []) ->
  exists o w', run_client cli daemon_mode sock env evs w = Some (o, w') /\
    (forall e, o = Finished (Err (SettingsFailed e)) -> w' = w) /\
    (o = Finished (Err SocketFailed) -> w' = start_cleanup (cli_test_mode cli) w).
Proof.
  intros Hp Hevs Hpool. unfold run_client.
  destruct (client_settings_total (client_toml_load w) cli) as (r & -> & Hr). cbn [mbind option_bind].
  destruct r as [s|e]; [|eexists _, _; split; [done|]; by split].
  destruct (parse_socket_addr_some (set_addr s) (Hr s eq_refl)) as [addr ->]. cbn [mbind option_bind].
  destruct (_ && _); [|eexists _, _; split; [done|]; by split]. cbn [negb].
  set (toml := default client_toml_default _).
  assert (Ht : sni_pool (cfg_camouflage toml) <> []).
  { apply Hpool. unfold toml. destruct (cli_config cli) as [path|]; cbn [mbind option_bind]; [|by left].
    destruct (client_toml_load w path) eqn:El; [right; by exists path|by left]. }
  destruct (build_manager_total (build_config s toml) Ht) as [m Em]. rewrite Em. cbn [mbind option_bind].
  destruct (h_open_tun _) as [[tun|e] w1]; [|eexists _, _; split; [done|]; by split].
  destruct (start_ipc daemon_mode sock w1) as [ipc w2]. unfold run_loop.
  destruct (client_loop_total (mkLoopParams (dev_name tun) addr (cli_test_mode cli) (cli_quiet cli))
    (build_config s toml) Hp evs Hevs Connecting (fresh_state addr (now env) m w2) (proj1 (build_made _ _ Em)))
    as [[p st] ->]. cbn [mbind option_bind].
  destruct p; (eexists _, _; split; [done|]; by split).
Qed.

(** ** An example machine *)

(** A Linux machine on which every command works. *)
Record Box := mkBox {
  bx_table : gmap bytes bytes; bx_addrs : list (bytes * bytes * bytes); bx_files : gmap bytes bytes
}.

Definition box_route (args : list bytes) (b : Box) : option Output * Box :=
  match args with
  | [op; dst; via; gw] =>
      if decide (op = str "add") then
        match bx_table b !! dst with
        | Some _ => (done_err, b)
        | None => (done_ok, mkBox (<[dst:=gw]> (bx_table b)) (bx_addrs b) (bx_files b))
        end
      else if decide (bx_table b !! dst = Some gw)
      then (done_ok, mkBox (delete dst (bx_table b)) (bx_addrs b) (bx_files b)) else (done_err, b)
  | [op; dst] =>
      if decide (op = str "del") then (done_ok, mkBox (delete dst (bx_table b)) (bx_addrs b) (bx_files b))
      else (Some (mkOutput true (str "default via 192.168.1.1 dev eth0") []), b)
  | _ => (done_err, b)
  end.

Definition box_addr (args : list bytes) (b : Box) : option Output * Box :=
  match args with
  | [op; ip; pr; peer; dv; dev] =>
      if decide ((dev, ip, peer) ∈ bx_addrs b) then (done_err, b)
      else (done_ok, mkBox (bx_table b) ((dev, ip, peer) :: bx_addrs b) (bx_files b))
  | _ => (done_err, b)
  end.

#[local] Instance box_shell : Shell Box := fun program args b =>
  if decide (program = str "ip") then
    match args with
    | a :: args =>
        if decide (a = str "route") then box_route args b
        else if decide (a = str "addr") then box_addr args b else (done_ok, b)
    | [] => (done_err, b)
    end
  else (done_ok, b).

#[local] Instance box_files : Files Box := {
  read_file p b := bx_files b !! p;
  write_file p d b := (true, mkBox (bx_table b) (bx_addrs b) (<[p:=d]> (bx_files b)));
  remove_file p b := (true, mkBox (bx_table b) (bx_addrs b) (delete p (bx_files b)))
}.

(** Every call succeeds; the device has the name that was asked for. *)
Definition easy_libc {W} : Libc W := {|
  sys_open _ _ w := (3, w); sys_socket _ _ _ w := (4, w); sys_close _ w := w;
  ioctl_ifreq _ _ r w := (0, r, w); ioctl_ctl _ _ _ w := (0, 0, w); sys_connect _ _ w := (0, w);
  sys_getsockopt _ _ _ _ w := (0, [], w); fcntl_getfl _ w := (0, w); fcntl_setfl _ _ w := (0, w);
  sys_read _ _ w := (-1, [], w); sys_readv _ _ w := (-1, [], w); sys_write _ _ w := (-1, w);
  sys_writev _ _ w := (-1, w); last_os_error _ := 11
|}.

Section witnesses.
#[local] Instance box_libc : Libc Box := easy_libc.
#[local] Existing Instance toy_pki.
#[local] Existing Instance toy_tls.
#[local] Existing Instance mg_hmac.
#[local] Existing Instance toy_webpki.
#[local] Instance no_v6_addr : SocketV6 := fun _ => None.

Definition ex_pa : Params :=
  mkLoopParams (str "tun0") (v4_addr (ip4 203 0 113 7) 443) false true.
Definition ex_box : Box :=
  mkBox {[str "default" := str "192.168.1.1"]} []
    {[RESOLV := str "nameserver 192.168.1.1"; str "cert.pem" := [x21; x41; x48]]}.
Definition ex_fresh : RunState Box := fresh_state (pa_server ex_pa) 0 ex_manager ex_box.

(** A first tunnel is lost, and a signal comes while the client waits. *)
Definition ex_evs : list Event := [Probed ex_att; Tunnelled true true [Received; RecvFails]; Signalled SIGTERM].

Definition ex_run : panics (Phase * RunState Box) :=
  client_loop (H:=linux_host) ex_pa ex_evs (Connecting, ex_fresh).

Lemma ex_run_exits : (fst <$> ex_run) = Some Exited.
Proof. vm_compute. reflexivity. Qed.

(** The tunnel came up, got lost, and the signal ended the client. *)
Lemma client_loop_refines_witness : exists c,
  inputs_of (H:=linux_host) ex_pa ex_evs (Connecting, ex_fresh) =
    [ConnectOk (mkSetup true true true false true true); TunnelLost; Client.Signalled SIGTERM] /\
  client_run (loop_cli ex_pa) [ConnectOk (mkSetup true true true false true true); TunnelLost; Client.Signalled SIGTERM]
    = (Exited, c).
Proof.
  pose proof ex_run_exits as Hx. destruct ex_run as [[p st]|] eqn:E; [|discriminate Hx].
  injection Hx as ->.
  destruct (client_loop_refines (H:=linux_host) ex_pa (pa_server ex_pa) 0 ex_manager ex_box ex_evs Exited st E)
    as (c & Hr & _).
  exists c. assert (Hi : inputs_of (H:=linux_host) ex_pa ex_evs (Connecting, ex_fresh) =
    [ConnectOk (mkSetup true true true false true true); TunnelLost; Client.Signalled SIGTERM])
    by (vm_compute; reflexivity).
  split; [exact Hi|]. rewrite <-Hi. exact Hr.
Defined.

#[local] Existing Instance mg_hmac_ok.
#[local] Instance box_sockets : UnixSockets Box := {
  unix_bind _ b := (true, b); Background.set_mode _ _ b := (true, b); listener_nonblocking b := (true, b)
}.
#[local] Instance no_toml : Toml ClientTomlConfig := fun _ => None.

Definition ex_run_cli : Setup.Cli :=
  Setup.mkCli (Some (str "203.0.113.7")) (Some (str "cert.pem")) (Some (to_hex (replicate 32 x05))) None false true.
Definition ex_start : StartEnv := mkStart true true true true 0.

Lemma run_client_no_panic_witness : exists w',
  run_client (H:=linux_host) ex_run_cli true (socket_path false None) ex_start ex_evs ex_box =
    Some (Finished (Ok tt), w').
Proof.
  destruct (run_client_no_panic (H:=linux_host) ex_run_cli true (socket_path false None) ex_start ex_evs ex_box)
    as (o & w' & E & _).
  - split; discriminate.
  - constructor; [|by repeat constructor]. intros i. split; [intros n; simpl; lia|reflexivity].
  - intros t [-> |[path Hl]]; [discriminate|]. revert Hl. unfold client_toml_load.
    by destruct (read_to_string path ex_box).
  - exists w'. assert (Ho : (fst <$> run_client (H:=linux_host) ex_run_cli true (socket_path false None) ex_start
      ex_evs ex_box) = Some (Finished (Ok tt))) by (vm_compute; reflexivity).
    rewrite E in Ho. injection Ho as ->. exact E.
Defined.
End witnesses.
