(* ===== verification/ClientHost.v ===== *)
(** The client on Linux and on macOS: what the commands of [Route], [RoutePorts] and
    [KillSwitch] do together, as the instances of [HostOk], and the theorems on the whole
    client of [ClientRun].

    Classes [LinuxOk] and [MacOk] say which command changes what (on macOS routes and the
    state of pf); [AddrOk] is about the addresses of an interface. *)

From S2P Require Import Prelude Text Datagram IpText Batch Control Stats Auth Transport Server Config Client Route.
From S2P Require Import RoutePorts KillSwitch Device Tunnel Manager Certs Profile Connectors Supervise Setup Daemon Background ClientRun.

(** ** Linux *)

(** Only [ip route add] and [ip route del] change the routes with a gateway, and no command
    changes a file. *)
Class LinuxOk (W : Type) `{RoutesOk W} := {
  ip_addr_table args w : table (spawn (str "ip") (str "addr" :: args) w).2 = table w;
  ip_link_table args w : table (spawn (str "ip") (str "link" :: args) w).2 = table w;
  ip_show_table w : table (spawn (str "ip") [str "route"; str "show"; str "default"] w).2 = table w;
  ifconfig_table dev w : table (spawn (str "ifconfig") [dev] w).2 = table w;
  netstat_table args w : table (spawn (str "netstat") args w).2 = table w;
  spawn_files prog args p w : prog ∈ [str "ip"; str "ifconfig"; str "netstat"] ->
    read_file p (spawn prog args w).2 = read_file p w
}.

Section linux.
Context {W : Type} `{LinuxOk W, !FilesOk W, Libc W} (pa : Params) (w0 : W) (orig : bytes).
#[local] Existing Instance linux_host.
Hypothesis Hutf8 : utf8_valid orig = true.
(** The client runs as root. *)
Hypothesis Hetc : forall p d (w : W), p ∈ [RESOLV; RESOLV_BAK] -> (write_file p d w).1 = true.

Abbreviation srv := (sa_ip (pa_server pa)).

(** As it was in [w0]; or with the three routes and the tunnel's DNS servers. *)
Definition linux_shape (o : option SavedRoutes) (w : W) : Prop :=
  match o with
  | None => table w = table w0 /\ read_file RESOLV w = Some orig
  | Some saved =>
      saved = mkSaved srv (saved_gateway saved) (saved_tunnel_ip saved) /\ no_routes srv (table w0) /\
      table w = table3 srv (saved_gateway saved) (saved_tunnel_ip saved) (table w0) /\
      read_file RESOLV w = Some tunnel_dns /\ read_file RESOLV_BAK w = Some orig
  end.

(** What depends on these three only. *)
Lemma linux_shape_ext o w w' : table w' = table w -> (forall p, read_file p w' = read_file p w) ->
  linux_shape o w -> linux_shape o w'.
Proof. intros Ht Hf. unfold linux_shape. by rewrite Ht, !Hf. Qed.

Lemma run_ip_files args p (w : W) : read_file p (run_cmd (str "ip") args w).2 = read_file p w.
Proof. rewrite run_cmd_snd. apply spawn_files. set_solver. Qed.

Lemma linux_configure dev ip sip mtu o (w : W) : linux_shape o w ->
  linux_shape o (configure_client_interface dev ip sip mtu w).2.
Proof.
  unfold configure_client_interface, mbind, M_bind.
  set (args := [str "addr"; _; _; _; _; _; _]).
  intros Hs. assert (H1' : linux_shape o (run_cmd (str "ip") args w).2).
  { eapply linux_shape_ext; [|intros p; apply run_ip_files|exact Hs]. rewrite run_cmd_snd. apply ip_addr_table. }
  destruct (run_cmd (str "ip") args w) as [[[]|] w1]; [|done].
  eapply linux_shape_ext; [|intros p; apply run_ip_files|exact H1']. rewrite run_cmd_snd. apply ip_link_table.
Qed.

Lemma linux_log o (w : W) : linux_shape o w -> linux_shape o (log_host pa w).2.
Proof.
  unfold log_host. intros Hs.
  pose proof (ifconfig_table (pa_tun pa) w) as T1.
  pose proof (fun p => spawn_files (str "ifconfig") [pa_tun pa] p w ltac:(set_solver)) as F1.
  destruct (spawn (str "ifconfig") [pa_tun pa] w) as [o1 w1]. cbn [snd] in *.
  pose proof (netstat_table [str "-rn"; str "-f"; str "inet"] w1) as T2.
  pose proof (fun p => spawn_files (str "netstat") [str "-rn"; str "-f"; str "inet"] p w1 ltac:(set_solver)) as F2.
  destruct (spawn (str "netstat") _ w1) as [o2 w2]. cbn [snd] in *.
  eapply linux_shape_ext; [exact T2|exact F2|]. by eapply linux_shape_ext; [exact T1|exact F1|].
Qed.

Lemma linux_gateway (w : W) : linux_shape None w -> linux_shape None (get_default_gateway w).2.
Proof.
  intros Hs. unfold get_default_gateway, mbind, M_bind, run_cmd_output.
  set (args := [str "route"; _; _]).
  assert (H1' : linux_shape None (spawn (str "ip") args w).2).
  { eapply linux_shape_ext; [apply ip_show_table|intros p; apply spawn_files; set_solver|exact Hs]. }
  destruct (spawn (str "ip") args w) as [[out|] w1]; [|done]. cbn [snd] in *.
  destruct (success out); cbn [negb]; [|done]. by destruct (omap gateway_of (lines (stdout out))).
Qed.

Lemma setup_routes_files server sip gw p (w : W) :
  read_file p (setup_client_routes server sip gw w).2 = read_file p w.
Proof.
  unfold setup_client_routes, mbind, M_bind.
  pose proof (run_ip_files [str "route"; str "add"; server; str "via"; gw] p w) as F1.
  destruct (run_cmd _ _ w) as [[[]|] w1]; [|done]. cbn [snd] in F1.
  pose proof (run_ip_files [str "route"; str "add"; LOW_HALF; str "via"; show_ipv4 sip] p w1) as F2.
  destruct (run_cmd _ _ w1) as [[[]|] w2]; cbn [snd] in *; [|congruence].
  pose proof (run_ip_files [str "route"; str "add"; HIGH_HALF; str "via"; show_ipv4 sip] p w2) as F3.
  destruct (run_cmd _ _ w2) as [[[]|] w3]; unfold mret, M_ret; cbn [snd] in *; congruence.
Qed.

Lemma setup_dns_table (w : W) : table (setup_client_dns w).2 = table w.
Proof.
  unfold setup_client_dns, write_or_io.
  pose proof (write_table w RESOLV_BAK (default [] (read_to_string RESOLV w))) as T1.
  destruct (write_file RESOLV_BAK _ w) as [ok1 w1]. cbn [snd] in T1.
  pose proof (write_table w1 RESOLV tunnel_dns) as T2.
  destruct (write_file RESOLV tunnel_dns w1) as [ok2 w2]. cbn [snd] in *. congruence.
Qed.

Lemma linux_installs sip gw (w : W) saved w1 w2 : linux_shape None w ->
  setup_client_routes srv sip gw w = (Ok saved, w1) -> setup_client_dns w1 = (Ok tt, w2) ->
  linux_shape (Some saved) w2.
Proof.
  intros [Ht Hr] E1 E2.
  destruct (setup_client_routes_cases _ _ _ _ _ _ E1) as [(Hsv & T & Hn1 & Hn2 & Hn3)|[[? ?] _]]; [|done].
  injection Hsv as ->. pose proof (setup_routes_files srv sip gw RESOLV w) as F1. rewrite E1 in F1.
  pose proof (setup_dns_table w1) as T2. rewrite E2 in T2. cbn [snd] in *. rewrite Ht in *.
  destruct (table3_fresh _ _ _ _ Hn2 Hn3) as (? & ? & ? & ?).
  rewrite Hr in F1. destruct (setup_client_dns_files orig w1 w2 F1 Hutf8 E2) as [Hd Hb].
  split; [done|]. split; [by split_and!|]. split; [by rewrite T2|]. split; [done|]. apply Hb, Hetc. set_solver.
Qed.

Lemma cleanup_routes_files saved p (w : W) : read_file p (cleanup_client_routes saved w).2 = read_file p w.
Proof.
  unfold cleanup_client_routes, mbind, M_bind, ignore. cbn [snd]. by rewrite !run_ip_files.
Qed.

Lemma linux_undoes saved (w : W) : linux_shape (Some saved) w ->
  linux_shape None (cleanup_client_routes saved (cleanup_client_dns w).2).2.
Proof.
  intros (Hsv & Hno & Ht & Hd & Hb). destruct (no_routes_fresh srv (saved_gateway saved) (saved_tunnel_ip saved) _ Hno) as [F2 F3].
  split.
  - rewrite cleanup_client_routes_table, cleanup_client_dns_table, Hsv. cbn [server_real_ip saved_gateway].
    destruct Hno as (Hn & Hl & Hh & Hsl & Hsh). unfold table3 in Ht.
    rewrite Ht, decide_True by (by apply table3_srv). by apply table3_restore.
  - rewrite cleanup_routes_files. apply cleanup_client_dns_files; [done|done|]. apply Hetc. set_solver.
Qed.

Definition linux_ok : HostOk W pa.
Proof.
  refine {| shape := linux_shape |}.
  - intros. by apply linux_configure.
  - intros o mtu w. apply linux_shape_ext; [apply ip_link_table|]. intros p. apply spawn_files. set_solver.
  - apply linux_log.
  - apply linux_gateway.
  - intros sip gw w saved w1 w2 w3 Hs E1 E2 [= <-]. exact (linux_installs _ _ _ _ _ _ Hs E1 E2).
  - apply linux_undoes.
Defined.
End linux.

(** ** macOS *)

(** Only [route add] and [route delete] change the routes, and only [pfctl] the rules. *)
Class MacOk (W : Type) `{MacRoutesOk W, Files W, !PfOk W} := {
  pf_spawn prog args w : prog <> str "pfctl" -> pf (spawn prog args w).2 = pf w;
  pf_scutil script w : pf (scutil script w).2 = pf w;
  pfctl_table args w : mac_table (spawn (str "pfctl") args w).2 = mac_table w;
  mac_netstat_table args w : mac_table (spawn (str "netstat") args w).2 = mac_table w;
  route_get_table args w : mac_table (spawn (str "route") (str "-n" :: args) w).2 = mac_table w;
  write_mac_table p d w : mac_table (write_file p d w).2 = mac_table w;
  remove_mac_table p w : mac_table (remove_file p w).2 = mac_table w
}.

Section macos.
Context {W : Type} `{MacOk W, !FilesOk W, Libc W} (pid : Z) (pa : Params) (w0 : W).
#[local] Instance this_mac : Host W := macos_host pid.
Hypothesis Hno : no_routes (sa_ip (pa_server pa)) (mac_table w0).

(** As in [w0] and without rules; or with the three routes, pf turned on and the rules of
    the kill-switch. Whether the main rule set evaluates the anchor is as in [w0]. *)
Definition mac_shape (o : option SavedRoutes) (w : W) : Prop :=
  match o with
  | None => mac_table w = mac_table w0 /\ anchor w = [] /\ hooked (pf w) = hooked (pf w0)
  | Some saved =>
      saved = mkSaved (sa_ip (pa_server pa)) (saved_gateway saved) (saved_tunnel_ip saved) /\
      mac_table w = table3 (sa_ip (pa_server pa)) (saved_gateway saved) (saved_tunnel_ip saved) (mac_table w0) /\
      anchor w = split_whitespace <$> lines (pf_text (pf_rules (pa_tun pa) (sa_ip (pa_server pa)) [])) /\
      hooked (pf w) = hooked (pf w0) /\ (pf_enables W -> pf_on (pf w) = true)
  end.

Lemma mac_shape_ext o w w' : mac_table w' = mac_table w -> pf w' = pf w -> mac_shape o w -> mac_shape o w'.
Proof. intros Ht Ha. unfold mac_shape, anchor. by rewrite Ht, Ha. Qed.

Lemma mac_spawn o prog args (w : W) : prog = str "ifconfig" \/ prog = str "netstat" ->
  mac_shape o w -> mac_shape o (spawn prog args w).2.
Proof.
  intros Hp. apply mac_shape_ext; [|apply pf_spawn; by destruct Hp as [-> | ->]].
  destruct Hp as [-> | ->]; [apply ifconfig_keeps|apply mac_netstat_table].
Qed.

Lemma mac_log o (w : W) : mac_shape o w -> mac_shape o (log_host pa w).2.
Proof.
  unfold log_host. intros Hs. apply (mac_spawn o (str "ifconfig") [pa_tun pa]) in Hs; [|by left].
  destruct (spawn (str "ifconfig") _ w) as [o1 w1]. cbn [snd] in Hs.
  apply (mac_spawn o (str "netstat") [str "-rn"; str "-f"; str "inet"]) in Hs; [|by right].
  by destruct (spawn (str "netstat") _ w1).
Qed.

Lemma mac_gateway (w : W) : mac_shape None w -> mac_shape None (mac_get_default_gateway w).2.
Proof.
  intros Hs. unfold mac_get_default_gateway, mbind, M_bind, run_cmd_output.
  assert (H1' : mac_shape None (spawn (str "route") [str "-n"; str "get"; str "default"] w).2)
    by (by eapply mac_shape_ext; [apply route_get_table|apply pf_spawn|]).
  destruct (spawn (str "route") _ w) as [[out|] w1]; [|done]. destruct (success out); [|done]. cbn [negb snd] in *.
  destruct (direct_gateway _); [done|].
  apply (mac_spawn None (str "netstat") [str "-rn"; str "-f"; str "inet"]) in H1'; [|by right].
  destruct (spawn (str "netstat") _ w1) as [[out2|] w2]; [|done]. destruct (success out2); [|done]. cbn [negb].
  destruct (omap physical_gateway _) as [|g l]; [|exact H1'].
  destruct (last_value _ _); exact H1'.
Qed.

Lemma pf_run prog args (w : W) : prog <> str "pfctl" -> pf (run_cmd prog args w).2 = pf w.
Proof. intros Hp. rewrite run_cmd_snd. by apply pf_spawn. Qed.

Lemma mac_setup_pf a b c (w : W) : pf (mac_setup_client_routes a b c w).2 = pf w.
Proof.
  unfold mac_setup_client_routes, mbind, M_bind.
  pose proof (pf_run (str "route") [str "add"; str "-host"; a; c] w ltac:(done)) as A1.
  destruct (run_cmd _ _ w) as [[[]|] w1]; [|done].
  pose proof (pf_run (str "route") [str "add"; str "-net"; LOW_HALF; show_ipv4 b] w1 ltac:(done)) as A2.
  destruct (run_cmd _ _ w1) as [[[]|] w2]; cbn [snd] in *; [|congruence].
  pose proof (pf_run (str "route") [str "add"; str "-net"; HIGH_HALF; show_ipv4 b] w2 ltac:(done)) as A3.
  destruct (run_cmd _ _ w2) as [[[]|] w3]; unfold mret, M_ret; cbn [snd] in *; congruence.
Qed.

Lemma mac_dns_table (w : W) : mac_table (mac_setup_client_dns w).2 = mac_table w.
Proof.
  unfold mac_setup_client_dns. pose proof (scutil_keeps setup_script w) as Hk.
  destruct (scutil setup_script w) as [[o|] w1]; [by destruct (success o)|done].
Qed.

Lemma mac_dns_pf (w : W) : pf (mac_setup_client_dns w).2 = pf w.
Proof.
  unfold mac_setup_client_dns. pose proof (pf_scutil setup_script w) as Hk.
  destruct (scutil setup_script w) as [[o|] w1]; [by destruct (success o)|done].
Qed.

Lemma enable_mac_table tun server port (w : W) : mac_table (enable pid tun server port w).2 = mac_table w.
Proof.
  unfold enable, enable_with_extras, mbind, M_bind, write_or_io.
  set (text := pf_text _). pose proof (write_mac_table (pf_path pid) text w) as T1.
  destruct (write_file _ text w) as [[|] w1]; [|done]. cbn [snd] in T1. unfold load_rules.
  pose proof (pfctl_table [str "-a"; ANCHOR; str "-f"; pf_path pid] w1) as T2.
  destruct (spawn (str "pfctl") _ w1) as [[o|] w2]; cbn [snd] in *; [|congruence].
  destruct (success o); cbn [negb snd]; [|congruence]. unfold ignore, remove_quietly. cbn [snd].
  by rewrite remove_mac_table, run_cmd_snd, pfctl_table, T2.
Qed.

Lemma mac_installs sip gw (w : W) saved w1 w2 w3 : mac_shape None w ->
  mac_setup_client_routes (sa_ip (pa_server pa)) sip gw w = (Ok saved, w1) ->
  mac_setup_client_dns w1 = (Ok tt, w2) ->
  enable pid (pa_tun pa) (sa_ip (pa_server pa)) (sa_port (pa_server pa)) w2 = (Ok tt, w3) ->
  mac_shape (Some saved) w3.
Proof.
  intros (Ht & Ha & Hh) E1 E2 E3. pose proof (mac_dns_table w1) as T2. rewrite E2 in T2.
  pose proof (mac_setup_pf (sa_ip (pa_server pa)) sip gw w) as P1. rewrite E1 in P1.
  pose proof (mac_dns_pf w1) as P2. rewrite E2 in P2.
  pose proof (enable_mac_table (pa_tun pa) (sa_ip (pa_server pa)) (sa_port (pa_server pa)) w2) as T3. rewrite E3 in T3.
  pose proof (enable_anchor pid (pa_tun pa) _ (sa_port (pa_server pa)) [] _ _ _ E3) as A3.
  cbn [snd is_ok] in *. destruct A3 as (b & Hb & A3). unfold mac_setup_client_routes in E1. pose proof Hno as Hno'. rewrite <-Ht in Hno'.
  destruct (three_adds mac_table _ _ _ _ _ _ _ _ _ _ (mac_adds _ _ _) (mac_adds _ _ _) (mac_adds _ _ _)
    Hno' E1) as [-> T1].
  split; [done|]. cbn [saved_gateway saved_tunnel_ip]. split; [by rewrite T3, T2, T1, Ht|].
  unfold anchor. rewrite A3. cbn. split; [done|]. rewrite P2, P1. split; [done|].
  intros Hen. by rewrite (Hb Hen), orb_true_r.
Qed.

Lemma mac_cleanup_pf saved (w : W) : pf (mac_cleanup_client_routes saved w).2 = pf w.
Proof. unfold mac_cleanup_client_routes, mbind, M_bind, ignore. cbn [snd]. by rewrite !pf_run. Qed.

Lemma mac_undoes saved (w : W) : mac_shape (Some saved) w ->
  mac_shape None (mac_cleanup_client_routes saved (mac_cleanup_client_dns (disable w)).2).2.
Proof.
  intros (Hsv & Ht & _ & Hh & _). unfold mac_cleanup_client_dns. cbn [snd]. split.
  - rewrite mac_cleanup_table, scutil_keeps. unfold disable, flush_anchor. rewrite pfctl_table, Ht, Hsv.
    cbn [server_real_ip saved_gateway saved_tunnel_ip]. by apply delete_via_table3.
  - unfold anchor. by rewrite mac_cleanup_pf, pf_scutil; unfold disable; rewrite flush_empties.
Qed.

Definition macos_ok : HostOk W pa.
Proof.
  refine {| shape := mac_shape |}.
  - intros o ip sip mtu w Hs. simpl. unfold mac_configure_client_interface. rewrite run_cmd_snd.
    by apply mac_spawn; [left|].
  - intros o mtu w Hs. by apply mac_spawn; [left|].
  - apply mac_log.
  - apply mac_gateway.
  - intros sip gw w saved w1 w2 w3 Hs E1 E2 E3. exact (mac_installs _ _ _ _ _ _ _ Hs E1 E2 E3).
  - apply mac_undoes.
Defined.
End macos.

(** ** Addresses of the interface, on Linux *)

(** [ip addr add] refuses an address the interface has; no other command of the client takes
    an address away. *)
Class AddrOk (W : Type) `{Shell W, Files W} := {
  assigned : bytes -> bytes -> bytes -> W -> Prop;
  addr_added dev ip peer w o w' :
    spawn (str "ip") [str "addr"; str "add"; ip; str "peer"; peer; str "dev"; dev] w = (o, w') ->
    ran o = true -> assigned dev ip peer w';
  addr_exists dev ip peer w : assigned dev ip peer w ->
    ran (spawn (str "ip") [str "addr"; str "add"; ip; str "peer"; peer; str "dev"; dev] w).1 = false;
  addr_stays dev ip peer prog args w :
    (prog = str "ip" /\ take 1 args = [str "route"] \/
     prog = str "ip" /\ take 2 args = [str "addr"; str "add"] \/
     prog = str "ip" /\ take 2 args = [str "link"; str "set"] \/
     prog = str "ifconfig" /\ length args = 1%nat \/ prog = str "netstat") ->
    assigned dev ip peer w -> assigned dev ip peer (spawn prog args w).2;
  addr_write dev ip peer p d w : assigned dev ip peer w -> assigned dev ip peer (write_file p d w).2;
  addr_remove dev ip peer p w : assigned dev ip peer w -> assigned dev ip peer (remove_file p w).2
}.

Section address.
Context {W : Type} `{AddrOk W, Libc W, SocketV6, Hmac, WebPki, Tls, Pki} (pa : Params) (ip peer : bytes).
#[local] Existing Instance linux_host.
Implicit Types (st : RunState W).

Abbreviation has w := (assigned (pa_tun pa) ip peer w).

(** [m] takes no address away. *)
Definition keeps {A} (m : M W A) : Prop := forall w : W, has w -> has (m w).2.

Lemma keeps_bind {A B} (m : M W A) (k : A -> M W B) : keeps m -> (forall a, keeps (k a)) -> keeps (m ≫= k).
Proof.
  intros Hm Hk w Hw. unfold mbind, M_bind. specialize (Hm w Hw).
  destruct (m w) as [[a|] w1]; [by apply Hk|done].
Qed.
Lemma keeps_ret {A} (a : A) : keeps (mret a).
Proof. intros w Hw. exact Hw. Qed.
Lemma keeps_ignore {A} (m : M W A) : keeps m -> keeps (ignore m).
Proof. intros Hm w. apply Hm. Qed.

Definition harmless (args : list bytes) : Prop :=
  take 1 args = [str "route"] \/ take 2 args = [str "addr"; str "add"] \/ take 2 args = [str "link"; str "set"].

Lemma keeps_ip args : harmless args -> keeps (run_cmd (str "ip") args).
Proof. intros Ha w Hw. rewrite run_cmd_snd. apply addr_stays; [|done]. unfold harmless in Ha. naive_solver. Qed.

Ltac keep :=
  repeat (apply keeps_bind; [|intros ?]);
  first [apply keeps_ret | try apply keeps_ignore; apply keeps_ip;
    first [left; reflexivity | right; left; reflexivity | right; right; reflexivity]].

Lemma keeps_configure dev a b mtu : keeps (configure_client_interface dev a b mtu).
Proof. unfold configure_client_interface. keep. Qed.
Lemma keeps_setup_routes a b c : keeps (setup_client_routes a b c).
Proof. unfold setup_client_routes. keep. Qed.
Lemma keeps_cleanup_routes s : keeps (cleanup_client_routes s).
Proof. unfold cleanup_client_routes. keep. Qed.

Lemma keeps_gateway : keeps get_default_gateway.
Proof.
  unfold get_default_gateway. apply keeps_bind.
  - intros w Hw. unfold run_cmd_output.
    pose proof (addr_stays _ _ _ (str "ip") [str "route"; str "show"; str "default"] w ltac:(by left) Hw) as Hs.
    destruct (spawn (str "ip") _ w) as [[o|] w1]; [by destruct (success o)|done].
  - intros out w Hw. by destruct (omap gateway_of (lines out)).
Qed.

Lemma keeps_setup_dns : keeps setup_client_dns.
Proof.
  intros w Hw. unfold setup_client_dns, write_or_io.
  pose proof (addr_write _ _ _ RESOLV_BAK (default [] (read_to_string RESOLV w)) w Hw) as H1'.
  destruct (write_file RESOLV_BAK _ w) as [ok1 w1].
  pose proof (addr_write _ _ _ RESOLV tunnel_dns w1 H1') as H2'. by destruct (write_file RESOLV _ w1).
Qed.
Lemma keeps_cleanup_dns : keeps cleanup_client_dns.
Proof.
  intros w Hw. unfold cleanup_client_dns. destruct (read_to_string RESOLV_BAK w) as [o|]; [|done].
  pose proof (addr_write _ _ _ RESOLV o w Hw) as H1'. destruct (write_file RESOLV o w) as [ok1 w1].
  pose proof (addr_remove _ _ _ RESOLV_BAK w1 H1') as H2'. by destruct (remove_file RESOLV_BAK w1).
Qed.
Lemma keeps_log : keeps (log_host pa).
Proof.
  intros w Hw. unfold log_host.
  pose proof (addr_stays _ _ _ (str "ifconfig") [pa_tun pa] w ltac:(naive_solver) Hw) as H1'.
  destruct (spawn (str "ifconfig") _ w) as [o1 w1].
  pose proof (addr_stays _ _ _ (str "netstat") [str "-rn"; str "-f"; str "inet"] w1 ltac:(naive_solver) H1') as H2'.
  by destruct (spawn (str "netstat") _ w1).
Qed.

(** The same for code on the variables of the loop. *)
Definition keeps_st {A} (m : M (RunState W) A) : Prop := forall st, has (host st) -> has (host (m st).2).

Lemma keeps_st_bind {A B} (m : M (RunState W) A) (k : A -> M (RunState W) B) :
  keeps_st m -> (forall a, keeps_st (k a)) -> keeps_st (m ≫= k).
Proof.
  intros Hm Hk st Hw. unfold mbind, M_bind. specialize (Hm st Hw).
  destruct (m st) as [[a|] st1]; [by apply Hk|done].
Qed.
Lemma keeps_lift {A} (m : M W A) : keeps m -> keeps_st (lift m).
Proof. intros Hm st Hw. unfold lift. specialize (Hm (host st) Hw). by destruct (m (host st)). Qed.
Lemma keeps_modify f : (forall st, host (f st) = host st) -> keeps_st (modify f).
Proof. intros Hf st Hw. simpl. by rewrite Hf. Qed.

Lemma keeps_install_once sip : keeps_st (install_once pa sip).
Proof.
  intros st Hw. unfold install_once. destruct (_ && _); [|done]. destruct (sa_loopback _); [done|].
  revert st Hw. change (keeps_st (install pa sip)). unfold install.
  apply keeps_st_bind; [apply keeps_lift, keeps_gateway|intros gw].
  apply keeps_st_bind; [apply keeps_lift, keeps_setup_routes|intros saved].
  apply keeps_st_bind; [apply keeps_lift, keeps_setup_dns|intros _].
  apply keeps_st_bind; [by apply keeps_modify|intros _].
  apply keeps_st_bind; [apply keeps_lift; intros w Hw; exact Hw|intros _].
  apply keeps_st_bind; [by apply keeps_modify|intros _]. apply keeps_lift, keeps_log.
Qed.
Lemma keeps_on_connected res : keeps_st (on_connected pa res).
Proof.
  unfold on_connected. apply keeps_st_bind; [by apply keeps_modify|intros _].
  apply keeps_st_bind; [apply keeps_lift, keeps_configure|intros _]. apply keeps_install_once.
Qed.

Lemma finish_keeps st : has (host st) -> has (host (finish st)).
Proof.
  intros Hw. unfold finish. cbn [with_host host].
  assert (Hk : has (if killswitch_enabled st then ks_disable (host st) else host st))
    by (by destruct (killswitch_enabled st)).
  destruct (saved_routes st); [|done]. by apply keeps_cleanup_routes, keeps_cleanup_dns.
Qed.

Lemma client_step_keeps e p st p' st' : client_step pa e (p, st) = Some (p', st') ->
  has (host st) -> has (host st').
Proof.
  intros E Hw. destruct e as [s|att|buf|d a evs|]; cbn [client_step] in E.
  - assert (E' : Some (on_signal p s st) = Some (p', st')) by (by destruct p).
    apply (inj Some) in E'. unfold on_signal in E'.
    destruct p, s, (signal_task st); injection E' as <- <-; try exact Hw; by apply finish_keeps.
  - destruct p; try (by injection E as <- <-).
    destruct (manager_connect _ _ _) as [[r m]|]; [|done]. cbn [mbind option_bind] in E.
    destruct r as [res|]; [|by injection E as <- <-].
    pose proof (keeps_on_connected res (with_manager m st) Hw) as Hc.
    by destruct (on_connected pa res _) as [[[]|] st1]; injection E as <- <-.
  - destruct p; try (by injection E as <- <-). unfold session_update in E.
    destruct (tunnel st) as [res|]; [|by injection E as <- <-].
    destruct (cr_control_recv res); [|by injection E as <- <-].
    destruct (SessionUpdate_decode buf) as [[u|]|]; [|by injection E as <- <-|done].
    injection E as <- <-. simpl. apply addr_stays; [|done]. by right; right; left.
  - destruct p; try (by injection E as <- <-).
    by destruct (tunnel_exit pa d a evs st) as [[|r]|]; injection E as <- <-.
  - by destruct p; injection E as <- <-.
Qed.

Lemma client_loop_keeps evs : forall p st p' st', client_loop pa evs (p, st) = Some (p', st') ->
  has (host st) -> has (host st').
Proof.
  induction evs as [|e evs IH]; intros p st p' st'; cbn [client_loop]; [by intros [= <- <-]|].
  destruct (client_step pa e (p, st)) as [[p1 st1]|] eqn:E; [|done]. cbn [mbind option_bind].
  intros E' Hw. eapply IH; [exact E'|]. by eapply client_step_keeps.
Qed.
End address.

(** A connection assigns its address, and cannot assign it twice. *)
Section assign.
Context {W : Type} `{AddrOk W, Libc W, SocketV6, Hmac, WebPki, Tls, Pki} (pa : Params).
#[local] Existing Instance linux_host.
Implicit Types (st : RunState W).

Definition cidr32 (ip : Ipv4Addr) : bytes := show_ipv4 ip ++ str "/32".

Lemma configure_assigned dev ip sip mtu (w : W) r w' : configure_client_interface dev ip sip mtu w = (r, w') ->
  (r = Ok tt -> assigned dev (cidr32 ip) (cidr32 sip) w') /\
  (assigned dev (cidr32 ip) (cidr32 sip) w -> exists e, r = Err e).
Proof.
  unfold configure_client_interface, mbind, M_bind, run_cmd at 1. fold (cidr32 ip) (cidr32 sip).
  pose proof (addr_exists dev (cidr32 ip) (cidr32 sip) w) as Hex.
  set (args := [str "addr"; _; _; _; _; _; _]) in *.
  destruct (spawn (str "ip") args w) as [o w1] eqn:E1. cbn [fst] in Hex.
  destruct o as [o|]; [|intros [= <- <-]; split; [done|eauto]]. cbn [ran] in Hex.
  destruct (success o) eqn:Eo; cbn [negb]; [|intros [= <- <-]; split; [done|eauto]].
  intros E. split; [|by intros ?%Hex]. intros ->.
  assert (Hadd : assigned dev (cidr32 ip) (cidr32 sip) w1) by (by eapply addr_added; [exact E1|]).
  pose proof (addr_stays _ _ _ (str "ip") [str "link"; str "set"; dev; str "mtu"; show_int mtu; str "up"] w1
    ltac:(by right; right; left) Hadd) as Hl.
  rewrite <-run_cmd_snd in Hl. by rewrite E in Hl.
Qed.

Lemma connected_assigned res st st' r : on_connected pa res st = (r, st') ->
  let has := assigned (pa_tun pa) (cidr32 (Control.client_ip (cr_config res))) (cidr32 (server_ip (cr_config res))) in
  (r = Ok tt -> has (host st')) /\
  (has (host st) -> exists e w', r = Err e /\ st' = with_host w' (announce res st) /\
     configure_client_interface (pa_tun pa) (Control.client_ip (cr_config res)) (server_ip (cr_config res))
       (mtu (cr_config res)) (host st) = (Err e, w')).
Proof.
  cbv zeta. unfold on_connected, mbind, M_bind, modify, lift. cbn [h_configure linux_host announce with_attempt host].
  destruct (configure_client_interface _ _ _ _ (host st)) as [r1 w1] eqn:E1.
  destruct (configure_assigned _ _ _ _ _ _ _ E1) as [Hok Hno].
  destruct r1 as [[]|e]; [|intros [= <- <-]; split; [done|]; intros _; eauto].
  intros E. split; [|by intros [? ?]%Hno]. intros _.
  pose proof (keeps_install_once pa (cidr32 (Control.client_ip (cr_config res))) (cidr32 (server_ip (cr_config res)))
    (server_ip (cr_config res)) (with_host w1 (announce res st)) (Hok eq_refl)) as Hk.
  by rewrite E in Hk.
Qed.
End assign.

(** ** Theorems *)

Lemma fresh_settled {W} `{HostOk W} addr t m (w : W) : shape None w -> settled (fresh_state addr t m w).
Proof. done. Qed.

(** What the invariant says of a run. *)
Lemma client_loop_shape {W} `{HostOk W, Files W, SocketV6, Hmac, WebPki, Tls, Pki} addr t m (w : W) evs p st :
  shape None w -> client_loop pa evs (Connecting, fresh_state addr t m w) = Some (p, st) ->
  (p = Exited -> shape None (host st)) /\
  (forall saved, saved_routes st = Some saved -> p <> Exited -> p <> Failed -> shape (Some saved) (host st)) /\
  (p = InTunnel -> pa_test_mode pa = false -> sa_loopback (pa_server pa) = false -> is_Some (saved_routes st)).
Proof.
  intros Hs E. pose proof (client_loop_host evs _ _ (fresh_settled addr t m w Hs : host_inv (Connecting, _)) E) as Hi.
  split; [by intros ->|]. split; [|by intros ->; apply Hi].
  intros saved Hsv Hp1 Hp2. rewrite <-Hsv. destruct p; try done; apply Hi.
Qed.

(** [C14] On Linux the client leaves the machine as it found it. Started as root where
    [/etc/resolv.conf] is UTF-8 text: when the loop is left through a signal, after
    whatever connections, failures and reconnections, the routing table and
    [/etc/resolv.conf] are what they were. Until then, from the first tunnel on (which
    there is whenever a tunnel runs outside test mode to a remote server), every address
    without a more specific route goes into the tunnel, except the server's, and name
    resolution uses the tunnel's servers. *)
Theorem linux_client_restores {W} `{LinuxOk W, !FilesOk W, Libc W, SocketV6, Hmac, WebPki, Tls, Pki}
    pa addr t m (w : W) orig evs p st :
  read_file RESOLV w = Some orig -> utf8_valid orig = true ->
  (forall f d (v : W), f ∈ [RESOLV; RESOLV_BAK] -> (write_file f d v).1 = true) ->
  client_loop (H:=linux_host) pa evs (Connecting, fresh_state addr t m w) = Some (p, st) ->
  (p = Exited -> table (host st) = table w /\ read_file RESOLV (host st) = Some orig) /\
  (forall saved, saved_routes st = Some saved -> p <> Exited -> p <> Failed ->
     full_tunnel (sa_ip (pa_server pa)) (saved_gateway saved) (saved_tunnel_ip saved) (table w) (table (host st)) /\
     read_file RESOLV (host st) = Some tunnel_dns) /\
  (p = InTunnel -> pa_test_mode pa = false -> sa_loopback (pa_server pa) = false -> is_Some (saved_routes st)).
Proof.
  intros Ho Hu Hetc E.
  destruct (client_loop_shape (H1:=linux_ok pa w orig Hu Hetc) addr t m w evs p st (conj eq_refl Ho) E)
    as (Hx & Hs & Ht).
  split; [exact Hx|]. split; [|exact Ht]. intros saved Hsv Hp1 Hp2.
  destruct (Hs saved Hsv Hp1 Hp2) as (_ & _ & T & Hr & _). split; [|done]. rewrite T. apply table3_full.
Qed.

(** [C29] On macOS the client restores the routes, and what its kill-switch is worth while
    it runs. Started where the three destinations have no route and the anchor has no
    rules: when the loop is left through a signal the routing table is what it was and the
    anchor is empty. From the first tunnel until then, through lost tunnels, failed attempts
    and backoffs, every address without a more specific route goes into the tunnel, except
    the server's. If the main rule set of pf evaluates the anchor and [pfctl -E] works,
    then all that time a packet leaves the machine if and only if it goes into the tunnel,
    to the server or over loopback. The program does nothing to have its anchor
    evaluated: if the main rule set does not name it every packet leaves. The names of the
    interface and of the server are single words, and flushing the anchor is taken to work
    (class [PfOk]). *)
Theorem macos_client_restores {W} `{MacOk W, !FilesOk W, Libc W, SocketV6, Hmac, WebPki, Tls, Pki}
    pid pa addr t m (w : W) evs p st :
  no_routes (sa_ip (pa_server pa)) (mac_table w) -> anchor w = [] ->
  word (pa_tun pa) -> word (sa_ip (pa_server pa)) ->
  client_loop (H:=macos_host pid) pa evs (Connecting, fresh_state addr t m w) = Some (p, st) ->
  (p = Exited -> mac_table (host st) = mac_table w /\ anchor (host st) = []) /\
  (forall saved, saved_routes st = Some saved -> p <> Exited -> p <> Failed ->
     full_tunnel (sa_ip (pa_server pa)) (saved_gateway saved) (saved_tunnel_ip saved)
       (mac_table w) (mac_table (host st)) /\
     (hooked (pf w) = true -> pf_enables W -> forall pkt,
        passes (host st) pkt = bool_decide (allowed (pa_tun pa) (sa_ip (pa_server pa)) [] pkt)) /\
     (hooked (pf w) = false -> forall pkt, passes (host st) pkt = true)) /\
  (p = InTunnel -> pa_test_mode pa = false -> sa_loopback (pa_server pa) = false -> is_Some (saved_routes st)).
Proof.
  intros Hno Ha Hwt Hws E.
  destruct (client_loop_shape (H1:=macos_ok pid pa w Hno) addr t m w evs p st (conj eq_refl (conj Ha eq_refl)) E)
    as (Hx & Hs & Ht).
  split; [intros Hp; by destruct (Hx Hp) as (? & ? & _)|]. split; [|exact Ht]. intros saved Hsv Hp1 Hp2.
  destruct (Hs saved Hsv Hp1 Hp2) as (_ & T & A & Hh & Hon). split; [rewrite T; apply table3_full|].
  assert (Hps : forall pkt, passes (host st) pkt = negb (pf_on (pf (host st)) && hooked (pf (host st))) ||
    bool_decide (allowed (pa_tun pa) (sa_ip (pa_server pa)) [] pkt)) by (intros pkt; by apply passes_rules).
  split; [intros Hk Hen pkt|intros Hk pkt]; rewrite Hps, Hh, Hk; [by rewrite (Hon Hen)|by rewrite andb_false_r].
Qed.

(** [C26] On Linux a reconnection that is given the same addresses ends the client and leaves
    the machine configured: the interface still has the address, [ip addr add] refuses it,
    and [run_client] returns the error without its cleanup. After a first tunnel (outside
    test mode, to a remote server) and any events that lead back to a connection attempt,
    an attempt that succeeds with the addresses of the first one leads to [Failed], with
    the tunnel's routes and DNS servers in place. *)
Theorem linux_reconnect_same_address {W} `{LinuxOk W, !FilesOk W, !AddrOk W, Libc W, SocketV6, Hmac, WebPki, Tls, Pki}
    pa addr t m (w : W) orig att m1 res st1 evs st2 att' m2 res' :
  read_file RESOLV w = Some orig -> utf8_valid orig = true ->
  (forall f d (v : W), f ∈ [RESOLV; RESOLV_BAK] -> (write_file f d v).1 = true) ->
  pa_test_mode pa = false -> sa_loopback (pa_server pa) = false ->
  manager_connect m att w = Some (Ok res, m1) ->
  client_step (H:=linux_host) pa (Probed att) (Connecting, fresh_state addr t m w) = Some (InTunnel, st1) ->
  client_loop (H:=linux_host) pa evs (InTunnel, st1) = Some (Connecting, st2) ->
  manager_connect (manager st2) att' (host st2) = Some (Ok res', m2) ->
  Control.client_ip (cr_config res') = Control.client_ip (cr_config res) ->
  server_ip (cr_config res') = server_ip (cr_config res) ->
  exists saved st3, client_step (H:=linux_host) pa (Probed att') (Connecting, st2) = Some (Failed, st3) /\
    read_file RESOLV (host st3) = Some tunnel_dns /\
    table (host st3) = table3 (sa_ip (pa_server pa)) (saved_gateway saved) (saved_tunnel_ip saved) (table w).
Proof.
  intros Ho Hu Hetc Htm Hlb Em E1 E2 Em' Hip Hsip.
  assert (Hhas1 : assigned (pa_tun pa) (cidr32 (Control.client_ip (cr_config res)))
    (cidr32 (server_ip (cr_config res))) (host st1)).
  { cbn [client_step fresh_state manager host] in E1. rewrite Em in E1. cbn [mbind option_bind] in E1.
    destruct (on_connected pa res _) as [[[]|] sx] eqn:Ec; [|done]. injection E1 as <-.
    by apply (connected_assigned pa res _ sx _ Ec). }
  pose proof (client_loop_keeps pa _ _ evs _ _ _ _ E2 Hhas1) as Hhas2.
  assert (Hi1 : host_inv (H1:=linux_ok pa w orig Hu Hetc) (InTunnel, st1)).
  { eapply client_step_host; [|exact E1]. by apply fresh_settled. }
  pose proof (client_loop_host (H1:=linux_ok pa w orig Hu Hetc) evs _ _ Hi1 E2) as [Hs2 _].
  destruct Hi1 as [(_ & Hr1 & _) Hsome]. destruct (Hsome Htm Hlb) as [saved Hsv].
  rewrite Hsv in Hr1. destruct (client_loop_holds pa saved evs _ _ _ _ (conj Hsv Hr1) E2) as [Hsv2 _].
  rewrite Hsv2 in Hs2. cbn [client_step]. rewrite Em'. cbn [mbind option_bind].
  destruct (on_connected pa res' (with_manager m2 st2)) as [r st3] eqn:Ec.
  destruct (connected_assigned pa res' _ _ _ Ec) as [_ Hno]. rewrite Hip, Hsip in Hno.
  destruct (Hno Hhas2) as (e & w' & -> & -> & Ew).
  exists saved, (with_host w' (announce res' (with_manager m2 st2))). split; [done|]. cbn [with_host host].
  pose proof (configure_keeps (HostOk:=linux_ok pa w orig Hu Hetc) (Some saved)
    (Control.client_ip (cr_config res)) (server_ip (cr_config res)) (mtu (cr_config res')) (host st2) Hs2) as Hk.
  cbn [h_configure linux_host] in Hk. cbn [with_manager host] in Ew. rewrite Ew in Hk. cbn [snd] in Hk.
  destruct Hk as (_ & _ & T & Hr & _). done.
Qed.

(** ** Example machines *)

(** The machine of [ClientRun] is as the classes say. *)
#[local] Existing Instance box_shell.
#[local] Existing Instance box_files.

Lemma box_ip_route args b : spawn (str "ip") (str "route" :: args) b = box_route args b.
Proof. unfold spawn, box_shell. by rewrite !decide_True. Qed.
Lemma box_ip_addr args b : spawn (str "ip") (str "addr" :: args) b = box_addr args b.
Proof. unfold spawn, box_shell. by rewrite decide_True, decide_False, decide_True. Qed.

#[local] Instance box_routes : RoutesOk Box.
Proof.
  refine {| table := bx_table |}.
  - intros w dst gw o w' Hn. rewrite box_ip_route. unfold box_route. rewrite decide_True, Hn by done.
    by intros [= <- <-].
  - intros w dst gw g o w' Hn. rewrite box_ip_route. unfold box_route. rewrite decide_True, Hn by done.
    by intros [= <- <-].
  - intros w dst gw. rewrite box_ip_route. unfold box_route. rewrite decide_False by done. by case_decide.
  - intros w dst. rewrite box_ip_route. unfold box_route. by rewrite decide_True.
  - done.
  - done.
Defined.

#[local] Instance box_files_ok : FilesOk Box.
Proof.
  split.
  - intros w p d q w' [= <-]. simpl. case_decide; subst; [by rewrite lookup_insert_eq|by rewrite lookup_insert_ne].
  - done.
  - intros w p q ok w' [= _ <-] Hq. simpl. by rewrite lookup_delete_ne.
Qed.

Lemma box_route_rest args b :
  bx_addrs (box_route args b).2 = bx_addrs b /\ bx_files (box_route args b).2 = bx_files b.
Proof. unfold box_route. repeat (case_decide || case_match); done. Qed.
Lemma box_addr_rest args b : bx_table (box_addr args b).2 = bx_table b /\ bx_files (box_addr args b).2 = bx_files b /\
  (forall x, x ∈ bx_addrs b -> x ∈ bx_addrs (box_addr args b).2).
Proof. unfold box_addr. repeat (case_decide || case_match); simpl; set_solver. Qed.

#[local] Instance box_linux : LinuxOk Box.
Proof.
  split; intros.
  - rewrite box_ip_addr. apply box_addr_rest.
  - unfold spawn, box_shell. by rewrite decide_True, !decide_False.
  - rewrite box_ip_route. unfold box_route. by rewrite decide_False.
  - unfold spawn, box_shell. by rewrite decide_False.
  - unfold spawn, box_shell. by rewrite decide_False.
  - unfold spawn, box_shell. case_decide; [|done]. destruct args as [|a args]; [done|]. simpl.
    case_decide; [by rewrite (proj2 (box_route_rest args w))|].
    case_decide; [|done]. by rewrite (proj1 (proj2 (box_addr_rest args w))).
Qed.

#[local] Instance box_addrs_ok : AddrOk Box.
Proof.
  refine {| assigned dev ip peer b := (dev, ip, peer) ∈ bx_addrs b |}.
  - intros dev ip peer w o w'. rewrite box_ip_addr. unfold box_addr.
    case_decide; intros [= <- <-]; [done|]. intros _. simpl. by left.
  - intros dev ip peer w Hin. rewrite box_ip_addr. unfold box_addr. by rewrite decide_True.
  - intros dev ip peer prog args w _ Hin. unfold spawn, box_shell. case_decide; [|done].
    destruct args as [|a args]; [done|].
    case_decide; [by rewrite (proj1 (box_route_rest args w))|]. case_decide; [|done]. by apply box_addr_rest.
  - done.
  - done.
Defined.

Section witnesses.
#[local] Existing Instance box_libc.
#[local] Existing Instance toy_pki.
#[local] Existing Instance toy_tls.
#[local] Existing Instance mg_hmac.
#[local] Existing Instance toy_webpki.
#[local] Existing Instance no_v6_addr.

Lemma ex_box_resolv : read_file RESOLV ex_box = Some (str "nameserver 192.168.1.1").
Proof. vm_compute. reflexivity. Qed.
Lemma ex_box_utf8 : utf8_valid (str "nameserver 192.168.1.1") = true.
Proof. vm_compute. reflexivity. Qed.

Lemma linux_client_restores_witness : exists st, ex_run = Some (Exited, st) /\
  table (host st) = table ex_box /\ read_file RESOLV (host st) = Some (str "nameserver 192.168.1.1").
Proof.
  pose proof ex_run_exits as Hx. destruct ex_run as [[p st]|] eqn:E; [|discriminate Hx].
  injection Hx as ->. exists st. split; [reflexivity|].
  refine (proj1 (linux_client_restores ex_pa (pa_server ex_pa) 0 ex_manager ex_box _ ex_evs Exited st
    ex_box_resolv ex_box_utf8 (fun _ _ _ _ => eq_refl) E) eq_refl).
Defined.

(** The addresses a connection was given. *)
Definition given (x : result ConnectError ConnectResult * TransportManager) : option (Ipv4Addr * Ipv4Addr) :=
  match x.1 with
  | Ok res => Some (Control.client_ip (cr_config res), server_ip (cr_config res))
  | Err _ => None
  end.
Definition ex_first : panics (result ConnectError ConnectResult * TransportManager) :=
  manager_connect ex_manager ex_att ex_box.
Definition ex_step1 : panics (Phase * RunState Box) :=
  client_step (H:=linux_host) ex_pa (Probed ex_att) (Connecting, ex_fresh).
Definition ex_lost : list Event := [Tunnelled true true [Received; RecvFails]; DelayElapsed].
Definition ex_back (st1 : RunState Box) : panics (Phase * RunState Box) :=
  client_loop (H:=linux_host) ex_pa ex_lost (InTunnel, st1).
Definition ex_again (st2 : RunState Box) : panics (result ConnectError ConnectResult * TransportManager) :=
  manager_connect (manager st2) ex_att (host st2).

Lemma ex_reconnects : exists res m1 st1 st2 res' m2,
  ex_first = Some (Ok res, m1) /\ ex_step1 = Some (InTunnel, st1) /\ ex_back st1 = Some (Connecting, st2) /\
  ex_again st2 = Some (Ok res', m2) /\
  Control.client_ip (cr_config res') = Control.client_ip (cr_config res) /\
  server_ip (cr_config res') = server_ip (cr_config res).
Proof.
  assert (G1 : (given <$> ex_first) = Some (Some (ip4 10 0 1 7, ip4 10 0 1 1))) by (vm_compute; reflexivity).
  assert (G2 : (fst <$> ex_step1) = Some InTunnel) by (vm_compute; reflexivity).
  assert (G3 : (fst <$> (ps ← ex_step1; ex_back ps.2)) = Some Connecting) by (vm_compute; reflexivity).
  assert (G4 : (given <$> (ps ← ex_step1; ps ← ex_back ps.2; ex_again ps.2)) =
    Some (Some (ip4 10 0 1 7, ip4 10 0 1 1))) by (vm_compute; reflexivity).
  destruct ex_first as [[[res|] m1]|]; try discriminate G1.
  destruct ex_step1 as [[p1 st1]|]; [|discriminate G2]. injection G2 as ->. cbn [mbind option_bind snd] in *.
  destruct (ex_back st1) as [[p2 st2]|] eqn:Eb; [|discriminate G3]. injection G3 as ->.
  cbn [mbind option_bind snd] in *.
  destruct (ex_again st2) as [[[res'|] m2]|] eqn:Ea; try discriminate G4.
  exists res, m1, st1, st2, res', m2. injection G1 as G1a G1b. injection G4 as G4a G4b.
  do 4 (split; [done|]). split; congruence.
Qed.

Lemma linux_reconnect_same_address_witness : exists saved st2 st3,
  client_step (H:=linux_host) ex_pa (Probed ex_att) (Connecting, st2) = Some (Failed, st3) /\
  read_file RESOLV (host st3) = Some tunnel_dns /\
  table (host st3) = table3 (sa_ip (pa_server ex_pa)) (saved_gateway saved) (saved_tunnel_ip saved) (table ex_box).
Proof.
  destruct ex_reconnects as (res & m1 & st1 & st2 & res' & m2 & E1 & E2 & E3 & E4 & Hip & Hsip).
  unfold ex_first in E1. unfold ex_step1, ex_fresh in E2. unfold ex_back in E3. unfold ex_again in E4.
  destruct (linux_reconnect_same_address ex_pa (pa_server ex_pa) 0 ex_manager ex_box _ ex_att m1 res st1 ex_lost st2
    ex_att m2 res' ex_box_resolv ex_box_utf8 (fun _ _ _ _ => eq_refl) eq_refl eq_refl E1 E2 E3 E4 Hip Hsip)
    as (saved & st3 & Hw).
  exists saved, st2, st3. exact Hw.
Defined.
End witnesses.

(** A Mac on which every command works. *)
Record MacBox := mkMacBox {
  mb_table : gmap bytes bytes; mb_pf : Pf; mb_files : gmap bytes bytes
}.

Definition mb_route (args : list bytes) (b : MacBox) : option Output * MacBox :=
  match args with
  | [op; kind; dst; gw] =>
      if decide (op = str "add") then (done_ok, mkMacBox (<[dst:=gw]> (mb_table b)) (mb_pf b) (mb_files b))
      else if decide (op = str "delete" /\ mb_table b !! dst = Some gw)
      then (done_ok, mkMacBox (delete dst (mb_table b)) (mb_pf b) (mb_files b)) else (done_err, b)
  | [op; kind; dst] =>
      if decide (op = str "delete") then (done_ok, mkMacBox (delete dst (mb_table b)) (mb_pf b) (mb_files b))
      else (Some (mkOutput true (str "gateway: 192.168.1.1" ++ [NL] ++ str "interface: en0") []), b)
  | _ => (done_err, b)
  end.
Definition mb_pfctl (args : list bytes) (b : MacBox) : option Output * MacBox :=
  match args with
  | [a; n; op; path] =>
      if decide (op = str "-f") then
        match mb_files b !! path with
        | Some t => (done_ok, mkMacBox (mb_table b) (with_anchor (split_whitespace <$> lines t) (mb_pf b)) (mb_files b))
        | None => (done_err, b)
        end
      else (done_ok, mkMacBox (mb_table b) (with_anchor [] (mb_pf b)) (mb_files b))
  | [op] => (done_ok, mkMacBox (mb_table b) (mkPf true (hooked (mb_pf b)) (pf_anchor (mb_pf b))) (mb_files b))
  | _ => (done_ok, b)
  end.
#[local] Instance macbox_shell : Shell MacBox := fun program args b =>
  if decide (program = str "route") then mb_route args b
  else if decide (program = str "pfctl") then mb_pfctl args b else (done_ok, b).
#[local] Instance macbox_scutil : Scutil MacBox := fun _ b => (done_ok, b).
#[local] Instance macbox_files : Files MacBox := {
  read_file p b := mb_files b !! p;
  write_file p d b := (true, mkMacBox (mb_table b) (mb_pf b) (<[p:=d]> (mb_files b)));
  remove_file p b := (true, mkMacBox (mb_table b) (mb_pf b) (delete p (mb_files b)))
}.

Lemma mb_spawn_route args b : spawn (str "route") args b = mb_route args b.
Proof. unfold spawn, macbox_shell. by rewrite decide_True. Qed.
Lemma mb_spawn_pfctl args b : spawn (str "pfctl") args b = mb_pfctl args b.
Proof. unfold spawn, macbox_shell. by rewrite decide_False, decide_True. Qed.
Lemma mb_spawn_other prog args b : prog <> str "route" -> prog <> str "pfctl" -> spawn prog args b = (done_ok, b).
Proof. intros. unfold spawn, macbox_shell. by rewrite !decide_False. Qed.

#[local] Instance macbox_routes : MacRoutesOk MacBox.
Proof.
  refine {| mac_table := mb_table |}.
  - intros kind w dst gw o w' _. rewrite mb_spawn_route. unfold mb_route. rewrite decide_True by done.
    by intros [= <- <-].
  - intros kind w dst gw. rewrite mb_spawn_route. unfold mb_route. rewrite decide_False by done.
    repeat case_decide; naive_solver.
  - intros kind w dst. rewrite mb_spawn_route. unfold mb_route. by rewrite decide_True.
  - intros args w. by rewrite mb_spawn_other.
  - done.
Defined.
#[local] Instance macbox_pf : PfOk MacBox.
Proof.
  refine {| pf := mb_pf; selects := pf_select |}; try done.
  - intros path w o w'. rewrite mb_spawn_pfctl. unfold mb_pfctl. rewrite decide_True by done.
    destruct (mb_files w !! path) as [t|] eqn:E; intros [= <- <-]; simpl; [|done]. by exists t.
  - intros w o w'. rewrite mb_spawn_pfctl. intros [= <- <-]. cbn. by rewrite orb_true_r.
Defined.
#[local] Instance macbox_files_ok : FilesOk MacBox.
Proof.
  split.
  - intros w p d q w' [= <-]. simpl. case_decide; subst; [by rewrite lookup_insert_eq|by rewrite lookup_insert_ne].
  - done.
  - intros w p q ok w' [= _ <-] Hq. simpl. by rewrite lookup_delete_ne.
Qed.
#[local] Instance macbox_ok : MacOk MacBox.
Proof.
  split; intros; try done.
  - destruct (decide (prog = str "route")) as [->|]; [|by rewrite mb_spawn_other].
    rewrite mb_spawn_route. unfold mb_route. repeat (case_decide || case_match); done.
  - rewrite mb_spawn_pfctl. unfold mb_pfctl. repeat (case_decide || case_match); done.
  - rewrite mb_spawn_route. unfold mb_route. destruct args as [|a [|b [|c [|]]]]; try done.
Qed.

Section mac_witness.
#[local] Instance macbox_libc : Libc MacBox := easy_libc.
#[local] Existing Instance toy_pki.
#[local] Existing Instance toy_tls.
#[local] Existing Instance mg_hmac.
#[local] Existing Instance toy_webpki.
#[local] Existing Instance no_v6_addr.

Definition ex_mac_pa : Params := mkLoopParams (str "utun4") (v4_addr (ip4 203 0 113 7) 443) false true.
Definition ex_mac_box : MacBox :=
  mkMacBox {[str "default" := str "192.168.1.1"]} (mkPf false true []) {[str "cert.pem" := [x21; x41; x48]]}.
Definition ex_mac_evs : list Event := [Probed ex_att; Tunnelled true true [RecvFails]].
Definition ex_mac_run : panics (Phase * RunState MacBox) :=
  client_loop (H:=macos_host 77) ex_mac_pa ex_mac_evs
    (Connecting, fresh_state (pa_server ex_mac_pa) 0 ex_manager ex_mac_box).

Lemma ex_mac_waits :
  ((fun x => (x.1, is_some_b (saved_routes x.2))) <$> ex_mac_run) = Some (TunnelBackoff, true).
Proof. vm_compute. reflexivity. Qed.
Lemma ex_mac_free : no_routes (sa_ip (pa_server ex_mac_pa)) (mac_table ex_mac_box).
Proof. vm_compute. repeat split; discriminate. Qed.

Lemma ex_mac_empty : anchor ex_mac_box = [].
Proof. reflexivity. Qed.

Lemma ex_mac_enables : pf_enables MacBox.
Proof. intros b. by rewrite mb_spawn_pfctl. Qed.

(** While it waits for the next attempt, nothing passes to another host. *)
Lemma macos_client_restores_witness : exists st, ex_mac_run = Some (TunnelBackoff, st) /\
  passes (host st) (mkPacket (str "en0") (str "198.51.100.1") 53) = false.
Proof.
  pose proof ex_mac_waits as Hx. destruct ex_mac_run as [[p st]|] eqn:E; [|discriminate Hx].
  injection Hx as -> Hsv. destruct (saved_routes st) as [saved|] eqn:Es; [|discriminate Hsv].
  exists st. split; [reflexivity|].
  destruct (macos_client_restores 77 ex_mac_pa (pa_server ex_mac_pa) 0 ex_manager ex_mac_box ex_mac_evs TunnelBackoff st
    ex_mac_free ex_mac_empty) as (_ & Hs & _);
    [split; [discriminate|repeat constructor]..|exact E|].
  destruct (Hs saved Es) as (_ & Hv & _); [discriminate|discriminate|].
  rewrite (Hv eq_refl ex_mac_enables). vm_compute. reflexivity.
Defined.
End mac_witness.
