(* ===== verification/ServerMain.v ===== *)
(** The whole server ([main] of [server.rs]): configuration file, commands, authentication
    table and certificate, then the socket with its conntrack bypass, the configuration of
    the host, the accept loop with its signals, and the shutdown.

    [serve] is everything that changes the host: it puts [Xdp] and [Startup] together. The
    connections that are accepted are the handlers of [Server]. *)

From S2P Require Import Prelude Text Datagram IpText Auth Users IpPool Demux Server Config Route Device Firewall.
From S2P Require Import Xdp Startup Certs Manager Profile Connectors Setup.

(** [ServerConfig::load] *)
Definition server_config_load {W} `{Files W, Toml ServerConfig, Ipv6Text} (w : W) (path : bytes) : option ServerConfig :=
  content ← read_to_string path w;
  c ← from_toml content;
  if is_ok (validate c) then Some c else None.

Inductive MainError :=
  | AdminFailed (e : AdminError) | AuthFailed (e : StartError) | TlsFailed (e : TlsSetupError)
  | QuicTlsFailed | BadListen (text : bytes) | BindFailed | EndpointFailed
  | StartFailed (e : StartError) | SignalFailed | CleanupFailed (e : RouteError).

(** What the socket, quinn and the signal handlers answer; [xdp]: built for Linux with the
    feature. *)
Record ServeEnv := mkServeEnv {
  xdp : bool; quic_tls_ok : bool; udp_bound : bool; recv_buffer_ok : bool; send_buffer_ok : bool;
  udp_fd : Z; endpoint_ok : bool; reality_cert_ok : bool; sighup_ok : bool
}.

(** ** The accept loop *)

(** Ctrl-C, which cancels; SIGHUP, with what the reload finds; SIGTERM, for which there is no
    handler; a connection; no more connections; the handlers have moved the counter. *)
Inductive MainEvent :=
  | CtrlC
  | Hup (config : option ServerConfig) (store : bytes -> panics (result UserError UserStore))
      (psk : bytes -> panics (result LoadError bytes))
  | Term
  | Incoming
  | EndpointGone
  | Active (n : Z).

Inductive LoopEnd := Serving | Draining | Killed.
#[export] Instance loop_end_eq_dec : EqDecision LoopEnd.
Proof. solve_decision. Defined.

(** [decided]: for each connection, whether it was handed to [handle_incoming]. *)
Record MainState := mkMain { reloadable : Reloadable; active : Z; decided : list bool }.

Definition accept_step (e : MainEvent) (s : MainState) : panics (LoopEnd * MainState) :=
  match e with
  | CtrlC | EndpointGone => Some (Draining, s)
  | Term => Some (Killed, s)
  | Hup config store psk =>
      r ← reload_config config store psk (reloadable s);
      Some (Serving, mkMain r (active s) (decided s))
  | Incoming =>
      let refused := rl_max_connections (reloadable s) <=? active s in
      Some (Serving, mkMain (reloadable s) (active s) (decided s ++ [negb refused]))
  | Active n => Some (Serving, mkMain (reloadable s) n (decided s))
  end.

Fixpoint accept_loop (evs : list MainEvent) (s : MainState) : panics (LoopEnd * MainState) :=
  match evs with
  | [] => Some (Serving, s)
  | e :: evs =>
      '(l, s) ← accept_step e s;
      if decide (l = Serving) then accept_loop evs s else Some (l, s)
  end.

(** ** From the socket to the shutdown *)

(** [Gone]: the process was killed. *)
Inductive Ending := StillServing | Gone | Ended (r : result MainError unit).

Section serve.
Context {W : Type} `{Shell W, Files W, TunDevices W, Setsockopt W, Ipv6Text}.

Definition attach_xdp (env : ServeEnv) (w : W) : W :=
  if xdp env then (tune_socket (udp_fd env) (attach_bpf_filter w).2).2 else w.

Definition open_endpoint (env : ServeEnv) (c : ServerConfig) (w : W) : result MainError unit * W :=
  if negb (quic_tls_ok env) then (Err QuicTlsFailed, w)
  else if negb (is_socket_addr (listen c)) then (Err (BadListen (listen c)), w)
  else if negb (udp_bound env && recv_buffer_ok env && send_buffer_ok env) then (Err BindFailed, w)
  else
    let w := attach_xdp env w in
    (if endpoint_ok env then Ok tt else Err EndpointFailed, w).

(** After the drained endpoint. *)
Definition leave (env : ServeEnv) (c : ServerConfig) (s : Started) (w : W) : Ending * W :=
  let w := if xdp env then cleanup_notrack_iptables w else w in
  let '(r, w) := shutdown_server c (st_tun s) (st_subnet s) w in
  (Ended (match r with Ok _ => Ok tt | Err e => Err (CleanupFailed e) end), w).

Definition serve (fuel : Datatypes.nat) (env : ServeEnv) (c : ServerConfig) (auth_mode : AuthMode)
    (evs : list MainEvent) (w : W) : panics (Ending * W) :=
  match open_endpoint env c w with
  | (Err e, w) => Some (Ended (Err e), w)
  | (Ok _, w) =>
      '(r, w) ← start_server fuel c auth_mode (reality_cert_ok env) w;
      match r with
      | Err e => Some (Ended (Err (StartFailed e)), w)
      | Ok s =>
          if negb (sighup_ok env) then Some (Ended (Err SignalFailed), w)
          else
            '(l, _) ← accept_loop evs
                (mkMain (mkReloadable (cfg_max_connections c) (decoy_page (decoy c)) auth_mode) 0 []);
            Some match l with
                 | Serving => (StillServing, w)
                 | Killed => (Gone, w)
                 | Draining => leave env c s w
                 end
      end
  end.

(** ** [main] *)

Inductive MainOutcome := Printed (lines : list bytes) | Served (e : Ending).

(** [store], [psk]: as in [Startup.initial_auth]; [there]: the configuration file exists. *)
Definition server_main `{Toml ServerConfig, HashIter, Pki, Paths W} (acme : bool)
    (keys_match : bytes -> bytes -> bool) (draw : Z) (fuel : Datatypes.nat)
    (config_path : bytes) (there : bool) (command : option Command) (admin : AdminEnv) (fs : FS)
    (store : bytes -> panics (result UserError UserStore)) (psk : bytes -> panics (result LoadError bytes))
    (env : ServeEnv) (evs : list MainEvent) (w : W) : panics (MainOutcome * FS * W) :=
  match main_config config_path there (server_config_load w config_path) command with
  | Err e => Some (Served (Ended (Err (AdminFailed e))), fs, w)
  | Ok c =>
      match command with
      | Some cmd =>
          '(r, fs) ← run_command c cmd admin fs;
          Some (match r with Ok out => Printed out | Err e => Served (Ended (Err (AdminFailed e))) end, fs, w)
      | None =>
          r ← initial_auth c store psk;
          match r with
          | Err e => Some (Served (Ended (Err (AuthFailed e))), fs, w)
          | Ok auth_mode =>
              '(r, w) ← server_tls acme keys_match draw c w;
              match r with
              | Err e => Some (Served (Ended (Err (TlsFailed e))), fs, w)
              | Ok _ => '(e, w) ← serve fuel env c auth_mode evs w; Some (Served e, fs, w)
              end
          end
      end
  end.
End serve.

(** ** Lemmas *)

(** [setsockopt] changes no rule. *)
Class SockoptOk (W : Type) `{NetfilterOk W, Setsockopt W} :=
  sockopt_rules fd l o v w t c : rules (sys_setsockopt fd l o v w) t c = rules w t c.

(** How an event ends the loop. *)
Definition decisive (e : MainEvent) : option LoopEnd :=
  match e with
  | CtrlC | EndpointGone => Some Draining
  | Term => Some Killed
  | _ => None
  end.
Definition loop_end (evs : list MainEvent) : LoopEnd := default Serving (head (omap decisive evs)).

Lemma accept_loop_end evs : forall s l s', accept_loop evs s = Some (l, s') -> l = loop_end evs.
Proof.
  induction evs as [|e evs IH]; intros s l s'; cbn [accept_loop]; [by intros [= <- _]|].
  unfold loop_end. destruct e; cbn [accept_step mbind option_bind omap decisive list_omap head default];
    try (rewrite decide_False by done; by intros [= <- _]); try (rewrite decide_True by done; apply IH).
  destruct (reload_config _ _ _ _) as [r|]; [|done]. cbn [mbind option_bind].
  rewrite decide_True by done. apply IH.
Qed.

Section lemmas.
Context {W : Type} `{HostFrame W, Ipv6Text}.

(** [m] changes at most the chains [T], whatever its result. *)
Definition frames_st (T : list (bytes * bytes)) {A} (m : St W A) : Prop :=
  forall w r w', m w = Some (r, w') -> forall t c, (t, c) ∉ T -> rules w' t c = rules w t c.

Lemma frames_st_bind T {A B} (m : St W A) (k : A -> St W B) :
  frames_st T m -> (forall a, frames_st T (k a)) -> frames_st T (m ≫= k).
Proof.
  intros Hm Hk w r w'. unfold mbind at 1, St_bind at 1.
  destruct (m w) as [[[a|e] w1]|] eqn:E; cbn [mbind option_bind]; [| |done].
  - intros E' t c Ht. rewrite (Hk a _ _ _ E' t c Ht). by apply (Hm _ _ _ E).
  - intros [= <- <-]. apply (Hm _ _ _ E).
Qed.
Lemma frames_st_ret T {A} (a : A) : frames_st T (mret a).
Proof. by intros w r w' [= <- <-]. Qed.
Lemma frames_st_lift T {A} (m : M W A) : frames T m -> frames_st T (Startup.lift m).
Proof.
  intros Hm w r w'. unfold Startup.lift. intros E t c Ht. specialize (Hm w t c Ht).
  destruct (m w) as [x w1]. by injection E as _ <-.
Qed.
Lemma frames_st_or_err T {A} (o : option A) e : frames_st T (or_err o e).
Proof. intros w r w'. unfold or_err. by intros [= _ <-]. Qed.
Lemma frames_st_unwrap T {A} (o : panics A) : frames_st T (unwrap o).
Proof. intros w r w'. unfold unwrap. destruct o; [|done]. by intros [= _ <-]. Qed.
Lemma frames_st_when T b (m : St W unit) : frames_st T m -> frames_st T (when b m).
Proof. intros Hm. destruct b; [done|apply frames_st_ret]. Qed.
Lemma frames_st_mono T T' {A} (m : St W A) : (forall x, x ∈ T -> x ∈ T') -> frames_st T m -> frames_st T' m.
Proof. intros HT Hm w r w' E t c Ht. apply (Hm _ _ _ E). intros Hin. by apply Ht, HT. Qed.

Lemma start_server_frames fuel c a cert : frames_st (NAT_CHAINS ++ MSS_CHAINS) (start_server fuel c a cert).
Proof.
  unfold start_server, start_reality, start_ws, ipv4_addr, socket_addr.
  apply frames_st_bind; [|intros tun].
  { intros w r w' E t ch _. destruct (tun_keeps (tun_name c) 0 w t ch) as [Hk _]. unfold create_tun in E.
    destruct (tun_create _ w) as [o w1]. by injection E as _ <-. }
  apply frames_st_bind; [|intros _].
  { intros w r w' E t ch _. destruct (tun_keeps tun (cfg_mtu c) w t ch) as [_ Hk]. unfold set_tun_mtu in E.
    destruct (tun_set_mtu _ _ w) as [o w1]. by injection E as _ <-. }
  apply frames_st_bind; [apply frames_st_or_err|intros ip].
  apply frames_st_bind; [apply frames_st_lift, frames_interface|intros _].
  apply frames_st_bind; [apply frames_st_lift, frames_forwarding|intros _].
  apply frames_st_bind; [apply frames_st_unwrap|intros base]. cbv zeta.
  apply frames_st_bind; [|intros _].
  { apply frames_st_when, (frames_st_mono NAT_CHAINS); [set_solver|]. apply frames_st_lift, frames_setup_nat. }
  apply frames_st_bind; [|intros _].
  { apply (frames_st_mono MSS_CHAINS); [set_solver|]. intros w r w' E. unfold clamp_mss in E.
    destruct (setup_mss_clamping fuel tun (cfg_mtu c) w) as [[x w1]|] eqn:Em; [|done]. injection E as _ <-.
    by apply (setup_mss_frames _ _ _ _ _ _ Em). }
  apply frames_st_bind; [apply frames_st_lift, frames_performance|intros _].
  do 3 (apply frames_st_bind; [apply frames_st_or_err|intros ?]).
  apply frames_st_bind; [apply frames_st_when, frames_st_bind; [|intros _]; apply frames_st_or_err|intros _].
  apply frames_st_bind; [apply frames_st_when, frames_st_or_err|intros _]. apply frames_st_ret.
Qed.
End lemmas.

Section xdp.
Context {W : Type} `{SockoptOk W}.

Lemma tune_rules fd (w : W) t c : rules (tune_socket fd w).2 t c = rules w t c.
Proof. unfold tune_socket. cbn [snd]. by rewrite !sockopt_rules. Qed.

(** What the attachment leaves in the two chains, and everywhere else. *)
Lemma attach_spec env (w : W) : xdp env = true ->
  both (fun c spec =>
    others spec (rules (attach_xdp env w) RAW c) = others spec (rules w RAW c) /\
    (copies spec (rules (attach_xdp env w) RAW c) <= S (copies spec (rules w RAW c) - 10))%nat /\
    ((setup_notrack_iptables w).1 = true ->
     copies spec (rules (attach_xdp env w) RAW c) = S (copies spec (rules w RAW c) - 10))) /\
  forall t c, (t, c) <> (RAW, PREROUTING) -> (t, c) <> (RAW, OUTPUT) -> rules (attach_xdp env w) t c = rules w t c.
Proof.
  intros Hx. unfold attach_xdp. rewrite Hx. unfold attach_bpf_filter.
  destruct (setup_notrack_iptables w) as [ok w1] eqn:E. apply setup_spec in E. cbn [fst].
  assert (Hr : forall t c, rules (tune_socket (udp_fd env) (if ok then (Ok true, w1) else (Ok false, w1) : result unit bool * W).2).2 t c
    = rules w1 t c) by (intros; rewrite tune_rules; by destruct ok).
  unfold both in *. rewrite !Hr. destruct E as [[H1' H2'] Hu]. split; [done|].
  intros t c Hp Ho. rewrite Hr. by apply Hu.
Qed.
End xdp.

(** ** Theorems *)

(** The chains of [raw] are neither of NAT nor of clamping. *)
Lemma raw_elsewhere c : (RAW, c) ∉ NAT_CHAINS ++ MSS_CHAINS.
Proof. unfold NAT, FILTER, MANGLE, RAW. set_solver. Qed.
Lemma not_raw (t ch c : bytes) : t <> RAW -> (t, ch) <> (RAW, c).
Proof. congruence. Qed.

Section host.
Context {W : Type} `{HostFrame W, Setsockopt W, !SockoptOk W, Ipv6Text}.

Lemma attach_elsewhere env (w : W) t c : (t, c) <> (RAW, PREROUTING) -> (t, c) <> (RAW, OUTPUT) ->
  rules (attach_xdp env w) t c = rules w t c.
Proof.
  intros Hp Ho. destruct (xdp env) eqn:Hx; [by apply (attach_spec env w Hx)|]. unfold attach_xdp. by rewrite Hx.
Qed.

Lemma serve_started fuel env c a evs (w : W) r w' : serve fuel env c a evs w = Some (Ended r, w') -> r = Ok tt ->
  exists s w1, start_server fuel c a (reality_cert_ok env) (attach_xdp env w) = Some (Ok s, w1) /\
    loop_end evs = Draining /\ leave env c s w1 = (Ended (Ok tt), w').
Proof.
  unfold serve, open_endpoint. intros E ->.
  destruct (quic_tls_ok env); [|done]. destruct (is_socket_addr _); [|done]. destruct (_ && _); [|done].
  cbn [negb] in E. destruct (endpoint_ok env); [|done].
  destruct (start_server _ _ _ _ _) as [[[s|e] w1]|]; cbn [mbind option_bind] in E; [|done..].
  destruct (sighup_ok env); [|done]. cbn [negb] in E.
  destruct (accept_loop evs _) as [[l ms]|] eqn:El; [|done]. cbn [mbind option_bind] in E.
  apply accept_loop_end in El. exists s, w1. split; [done|]. destruct l; [done| |done]. split; [done|]. by injection E.
Qed.
End host.

(** [C12] What a server that is stopped in order leaves in the packet filter. Let [main]
    return without an error, that is after Ctrl-C or the end of the endpoint, while nobody
    else changes rules. Then the two chains of NAT hold exactly those of the rules there
    before the start whose line in the listing does not match: does not contain both the subnet and
    [masquerade], or, in the filter, not [redpill+] or [redpill*], the interface and
    [accept] (without NAT in the configuration these chains are as they were); and the two
    chains of the clamping exactly those whose line does not contain [oifname] or [iifname]
    of the device and [maxseg]. Names are found as substrings, so that a foreign rule for
    110.0.1.0/24 goes with those for 10.0.1.0/24 ([Firewall.lookalike_subnet_flushed]).
    With the conntrack bypass the two chains of the table [raw] hold exactly the rules that
    are not the bypass rules themselves; every other chain is as it was. Taken for granted:
    the listings of NAT and clamping can be read back ([nat_listed], [mss_listed]: one line
    for each rule, with its handle and text), the loops are given more turns than there are
    rules, and [raw] held at most 19 stale copies of each bypass rule, as many as the two
    removals of ten can take away beside the one that is added. *)
Theorem serve_restores_host {W} `{HostFrame W, Setsockopt W, !SockoptOk W, Ipv6Text} fuel env c a evs (w w' : W) dev subnet :
  serve fuel env c a evs w = Some (Ended (Ok tt), w') ->
  (forall s v, start_server fuel c a (reality_cert_ok env) (attach_xdp env w) = Some (Ok s, v) ->
     st_tun s = dev /\ st_subnet s = subnet) ->
  nat_listed subnet (nat_interface (Config.nat c)) w -> mss_listed dev (show_int (mss_of (cfg_mtu c))) w ->
  (length (rules w MANGLE FORWARD) < fuel)%nat -> (length (rules w MANGLE OUTPUT) < fuel)%nat ->
  both (fun ch spec => copies spec (rules w RAW ch) <= 19)%nat ->
  loop_end evs = Draining /\
  (rules w' MANGLE FORWARD, rules w' MANGLE OUTPUT) = other_mss dev w /\
  (rules w' NAT POSTROUTING, rules w' FILTER FORWARD) =
    (if nat_enabled (Config.nat c) then other_rules subnet (nat_interface (Config.nat c)) w
     else (rules w NAT POSTROUTING, rules w FILTER FORWARD)) /\
  both (fun ch spec => rules w' RAW ch = if xdp env then others spec (rules w RAW ch) else rules w RAW ch) /\
  (forall t ch, (t, ch) ∉ NAT_CHAINS ++ MSS_CHAINS -> (t, ch) <> (RAW, PREROUTING) -> (t, ch) <> (RAW, OUTPUT) ->
     rules w' t ch = rules w t ch).
Proof.
  intros E Hname Ln Lm Hf Ho Hc. destruct (serve_started _ _ _ _ _ _ _ _ E eq_refl) as (s & w1 & Es & Hl & Ev).
  split; [done|]. destruct (Hname s w1 Es) as [Hd Hs]. clear Hname E.
  assert (Hat : forall t ch, t <> RAW -> rules (attach_xdp env w) t ch = rules w t ch)
    by (intros; apply attach_elsewhere; by apply not_raw).
  assert (La : nat_listed (st_subnet s) (nat_interface (Config.nat c)) (attach_xdp env w)).
  { rewrite Hs. eapply nat_listed_ext; [|exact Ln]. intros ch. by rewrite !Hat. }
  assert (Ma : mss_listed (st_tun s) (show_int (mss_of (cfg_mtu c))) (attach_xdp env w)).
  { rewrite Hd. eapply mss_listed_ext; [|exact Lm]. intros ch. by rewrite Hat. }
  unfold leave in Ev. set (w2 := if xdp env then cleanup_notrack_iptables w1 else w1) in *.
  assert (Hcl : forall t ch, (t, ch) <> (RAW, PREROUTING) -> (t, ch) <> (RAW, OUTPUT) -> rules w2 t ch = rules w1 t ch).
  { unfold w2. intros t ch. destruct (xdp env); [apply (cleanup_spec w1)|done]. }
  assert (Hcn : same_nat w1 w2) by (intros ch; split; apply Hcl; by apply not_raw).
  assert (Hcm : same_mangle w1 w2) by (intros ch; apply Hcl; by apply not_raw).
  destruct (start_stop_rules fuel c a _ _ w1 s w2 Es La Ma ltac:(by rewrite Hat) ltac:(by rewrite Hat) Hcn Hcm)
    as (_ & Hm & Hn & Hr).
  destruct (shutdown_server c (st_tun s) (st_subnet s) w2) as [r w3]. cbn [snd] in *. injection Ev as _ <-.
  rewrite Hs, Hd in *. split; [|split; [|split]].
  - rewrite Hm. apply other_mss_ext. intros ch. by rewrite Hat.
  - rewrite Hn. destruct (nat_enabled _); [|by rewrite !Hat].
    apply other_rules_ext. intros ch. by rewrite !Hat.
  - destruct (Hr RAW PREROUTING (raw_elsewhere _)) as [P1 P2]. destruct (Hr RAW OUTPUT (raw_elsewhere _)) as [O1 O2].
    unfold both in *. rewrite P1, O1. unfold w2. destruct (xdp env) eqn:Hx.
    + destruct (attach_spec env w Hx) as [[(A1 & A2 & _) (B1 & B2 & _)] _].
      destruct (cleanup_spec w1) as ((C1 & C2) & (D1 & D2) & _). rewrite P2 in C1, C2. rewrite O2 in D1, D2.
      split; [rewrite <-A1, <-C1|rewrite <-B1, <-D1]; symmetry; apply no_copies; lia.
    + rewrite P2, O2. unfold attach_xdp. by rewrite Hx.
  - intros t ch Ht Hp Hout. destruct (Hr t ch Ht) as [R1 R2]. rewrite R1, Hcl, R2 by done. by apply attach_elsewhere.
Qed.

(** The ends without a cleanup, once the socket has been set up. *)
Definition uncleaned (e : Ending) : bool :=
  match e with
  | Gone | StillServing | Ended (Err EndpointFailed) | Ended (Err (StartFailed _)) | Ended (Err SignalFailed) => true
  | _ => false
  end.

Lemma open_endpoint_cases {W} `{Shell W, Setsockopt W, Ipv6Text} env c (w : W) :
  let '(r, w0) := open_endpoint env c w in
  match r with
  | Ok _ => w0 = attach_xdp env w
  | Err e => uncleaned (Ended (Err e)) = false \/ e = EndpointFailed /\ w0 = attach_xdp env w
  end.
Proof.
  unfold open_endpoint. destruct (quic_tls_ok env); [|by left]. destruct (is_socket_addr _); [|by left].
  destruct (_ && _); [|by left]. cbn [negb]. destruct (endpoint_ok env); [done|by right].
Qed.

(** [C32] Only Ctrl-C cleans up. A server that is stopped with SIGTERM while it serves is gone
    at once and leaves the host as its start had left it; and whenever the server ends
    before its loop, because the endpoint, the device, the interface or a listener could
    not be set up, the rules of the conntrack bypass stay: in each of the two chains there
    is one rule that takes port 443 out of connection tracking, beside those there were
    over ten. *)
Theorem only_ctrl_c_cleans_up {W} `{HostFrame W, Setsockopt W, !SockoptOk W, Ipv6Text} fuel env c a evs (w w' : W) e :
  serve fuel env c a evs w = Some (e, w') ->
  (forall s v, (open_endpoint env c w).1 = Ok tt ->
     start_server fuel c a (reality_cert_ok env) (attach_xdp env w) = Some (Ok s, v) ->
     sighup_ok env = true -> loop_end evs = Killed -> e = Gone /\ w' = v) /\
  (uncleaned e = true -> xdp env = true -> (setup_notrack_iptables w).1 = true ->
     both (fun ch spec => copies spec (rules w' RAW ch) = S (copies spec (rules w RAW ch) - 10))%nat).
Proof.
  unfold serve. intros E. pose proof (open_endpoint_cases env c w) as Ho.
  destruct (open_endpoint env c w) as [r0 w0]. cbn [fst] in *.
  assert (Hraw : forall v, (forall ch, rules v RAW ch = rules (attach_xdp env w) RAW ch) ->
    xdp env = true -> (setup_notrack_iptables w).1 = true ->
    both (fun ch spec => copies spec (rules v RAW ch) = S (copies spec (rules w RAW ch) - 10))%nat).
  { intros v Hv Hx Hok. destruct (attach_spec env w Hx) as [[(_ & _ & A) (_ & _ & B)] _]. unfold both.
    rewrite !Hv. auto. }
  destruct r0 as [[]|e0].
  2: { injection E as <- <-. split; [done|]. destruct Ho as [Hu|[-> ->]]; [intros Hu'; congruence|]. intros _.
    by apply Hraw. }
  subst w0. destruct (start_server _ _ _ _ _) as [[r1 w1]|] eqn:Es; [|done]. cbn [mbind option_bind] in E.
  assert (H1' : forall ch, rules w1 RAW ch = rules (attach_xdp env w) RAW ch).
  { intros ch. apply (start_server_frames fuel c a _ _ _ _ Es), raw_elsewhere. }
  destruct r1 as [s|e1]; [|injection E as <- <-; split; [done|intros _; by apply Hraw]].
  destruct (sighup_ok env); [|injection E as <- <-; split; [done|intros _; by apply Hraw]]. cbn [negb] in E.
  destruct (accept_loop evs _) as [[l ms]|] eqn:El; [|done]. cbn [mbind option_bind] in E.
  apply accept_loop_end in El. rewrite <-El. destruct l.
  - injection E as <- <-. split; [done|]. intros _. by apply Hraw.
  - injection E as E. split; [done|]. unfold leave in E.
    destruct (shutdown_server _ _ _ _) as [[x|x] w3]; injection E as <- <-; done.
  - injection E as <- <-. split; [intros s' v _ [= <- <-]; done|]. intros _. by apply Hraw.
Qed.

Section witnesses.
#[local] Existing Instance host_shell.
#[local] Existing Instance host_files.
#[local] Existing Instance host_tun.
#[local] Existing Instance host_netfilter.
#[local] Existing Instance host_frame.
#[local] Existing Instance no_ipv6.
#[local] Instance quiet_sockopt : Setsockopt Netfilter := fun _ _ _ _ w => w.
#[local] Instance quiet_sockopt_ok : SockoptOk Netfilter.
Proof. done. Qed.

Definition ex_serve_env (sighup : bool) : ServeEnv := mkServeEnv true true true true true 5 true true sighup.
Definition ex_day : list MainEvent := [Incoming; Active 1; Hup None (fun _ => None) (fun _ => None); Incoming].
Definition ex_served (evs : list MainEvent) : panics (Ending * Netfilter) :=
  serve 3 (ex_serve_env true) server_config_default ex_start_psk evs ex_host.

Lemma ex_served_ok : (fst <$> ex_served (ex_day ++ [CtrlC])) = Some (Ended (Ok tt)).
Proof. vm_compute. reflexivity. Qed.
Lemma ex_served_killed : (fst <$> ex_served (ex_day ++ [Term])) = Some Gone.
Proof. vm_compute. reflexivity. Qed.

Lemma ex_named : started_as ex_dev ex_subnet
  (start_server 3 server_config_default ex_start_psk true (attach_xdp (ex_serve_env true) ex_host)) = true.
Proof. vm_compute. reflexivity. Qed.

Lemma ex_named_spec s v :
  start_server 3 server_config_default ex_start_psk true (attach_xdp (ex_serve_env true) ex_host) = Some (Ok s, v) ->
  st_tun s = ex_dev /\ st_subnet s = ex_subnet.
Proof.
  intros E. pose proof ex_named as Hn. unfold started_as in Hn. rewrite E in Hn.
  apply andb_true_iff in Hn as [Ht Hs]. by apply bool_decide_eq_true in Ht, Hs.
Qed.

(** A day with a stop by Ctrl-C: of the rules that bypass connection tracking none is left,
    of those for NAT only the one of somebody else. *)
Lemma serve_restores_host_witness : exists w', ex_served (ex_day ++ [CtrlC]) = Some (Ended (Ok tt), w') /\
  rules w' RAW PREROUTING = [] /\ rules w' NAT POSTROUTING = [(4%nat, masquerade (str "192.168.7.0/24") ex_wan)].
Proof.
  pose proof ex_served_ok as Hok. destruct (ex_served (ex_day ++ [CtrlC])) as [[e w']|] eqn:E; [|discriminate Hok].
  injection Hok as ->. exists w'. split; [reflexivity|].
  destruct (serve_restores_host 3 (ex_serve_env true) server_config_default ex_start_psk _ ex_host w' ex_dev ex_subnet E
    ex_named_spec ex_host_nat ex_host_mss) as (_ & _ & Hn & [Hr _] & _).
  - vm_compute. lia.
  - vm_compute. lia.
  - split; vm_compute; lia.
  - split; [rewrite Hr; vm_compute; reflexivity|].
    change (nat_enabled (Config.nat server_config_default)) with true in Hn. cbv iota in Hn.
    apply (f_equal fst) in Hn. cbn [fst] in Hn. rewrite Hn. vm_compute. reflexivity.
Defined.

Lemma ex_xdp_ok : (setup_notrack_iptables ex_host).1 = true.
Proof. vm_compute. reflexivity. Qed.

(** The same day with a SIGTERM. *)
Lemma only_ctrl_c_cleans_up_witness : exists w', ex_served (ex_day ++ [Term]) = Some (Gone, w') /\
  copies notrack_in (rules w' RAW PREROUTING) = 1%nat.
Proof.
  pose proof ex_served_killed as Hok. destruct (ex_served (ex_day ++ [Term])) as [[e w']|] eqn:E; [|discriminate Hok].
  injection Hok as ->. exists w'. split; [reflexivity|].
  destruct (only_ctrl_c_cleans_up 3 (ex_serve_env true) server_config_default ex_start_psk _ ex_host w' Gone E)
    as [_ Hr].
  destruct (Hr eq_refl eq_refl ex_xdp_ok) as [Hp _]. rewrite Hp. vm_compute. reflexivity.
Defined.
End witnesses.
